(* ===== verification/_CoqProject ===== *)
-Q . S2P
Prelude.v
RustStr.v
Json.v
Extern.v
AppError.v
OpsTemplate.v
Domain.v
SiteConfig.v
ConfigCompiler.v
Records.v
Store.v
TokenStore.v
Hub.v
HubAdmin.v
HubNodes.v
HubOps.v
HubReleases.v
HubSites.v
HubDns.v
HubCerts.v
StatusWorker.v
Io.v
Sql.v
DnsProvider.v
Failover.v
Http.v
HubInv.v
TokenLife.v
DnsWorker.v
DnsOrders.v
WorkerEnv.v
NodeAgent.v
AgentHub.v
FailoverTx.v
FailoverPass.v
Acme.v
Workers.v
Postgres.v
PgAgree.v
PgWrites.v
PgReads.v
PgRuns.v
RedisTokens.v
HubStart.v
Deployed.v
PgReleases.v
Interleave.v
TestsService.v
TestsHttp.v
TestsWorkers.v
