(* ===== verification/Prelude.v ===== *)
(** * PingoraMesh: a verification development

    PingoraMesh is a control plane for a fleet of Pingora reverse proxies.  The
    hub (apps/hub-api) keeps nodes, sites, releases, DNS accounts, certificate
    orders and remote operations; it compiles the configuration of a site into
    a release, hands releases and operations to the nodes that poll it, and
    takes their acknowledgements and reports.  The crates under crates/ hold the
    domain types, the configuration compiler, the template renderer of remote
    operations and the request types; workers and the agent on the nodes run
    beside the hub.  This library models the hub (its service and its HTTP
    interface) and those crates on the in-memory repository and token store that
    the code ships, the PostgreSQL repository and the Redis token store with their
    agreement with the in-memory ones, the node agent and its composition with the
    hub, and the DNS, status and failover workers on their databases, with the Let's
    Encrypt client.

    ** Files

    - [Prelude]: [Result] with [let?], comparators and the stable [sort_by],
      [min_by]/[max_by], [find_where], [dedup], machine integers with their
      wrap-around, the hint databases [mesh] and [mesh_rw], tactics.
    - [RustStr]: the [str] methods the code uses, on UTF-8 bytes ([trim],
      [split], [replace], [contains], ASCII case, padding).
    - [Json]: [serde_json::Value] with its accessors; objects are in key order.
    - [Extern]: the parameters: random uuids, the clock, hashing (SHA-256,
      Argon2), date formats, Unicode lower case, the iteration order of hash
      maps.  [ExternLaws] are the documented facts the theorems use; that the clock
      does not run backwards is a class of its own, [SteadyClock], which a few
      theorems assume.  [demo_extern] satisfies both and makes the model executable.
    - [AppError]: apps/hub-api/src/error.rs.
    - [OpsTemplate]: crates/ops-orchestrator; an abstract template language and
      the refinement of [render_command] to simultaneous substitution.
    - [Domain]: crates/domain, crates/application, crates/infrastructure.
    - [SiteConfig]: the JSON configuration of a site: [validate_site_config]
      (service.rs) and the readers of store.rs, and how the two agree.
    - [ConfigCompiler]: crates/config-compiler and the serde form of sites.
    - [Records], [Store]: the records and [MemoryRepository] of
      apps/hub-api/src/store.rs, one function per method on [MemoryState]; the
      repository invariant [repo_ok] over the step relation [repo_step].
    - [TokenStore]: the interface [NodeTokenStore] with its laws [TokenLaws] and
      the instance [MemoryTokenStore] (apps/hub-api/src/token_store.rs).
    - [Hub]: the state [World] of [HubService] and the monad [Hub] of its
      handlers, with state kept on errors; tactics that invert runs
      ([hub_inv]) and prove atomicity ([solve_atomic]); the invariant
      [world_ok].
    - [HubAdmin], [HubNodes], [HubOps], [HubReleases], [HubSites], [HubDns],
      [HubCerts]: the handlers of apps/hub-api/src/service.rs, one definition
      per handler, written against the token interface.
    - [Http]: the route table, the handlers and the console of
      apps/hub-api/src/main.rs and console.rs: extraction of a request's parts,
      session cookies, bearer tokens, error answers.
    - [HubInv]: every handler keeps the service invariant [service_ok]; the
      states a hub reaches by serving requests ([hub_reachable]).
    - [StatusWorker]: apps/status-worker/src/main.rs, a pass over the nodes table.
    - [Io]: the monad of the programs beside the hub (a state and an error) and
      its rules [wp]; the environment [Env] of random uuids and the clock.
    - [Sql]: statements, transactions and unique indexes on a record of tables, and
      the rules [dbt] for programs that use them.
    - [DnsProvider]: crates/dns-provider: the interface, the no-op provider and the
      calls of the Cloudflare provider; [CloudflareLaws] states what the
      documentation of the API promises of records.
    - [DnsWorker], [DnsOrders]: apps/dns-worker: the tables and statements of the
      queue of certificate orders, the interface [CertificateOrderStore] they
      implement, the passes written against it, the mock ACME client; the order
      state machine and what a pass leaves.
    - [NodeAgent]: apps/node-agent/src/main.rs: session, heartbeats, the apply
      pipeline of releases, operations, one turn of the main loop; the hub, the
      disk, processes and probes are parameters.
    - [TokenLife]: a refresh token that was taken off the store never comes back,
      whatever the hub serves afterwards ([hub_later]).
    - [AgentHub]: the agent of [NodeAgent] talking to the hub of [Http] over a
      network that may lose requests and answers.
    - [WorkerEnv]: the environment variables the workers and the agent read and
      the number parsers of their settings.
    - [Failover]: the decisions of apps/failover-worker/src/main.rs: when a
      policy fires, the bindings a failover writes, the DNS change and the
      operations that go with it, on the snapshots the worker reads.
    - [FailoverTx]: the tables, constraints and statements of the failover worker,
      its transaction around those decisions, a pass over the policies, its loop.
    - [FailoverPass]: the outcome of a failover and of a pass as a relation on
      the tables.
    - [Acme]: apps/dns-worker/src/lib.rs, the Let's Encrypt client: signed requests
      and their nonces, orders, challenges, polling, the certificate request; the
      server and the cryptography are parameters.
    - [Workers]: the status worker on the database, the settings of the workers,
      the loop of the DNS worker, apps/release-worker.
    - [Postgres]: [PostgresRepository] of apps/hub-api/src/store.rs on the tables and
      constraints of src/migrations: rows, queries, upserts with their cascades, one
      definition per method, with its statements and transactions.
    - [PgAgree]: what a record becomes when it is stored, and the relation [agree]
      between tables and a state of [Store].
    - [PgWrites], [PgReads]: the methods of the trait [HubRepository] as the types
      [Write] and [Read] with their two implementations; every write keeps the
      relation, every read gives the same answer.
    - [PgRuns]: runs of both repositories side by side ([mirrored]), a concrete
      database, and where the two differ.
    - [RedisTokens]: [RedisTokenStore] of apps/hub-api/src/token_store.rs as commands
      with times to live, and its agreement with [MemoryTokenStore] ([token_run]).
    - [HubStart]: the start of apps/hub-api: configuration from the environment, the
      choice of the stores, the first administrator.
    - [Deployed]: the handlers of node sessions (registration, refresh, authorisation,
      heartbeat, deletion) on PostgreSQL and Redis together.
    - [PgReleases]: the handlers that publish, switch and acknowledge releases, on
      PostgreSQL.
    - [Interleave]: requests about nodes that overlap on the in-memory stores, as
      tasks that give up control after every call (and after every check, which
      only adds schedules); pools and schedules.
    - [TestsService], [TestsHttp], [TestsWorkers]: the tests of the repository, run on
      the model or proved of it.

    ** Correspondence with the code

    A Rust function [f] is a definition [f]; a loop is a [Fixpoint] or a fold on
    the state the loop carries; [?] is [let?] in pure code and [let!] in
    handlers.  Where a handler has the name of a repository method the handler
    is [hub_f] or says what it lists.  Record fields shared by several structs
    carry a prefix.  A handler is a function of the whole state, and returns the
    state it leaves, also when it fails.  [Uuid::new_v4], [OsRng] and
    [Utc::now] read the next position of a stream of [Extern]; drawn uuids do
    not repeat, and the clock may go either way except where [SteadyClock] is
    assumed ([redis_leases_refine], [registered_token_accepted] and a test).
    [HashMap] iteration is an
    arbitrary permutation of the entries, so no theorem depends on its order.
    Integers are [Z]: counters wrap at their width ([wrap_u32], [wrap_u64],
    [wrap_i32]), conversions that can fail are [try_from].  Each handler holds
    the repository locks only inside one repository call; a handler of [Hub] runs
    to its end, and [Interleave] has the requests about nodes call by call.

    ** Theorems

    - Configuration: what [validate_site_config] accepts, that the store reads
      every accepted route and orders it as specified, that routes name existing
      upstreams when names carry no blanks, and that a compiled document reads
      back to the site it was compiled from.
    - Repository: every reachable state satisfies [repo_ok] (exact name indexes,
      release acknowledgements for exactly the targets, statuses equal to the
      aggregate, latest releases that target their node) when templates and providers
      keep their names, the cascade of a node deletion, and first-in-first-out dispatch of approved operations.
    - Sessions and tokens: login, password change, single-use bootstrap tokens,
      rotation on refresh, revocation on deletion, and that failing node
      requests change nothing.
    - Operations: rendering refines simultaneous substitution; an approved
      operation reaches its node with the command promised at creation; results
      change exactly one operation.
    - Releases: publication reaches exactly the bound nodes and cleans up the nodes
      that the site's last release had and its bindings no longer have, a node can download what it is told is its latest release,
      acknowledgements change one slot and the aggregate.
    - Sites: fresh codes, well-formed bindings, and the switch of the primary to the
      node the request names or the next one in line.
    - DNS and certificates: zones are matched label by label, synchronisation
      keeps ids and uniqueness, certificate names have the DNS form, a renewal
      is refused while an earlier order is not finished, and orders can be requeued only from the right states.
    - HTTP: administrators' endpoints without a live session and node endpoints
      without the node's token are refused without an effect; a login's cookie is
      accepted; every state reached by serving requests satisfies the invariant.
    - Node agent: a release is in use only after its package was staged, the apply
      command exited with 0 and the health check passed; the health check
      ends after its limit of probes; with the hub, the loop over operations ends and
      runs no operation twice, a successful synchronisation leaves the two in
      agreement, and an agent whose refresh token was rotated while the answer was
      lost is refused at every later refresh ([rotated_refresh_refused]).
    - DNS worker: a turn only moves orders along their state machine, an issued
      certificate is stored all or nothing with one default binding per site, a
      pass without database errors deals with every order it claimed, an order
      left claimed stays so ([claimed_order_strands]); presenting a challenge and
      cleaning up leaves the records of the zone as they were.
    - Workers: a pass of the status worker gives every node the status its
      silence asks for, counts right and finds nothing to do when repeated; a
      failover leaves one primary, keeps every node and does not fire twice, its
      policy moves on to a standby that remains, and the DNS change that goes
      with it is well formed and stays in an active zone that covers the domain.
      On the database a failover is all or nothing, with exactly the operations its
      policy asks for; after any number of passes a
      site policy names the primary of its site, a pass counts what it did, and the
      status worker's statements refine its pass on rows.
    - ACME: polling ends within its time limit, every signed request carries a nonce
      no other one carried, and a prepared challenge is the first dns-01 challenge of
      the server's authorization and is read back as prepared.
    - Two repositories: after any sequence of calls, with the database failing as it
      likes, PostgreSQL answers what the in-memory repository answers after the calls
      that succeeded, up to the stored form of a record ([mirrored_reads_agree]), where
      an acknowledgement that fails half-way has to be repeated first; a call that fails leaves the tables alone ([pg_writes_refine]) but for the
      acknowledgement of a release ([failed_ack_partial]).  The hypotheses [fits] say
      which calls the schema accepts and both repositories understand alike.
    - Two token stores: Redis answers the lease the in-memory store has until less
      than a second of it is left, and never another one, for every node but those
      whose last issue or revocation stopped half-way ([redis_leases_refine]: a call
      that stops anywhere makes its own node doubtful and spares the others); what such
      a call may leave ([interrupted_revoke_keeps_token],
      [interrupted_issue_drops_tokens]).
    - Node sessions on both stores: a registration, refresh, authorisation, heartbeat
      or deletion that fails leaves the tables alone, a
      bootstrap token registers a node once, the token a registration returns is
      accepted, a deleted node is refused; with a Redis that fails in between its
      refresh token still works ([deleted_node_refreshes]).
    - Releases on PostgreSQL: a publication whose calls fail at any point leaves a
      prefix of its plan, with all the targets of each release, and the site is stored
      last ([create_release_stages]); a switch stores bindings, policies and releases
      in this order and leaves a prefix of these steps ([switch_stages]); a report
      that fails may have stored the acknowledgement ([ack_stages]).
    - Overlapping requests: the calls of a request are its handler
      ([uninterrupted_request]); in every order of the calls of any number of
      requests on the in-memory stores a node has at most one live token of each kind,
      and a request that is answered with success was entitled to it in a state of the
      run ([overlapping_requests_single_tokens]); a bootstrap token, a node code and a
      deletion are not protected against requests that overlap ([Races]), and on Redis
      two refreshes that overlap leave two pairs of tokens ([overlapping_issues]).
    - Tests: the translated tests pass ([service_tests_pass], [http_tests_pass] and the
      lemmas of [TestsWorkers], which hold for all ids and times).
    - Start-up: a service uses the stores its configuration names, and a hub that
      starts in memory is in a state the invariant covers.
    - Divergences the model shows are theorems on concrete states
      ([padded_upstream_name_dangles], [edited_template_strands_operation],
      [blank_domain_strands_switch], [refresh_ignores_expiry],
      [stale_policy_two_primaries],
      [renamed_template_overwritten], [renamed_provider_blocks_name],
      [password_length_counts_bytes], [digest_ignores_config],
      [failed_first_apply_recorded], [failed_command_reported_as_timeout],
      [normalize_record_name_unaligned], [saved_node_reads_back],
      [template_deletion_restricted], [deleted_target_stale_status],
      [interrupted_publication], [interrupted_switch], [bootstrap_token_used_twice],
      [node_code_taken_twice], [deleted_node_returns], [overlapping_issues]).

    ** Fuel and bounds

    Fuel is in [trim_front], [split_whitespace_list] and [pem_lines] (the length of
    the text, each step removes a byte), in [unique_code_loop] (the number of codes
    in use, by the pigeonhole principle; lemma [candidates_not_all_taken]), in
    [sync_pending_operations] (one more than the operations waiting for the node;
    theorem [operations_loop_ends]) and in the polling loops of [Acme]
    ([poll_fuel], the time limit over the interval and two more; theorem
    [polling_ends]).  The endless main loops run over a list of waits.  The bounds in
    hypotheses are machine ones: fewer than [u32_max] site codes so that the
    suffix does not wrap, a release counter below [u64_max], bindings short
    enough that the priorities 100, 200, ... fit an [i32], and in a failover a
    primary whose priority is at least 10 below the largest [i32].

    ** Not modelled

    Opening connections and the listener, log output and signals, the scripts and unit
    files of src/scripts and src/deploy; of the migrations, the schema they end with
    is modelled.  Three tests of the repository are not
    translated: the one that needs a running PostgreSQL and Redis, the one that reads
    the text of a migration, the one of OpenSSL's time format.  Of axum, reqwest,
    sqlx and serde the model keeps what a request, an answer or a row decodes to.
    The handlers of the hub run on the in-memory stores, which never fail; that the
    other stores answer alike is shown call by call and for sequences of calls, and
    only the handlers of node sessions and releases are also run on stores that fail.
    Of the requests that overlap only those about nodes are modelled, on the in-memory
    stores, where a call holds its lock for its whole time; waiting for a lock, two
    PostgreSQL calls that run at the same time and, but for an example, two Redis calls
    that overlap are not.  A statement or a commit that the database answers with an
    error has had no effect; that it was carried out and only its answer was lost is
    not modelled (it is for Redis and for the agent's requests).  The tables of the
    DNS worker leave out the foreign keys, and [CloudflareLaws] lets Cloudflare keep
    names and contents exactly as they were sent.
    [site_certificates] of the two repositories is not compared (in memory only a test
    fills what it reads).  The failover-policy hook of [switch_site_primary] does
    nothing in memory and is left out there.

    ** Plan

    What could come next: the handlers of sites, DNS accounts, certificate orders and
    operations on repositories that fail, as [Deployed] and [PgReleases] have them for
    node sessions and releases, and overlapping requests on them. *)

From stdpp Require Import prelude strings gmap pretty sorting.

(** ** Results

    [Result<A, E>], with [?] written as a binding: [let? x := e in k] returns
    the error of [e] or goes on with its value. *)

Inductive Result (A E : Type) : Type :=
  | Ok (a : A)
  | Err (e : E).
Arguments Ok {A E} a.
Arguments Err {A E} e.

#[export] Instance Result_eq_dec `{EqDecision A, EqDecision E} : EqDecision (Result A E).
Proof. solve_decision. Defined.

Definition result_bind {A B E} (r : Result A E) (k : A → Result B E) : Result B E :=
  match r with Ok a => k a | Err e => Err e end.

(** [Option::ok_or]. *)
Definition ok_or {A E} (o : option A) (e : E) : Result A E :=
  match o with Some a => Ok a | None => Err e end.

(** [Result::map_err]. *)
Definition map_err {A E E'} (f : E → E') (r : Result A E) : Result A E' :=
  match r with Ok a => Ok a | Err e => Err (f e) end.

(** [Result::ok] and [Result::is_ok]. *)
Definition ok {A E} (r : Result A E) : option A :=
  match r with Ok a => Some a | Err _ => None end.
Definition is_ok {A E} (r : Result A E) : bool :=
  match r with Ok _ => true | Err _ => false end.

(** [for x in l { f(x)?; }]. *)
Fixpoint try_for_each {A E} (f : A → Result unit E) (l : list A) : Result unit E :=
  match l with
  | [] => Ok tt
  | x :: l' => result_bind (f x) (λ _, try_for_each f l')
  end.

(** [l.iter().map(f).collect::<Result<Vec<_>, _>>()]. *)
Fixpoint try_map {A B E} (f : A → Result B E) (l : list A) : Result (list B) E :=
  match l with
  | [] => Ok []
  | x :: l' => result_bind (f x) (λ y, result_bind (try_map f l') (λ ys, Ok (y :: ys)))
  end.

Declare Scope mesh_scope.
Delimit Scope mesh_scope with mesh.
Notation "'let?' x := e 'in' k" := (result_bind e (λ x, k))
  (at level 10, x pattern at level 0, e at level 100, k at level 200,
   format "'let?'  x  :=  e  'in' '//' k") : mesh_scope.
Open Scope mesh_scope.

(** ** Comparisons

    The code orders records with [Ord::cmp] chains ([then_with]) and feeds the
    result to [sort_by], [min_by] and [max_by].  [CmpLaws] is what those
    methods ask of a comparator: it is the contract every comparator of the
    program is shown to meet. *)

Class CmpLaws {A} (cmp : A → A → comparison) : Prop := {
  cmp_opp : ∀ x y, cmp y x = CompOpp (cmp x y);
  cmp_le_trans : ∀ x y z, cmp x y ≠ Gt → cmp y z ≠ Gt → cmp x z ≠ Gt;
}.

(** [Ordering::then_with]. *)
Definition then_with (c d : comparison) : comparison :=
  match c with Eq => d | _ => c end.

(** Comparison through a key ([sort_by_key], [min_by_key], [max_by_key]). *)
Definition cmp_on {A B} (f : A → B) (cmp : B → B → comparison) (x y : A) : comparison :=
  cmp (f x) (f y).

Definition cmp_then {A} (c1 c2 : A → A → comparison) (x y : A) : comparison :=
  then_with (c1 x y) (c2 x y).

(** Reversed comparison, [right.cmp(&left)]. *)
Definition cmp_rev {A} (cmp : A → A → comparison) (x y : A) : comparison := cmp y x.

Definition bool_compare (a b : bool) : comparison :=
  match a, b with
  | false, true => Lt
  | true, false => Gt
  | _, _ => Eq
  end.

(** ** Sorting, minima and maxima *)

Section Ordered.
Context {A : Type} (cmp : A → A → comparison).

(** Insertion of an element that precedes, in the input, everything already
    in the list: it goes before the elements that compare equal to it. *)
Fixpoint insert_by (x : A) (l : list A) : list A :=
  match l with
  | [] => [x]
  | y :: l' => match cmp x y with Gt => y :: insert_by x l' | _ => x :: y :: l' end
  end.

(** [slice::sort_by], a stable sort. *)
Fixpoint sort_by (l : list A) : list A :=
  match l with
  | [] => []
  | x :: l' => insert_by x (sort_by l')
  end.

(** [Iterator::min_by]: the first of the minimal elements. *)
Definition min_by (l : list A) : option A :=
  match l with
  | [] => None
  | x :: l' =>
      Some (foldl (λ best y, match cmp best y with Gt => y | _ => best end) x l')
  end.

(** [Iterator::max_by]: the last of the maximal elements. *)
Definition max_by (l : list A) : option A :=
  match l with
  | [] => None
  | x :: l' =>
      Some (foldl (λ best y, match cmp best y with Gt => best | _ => y end) x l')
  end.

Definition sorted_by : list A → Prop := StronglySorted (λ x y, cmp x y ≠ Gt).
End Ordered.

(** [Iterator::filter_map]. *)
Definition filter_map {A B} (f : A → option B) (l : list A) : list B := omap f l.

(** [Option::or_else]. *)
Definition or_else {A} (o o' : option A) : option A :=
  match o with Some _ => o | None => o' end.

(** [Iterator::find]. *)
Definition find_where {A} (P : A → Prop) `{!∀ x, Decision (P x)} (l : list A) : option A :=
  snd <$> list_find P l.

(** [Vec::dedup]: drops an element equal to the one kept just before it. *)
Fixpoint dedup `{EqDecision A} (l : list A) : list A :=
  match l with
  | [] => []
  | x :: l' =>
      match l' with
      | [] => [x]
      | y :: _ => if decide (x = y) then dedup l' else x :: dedup l'
      end
  end.

(** ** Machine integers *)

Definition u8_max : Z := 255.
Definition u16_max : Z := 65535.
Definition u32_max : Z := 4294967295.
Definition u64_max : Z := 18446744073709551615.
Definition i32_max : Z := 2147483647.
Definition i32_min : Z := -2147483648.
Definition i64_max : Z := 9223372036854775807.
Definition i64_min : Z := -9223372036854775808.

(** Wrapping unsigned arithmetic (release profile, and atomics). *)
Definition wrap_u32 (x : Z) : Z := x mod 2 ^ 32.
Definition wrap_u64 (x : Z) : Z := x mod 2 ^ 64.
(** Wrapping signed 32-bit arithmetic. *)
Definition wrap_i32 (x : Z) : Z := (x + 2 ^ 31) mod 2 ^ 32 - 2 ^ 31.

(** [T::try_from(x).ok()] for an integer type with the given bounds. *)
Definition try_from (lo hi x : Z) : option Z :=
  if decide (lo ≤ x ≤ hi)%Z then Some x else None.

(** [Ord::clamp]. *)
Definition clamp (lo hi x : Z) : Z := Z.max lo (Z.min hi x).

(** ** Lemmas on results *)

Lemma result_bind_Ok {A B E} (r : Result A E) (k : A → Result B E) b :
  result_bind r k = Ok b ↔ ∃ a, r = Ok a ∧ k a = Ok b.
Proof. destruct r; naive_solver. Qed.

Lemma result_bind_Err {A B E} (r : Result A E) (k : A → Result B E) e :
  result_bind r k = Err e ↔ r = Err e ∨ ∃ a, r = Ok a ∧ k a = Err e.
Proof. destruct r; naive_solver. Qed.

Lemma ok_or_Ok {A E} (o : option A) (e : E) a : ok_or o e = Ok a ↔ o = Some a.
Proof. destruct o; naive_solver. Qed.

Lemma try_for_each_Ok {A E} (f : A → Result unit E) l :
  try_for_each f l = Ok tt ↔ Forall (λ x, f x = Ok tt) l.
Proof.
  induction l as [|x l IH]; simpl; [done|].
  rewrite Forall_cons, <-IH, result_bind_Ok. split; [by intros ([] & ? & ?)|].
  intros [??]. by exists tt.
Qed.

Lemma try_map_Ok {A B E} (f : A → Result B E) l k :
  try_map f l = Ok k ↔ Forall2 (λ x y, f x = Ok y) l k.
Proof.
  revert k. induction l as [|x l IH]; intros k; simpl.
  { split; [by intros [= <-]|]. by inversion 1. }
  rewrite result_bind_Ok. setoid_rewrite result_bind_Ok. split.
  - intros (y & Hy & ys & Hys & [= <-]). constructor; [done|]. by apply IH.
  - inversion 1; subst. eexists. split; [done|]. eexists. by rewrite IH.
Qed.

(** ** Lemmas on comparators *)

Section CmpLemmas.
Context {A : Type} (cmp : A → A → comparison) `{!CmpLaws cmp}.

Lemma cmp_refl x : cmp x x = Eq.
Proof. pose proof (cmp_opp x x) as H. by destruct (cmp x x). Qed.

Lemma cmp_gt_le x y : cmp x y = Gt → cmp y x ≠ Gt.
Proof. intros H. rewrite (cmp_opp x y), H. done. Qed.

Lemma cmp_total x y : cmp x y ≠ Gt ∨ cmp y x ≠ Gt.
Proof. destruct (cmp x y) eqn:E; auto using cmp_gt_le. Qed.

Lemma cmp_eq_sym x y : cmp x y = Eq → cmp y x = Eq.
Proof. intros H. rewrite (cmp_opp x y), H. done. Qed.

Lemma cmp_eq_trans x y z : cmp x y = Eq → cmp y z = Eq → cmp x z = Eq.
Proof.
  intros H1 H2.
  assert (cmp x z ≠ Gt) by (apply (cmp_le_trans x y z); congruence).
  assert (cmp z x ≠ Gt).
  { apply (cmp_le_trans z y x); rewrite cmp_eq_sym; done. }
  rewrite (cmp_opp x z) in *. by destruct (cmp x z).
Qed.

(** Comparing [Eq] is a congruence for the comparator. *)
Lemma cmp_eq_l x y z : cmp x y = Eq → cmp x z = cmp y z.
Proof.
  intros Heq. pose proof (cmp_eq_sym _ _ Heq) as Heq'.
  assert (H1 : cmp x z ≠ Gt ↔ cmp y z ≠ Gt).
  { split; intros; eapply cmp_le_trans; try done; congruence. }
  assert (H2 : cmp z x ≠ Gt ↔ cmp z y ≠ Gt).
  { split; intros; eapply cmp_le_trans; try done; congruence. }
  rewrite (cmp_opp (cmp:=cmp) x z), (cmp_opp (cmp:=cmp) y z) in H2.
  destruct (cmp x z), (cmp y z); simpl in *; intuition congruence.
Qed.
End CmpLemmas.

#[export] Instance cmp_laws_Z : CmpLaws Z.compare.
Proof.
  split; [intros; apply Z.compare_antisym|].
  intros x y z. change (x ≤ y → y ≤ z → x ≤ z)%Z. lia.
Qed.

#[export] Instance cmp_laws_nat : CmpLaws Nat.compare.
Proof.
  split; [intros; apply Nat.compare_antisym|].
  intros x y z. rewrite !Nat.compare_le_iff. lia.
Qed.

#[export] Instance cmp_laws_bool : CmpLaws bool_compare.
Proof. split; [by intros [] []|by intros [] [] []]. Qed.

Lemma string_compare_le s t : String.compare s t ≠ Gt ↔ String.le s t.
Proof.
  unfold String.le, String.leb. rewrite Is_true_true.
  destruct (String.compare s t); naive_solver.
Qed.

#[export] Instance cmp_laws_string : CmpLaws String.compare.
Proof.
  split; [intros; apply String.compare_antisym|].
  intros x y z. rewrite !string_compare_le. apply (transitivity (R:=String.le)).
Qed.

#[export] Instance cmp_laws_on {A B} (f : A → B) cmp :
  CmpLaws cmp → CmpLaws (cmp_on f cmp).
Proof.
  intros H. unfold cmp_on. split; intros.
  - apply cmp_opp.
  - by eapply cmp_le_trans.
Qed.

#[export] Instance cmp_laws_rev {A} (cmp : A → A → comparison) :
  CmpLaws cmp → CmpLaws (cmp_rev cmp).
Proof.
  intros H. unfold cmp_rev. split; intros.
  - apply cmp_opp.
  - by eapply cmp_le_trans.
Qed.

#[export] Instance cmp_laws_then {A} (c1 c2 : A → A → comparison) :
  CmpLaws c1 → CmpLaws c2 → CmpLaws (cmp_then c1 c2).
Proof.
  intros H1 H2. unfold cmp_then, then_with. split.
  - intros x y. rewrite (cmp_opp (cmp:=c1) x y), (cmp_opp (cmp:=c2) x y).
    by destruct (c1 x y).
  - intros x y z Hxy Hyz.
    destruct (c1 x y) eqn:Exy; [|clear Hxy|done].
    + rewrite (cmp_eq_l c1 _ _ z Exy). destruct (c1 y z); [|done..].
      by eapply cmp_le_trans.
    + assert (c1 y z ≠ Gt) as Hyz' by (by destruct (c1 y z)). clear Hyz.
      assert (c1 x z ≠ Gt) by (eapply cmp_le_trans; [by rewrite Exy|done]).
      destruct (c1 x z) eqn:Exz; [|done..].
      exfalso. apply Hyz'.
      rewrite (cmp_opp (cmp:=c1) z y), <-(cmp_eq_l c1 _ _ y Exz), Exy. done.
Qed.

#[export] Typeclasses Opaque cmp_on cmp_then cmp_rev.

(** ** Lemmas on [sort_by] *)

Section SortLemmas.
Context {A : Type} (cmp : A → A → comparison).

Lemma insert_by_perm x l : insert_by cmp x l ≡ₚ x :: l.
Proof.
  induction l as [|y l IH]; simpl; [done|].
  destruct (cmp x y); [done..|]. rewrite IH. apply Permutation_swap.
Qed.

Lemma sort_by_perm l : sort_by cmp l ≡ₚ l.
Proof. induction l as [|x l IH]; simpl; [done|]. by rewrite insert_by_perm, IH. Qed.

Lemma sort_by_length l : length (sort_by cmp l) = length l.
Proof. by rewrite sort_by_perm. Qed.

Lemma elem_of_sort_by x l : x ∈ sort_by cmp l ↔ x ∈ l.
Proof. by rewrite sort_by_perm. Qed.

Lemma sort_by_sorted_id l : sorted_by cmp l → sort_by cmp l = l.
Proof.
  unfold sorted_by. induction 1 as [|x l Hs IH Hall]; simpl; [done|].
  rewrite IH. destruct Hall as [|y l Hxy ?]; simpl; [done|]. by destruct (cmp x y).
Qed.

Context `{!CmpLaws cmp}.

Lemma insert_by_sorted x l : sorted_by cmp l → sorted_by cmp (insert_by cmp x l).
Proof.
  unfold sorted_by. induction 1 as [|y l Hs IH Hall]; simpl.
  { repeat constructor. }
  destruct (cmp x y) eqn:E.
  3: { constructor; [done|]. rewrite insert_by_perm. constructor; [|done].
       by apply cmp_gt_le. }
  all: constructor; [by constructor|]; constructor; [by rewrite E|];
    eapply Forall_impl; [done|]; simpl; intros z Hz;
    eapply cmp_le_trans; [by rewrite E|done].
Qed.

Lemma sort_by_sorted l : sorted_by cmp (sort_by cmp l).
Proof.
  induction l as [|x l IH]; simpl; [by constructor|]. by apply insert_by_sorted.
Qed.

Lemma sort_by_idemp l : sort_by cmp (sort_by cmp l) = sort_by cmp l.
Proof. apply sort_by_sorted_id, sort_by_sorted. Qed.

(** Stability: within one class of equal elements the input order is kept. *)
Lemma insert_by_stable k x l :
  sorted_by cmp l →
  filter (λ y, cmp k y = Eq) (insert_by cmp x l) = filter (λ y, cmp k y = Eq) (x :: l).
Proof.
  unfold sorted_by. induction 1 as [|y l Hs IH Hall]; simpl; [done|].
  destruct (cmp x y) eqn:E; [done..|].
  rewrite !filter_cons, IH, filter_cons.
  destruct (decide (cmp k y = Eq)) as [Hy|], (decide (cmp k x = Eq)) as [Hx|]; try done.
  rewrite <-(cmp_eq_l cmp _ _ y Hx), Hy in E. done.
Qed.

Lemma sort_by_stable k l :
  filter (λ y, cmp k y = Eq) (sort_by cmp l) = filter (λ y, cmp k y = Eq) l.
Proof.
  induction l as [|x l IH]; simpl; [done|].
  rewrite insert_by_stable by apply sort_by_sorted.
  by rewrite !filter_cons, IH.
Qed.

(** With a comparator that separates the elements, the sorted list does not
    depend on the order of the input. *)
Lemma sorted_perm_unique l1 l2 :
  (∀ x y, x ∈ l1 → y ∈ l1 → cmp x y = Eq → x = y) →
  sorted_by cmp l1 → sorted_by cmp l2 → l1 ≡ₚ l2 → l1 = l2.
Proof.
  unfold sorted_by. intros Hsep Hs1. revert l2 Hsep.
  induction Hs1 as [|x l1 Hs1 IH Hall1]; intros l2 Hsep Hs2 Hp.
  { symmetry in Hp. by apply Permutation_nil_r in Hp as ->. }
  destruct Hs2 as [|y l2 Hs2 Hall2]; [by apply Permutation_nil_r in Hp|].
  assert (x = y) as <-.
  { assert (Hy : y ∈ x :: l1) by (rewrite Hp; left).
    assert (Hx : x ∈ y :: l2) by (rewrite <-Hp; left).
    apply elem_of_cons in Hy as [|Hy]; [done|].
    apply elem_of_cons in Hx as [|Hx]; [done|].
    rewrite Forall_forall in Hall1, Hall2.
    pose proof (Hall1 y Hy) as H1. pose proof (Hall2 x Hx) as H2.
    rewrite (cmp_opp (cmp:=cmp) x y) in H2.
    apply Hsep; [left|by right|]. by destruct (cmp x y). }
  f_equal. apply IH; [|done|by eapply Permutation_cons_inv].
  intros; apply Hsep; [by right..|done].
Qed.

Lemma sort_by_perm_unique l1 l2 :
  (∀ x y, x ∈ l1 → y ∈ l1 → cmp x y = Eq → x = y) →
  l1 ≡ₚ l2 → sort_by cmp l1 = sort_by cmp l2.
Proof.
  intros Hsep Hp. apply sorted_perm_unique; [|apply sort_by_sorted..|].
  - intros x y. rewrite !elem_of_sort_by. apply Hsep.
  - by rewrite !sort_by_perm.
Qed.
End SortLemmas.

(** ** Lemmas on [min_by] and [max_by] *)

Section MinMaxLemmas.
Context {A : Type} (cmp : A → A → comparison).

Lemma min_by_elem l x : min_by cmp l = Some x → x ∈ l.
Proof.
  destruct l as [|y l]; simpl; [done|]. intros [= <-]. revert y.
  induction l as [|z l IH]; intros y; simpl; [left|].
  pose proof (IH y). pose proof (IH z). destruct (cmp y z); set_solver.
Qed.

Lemma max_by_elem l x : max_by cmp l = Some x → x ∈ l.
Proof.
  destruct l as [|y l]; simpl; [done|]. intros [= <-]. revert y.
  induction l as [|z l IH]; intros y; simpl; [left|].
  pose proof (IH y). pose proof (IH z). destruct (cmp y z); set_solver.
Qed.

Lemma min_by_None l : min_by cmp l = None ↔ l = [].
Proof. by destruct l. Qed.

Lemma max_by_None l : max_by cmp l = None ↔ l = [].
Proof. by destruct l. Qed.

Context `{!CmpLaws cmp}.

Lemma min_by_le l x y : min_by cmp l = Some x → y ∈ l → cmp x y ≠ Gt.
Proof.
  destruct l as [|a l]; simpl; [done|]. intros [= <-]. revert a y.
  induction l as [|b l IH]; intros a y Hy; simpl.
  { apply list_elem_of_singleton in Hy as ->. by rewrite cmp_refl. }
  destruct (cmp a b) eqn:E.
  3: { apply elem_of_cons in Hy as [->|Hy]; [|by apply IH].
       eapply cmp_le_trans; [apply IH; left|by apply cmp_gt_le]. }
  all: apply elem_of_cons in Hy as [->|Hy]; [apply IH; left|];
    apply elem_of_cons in Hy as [->|Hy]; [|apply IH; by right];
    eapply cmp_le_trans; [apply IH; left|congruence].
Qed.

Lemma min_by_sorted l : sorted_by cmp l → min_by cmp l = head l.
Proof.
  destruct 1 as [|x l _ Hall]; [done|]. simpl. f_equal.
  induction Hall as [|y l Hy _ IH]; [done|]. simpl. by destruct (cmp x y).
Qed.

Lemma max_by_ge l x y : max_by cmp l = Some x → y ∈ l → cmp y x ≠ Gt.
Proof.
  destruct l as [|a l]; simpl; [done|]. intros [= <-]. revert a y.
  induction l as [|b l IH]; intros a y Hy; simpl.
  { apply list_elem_of_singleton in Hy as ->. by rewrite cmp_refl. }
  destruct (cmp a b) eqn:E.
  3: { apply elem_of_cons in Hy as [->|Hy]; [apply IH; left|].
       apply elem_of_cons in Hy as [->|Hy]; [|apply IH; by right].
       eapply cmp_le_trans; [by apply cmp_gt_le|apply IH; left]. }
  all: apply elem_of_cons in Hy as [->|Hy]; [|by apply IH];
    eapply cmp_le_trans; [|apply IH; left]; congruence.
Qed.
End MinMaxLemmas.

(** ** Lemmas on [find_where] *)

Section FindLemmas.
Context {A : Type} (P : A → Prop) `{!∀ x, Decision (P x)}.

Lemma find_where_nil : find_where P [] = None.
Proof. done. Qed.

Lemma find_where_cons x l :
  find_where P (x :: l) = if decide (P x) then Some x else find_where P l.
Proof.
  unfold find_where. simpl. destruct (decide (P x)); [done|].
  by destruct (list_find P l) as [[i y]|].
Qed.

Lemma find_where_app l k :
  find_where P (l ++ k) = or_else (find_where P l) (find_where P k).
Proof.
  induction l as [|x l IH]; [done|]. rewrite <-app_comm_cons, !find_where_cons, IH.
  by case_decide.
Qed.

Lemma find_where_Some l x : find_where P l = Some x → x ∈ l ∧ P x.
Proof.
  induction l as [|y l IH]; [done|]. rewrite find_where_cons.
  destruct (decide (P y)); [intros [= <-]; split; [left|done]|].
  intros [? ?]%IH. split; [by right|done].
Qed.

Lemma find_where_None l : find_where P l = None ↔ Forall (λ x, ¬ P x) l.
Proof.
  induction l as [|y l IH]; [by split|]. rewrite find_where_cons, Forall_cons.
  destruct (decide (P y)); naive_solver.
Qed.

Lemma find_where_is_Some l : (∃ x, x ∈ l ∧ P x) → is_Some (find_where P l).
Proof.
  intros (x & Hx & HP). apply not_eq_None_Some. rewrite find_where_None, Forall_forall.
  intros Hnone. by apply (Hnone x).
Qed.

(** The element found is the first one that qualifies. *)
Lemma find_where_first l x :
  find_where P l = Some x →
  ∃ before after, l = before ++ x :: after ∧ P x ∧ ∀ y, y ∈ before → ¬ P y.
Proof.
  induction l as [|y l IH]; [done|]. rewrite find_where_cons. case_decide as Hy.
  - intros [= ->]. exists [], l. split_and!; [done|done|]. set_solver.
  - intros (before & after & -> & Hx & Hb)%IH. exists (y :: before), after.
    split_and!; [done|done|]. intros z [->|Hz]%elem_of_cons; [done|by apply Hb].
Qed.

(** Where at most one element qualifies, [find_where] returns it. *)
Lemma find_where_unique l x :
  x ∈ l → P x → (∀ y, y ∈ l → P y → y = x) → find_where P l = Some x.
Proof.
  intros Hx HP Huniq. destruct (find_where_is_Some l) as [y Hy]; [by exists x|].
  rewrite Hy. f_equal. apply find_where_Some in Hy as [??]. by apply Huniq.
Qed.
End FindLemmas.

Lemma filter_keep_all {A} (P : A → Prop) `{!∀ x, Decision (P x)} l :
  Forall P l → filter P l = l.
Proof. induction 1; [done|]. rewrite filter_cons_True by done. by f_equal. Qed.

Lemma forallb_Forall {A} (f : A → bool) l : forallb f l = true ↔ Forall (λ x, f x = true) l.
Proof. induction l as [|x l IH]; simpl; [done|]. by rewrite andb_true_iff, IH, Forall_cons. Qed.

(** ** Lemmas on [filter_map] *)

Lemma filter_map_cons {A B} (f : A → option B) x l :
  filter_map f (x :: l)
  = match f x with Some y => y :: filter_map f l | None => filter_map f l end.
Proof. done. Qed.

Lemma elem_of_filter_map {A B} (f : A → option B) l y :
  y ∈ filter_map f l ↔ ∃ x, x ∈ l ∧ f x = Some y.
Proof. apply list_elem_of_omap. Qed.

Lemma filter_map_sublist {A B C} (f : A → option B) (g : B → C) (h : A → C) l :
  (∀ a b, f a = Some b → g b = h a) → sublist (g <$> filter_map f l) (h <$> l).
Proof.
  intros Hf. induction l as [|a l IH]; [constructor|]. rewrite filter_map_cons, fmap_cons.
  destruct (f a) as [b|] eqn:Ha; simpl; [|by constructor]. rewrite (Hf a b Ha). by constructor.
Qed.

Lemma filter_map_Forall2 {A B} (f : A → option B) l k :
  Forall2 (λ x y, f x = Some y) l k → filter_map f l = k.
Proof.
  induction 1 as [|x y l k Hxy _ IH]; [done|]. by rewrite filter_map_cons, Hxy, IH.
Qed.

(** ** Lemmas on [dedup] *)

Section DedupLemmas.
Context {A : Type} `{!EqDecision A}.

Lemma dedup_cons (x y : A) l :
  dedup (x :: y :: l) = if decide (x = y) then dedup (y :: l) else x :: dedup (y :: l).
Proof. done. Qed.

Lemma elem_of_dedup (x : A) l : x ∈ dedup l ↔ x ∈ l.
Proof.
  induction l as [|y l IH]; [done|]. destruct l as [|z l]; [done|].
  rewrite dedup_cons. destruct (decide (y = z)) as [->|].
  - rewrite IH. set_solver.
  - rewrite !elem_of_cons, IH. set_solver.
Qed.

(** On a sorted list whose comparator separates elements, [dedup] removes
    every duplicate. *)
Lemma NoDup_dedup_sorted (cmp : A → A → comparison) `{!CmpLaws cmp} l :
  (∀ x y, cmp x y = Eq → x = y) → sorted_by cmp l → NoDup (dedup l).
Proof.
  intros Hsep. unfold sorted_by. induction 1 as [|x l Hs IH Hall]; [constructor|].
  destruct l as [|y l]; [apply NoDup_singleton|].
  rewrite dedup_cons. destruct (decide (x = y)) as [|Hne]; [done|].
  constructor; [|done]. rewrite elem_of_dedup. intros Hin.
  apply Hne, Hsep. inversion Hall; subst. inversion Hs as [|? ? ? Hall']; subst.
  destruct (cmp x y) eqn:E; [done| |done].
  apply elem_of_cons in Hin as [->|Hin]; [by rewrite cmp_refl in E|].
  rewrite Forall_forall in Hall'. specialize (Hall' x Hin).
  rewrite (cmp_opp (cmp:=cmp) x y), E in Hall'. done.
Qed.
End DedupLemmas.

Lemma sorted_by_dedup `{!EqDecision A} (cmp : A → A → comparison) (l : list A) :
  sorted_by cmp l → sorted_by cmp (dedup l).
Proof.
  unfold sorted_by. induction 1 as [|x l Hs IH Hall]; [constructor|].
  destruct l as [|y l]; [repeat constructor|].
  rewrite dedup_cons. case_decide; [done|]. constructor; [done|].
  rewrite Forall_forall in Hall |- *. intros z. rewrite elem_of_dedup. apply Hall.
Qed.

(** ** Lemmas on machine integers *)

Lemma wrap_u32_id x : (0 ≤ x ≤ u32_max)%Z → wrap_u32 x = x.
Proof. unfold wrap_u32, u32_max. intros. apply Z.mod_small. lia. Qed.

Lemma wrap_u64_id x : (0 ≤ x ≤ u64_max)%Z → wrap_u64 x = x.
Proof. unfold wrap_u64, u64_max. intros. apply Z.mod_small. lia. Qed.

Lemma wrap_u32_bound x : (0 ≤ wrap_u32 x ≤ u32_max)%Z.
Proof. unfold wrap_u32, u32_max. pose proof (Z.mod_pos_bound x (2 ^ 32)). lia. Qed.

Lemma wrap_i32_id x : (i32_min ≤ x ≤ i32_max)%Z → wrap_i32 x = x.
Proof. unfold wrap_i32, i32_min, i32_max. intros. rewrite Z.mod_small; lia. Qed.

Lemma wrap_i32_bound x : (i32_min ≤ wrap_i32 x ≤ i32_max)%Z.
Proof.
  unfold wrap_i32, i32_min, i32_max. pose proof (Z.mod_pos_bound (x + 2 ^ 31) (2 ^ 32)). lia.
Qed.

Lemma try_from_Some lo hi x y : try_from lo hi x = Some y ↔ y = x ∧ (lo ≤ x ≤ hi)%Z.
Proof. unfold try_from. case_decide; naive_solver. Qed.

Lemma clamp_bound lo hi x : (lo ≤ hi)%Z → (lo ≤ clamp lo hi x ≤ hi)%Z.
Proof. unfold clamp. lia. Qed.

(** ** Automation

    [mesh] collects the resolution hints of the library; [mesh_rw] its
    rewriting hints. *)

Create HintDb mesh discriminated.
Lemma find_where_filter {A} (P Q : A → Prop) `{!∀ x, Decision (P x), !∀ x, Decision (Q x)} (l : list A) :
  find_where P (filter Q l) = find_where (λ x, Q x ∧ P x) l.
Proof.
  induction l as [|x l IH]; [done|]. rewrite filter_cons, (find_where_cons (λ x, Q x ∧ P x)).
  destruct (decide (Q x)); [rewrite find_where_cons|]; repeat case_decide; naive_solver.
Qed.

#[export] Hint Resolve sort_by_perm sort_by_sorted wrap_u32_bound wrap_i32_bound : mesh.
Create Rewrite HintDb mesh_rw.
#[export] Hint Rewrite @sort_by_length @elem_of_sort_by @elem_of_dedup @find_where_cons : mesh_rw.

(** Case analysis on every [match] and [decide] of the goal, closing the
    absurd branches. *)
Ltac split_cases :=
  repeat (case_match || case_decide); simplify_eq/=; try done.

(** Inversion of a successful chain of [let?]. *)
Ltac result_inv :=
  repeat match goal with
  | H : result_bind _ _ = Ok _ |- _ => apply result_bind_Ok in H as (? & ? & ?)
  | H : ok_or _ _ = Ok _ |- _ => apply ok_or_Ok in H
  | H : Ok _ = Ok _ |- _ => injection H as H; subst
  | H : Err _ = Ok _ |- _ => discriminate H
  end.
