(* ===== verification/RustStr.v ===== *)
(** * Rust strings

    A Rust [str] is modelled by the [string] of its UTF-8 bytes, so [len] is
    [String.length] and [Ord] is [String.compare] (bytewise, as in Rust).
    This file holds the methods of [str], [char] and [String] that the program
    calls, written on the list of bytes, with the facts the components use. *)

From stdpp Require Import prelude strings pretty.
From Stdlib Require Import Ascii.
From S2P Require Import Prelude.

Abbreviation bytes := String.list_ascii_of_string.
Abbreviation of_bytes := String.string_of_list_ascii.

(** ** Characters *)

Definition in_range (lo hi : N) (c : ascii) : bool :=
  ((lo <=? N_of_ascii c) && (N_of_ascii c <=? hi))%N.

Definition is_ascii (c : ascii) : bool := in_range 0 127 c.
Definition is_upper (c : ascii) : bool := in_range 65 90 c.
Definition is_lower (c : ascii) : bool := in_range 97 122 c.
Definition is_digit (c : ascii) : bool := in_range 48 57 c.

(** [char::is_ascii_alphanumeric]. *)
Definition is_ascii_alphanumeric (c : ascii) : bool := is_upper c || is_lower c || is_digit c.

(** [char::to_ascii_lowercase] and [char::to_ascii_uppercase]. *)
Definition ascii_lower (c : ascii) : ascii :=
  if is_upper c then ascii_of_N (N_of_ascii c + 32) else c.
Definition ascii_upper (c : ascii) : ascii :=
  if is_lower c then ascii_of_N (N_of_ascii c - 32) else c.

(** A UTF-8 continuation byte: every other byte starts a [char]. *)
Definition is_continuation (c : ascii) : bool := in_range 128 191 c.

(** ** Bytewise methods *)

Definition map_bytes (f : ascii → ascii) (s : string) : string := of_bytes (f <$> bytes s).

Definition to_ascii_lowercase : string → string := map_bytes ascii_lower.
Definition to_ascii_uppercase : string → string := map_bytes ascii_upper.

(** [str::eq_ignore_ascii_case]. *)
Definition eq_ignore_ascii_case (s t : string) : bool :=
  String.eqb (to_ascii_lowercase s) (to_ascii_lowercase t).

(** [str::is_empty]. *)
Definition is_empty (s : string) : bool := String.eqb s "".

(** [strip_list p l] is the rest of [l] after the prefix [p]. *)
Fixpoint strip_list (p l : list ascii) : option (list ascii) :=
  match p, l with
  | [], _ => Some l
  | a :: p', b :: l' => if Ascii.eqb a b then strip_list p' l' else None
  | _, [] => None
  end.

Definition strip_prefix (p s : string) : option string :=
  of_bytes <$> strip_list (bytes p) (bytes s).

Definition starts_with (p s : string) : bool :=
  bool_decide (is_Some (strip_list (bytes p) (bytes s))).

Definition ends_with (p s : string) : bool :=
  bool_decide (is_Some (strip_list (reverse (bytes p)) (reverse (bytes s)))).

Fixpoint contains_list (p l : list ascii) : bool :=
  bool_decide (is_Some (strip_list p l)) ||
  match l with [] => false | _ :: l' => contains_list p l' end.

(** [str::contains]. *)
Definition contains (p s : string) : bool := contains_list (bytes p) (bytes s).

(** [str::replace] for a non-empty pattern: left to right, without overlaps.
    [skip] counts the bytes of a match still to be passed over. *)
Fixpoint replace_list (from to : list ascii) (skip : nat) (l : list ascii) : list ascii :=
  match l with
  | [] => []
  | c :: l' =>
      match skip with
      | S k => replace_list from to k l'
      | O =>
          if decide (is_Some (strip_list from l))
          then to ++ replace_list from to (pred (length from)) l'
          else c :: replace_list from to O l'
      end
  end.

Definition replace (from to s : string) : string :=
  of_bytes (replace_list (bytes from) (bytes to) O (bytes s)).

(** [str::split] on an ASCII character. *)
Fixpoint split_list (c : ascii) (acc l : list ascii) : list (list ascii) :=
  match l with
  | [] => [reverse acc]
  | a :: l' => if Ascii.eqb a c then reverse acc :: split_list c [] l' else split_list c (a :: acc) l'
  end.

Definition split (c : ascii) (s : string) : list string :=
  (λ l, of_bytes l) <$> split_list c [] (bytes s).

(** [slice::join]. *)
Definition join (sep : string) (l : list string) : string := String.concat sep l.

(** ** Trimming *)

(** The UTF-8 encodings of the characters with the Unicode property
    [White_Space], which [char::is_whitespace] tests. *)
Definition whitespace : list (list ascii) :=
  map (map ascii_of_N)
    [[9]; [10]; [11]; [12]; [13]; [32]; [194; 133]; [194; 160]; [225; 154; 128];
     [226; 128; 128]; [226; 128; 129]; [226; 128; 130]; [226; 128; 131];
     [226; 128; 132]; [226; 128; 133]; [226; 128; 134]; [226; 128; 135];
     [226; 128; 136]; [226; 128; 137]; [226; 128; 138]; [226; 128; 168];
     [226; 128; 169]; [226; 128; 175]; [226; 129; 159]; [227; 128; 128]]%N.

Definition strip_any (seqs : list (list ascii)) (l : list ascii) : option (list ascii) :=
  head (omap (λ p, strip_list p l) seqs).

(** Strips leading members of [seqs]; [n] bounds the number of strips. *)
Fixpoint trim_front (seqs : list (list ascii)) (n : nat) (l : list ascii) : list ascii :=
  match n with
  | O => l
  | S n' => match strip_any seqs l with Some l' => trim_front seqs n' l' | None => l end
  end.

Definition trim_front_all (seqs : list (list ascii)) (l : list ascii) : list ascii :=
  trim_front seqs (length l) l.

Definition trim_back_all (seqs : list (list ascii)) (l : list ascii) : list ascii :=
  reverse (trim_front_all (reverse <$> seqs) (reverse l)).

(** [str::trim]. *)
Definition trim (s : string) : string :=
  of_bytes (trim_back_all whitespace (trim_front_all whitespace (bytes s))).

(** [str::trim_start_matches], [trim_end_matches] and [trim_matches] for one
    ASCII character. *)
Definition trim_start_matches (c : ascii) (s : string) : string :=
  of_bytes (trim_front_all [[c]] (bytes s)).
Definition trim_end_matches (c : ascii) (s : string) : string :=
  of_bytes (trim_back_all [[c]] (bytes s)).
Definition trim_matches (c : ascii) (s : string) : string :=
  trim_end_matches c (trim_start_matches c s).

(** ** Characters of a string *)

(** [s.chars().count()]. *)
Definition chars_count (s : string) : nat :=
  length (filter (λ c, is_continuation c = false) (bytes s)).

(** [s.chars().take(n).collect::<String>()]. *)
Fixpoint take_chars_list (n : nat) (l : list ascii) : list ascii :=
  match l with
  | [] => []
  | c :: l' =>
      if is_continuation c then c :: take_chars_list n l'
      else match n with O => [] | S n' => c :: take_chars_list n' l' end
  end.
Definition take_chars (n : nat) (s : string) : string := of_bytes (take_chars_list n (bytes s)).

(** ** Formatting *)

(** [format!("{n:0w}")] for an unsigned [n]. *)
Definition pad_left (w : nat) (s : string) : string :=
  of_bytes (replicate (w - String.length s) "0"%char) +:+ s.

Definition format_padded (w : nat) (n : Z) : string := pad_left w (pretty n).

(** ** Bytes of a string *)

Lemma bytes_of_bytes l : bytes (of_bytes l) = l.
Proof. apply String.list_ascii_of_string_of_list_ascii. Qed.

Lemma of_bytes_bytes s : of_bytes (bytes s) = s.
Proof. apply String.string_of_list_ascii_of_string. Qed.

#[export] Instance bytes_inj : Inj (=) (=) (λ s, bytes s).
Proof. intros s t H. by rewrite <-(of_bytes_bytes s), H, of_bytes_bytes. Qed.

#[export] Instance of_bytes_inj : Inj (=) (=) (λ l, of_bytes l).
Proof. intros s t H. by rewrite <-(bytes_of_bytes s), H, bytes_of_bytes. Qed.

Lemma bytes_app s t : bytes (s +:+ t) = bytes s ++ bytes t.
Proof. induction s as [|c s IH]; simpl; [done|]. by rewrite IH. Qed.

Lemma of_bytes_app l k : of_bytes (l ++ k) = of_bytes l +:+ of_bytes k.
Proof. apply (inj (λ s, bytes s)). by rewrite bytes_app, !bytes_of_bytes. Qed.

Lemma length_bytes s : length (bytes s) = String.length s.
Proof. induction s as [|c s IH]; simpl; [done|]. by rewrite IH. Qed.

Lemma bytes_nil s : bytes s = [] ↔ s = "".
Proof. by destruct s. Qed.

Lemma string_app_assoc (a b c : string) : a +:+ (b +:+ c) = (a +:+ b) +:+ c.
Proof. apply (inj (λ s, bytes s)). by rewrite !bytes_app, (assoc_L (++)). Qed.

Lemma string_app_nil_r (a : string) : a +:+ "" = a.
Proof. apply (inj (λ s, bytes s)). rewrite bytes_app. apply (right_id_L [] (++)). Qed.

#[export] Hint Rewrite bytes_of_bytes of_bytes_bytes bytes_app : mesh_rw.

(** ** Prefixes, suffixes and substrings *)

Lemma strip_list_Some p l r : strip_list p l = Some r ↔ l = p ++ r.
Proof.
  revert l. induction p as [|a p IH]; intros [|b l]; simpl; [naive_solver..|].
  destruct (Ascii.eqb_spec a b) as [->|]; [rewrite IH|]; naive_solver.
Qed.

Lemma strip_list_is_Some p l : is_Some (strip_list p l) ↔ p `prefix_of` l.
Proof. unfold is_Some, prefix. by setoid_rewrite strip_list_Some. Qed.

Lemma strip_prefix_Some p s r : strip_prefix p s = Some r ↔ s = p +:+ r.
Proof.
  unfold strip_prefix. rewrite fmap_Some. split.
  - intros (l & H%strip_list_Some & ->). apply (inj (λ s, bytes s)).
    by rewrite bytes_app, bytes_of_bytes.
  - intros ->. exists (bytes r). by rewrite strip_list_Some, bytes_app, of_bytes_bytes.
Qed.

Lemma starts_with_spec p s : starts_with p s = true ↔ ∃ r, s = p +:+ r.
Proof.
  unfold starts_with. rewrite bool_decide_eq_true, strip_list_is_Some. split.
  - intros [r Hr]. exists (of_bytes r). apply (inj (λ s, bytes s)).
    by rewrite bytes_app, bytes_of_bytes.
  - intros [r ->]. rewrite bytes_app. by eexists.
Qed.

Lemma ends_with_spec p s : ends_with p s = true ↔ ∃ r, s = r +:+ p.
Proof.
  unfold ends_with. rewrite bool_decide_eq_true, strip_list_is_Some. split.
  - intros [r Hr]. exists (of_bytes (reverse r)). apply (inj (λ s, bytes s)).
    apply (inj reverse).
    by rewrite bytes_app, bytes_of_bytes, reverse_app, reverse_involutive.
  - intros [r ->]. rewrite bytes_app, reverse_app. by eexists.
Qed.

Lemma contains_list_spec p l : contains_list p l = true ↔ ∃ a b, l = a ++ p ++ b.
Proof.
  induction l as [|c l IH]; simpl; rewrite orb_true_iff, bool_decide_eq_true,
    strip_list_is_Some.
  - split.
    + intros [[b Hb]|]; [|done]. by exists [], b.
    + intros (a & b & Hab). left. destruct a; [|done]. by exists b.
  - rewrite IH. split.
    + intros [[b Hb]|(a & b & ->)]; [by exists [], b|]. by exists (c :: a), b.
    + intros ([|c' a] & b & Hab); simplify_eq/=; [left; by eexists|right; by exists a, b].
Qed.

Lemma contains_spec p s : contains p s = true ↔ ∃ a b, s = a +:+ p +:+ b.
Proof.
  unfold contains. rewrite contains_list_spec. split.
  - intros (a & b & H). exists (of_bytes a), (of_bytes b). apply (inj (λ s, bytes s)).
    by rewrite !bytes_app, !bytes_of_bytes.
  - intros (a & b & ->). rewrite !bytes_app. by eexists _, _.
Qed.

(** ** Trimming *)

Lemma strip_any_Some seqs l r :
  strip_any seqs l = Some r → ∃ p, p ∈ seqs ∧ l = p ++ r.
Proof.
  unfold strip_any. intros H%head_Some_elem_of.
  apply list_elem_of_omap in H as (p & Hp & Hr%strip_list_Some). eauto.
Qed.

Lemma strip_any_None seqs l :
  strip_any seqs l = None ↔ ∀ p r, p ∈ seqs → l ≠ p ++ r.
Proof.
  unfold strip_any. rewrite head_None. split.
  - intros H p r Hp ->. apply (not_elem_of_nil r). rewrite <-H.
    apply list_elem_of_omap. exists p. by rewrite strip_list_Some.
  - intros H. apply elem_of_nil_inv. intros r (p & Hp & Hr%strip_list_Some)%list_elem_of_omap.
    by eapply H.
Qed.

Section Trim.
Context (seqs : list (list ascii)).

Lemma trim_front_suffix n l : trim_front seqs n l `suffix_of` l.
Proof.
  revert l. induction n as [|n IH]; intros l; simpl; [done|].
  destruct (strip_any seqs l) as [r|] eqn:E; [|done].
  apply strip_any_Some in E as (p & _ & ->). etrans; [apply IH|by apply suffix_app_r].
Qed.

Lemma trim_front_id l : strip_any seqs l = None → trim_front_all seqs l = l.
Proof. unfold trim_front_all. intros H. destruct l; simpl; [done|]. by rewrite H. Qed.

(** A prefix of a list that cannot be stripped cannot be stripped either. *)
Lemma strip_any_None_prefix l k :
  k `prefix_of` l → strip_any seqs l = None → strip_any seqs k = None.
Proof.
  intros [t ->]. rewrite !strip_any_None. intros H p r Hp ->.
  apply (H p (r ++ t) Hp). by rewrite (assoc_L (++)).
Qed.

Context (Hne : Forall (λ p, p ≠ []) seqs).
#[local] Set Default Proof Using "Type*".

Lemma strip_any_shorter l r : strip_any seqs l = Some r → length r < length l.
Proof.
  intros (p & Hp & ->)%strip_any_Some. rewrite length_app.
  rewrite Forall_forall in Hne. specialize (Hne p Hp). destruct p; simpl; [done|lia].
Qed.

Lemma trim_front_stuck n l : length l ≤ n → strip_any seqs (trim_front seqs n l) = None.
Proof.
  revert l. induction n as [|n IH]; intros l Hl; simpl.
  - destruct (strip_any seqs l) as [r|] eqn:E; [|done].
    apply strip_any_shorter in E. lia.
  - destruct (strip_any seqs l) as [r|] eqn:E; [|done].
    apply IH. apply strip_any_shorter in E. lia.
Qed.

Lemma trim_front_all_stuck l : strip_any seqs (trim_front_all seqs l) = None.
Proof. by apply trim_front_stuck. Qed.
End Trim.

Lemma whitespace_nonempty : Forall (λ p, p ≠ []) whitespace.
Proof. by repeat constructor. Qed.

Lemma whitespace_rev_nonempty : Forall (λ p, p ≠ []) (reverse <$> whitespace).
Proof. by repeat constructor. Qed.

Lemma bytes_trim s :
  bytes (trim s) = trim_back_all whitespace (trim_front_all whitespace (bytes s)).
Proof. apply bytes_of_bytes. Qed.

Lemma trim_back_all_prefix seqs l : trim_back_all seqs l `prefix_of` l.
Proof.
  unfold trim_back_all, trim_front_all.
  destruct (trim_front_suffix (reverse <$> seqs) (length (reverse l)) (reverse l)) as [k Hk].
  exists (reverse k). by rewrite <-reverse_app, <-Hk, reverse_involutive.
Qed.

Lemma trim_stuck_front s : strip_any whitespace (bytes (trim s)) = None.
Proof.
  rewrite bytes_trim. eapply strip_any_None_prefix; [apply trim_back_all_prefix|].
  apply trim_front_all_stuck, whitespace_nonempty.
Qed.

Lemma trim_stuck_back s :
  strip_any (reverse <$> whitespace) (reverse (bytes (trim s))) = None.
Proof.
  rewrite bytes_trim. unfold trim_back_all. rewrite reverse_involutive.
  apply trim_front_all_stuck, whitespace_rev_nonempty.
Qed.

Lemma trim_id s :
  strip_any whitespace (bytes s) = None →
  strip_any (reverse <$> whitespace) (reverse (bytes s)) = None → trim s = s.
Proof.
  intros H1 H2. unfold trim, trim_back_all.
  rewrite (trim_front_id _ _ H1), (trim_front_id _ _ H2), reverse_involutive.
  apply of_bytes_bytes.
Qed.

Lemma trim_idemp s : trim (trim s) = trim s.
Proof. apply trim_id; [apply trim_stuck_front|apply trim_stuck_back]. Qed.

(** [trim] removes a prefix and a suffix. *)
Lemma trim_infix s : ∃ a b, s = a +:+ trim s +:+ b.
Proof.
  destruct (trim_front_suffix whitespace (length (bytes s)) (bytes s)) as [a Ha].
  destruct (trim_back_all_prefix whitespace (trim_front_all whitespace (bytes s))) as [b Hb].
  rewrite <-bytes_trim in Hb. unfold trim_front_all in Hb.
  exists (of_bytes a), (of_bytes b). apply (inj (λ s, bytes s)).
  by rewrite !bytes_app, !bytes_of_bytes, <-Hb.
Qed.

Lemma length_trim s : String.length (trim s) ≤ String.length s.
Proof.
  destruct (trim_infix s) as (a & b & H). rewrite <-!length_bytes.
  rewrite H at 2. rewrite !bytes_app, !length_app. lia.
Qed.

#[export] Hint Rewrite trim_idemp : mesh_rw.

(** Trimming keeps every byte that occurs in no white-space character. *)
Lemma elem_of_trim_front c seqs n l :
  Forall (λ p, c ∉ p) seqs → c ∈ l → c ∈ trim_front seqs n l.
Proof.
  intros Hseqs. revert l. induction n as [|n IH]; intros l Hc; simpl; [done|].
  destruct (strip_any seqs l) as [r|] eqn:E; [|done].
  apply strip_any_Some in E as (p & Hp & ->). apply IH. rewrite Forall_forall in Hseqs.
  apply elem_of_app in Hc as [Hc|]; [|done]. by destruct (Hseqs p Hp).
Qed.

Lemma elem_of_trim c s : Forall (λ p, c ∉ p) whitespace → c ∈ bytes s → c ∈ bytes (trim s).
Proof.
  intros Hw Hc. rewrite bytes_trim. unfold trim_back_all, trim_front_all. rewrite elem_of_reverse.
  apply elem_of_trim_front.
  - apply Forall_fmap. eapply Forall_impl; [done|]. intros p Hp. simpl. by rewrite elem_of_reverse.
  - rewrite elem_of_reverse. by apply elem_of_trim_front.
Qed.

Lemma trim_nonblank c s :
  bool_decide (Forall (λ p, c ∉ p) whitespace) = true → c ∈ bytes s → trim s ≠ "".
Proof.
  intros Hw%bool_decide_eq_true Hc Heq. apply (elem_of_trim c) in Hc; [|done].
  rewrite Heq in Hc. by apply not_elem_of_nil in Hc.
Qed.

(** ** ASCII case *)

Lemma ascii_lower_idemp c : ascii_lower (ascii_lower c) = ascii_lower c.
Proof. by destruct c as [[] [] [] [] [] [] [] []]. Qed.

Lemma bytes_to_ascii_lowercase s : bytes (to_ascii_lowercase s) = ascii_lower <$> bytes s.
Proof. apply bytes_of_bytes. Qed.

Lemma to_ascii_lowercase_idemp s :
  to_ascii_lowercase (to_ascii_lowercase s) = to_ascii_lowercase s.
Proof.
  apply (inj (λ s, bytes s)). rewrite !bytes_to_ascii_lowercase.
  rewrite <-list_fmap_compose. apply list_fmap_ext. intros. apply ascii_lower_idemp.
Qed.

Lemma to_ascii_lowercase_app s t :
  to_ascii_lowercase (s +:+ t) = to_ascii_lowercase s +:+ to_ascii_lowercase t.
Proof.
  apply (inj (λ s, bytes s)).
  by rewrite bytes_app, !bytes_to_ascii_lowercase, bytes_app, fmap_app.
Qed.

Lemma is_empty_spec s : is_empty s = true ↔ s = "".
Proof. apply String.eqb_eq. Qed.

Lemma is_empty_false s : is_empty s = false ↔ s ≠ "".
Proof. apply String.eqb_neq. Qed.

(** ** Scanning past bytes that start no match *)

(** Two lists cut at the first [x] are cut at the same place. *)
Lemma app_sep_inj {A} (x : A) a b r l :
  x ∉ a → x ∉ b → a ++ x :: r = b ++ x :: l → a = b ∧ r = l.
Proof.
  revert b. induction a as [|y a IH]; intros [|z b] Ha Hb H; simplify_eq/=.
  - done.
  - set_solver.
  - set_solver.
  - destruct (IH b) as [-> ->]; set_solver.
Qed.

Section Scan.
Context (h : ascii) (p : list ascii).
#[local] Abbreviation pat := (h :: p).

Lemma strip_list_app_l l r : strip_list l (l ++ r) = Some r.
Proof. by apply strip_list_Some. Qed.

Lemma strip_list_head_ne c l : c ≠ h → strip_list pat (c :: l) = None.
Proof. intros Hne. simpl. destruct (Ascii.eqb_spec h c); congruence. Qed.

Lemma replace_list_skip to a l :
  replace_list pat to (length a) (a ++ l) = replace_list pat to O l.
Proof. induction a as [|c a IH]; simpl; [done|]. apply IH. Qed.

Lemma replace_list_no_head to t l :
  h ∉ t → replace_list pat to O (t ++ l) = t ++ replace_list pat to O l.
Proof.
  induction t as [|c t IH]; intros Ht; [done|]. apply not_elem_of_cons in Ht as [Hc Ht].
  cbn [replace_list app]. rewrite strip_list_head_ne by congruence.
  rewrite decide_False by (intros [? ?]; done). by rewrite IH.
Qed.

Lemma replace_list_no_match to c l :
  strip_list pat (c :: l) = None →
  replace_list pat to O (c :: l) = c :: replace_list pat to O l.
Proof.
  intros H. cbn [replace_list]. rewrite H. by rewrite decide_False by (intros [? ?]; done).
Qed.

Lemma replace_list_match to l :
  replace_list pat to O (pat ++ l) = to ++ replace_list pat to O l.
Proof.
  cbn [replace_list app]. rewrite decide_True.
  - f_equal. apply replace_list_skip.
  - exists l. apply (strip_list_app_l pat l).
Qed.

Lemma contains_list_no_match c l :
  strip_list pat (c :: l) = None → contains_list pat (c :: l) = contains_list pat l.
Proof.
  intros H. cbn [contains_list]. rewrite H. by rewrite bool_decide_false by (intros [? ?]; done).
Qed.

Lemma contains_list_no_head t l :
  h ∉ t → contains_list pat (t ++ l) = contains_list pat l.
Proof.
  induction t as [|c t IH]; intros Ht; [done|]. apply not_elem_of_cons in Ht as [Hc Ht].
  cbn [app]. rewrite contains_list_no_match by (apply strip_list_head_ne; congruence). auto.
Qed.

Lemma contains_list_match l : contains_list pat (pat ++ l) = true.
Proof. apply contains_list_spec. by exists [], l. Qed.
End Scan.

(** ** Counting characters *)

Lemma chars_count_app s t : chars_count (s +:+ t) = chars_count s + chars_count t.
Proof. unfold chars_count. by rewrite bytes_app, filter_app, length_app. Qed.

Lemma chars_count_take n s : chars_count (take_chars n s) ≤ n.
Proof.
  unfold chars_count, take_chars. rewrite bytes_of_bytes. generalize (bytes s). intros l. revert n.
  induction l as [|c l IH]; intros n; simpl; [lia|].
  destruct (is_continuation c) eqn:Hc; [|destruct n as [|n]; simpl; [lia|]];
    rewrite filter_cons, Hc; simpl; [apply IH|]. specialize (IH n). lia.
Qed.

(** ** Splitting and joining *)

Section Split.
Context (c : ascii).

Lemma split_list_sep acc a b :
  split_list c acc (a ++ c :: b) = split_list c acc a ++ split_list c [] b.
Proof.
  revert acc. induction a as [|x a IH]; intros acc; cbn [app split_list].
  - by rewrite Ascii.eqb_refl.
  - destruct (Ascii.eqb x c); [|done]. by rewrite IH.
Qed.

Lemma split_list_nonempty acc l : split_list c acc l ≠ [].
Proof. revert acc. induction l as [|x l IH]; intros acc; simpl; [done|]. by destruct (Ascii.eqb x c). Qed.

Lemma split_list_no_sep acc l : c ∉ l → split_list c acc l = [reverse acc ++ l].
Proof.
  revert acc. induction l as [|x l IH]; intros acc Hl; simpl; [by rewrite app_nil_r|].
  rewrite not_elem_of_cons in Hl. destruct (Ascii.eqb_spec x c) as [->|_]; [tauto|].
  rewrite IH by tauto. by rewrite reverse_cons, <-app_assoc.
Qed.

Lemma split_nonempty s : split c s ≠ [].
Proof. unfold split. intros H%fmap_nil_inv. by apply split_list_nonempty in H. Qed.

Lemma split_sep a b : split c (a +:+ String c "" +:+ b) = split c a ++ split c b.
Proof. unfold split. by rewrite !bytes_app, <-fmap_app, <-split_list_sep. Qed.

Lemma join_cons sep x l : l ≠ [] → join sep (x :: l) = x +:+ sep +:+ join sep l.
Proof. by destruct l. Qed.

Lemma join_app sep l k :
  l ≠ [] → k ≠ [] → join sep (l ++ k) = join sep l +:+ sep +:+ join sep k.
Proof.
  intros Hl Hk. induction l as [|x l IH]; [done|]. destruct l as [|y l].
  - simpl app. by rewrite join_cons.
  - change ((x :: y :: l) ++ k) with (x :: ((y :: l) ++ k)).
    rewrite join_cons by done. rewrite IH by done. rewrite (join_cons sep x (y :: l)) by done.
    by rewrite !string_app_assoc.
Qed.

Lemma join_split_list acc l :
  join (String c "") ((λ l, of_bytes l) <$> split_list c acc l) = of_bytes (reverse acc ++ l).
Proof.
  revert acc. induction l as [|x l IH]; intros acc; simpl split_list.
  { by rewrite app_nil_r. }
  destruct (Ascii.eqb_spec x c) as [->|_].
  - rewrite fmap_cons, join_cons.
    2: { intros H%fmap_nil_inv. by apply split_list_nonempty in H. }
    rewrite IH. by rewrite !of_bytes_app.
  - rewrite IH. by rewrite reverse_cons, <-app_assoc.
Qed.

Lemma join_split s : join (String c "") (split c s) = s.
Proof. unfold split. rewrite join_split_list. apply of_bytes_bytes. Qed.

(** A string is another one, or ends with it after a separator, exactly when the
    parts of the second are the last parts of the first. *)
Lemma split_suffix s t :
  s = t ∨ ends_with (String c "" +:+ t) s = true ↔ split c t `suffix_of` split c s.
Proof.
  rewrite ends_with_spec. split.
  - intros [->|[r ->]]; [done|]. exists (split c r). apply split_sep.
  - intros [pre Hpre]. destruct pre as [|x pre].
    + left. rewrite <-(join_split s), Hpre. apply join_split.
    + right. exists (join (String c "") (x :: pre)).
      rewrite <-(join_split s), Hpre, join_app by (done || apply split_nonempty).
      by rewrite join_split.
Qed.
End Split.

(** ** Decimal numbers *)

(** The value of a list of digits read after [acc]. *)
Fixpoint decimal (acc : Z) (l : list ascii) : option Z :=
  match l with
  | [] => Some acc
  | c :: l' => if is_digit c then decimal (10 * acc + (Z.of_N (N_of_ascii c) - 48)) l' else None
  end.

(** With an optional sign: the inverse of [pretty]. *)
Definition decimal_number (s : string) : option Z :=
  match bytes s with
  | "-"%char :: l => Z.opp <$> decimal 0 l
  | l => decimal 0 l
  end.

Lemma decimal_go x s : decimal 0 (bytes (pretty_N_go x s)) = decimal (Z.of_N x) (bytes s).
Proof.
  revert s. induction (N.lt_wf_0 x) as [x _ IH]; intros s.
  destruct (decide (x = 0%N)) as [->|Hx]; [done|].
  rewrite pretty_N_go_step by lia. rewrite IH by (apply N.div_lt; lia). cbn [bytes decimal].
  assert (x `mod` 10 < 10)%N as Hm by (by apply N.mod_lt).
  assert (is_digit (pretty_N_char (x `mod` 10)) = true
          ∧ (Z.of_N (N_of_ascii (pretty_N_char (x `mod` 10))) - 48 = Z.of_N (x `mod` 10))%Z) as [-> ->].
  { revert Hm. generalize (x `mod` 10)%N. intros d Hd.
    assert (d = 0 ∨ d = 1 ∨ d = 2 ∨ d = 3 ∨ d = 4 ∨ d = 5 ∨ d = 6 ∨ d = 7 ∨ d = 8 ∨ d = 9)%N as Hcase by lia.
    repeat (destruct Hcase as [->|Hcase]); try subst d; done. }
  f_equal. rewrite (N.div_mod x 10) at 3 by done. lia.
Qed.

Lemma decimal_pretty_pos p : decimal 0 (bytes (pretty (N.pos p))) = Some (Z.pos p).
Proof. unfold pretty, pretty_N. rewrite decide_False by done. by rewrite decimal_go. Qed.

(** A number that is not negative is its digits. *)
Lemma decimal_pretty k : (0 ≤ k)%Z → decimal 0 (bytes (pretty k)) = Some k.
Proof. destruct k as [|p|p]; [done|intros _; apply decimal_pretty_pos|lia]. Qed.

Lemma decimal_number_pretty (z : Z) : decimal_number (pretty z) = Some z.
Proof.
  unfold decimal_number. destruct z as [|p|p]; [done| |].
  - pose proof (decimal_pretty_pos p) as Hp. change (pretty (Z.pos p)) with (pretty (N.pos p)).
    destruct (bytes (pretty (N.pos p))) as [|c l]; [done|].
    destruct (decide (c = "-"%char)) as [->|Hc]; [done|].
    by destruct c as [[] [] [] [] [] [] [] []].
  - change (pretty (Z.neg p)) with ("-" +:+ pretty (N.pos p)).
    rewrite bytes_app. simpl. by rewrite decimal_pretty_pos.
Qed.

Lemma decimal_zeros n l : decimal 0 (replicate n "0"%char ++ l) = decimal 0 l.
Proof. by induction n. Qed.

Lemma decimal_format_padded w k : (0 ≤ k)%Z → decimal 0 (bytes (format_padded w k)) = Some k.
Proof.
  intros Hk. unfold format_padded, pad_left. rewrite bytes_app, bytes_of_bytes, decimal_zeros.
  by apply decimal_pretty.
Qed.

(** Digits are read only from digits. *)
Lemma decimal_digits acc l k : decimal acc l = Some k → Forall (λ c, is_digit c = true) l.
Proof.
  revert acc. induction l as [|c l IH]; intros acc; simpl; [constructor|].
  destruct (is_digit c) eqn:Hc; [|done]. intros H%IH. by constructor.
Qed.
