(* ===== verification/Json.v ===== *)
(** * JSON values

    [serde_json::Value] as the program uses it.  Objects are [Map<String,
    Value>], a [BTreeMap] (the [preserve_order] feature is off): an association
    list kept in key order by [map_insert].  Accessors follow [serde_json]. *)

From stdpp Require Import prelude strings pretty.
From S2P Require Import Prelude RustStr.

(** [serde_json::Number]: an unsigned or a negative 64-bit integer, or a float,
    which the program only prints or rejects and is kept as its text. *)
Inductive Number :=
  | PosInt (n : Z)
  | NegInt (n : Z)
  | Float (text : string).

Inductive Value :=
  | VNull
  | VBool (b : bool)
  | VNumber (n : Number)
  | VString (s : string)
  | VArray (l : list Value)
  | VObject (m : list (string * Value)).

Abbreviation Map := (list (string * Value)).

#[export] Instance Number_eq_dec : EqDecision Number.
Proof. solve_decision. Defined.

(** [Number::to_string]. *)
Definition number_to_string (n : Number) : string :=
  match n with PosInt z | NegInt z => pretty z | Float t => t end.

(** [bool::to_string]. *)
Definition bool_to_string (b : bool) : string := if b then "true" else "false".

(** ** Accessors *)

(** [Map::get]. *)
Definition map_get (m : Map) (k : string) : option Value :=
  snd <$> find_where (λ kv, kv.1 = k) m.

(** [Map::insert], keeping key order. *)
Fixpoint map_insert (k : string) (v : Value) (m : Map) : Map :=
  match m with
  | [] => [(k, v)]
  | (k', v') :: m' =>
      match String.compare k k' with
      | Lt => (k, v) :: m
      | Eq => (k, v) :: m'
      | Gt => (k', v') :: map_insert k v m'
      end
  end.

(** [Map::remove]. *)
Definition map_remove (k : string) (m : Map) : Map := filter (λ kv, kv.1 ≠ k) m.

(** The [json!({ ... })] literal: the fields are inserted in turn. *)
Definition jmap (fields : Map) : Map := foldl (λ m kv, map_insert kv.1 kv.2 m) [] fields.
Definition jobj (fields : Map) : Value := VObject (jmap fields).

(** [Value::get] with a string index. *)
Definition get (v : Value) (k : string) : option Value :=
  match v with VObject m => map_get m k | _ => None end.

Definition as_str (v : Value) : option string :=
  match v with VString s => Some s | _ => None end.
Definition as_bool (v : Value) : option bool :=
  match v with VBool b => Some b | _ => None end.
Definition as_u64 (v : Value) : option Z :=
  match v with VNumber (PosInt n) => Some n | _ => None end.
Definition as_i64 (v : Value) : option Z :=
  match v with
  | VNumber (PosInt n) => if decide (n ≤ i64_max)%Z then Some n else None
  | VNumber (NegInt n) => Some n
  | _ => None
  end.
Definition as_array (v : Value) : option (list Value) :=
  match v with VArray l => Some l | _ => None end.
Definition as_object (v : Value) : option Map :=
  match v with VObject m => Some m | _ => None end.
Definition is_null (v : Value) : bool :=
  match v with VNull => true | _ => false end.
Definition is_object (v : Value) : bool :=
  match v with VObject _ => true | _ => false end.

(** [value.get(k).and_then(Value::as_str)] and its siblings. *)
Definition get_str (v : Value) (k : string) : option string := get v k ≫= as_str.
Definition get_bool (v : Value) (k : string) : option bool := get v k ≫= as_bool.
Definition get_u64 (v : Value) (k : string) : option Z := get v k ≫= as_u64.
Definition get_i64 (v : Value) (k : string) : option Z := get v k ≫= as_i64.
Definition get_array (v : Value) (k : string) : option (list Value) := get v k ≫= as_array.

(** [json!(...)] of an unsigned integer, a signed one and an optional value. *)
Definition jnat (n : Z) : Value := VNumber (PosInt n).
Definition jint (n : Z) : Value :=
  VNumber (if decide (0 ≤ n)%Z then PosInt n else NegInt n).
Definition jopt {A} (f : A → Value) (o : option A) : Value :=
  match o with Some x => f x | None => VNull end.

(** ** Facts *)

Lemma map_get_nil k : map_get [] k = None.
Proof. done. Qed.

Lemma map_get_cons k k' v m :
  map_get ((k', v) :: m) k = if decide (k' = k) then Some v else map_get m k.
Proof. unfold map_get. rewrite find_where_cons. simpl. by case_decide. Qed.

Lemma map_get_insert k v m : map_get (map_insert k v m) k = Some v.
Proof.
  induction m as [|[k' v'] m IH]; simpl.
  { by rewrite map_get_cons, decide_True. }
  destruct (String.compare k k') eqn:E; rewrite map_get_cons.
  1,2: by rewrite decide_True.
  rewrite decide_False; [done|]. intros ->. by rewrite (cmp_refl String.compare) in E.
Qed.

Lemma map_get_insert_ne k k' v m : k ≠ k' → map_get (map_insert k v m) k' = map_get m k'.
Proof.
  intros Hne. induction m as [|[k2 v2] m IH]; simpl.
  { by rewrite map_get_cons, decide_False. }
  destruct (String.compare k k2) eqn:E; rewrite !map_get_cons.
  - apply String.compare_eq_iff in E as <-. by rewrite !decide_False.
  - by rewrite decide_False.
  - by rewrite IH.
Qed.

Lemma map_get_elem m k v : map_get m k = Some v → (k, v) ∈ m.
Proof.
  unfold map_get. rewrite fmap_Some. intros ([k' v'] & [? Heq]%find_where_Some & ->).
  by simpl in Heq; subst.
Qed.

Lemma map_get_app m m' k : map_get (m ++ m') k = or_else (map_get m k) (map_get m' k).
Proof. unfold map_get. rewrite find_where_app. by destruct (find_where _ m). Qed.

(** A literal is looked up from its last field. *)
Lemma map_get_foldl fields m k :
  map_get (foldl (λ m kv, map_insert kv.1 kv.2 m) m fields) k
  = or_else (map_get (reverse fields) k) (map_get m k).
Proof.
  revert m. induction fields as [|[k' v] fields IH]; intros m; simpl; [done|].
  rewrite IH, reverse_cons, map_get_app, map_get_cons, map_get_nil.
  destruct (map_get (reverse fields) k); simpl; [done|].
  case_decide as Hk; [subst; by rewrite map_get_insert|]. by rewrite map_get_insert_ne.
Qed.

Lemma map_get_jmap fields k : map_get (jmap fields) k = map_get (reverse fields) k.
Proof. unfold jmap. rewrite map_get_foldl. by destruct (map_get _ k). Qed.

Lemma get_jobj fields k : get (jobj fields) k = map_get (reverse fields) k.
Proof. apply map_get_jmap. Qed.

(** Looks literal keys up in literal objects. *)
Ltac jget :=
  repeat rewrite ?get_jobj, ?map_get_jmap;
  cbn [reverse rev_append rev app];
  repeat (rewrite map_get_cons;
          first [rewrite decide_True by reflexivity | rewrite decide_False by discriminate]).

#[export] Hint Rewrite map_get_insert map_get_cons : mesh_rw.
