(* ===== verification/Extern.v ===== *)
(** * What the program takes from its environment

    Third-party crates, the operating system's clock and random generator and
    the iteration order of [HashMap] are parameters of the model: the fields of
    [Extern].  [ExternLaws] states the documented facts the theorems rely on;
    [demo_extern] is an instance that satisfies them, used to evaluate the
    model.  Times are counted in nanoseconds, as [chrono::DateTime] does. *)

From stdpp Require Import prelude strings pretty gmap.
From Stdlib Require Import Ascii.
From S2P Require Import Prelude RustStr Json.

Abbreviation Uuid := Z.
Abbreviation DateTime := Z.

Definition seconds (n : Z) : Z := n * 1000000000.
Definition minutes (n : Z) : Z := seconds (n * 60).
Definition hours (n : Z) : Z := minutes (n * 60).
Definition days (n : Z) : Z := hours (n * 24).

Class Extern := {
  (** [str::to_lowercase] on text with non-ASCII characters (Unicode tables). *)
  unicode_to_lowercase : string → string;
  (** [Uuid]'s [Display] and [Uuid::simple]. *)
  uuid_to_string : Uuid → string;
  uuid_simple : Uuid → string;
  (** [chrono]: [format("%Y%m%d%H%M%S")] and the serde form of a time. *)
  format_ymdhms : DateTime → string;
  rfc3339 : DateTime → string;
  (** [sha2]: the lower-case hexadecimal SHA-256 digest. *)
  sha256_hex : string → string;
  (** [argon2]: hashing with the salt drawn from the given random value, and
      verification, whose error is an unreadable hash. *)
  argon2_hash : string → Z → Result string string;
  argon2_verify : string → string → Result bool string;
  (** The values drawn by [Uuid::new_v4] and [OsRng], and read by [Utc::now]. *)
  rng : nat → Uuid;
  clock : nat → DateTime;
  (** The order in which a [HashMap] with these entries is iterated. *)
  hash_iter : ∀ {A : Type}, list A → list A;
}.

Class ExternLaws `{!Extern} : Prop := {
  (** Version 4 uuids do not repeat. *)
  rng_inj : ∀ i j, rng i = rng j → i = j;
  (** An iteration visits every entry once. *)
  hash_iter_perm : ∀ A (l : list A), hash_iter l ≡ₚ l;
  (** The hyphenated and the simple form identify a uuid. *)
  uuid_to_string_inj : ∀ u v, uuid_to_string u = uuid_to_string v → u = v;
  uuid_simple_inj : ∀ u v, uuid_simple u = uuid_simple v → u = v;
  (** A hash verifies exactly the password it was made from. *)
  argon2_verify_hash : ∀ password salt h password',
    argon2_hash password salt = Ok h →
    argon2_verify h password' = Ok (bool_decide (password' = password));
}.

(** A clock that does not run backwards.  [Utc::now] does not promise this (the system clock
    may be set back), so it is a hypothesis of its own, of the few theorems that need it. *)
Class SteadyClock `{!Extern} : Prop := clock_mono : ∀ i j, i ≤ j → (clock i ≤ clock j)%Z.

(** [str::to_lowercase]: ASCII text needs no table. *)
Definition to_lowercase `{!Extern} (s : string) : string :=
  if forallb is_ascii (bytes s) then to_ascii_lowercase s else unicode_to_lowercase s.

(** ** Iterating over a [HashMap] *)

(** [map.values()] and [map.iter()]. *)
Definition values `{!Extern, Countable K} {V} (m : gmap K V) : list V :=
  hash_iter ((map_to_list m).*2).
Definition entries `{!Extern, Countable K} {V} (m : gmap K V) : list (K * V) :=
  hash_iter (map_to_list m).

(** [HashSet] iterated. *)
Definition set_values `{!Extern, Countable K} (m : gset K) : list K :=
  hash_iter (elements m).

Section Iteration.
Context `{!Extern, !ExternLaws, Countable K} {V : Type}.
Implicit Types m : gmap K V.

Lemma elem_of_hash_iter {A} (x : A) l : x ∈ hash_iter l ↔ x ∈ l.
Proof. by rewrite hash_iter_perm. Qed.

Lemma elem_of_values m v : v ∈ values m ↔ ∃ k, m !! k = Some v.
Proof.
  unfold values. rewrite elem_of_hash_iter, list_elem_of_fmap. split.
  - intros ([k v'] & -> & ?%elem_of_map_to_list). eauto.
  - intros [k Hk]. exists (k, v). by rewrite elem_of_map_to_list.
Qed.

Lemma elem_of_entries m k v : (k, v) ∈ entries m ↔ m !! k = Some v.
Proof. unfold entries. by rewrite elem_of_hash_iter, elem_of_map_to_list. Qed.

Lemma elem_of_set_values (X : gset K) k : k ∈ set_values X ↔ k ∈ X.
Proof. unfold set_values. by rewrite elem_of_hash_iter, elem_of_elements. Qed.

Lemma NoDup_entries m : NoDup (entries m).
Proof. unfold entries. rewrite hash_iter_perm. apply NoDup_map_to_list. Qed.

Lemma length_values m : length (values m) = size m.
Proof. unfold values. by rewrite hash_iter_perm, length_fmap, length_map_to_list. Qed.

(** A search over the values that at most one entry satisfies finds it,
    whatever the iteration order. *)
Lemma find_values_unique (P : V → Prop) `{!∀ x, Decision (P x)} m k v :
  m !! k = Some v → P v → (∀ k' v', m !! k' = Some v' → P v' → v' = v) →
  find_where P (values m) = Some v.
Proof.
  intros Hk HP Huniq. apply find_where_unique; [apply elem_of_values; eauto|done|].
  intros v' [k' Hk']%elem_of_values. by apply Huniq with k'.
Qed.
End Iteration.

(** ** A concrete environment *)

(** Injective by construction: uuids are printed as decimal numbers, password
    hashes keep their input. *)
#[export] Instance demo_extern : Extern := {|
  unicode_to_lowercase s := s;
  uuid_to_string u := pretty u;
  uuid_simple u := pretty u;
  format_ymdhms t := pretty t;
  rfc3339 t := pretty t;
  sha256_hex s := "sha256:" +:+ s;
  argon2_hash password _ := Ok ("$argon2$" +:+ password);
  argon2_verify h password :=
    match strip_prefix "$argon2$" h with
    | Some p => Ok (String.eqb password p)
    | None => Err "password hash string invalid"
    end;
  rng i := Z.of_nat (1000 + i);
  clock i := Z.of_nat i;
  hash_iter A l := l;
|}.

#[export] Instance demo_extern_laws : @ExternLaws demo_extern.
Proof.
  split; simpl.
  - intros i j H. lia.
  - done.
  - intros u v. apply (inj pretty).
  - intros u v. apply (inj pretty).
  - intros p _ h p' [= <-]. f_equal. unfold strip_prefix. cbn -[String.eqb bool_decide].
    rewrite of_bytes_bytes. apply eq_true_iff_eq.
    by rewrite bool_decide_eq_true, String.eqb_eq.
Qed.

#[export] Instance demo_steady_clock : @SteadyClock demo_extern.
Proof. intros i j H. simpl. lia. Qed.
