(* ===== verification/AppError.v ===== *)
(** * Errors of the hub API (apps/hub-api/src/error.rs) *)

From stdpp Require Import prelude strings.
From S2P Require Import Prelude Json Extern.

Record AppError := mkAppError {
  status : Z;
  code : string;
  message : string;
}.

#[export] Instance AppError_eq_dec : EqDecision AppError.
Proof. solve_decision. Defined.

Definition bad_request (message : string) : AppError := mkAppError 400 "bad_request" message.
Definition not_found (message : string) : AppError := mkAppError 404 "not_found" message.
Definition conflict (message : string) : AppError := mkAppError 409 "conflict" message.
Definition unauthorized (message : string) : AppError := mkAppError 401 "unauthorized" message.
Definition internal (message : string) : AppError := mkAppError 500 "internal_error" message.

Record ApiErrorBody := { body_code : string; body_message : string; details : Value }.
Record ErrorEnvelope := { request_id : Uuid; error : ApiErrorBody }.

(** The HTTP status and body; [fresh] is the request id it draws. *)
Definition into_response (e : AppError) (fresh : Uuid) : Z * ErrorEnvelope :=
  (status e,
   {| request_id := fresh;
      error := {| body_code := code e; body_message := message e; details := VObject [] |} |}).

Abbreviation Fallible A := (Result A AppError).
