(* ===== verification/OpsTemplate.v ===== *)
(** * Operation templates (crates/ops-orchestrator)

    An operation template is a command line with [{{key}}] placeholders and the
    list of the parameters it accepts.  [render_command] checks the parameters
    and replaces the placeholders one key after the other.  The abstract
    template of Section [Spec] is a list of pieces, substituted at once; the
    refinement theorem shows that both agree on brace-free texts. *)

From stdpp Require Import prelude strings pretty.
From Stdlib Require Import Ascii.
From S2P Require Import Prelude RustStr Json.

Inductive OperationKind :=
  | VipBind
  | VipUnbind
  | RouteSwitch
  | ServiceReload
  | CustomTemplate.

Record OperationTemplate := {
  name : string;
  kind : OperationKind;
  command_template : string;
  allowed_params : list string;
  timeout_seconds : Z;
}.

Inductive OperationValidationError :=
  | UnknownParam (key : string)
  | InvalidValue (key : string)
  | MissingValue (key : string).

(** [format!("{{{{{key}}}}}")]. *)
Definition placeholder (key : string) : string := "{{" +:+ key +:+ "}}".

(** The text a scalar value is replaced with. *)
Definition replacement (value : Value) : option string :=
  match value with
  | VString v => Some v
  | VNumber v => Some (number_to_string v)
  | VBool v => Some (bool_to_string v)
  | _ => None
  end.

(** The first loop: the parameter keys, in map order, against the allowed ones. *)
Fixpoint check_params (allowed : list string) (keys : list string) :
    Result unit OperationValidationError :=
  match keys with
  | [] => Ok tt
  | key :: keys' =>
      if decide (key ∈ allowed) then check_params allowed keys' else Err (UnknownParam key)
  end.

(** The second loop: the allowed keys, in declaration order. *)
Fixpoint render_loop (params : Map) (keys : list string) (rendered : string) :
    Result string OperationValidationError :=
  match keys with
  | [] => Ok rendered
  | key :: keys' =>
      if contains (placeholder key) rendered then
        let? value := ok_or (map_get params key) (MissingValue key) in
        let? text := ok_or (replacement value) (InvalidValue key) in
        render_loop params keys' (replace (placeholder key) text rendered)
      else render_loop params keys' rendered
  end.

Definition render_command (self : OperationTemplate) (params : Map) :
    Result string OperationValidationError :=
  let? _ := check_params (allowed_params self) params.*1 in
  render_loop params (allowed_params self) (command_template self).

(** ** Abstract templates *)

Inductive piece :=
  | Lit (text : string)
  | Hole (key : string).

#[export] Instance piece_eq_dec : EqDecision piece.
Proof. solve_decision. Defined.

Definition print_piece (p : piece) : string :=
  match p with Lit t => t | Hole k => placeholder k end.

Definition print_template (ps : list piece) : string :=
  foldr (λ p s, print_piece p +:+ s) "" ps.

(** No byte of the text is a brace. *)
Definition brace_free (s : string) : Prop :=
  Forall (λ c, c ≠ "{"%char ∧ c ≠ "}"%char) (bytes s).

Definition piece_ok (p : piece) : Prop :=
  match p with Lit t => brace_free t | Hole k => brace_free k end.

(** The value of a parameter, or the error that using it raises. *)
Definition param_text (params : Map) (key : string) : Result string OperationValidationError :=
  match map_get params key with
  | None => Err (MissingValue key)
  | Some v => ok_or (replacement v) (InvalidValue key)
  end.

(** Substitution of the holes for which [f] has a text. *)
Definition subst_pieces (f : string → option string) (ps : list piece) : list piece :=
  (λ p, match p with
        | Lit t => Lit t
        | Hole k => match f k with Some v => Lit v | None => Hole k end
        end) <$> ps.

(** The placeholders of the declared [keys]: every one that occurs has a scalar
    value, and all are substituted simultaneously. *)
Definition spec_loop (params : Map) (keys : list string) (ps : list piece) :
    Result string OperationValidationError :=
  match find_where (λ k, Hole k ∈ ps ∧ is_ok (param_text params k) = false) keys with
  | Some k => match param_text params k with Err e => Err e | Ok _ => Ok "" end
  | None =>
      Ok (print_template
            (subst_pieces
               (λ k, if decide (k ∈ keys) then ok (param_text params k) else None) ps))
  end.

(** The specification: the first parameter that is not declared is an error, and
    otherwise [spec_loop]. *)
Definition spec_render (allowed : list string) (params : Map) (ps : list piece) :
    Result string OperationValidationError :=
  match filter (λ key, key ∉ allowed) params.*1 with
  | key :: _ => Err (UnknownParam key)
  | [] => spec_loop params allowed ps
  end.

Lemma check_params_first allowed keys :
  check_params allowed keys
  = match filter (λ key, key ∉ allowed) keys with key :: _ => Err (UnknownParam key) | [] => Ok tt end.
Proof.
  induction keys as [|key keys IH]; [done|]. cbn [check_params]. case_decide as Hin.
  - rewrite filter_cons_False; [done|]. tauto.
  - by rewrite filter_cons_True.
Qed.

(** ** Placeholders inside printed templates *)

Definition open_brace : ascii := "{"%char.
Definition close_brace : ascii := "}"%char.

Lemma bytes_placeholder k :
  bytes (placeholder k)
  = open_brace :: open_brace :: (bytes k ++ [close_brace; close_brace]).
Proof. unfold placeholder. by rewrite !bytes_app. Qed.

Lemma brace_free_open k : brace_free k → open_brace ∉ bytes k.
Proof. unfold brace_free. rewrite Forall_forall. intros H Hin. by destruct (H _ Hin). Qed.

Lemma brace_free_close k : brace_free k → close_brace ∉ bytes k.
Proof. unfold brace_free. rewrite Forall_forall. intros H Hin. by destruct (H _ Hin). Qed.

Lemma strip_placeholder_ne k k' l :
  brace_free k → brace_free k' → k ≠ k' →
  strip_list (bytes (placeholder k)) (bytes (placeholder k') ++ l) = None.
Proof.
  intros Hk Hk' Hne. rewrite !bytes_placeholder.
  destruct (strip_list _ _) as [r|] eqn:E; [|done].
  apply strip_list_Some in E. simplify_eq/=. rewrite <-!(assoc_L (++)) in E. simpl in E.
  apply app_sep_inj in E as [E _]; [|by apply brace_free_close..].
  exfalso. apply Hne. by apply (inj (λ s, bytes s)).
Qed.

(** The second brace of a placeholder starts no match: what follows is no
    opening brace. *)
Lemma strip_placeholder_second k k' l :
  brace_free k' →
  strip_list (bytes (placeholder k))
    (open_brace :: (bytes k' ++ close_brace :: close_brace :: l)) = None.
Proof.
  intros Hk'. rewrite bytes_placeholder. destruct (strip_list _ _) as [r|] eqn:E; [|done].
  apply strip_list_Some in E. simplify_eq/=.
  destruct (bytes k') as [|c t] eqn:Ek'; simplify_eq/=.
  apply brace_free_open in Hk'. rewrite Ek' in Hk'. set_solver.
Qed.

Lemma bytes_print_cons p ps :
  bytes (print_template (p :: ps)) = bytes (print_piece p) ++ bytes (print_template ps).
Proof. apply bytes_app. Qed.

Section Scanning.
Context (k : string) (Hk : brace_free k).

Lemma replace_literal v t l :
  brace_free t →
  replace_list (bytes (placeholder k)) v O (bytes t ++ l)
  = bytes t ++ replace_list (bytes (placeholder k)) v O l.
Proof.
  intros Ht. rewrite bytes_placeholder. by apply replace_list_no_head, brace_free_open.
Qed.

Lemma replace_hole_same v l :
  replace_list (bytes (placeholder k)) v O (bytes (placeholder k) ++ l)
  = v ++ replace_list (bytes (placeholder k)) v O l.
Proof. rewrite bytes_placeholder. apply replace_list_match. Qed.

Lemma replace_hole_other v k' l :
  brace_free k' → k ≠ k' →
  replace_list (bytes (placeholder k)) v O (bytes (placeholder k') ++ l)
  = bytes (placeholder k') ++ replace_list (bytes (placeholder k)) v O l.
Proof.
  intros Hk' Hne. pose proof (strip_placeholder_ne k k' l Hk Hk' Hne) as H1.
  pose proof (strip_placeholder_second k k' l Hk') as H2. revert H1 H2.
  rewrite !bytes_placeholder. cbn [app]. rewrite <-!(assoc_L (++)). cbn [app]. intros H1 H2.
  rewrite replace_list_no_match by done. f_equal.
  rewrite replace_list_no_match by done. f_equal.
  rewrite replace_list_no_head by (by apply brace_free_open). by f_equal.
Qed.

Lemma contains_literal t l :
  brace_free t →
  contains_list (bytes (placeholder k)) (bytes t ++ l)
  = contains_list (bytes (placeholder k)) l.
Proof.
  intros Ht. rewrite bytes_placeholder. by apply contains_list_no_head, brace_free_open.
Qed.

Lemma contains_hole_other k' l :
  brace_free k' → k ≠ k' →
  contains_list (bytes (placeholder k)) (bytes (placeholder k') ++ l)
  = contains_list (bytes (placeholder k)) l.
Proof.
  intros Hk' Hne. pose proof (strip_placeholder_ne k k' l Hk Hk' Hne) as H1.
  pose proof (strip_placeholder_second k k' l Hk') as H2. revert H1 H2.
  rewrite !bytes_placeholder. cbn [app]. rewrite <-!(assoc_L (++)). cbn [app]. intros H1 H2.
  rewrite contains_list_no_match by done. rewrite contains_list_no_match by done.
  by rewrite contains_list_no_head by (by apply brace_free_open).
Qed.

Lemma contains_printed ps :
  Forall piece_ok ps →
  contains (placeholder k) (print_template ps) = bool_decide (Hole k ∈ ps).
Proof.
  unfold contains. induction 1 as [|p ps Hp _ IH].
  { rewrite bool_decide_false by set_solver. by rewrite bytes_placeholder. }
  rewrite bytes_print_cons. destruct p as [t|k']; cbn [print_piece piece_ok] in *.
  { rewrite contains_literal, IH by done. apply bool_decide_ext. set_solver. }
  destruct (decide (k = k')) as [<-|Hne].
  - rewrite bool_decide_true by set_solver. rewrite bytes_placeholder.
    apply contains_list_match.
  - rewrite contains_hole_other, IH by done. apply bool_decide_ext. set_solver.
Qed.

(** One replacement substitutes the holes of one key. *)
Lemma replace_printed v ps :
  Forall piece_ok ps →
  replace (placeholder k) v (print_template ps)
  = print_template (subst_pieces (λ k', if decide (k' = k) then Some v else None) ps).
Proof.
  intros Hps. apply (inj (λ s, bytes s)). unfold replace. rewrite bytes_of_bytes.
  induction Hps as [|p ps Hp _ IH]; [done|]. cbn [subst_pieces fmap list_fmap].
  rewrite !bytes_print_cons. destruct p as [t|k']; cbn [print_piece piece_ok] in *.
  { by rewrite replace_literal, IH. }
  case_decide as Heq; cbn [print_piece]; [subst k'; by rewrite replace_hole_same, IH|].
  rewrite replace_hole_other, IH by congruence. done.
Qed.
End Scanning.

(** ** The loop *)

Lemma subst_pieces_ok f ps :
  Forall piece_ok ps → (∀ k v, f k = Some v → brace_free v) → Forall piece_ok (subst_pieces f ps).
Proof.
  intros Hps Hf. apply Forall_fmap. eapply Forall_impl; [done|]. intros [t|k] Hp; simpl; [done|].
  destruct (f k) eqn:E; simpl; eauto.
Qed.

Lemma subst_pieces_compose f g ps :
  subst_pieces g (subst_pieces f ps)
  = subst_pieces (λ k, match f k with Some v => Some v | None => g k end) ps.
Proof.
  unfold subst_pieces. rewrite <-list_fmap_compose. apply list_fmap_ext.
  intros _ [t|k] _; simpl; [done|]. by destruct (f k).
Qed.

Lemma subst_pieces_ext f g ps :
  (∀ k, Hole k ∈ ps → f k = g k) → subst_pieces f ps = subst_pieces g ps.
Proof.
  intros H. apply list_fmap_ext. intros i [t|k] Hi; [done|].
  rewrite H; [done|]. by eapply list_elem_of_lookup_2.
Qed.

Lemma elem_of_subst_pieces f k ps :
  Hole k ∈ subst_pieces f ps ↔ Hole k ∈ ps ∧ f k = None.
Proof.
  unfold subst_pieces. rewrite list_elem_of_fmap. split.
  - intros ([t|k'] & Heq & Hin); [done|]. destruct (f k') eqn:E; naive_solver.
  - intros [Hin E]. exists (Hole k). by rewrite E.
Qed.

Lemma subst_pieces_id f ps : (∀ k, Hole k ∈ ps → f k = None) → subst_pieces f ps = ps.
Proof.
  intros H. unfold subst_pieces. rewrite <-(list_fmap_id ps) at 2. apply list_fmap_ext.
  intros i [t|k] Hi; [done|]. rewrite H; [done|]. by eapply list_elem_of_lookup_2.
Qed.

Definition texts_brace_free (params : Map) : Prop :=
  ∀ k v, param_text params k = Ok v → brace_free v.

Section Loop.
Context (params : Map) (Hparams : texts_brace_free params).

Lemma param_text_bind k :
  (let? value := ok_or (map_get params k) (MissingValue k) in
   ok_or (replacement value) (InvalidValue k)) = param_text params k.
Proof. unfold param_text. by destruct (map_get params k). Qed.

(** The loop steps over a key whose hole does not occur, fails on one without
    a usable value, and otherwise substitutes it. *)
Lemma render_loop_cons k keys s :
  render_loop params (k :: keys) s
  = if contains (placeholder k) s
    then let? text := param_text params k in
         render_loop params keys (replace (placeholder k) text s)
    else render_loop params keys s.
Proof.
  simpl. destruct (contains _ _); [|done]. rewrite <-param_text_bind.
  by destruct (ok_or (map_get params k) _).
Qed.

Lemma spec_loop_skip k keys ps :
  Hole k ∉ ps → spec_loop params (k :: keys) ps = spec_loop params keys ps.
Proof.
  intros Hk. unfold spec_loop. rewrite find_where_cons, decide_False by tauto.
  destruct (find_where _ keys); [done|]. f_equal. f_equal. apply subst_pieces_ext.
  intros k' Hk'. apply decide_ext. rewrite elem_of_cons. naive_solver.
Qed.

Lemma spec_loop_subst k keys ps v :
  Hole k ∈ ps → param_text params k = Ok v →
  spec_loop params (k :: keys) ps
  = spec_loop params keys
      (subst_pieces (λ k', if decide (k' = k) then Some v else None) ps).
Proof.
  intros Hk Hv. unfold spec_loop.
  rewrite find_where_cons, decide_False by (rewrite Hv; naive_solver).
  assert (find_where (λ k0, Hole k0 ∈ ps ∧ is_ok (param_text params k0) = false) keys
          = find_where (λ k0, Hole k0 ∈ subst_pieces
              (λ k', if decide (k' = k) then Some v else None) ps
              ∧ is_ok (param_text params k0) = false) keys) as <-.
  { unfold find_where. f_equal. apply list_find_ext. intros k0.
    rewrite elem_of_subst_pieces. case_decide; [|naive_solver].
    subst. rewrite Hv. naive_solver. }
  destruct (find_where _ keys); [done|]. f_equal. f_equal.
  rewrite subst_pieces_compose. apply subst_pieces_ext. intros k' _.
  destruct (decide (k' = k)) as [->|Hne].
  - rewrite decide_True by set_solver. by rewrite Hv.
  - apply decide_ext. set_solver.
Qed.

Lemma render_loop_refines keys ps :
  Forall brace_free keys → Forall piece_ok ps →
  render_loop params keys (print_template ps) = spec_loop params keys ps.
Proof.
  intros Hkeys. revert ps. induction Hkeys as [|k keys Hk _ IH]; intros ps Hps.
  { unfold spec_loop. simpl. by rewrite subst_pieces_id. }
  rewrite render_loop_cons, contains_printed by done.
  case_bool_decide as Hin; [|by rewrite spec_loop_skip, IH].
  destruct (param_text params k) as [v|e] eqn:Hv; simpl.
  - rewrite replace_printed, (spec_loop_subst k _ _ v) by done.
    apply IH, subst_pieces_ok; [done|]. intros k' v' Hk'.
    case_decide; simplify_eq. by eapply Hparams.
  - unfold spec_loop. rewrite find_where_cons, decide_True by (by rewrite Hv). by rewrite Hv.
Qed.
End Loop.

(** C25: On a template whose literal texts, declared keys and parameter values
    hold no brace, [render_command] is the abstract rendering: it reports the
    first unknown parameter, else the first declared placeholder of the template
    whose value is missing or not a scalar, and otherwise substitutes all the
    declared placeholders simultaneously, although the code replaces them one
    key after the other. *)
Theorem render_command_refines (t : OperationTemplate) (ps : list piece) (params : Map) :
  command_template t = print_template ps →
  Forall piece_ok ps → Forall brace_free (allowed_params t) → texts_brace_free params →
  render_command t params = spec_render (allowed_params t) params ps.
Proof.
  intros Ht Hps Hkeys Hparams. unfold render_command, spec_render.
  rewrite check_params_first. destruct (filter _ _); simpl; [|done]. rewrite Ht.
  by apply render_loop_refines.
Qed.

Definition demo_template : OperationTemplate := {|
  name := "vip"; kind := VipBind;
  command_template := "ip addr add {{vip}} dev {{dev}}";
  allowed_params := ["dev"; "vip"]; timeout_seconds := 30 |}.
Definition demo_pieces : list piece :=
  [Lit "ip addr add "; Hole "vip"; Lit " dev "; Hole "dev"].
Definition demo_params : Map := [("dev", VString "eth0"); ("vip", VNumber (PosInt 7))].

Lemma render_command_refines_witness :
  render_command demo_template demo_params = Ok "ip addr add 7 dev eth0"
  ∧ render_command demo_template demo_params
    = spec_render (allowed_params demo_template) demo_params demo_pieces.
Proof.
  split; [vm_compute; reflexivity|].
  apply (render_command_refines demo_template demo_pieces demo_params).
  - reflexivity.
  - repeat constructor; discriminate.
  - repeat constructor; discriminate.
  - intros k v. unfold param_text, demo_params. rewrite !map_get_cons.
    repeat case_decide; simpl; intros; simplify_eq/=; repeat constructor; discriminate.
Defined.
