(* ===== verification/SiteConfig.v ===== *)
(** * Site configuration (apps/hub-api/src/store.rs and service.rs)

    A site carries its configuration as a JSON document.  The service checks it
    when a site is created or edited ([validate_site_config]); the store reads
    it into upstreams, routes and cache rules when a release is compiled
    ([parse_upstreams], [parse_routes], [parse_cache_rules]).  The theorems
    relate the two readings. *)

From stdpp Require Import prelude strings pretty gmap sorting.
From Stdlib Require Import Ascii.
From S2P Require Import Prelude RustStr Json Extern AppError Domain.

(** ** Reading (store.rs) *)

Definition normalize_upstream_balance_method (raw : string) : UpstreamBalanceMethod :=
  let s := to_ascii_lowercase (trim raw) in
  if decide (s ∈ ["weighted_round_robin"; "weighted"; "weight"; "wrr"]) then WeightedRoundRobin
  else if decide (s ∈ ["least_connections"; "least_conn"; "least-connections"; "least-conn"])
  then LeastConnections
  else if decide (s ∈ ["ip_hash"; "ip-hash"; "hash"]) then IpHash
  else RoundRobin.

Definition parse_upstream_balance_method (upstream : Value) : UpstreamBalanceMethod :=
  let raw := or_else (or_else (get upstream "balance_method") (get upstream "distribution_method"))
                     (get upstream "method") in
  default default_balance_method (normalize_upstream_balance_method <$> (raw ≫= as_str)).

Definition parse_endpoint_object (map : Map) : option UpstreamEndpoint :=
  address ← map_get map "address" ≫= as_str;
  Some {|
    address := address;
    weight := default 100%Z ((map_get map "weight" ≫= as_u64) ≫= try_from 0 u16_max);
    active := default true (map_get map "active" ≫= as_bool);
    backup := default false (map_get map "backup" ≫= as_bool);
  |}.

Definition parse_endpoint (endpoint : Value) : option UpstreamEndpoint :=
  match endpoint with
  | VString address => Some (mkUpstreamEndpoint address 100 true false)
  | VObject map => parse_endpoint_object map
  | _ => None
  end.

Definition parse_upstream (upstream : Value) : option Upstream :=
  name ← get upstream "name" ≫= as_str;
  Some {|
    upstream_name := name;
    balance_method := parse_upstream_balance_method upstream;
    endpoints := default [] (filter_map parse_endpoint <$> get_array upstream "endpoints");
  |}.

Definition parse_upstreams (config : Value) : list Upstream :=
  default [] (filter_map parse_upstream <$> get_array config "upstreams").

Definition parse_route_match_type (raw : string) : RouteMatchType :=
  if decide (to_ascii_lowercase (trim raw) ∈ ["path_exact"; "exact"; "="])
  then PathExact else PathPrefix.

(** [priority] and [enabled], read alike by the service and the store. *)
Definition route_priority (map : Map) : Z :=
  default 100%Z ((map_get map "priority" ≫= as_i64) ≫= try_from i32_min i32_max).
Definition route_is_enabled (map : Map) : bool :=
  default true (map_get map "enabled" ≫= as_bool).

Definition parse_route_value (route : Value) : option SiteRoute :=
  map ← as_object route;
  name ← trim <$> (map_get map "name" ≫= as_str);
  path ← trim <$> (map_get map "path" ≫= as_str);
  upstream ← trim <$> (map_get map "upstream" ≫= as_str);
  if is_empty name || is_empty path || is_empty upstream then None
  else Some {|
    route_name := name;
    route_enabled := route_is_enabled map;
    match_type :=
      default PathPrefix (parse_route_match_type <$> (map_get map "match_type" ≫= as_str));
    path := path;
    upstream := upstream;
    priority := route_priority map;
    strip_path_prefix := default false (map_get map "strip_prefix" ≫= as_bool);
  |}.

Definition route_match_rank (m : RouteMatchType) : Z :=
  match m with PathExact => 0 | PathPrefix => 1 end.

Definition path_len (r : SiteRoute) : nat := String.length (path r).

(** The comparator of [sort_site_routes]: lower priority number, then longer
    path, then exact before prefix, then name. *)
Definition route_cmp : SiteRoute → SiteRoute → comparison :=
  cmp_then (cmp_on priority Z.compare)
    (cmp_then (cmp_rev (cmp_on path_len Nat.compare))
       (cmp_then (cmp_on (λ r, route_match_rank (match_type r)) Z.compare)
          (cmp_on route_name String.compare))).

Definition sort_site_routes (routes : list SiteRoute) : list SiteRoute :=
  sort_by route_cmp routes.

Definition default_site_routes (upstreams : list Upstream) : list SiteRoute :=
  match upstreams with
  | [] => []
  | u :: _ => [mkSiteRoute "default" true PathPrefix "/" (upstream_name u) 1000 false]
  end.

Definition parse_routes (config : Value) (upstreams : list Upstream) : list SiteRoute :=
  match get config "routes" with
  | Some (VArray routes) => sort_site_routes (filter_map parse_route_value routes)
  | Some _ => []
  | None => default_site_routes upstreams
  end.

Definition parse_cache_rule `{!Extern} (rule : Value) : option CacheRule :=
  name ← trim <$> get_str rule "name";
  if is_empty name then None else
  expires_seconds ← get_u64 rule "expires_seconds";
  if (expires_seconds =? 0)%Z then None else
  let match_extensions :=
    default []
      ((λ items,
          filter (λ item, item ≠ "")
            ((λ item, to_lowercase (trim_start_matches "." (trim item))) <$> filter_map as_str items))
       <$> get_array rule "match_extensions") in
  if decide (match_extensions = []) then None else
  let cache_control :=
    match trim <$> get_str rule "cache_control" with
    | Some c => if is_empty c then "public, max-age=" +:+ pretty expires_seconds else c
    | None => "public, max-age=" +:+ pretty expires_seconds
    end in
  Some (mkCacheRule name match_extensions expires_seconds cache_control).

Definition parse_cache_rules `{!Extern} (config : Value) : list CacheRule :=
  default [] (filter_map parse_cache_rule <$> get_array config "cache_rules").

(** ** Checking (service.rs) *)

Definition required_route_string (route : Map) (key : string) : Fallible string :=
  ok_or (trim <$> (map_get route key ≫= as_str))
        (bad_request ("route " +:+ key +:+ " is required")).

(** The upstream names of a configuration: trimmed, the blank ones left out. *)
Definition upstream_names (config : Value) : gset string :=
  list_to_set
    (default []
       ((λ upstreams,
           filter (λ name, name ≠ "") (trim <$> filter_map (λ u, get_str u "name") upstreams))
        <$> get_array config "upstreams")).

(** The keys of the enabled routes seen so far, and whether one of them is the
    default route. *)
Definition RouteScan : Type := gset (string * string * Z) * bool.

(** The body of the loop over the routes. *)
Definition validate_route (names : gset string) (route : Value) (scan : RouteScan) :
    Fallible RouteScan :=
  let? route := ok_or (as_object route) (bad_request "route must be an object") in
  let? name := required_route_string route "name" in
  let? path := required_route_string route "path" in
  let? upstream := required_route_string route "upstream" in
  let? match_type := required_route_string route "match_type" in
  let priority := route_priority route in
  let enabled := route_is_enabled route in
  if is_empty name then Err (bad_request "route name is required")
  else if negb (starts_with "/" path) then Err (bad_request "route path must start with /")
  else if negb (bool_decide (match_type ∈ ["path_prefix"; "path_exact"]))
  then Err (bad_request "route match_type must be path_prefix or path_exact")
  else if negb (bool_decide (upstream ∈ names))
  then Err (bad_request ("route upstream " +:+ upstream +:+ " does not exist"))
  else if enabled then
    let '(active_keys, has_default_route) := scan in
    let has_default_route := if String.eqb path "/" then true else has_default_route in
    let key := (match_type, path, priority) in
    if decide (key ∈ active_keys)
    then Err (bad_request "duplicate active route match_type, path and priority")
    else Ok ({[ key ]} ∪ active_keys, has_default_route)
  else Ok scan.

Fixpoint validate_routes (names : gset string) (routes : list Value) (scan : RouteScan) :
    Fallible RouteScan :=
  match routes with
  | [] => Ok scan
  | route :: routes' =>
      let? scan := validate_route names route scan in
      validate_routes names routes' scan
  end.

Definition validate_site_config (config : Value) : Fallible unit :=
  let names := upstream_names config in
  match get config "routes" with
  | None => Ok tt
  | Some routes_value =>
      let? routes := ok_or (as_array routes_value) (bad_request "routes must be an array") in
      if decide (routes = [] ∧ names ≠ ∅)
      then Err (bad_request
                  "routes must include a default / route when upstreams are configured")
      else
        let? scan := validate_routes names routes (∅, false) in
        if decide (names ≠ ∅ ∧ scan.2 = false)
        then Err (bad_request "routes must include an active default / route")
        else Ok tt
  end.

(** ** Specification of the check *)

(** The key under which two enabled routes would collide. *)
Definition route_key (r : SiteRoute) : RouteMatchType * string * Z :=
  (match_type r, path r, priority r).

(** The text of a match type, as the configuration writes it. *)
Definition match_type_name (m : RouteMatchType) : string :=
  match m with PathPrefix => "path_prefix" | PathExact => "path_exact" end.

(** [v] is a well-formed route whose reading is [r]. *)
Definition valid_route (names : gset string) (v : Value) (r : SiteRoute) : Prop :=
  parse_route_value v = Some r
  ∧ trim <$> get_str v "match_type" = Some (match_type_name (match_type r))
  ∧ starts_with "/" (path r) = true
  ∧ upstream r ∈ names.

Definition enabled_routes (rs : list SiteRoute) : list SiteRoute :=
  filter (λ r, route_enabled r = true) rs.

(** A default route: an enabled route for the path [/]. *)
Definition is_default_route (r : SiteRoute) : Prop := route_enabled r = true ∧ path r = "/".

(** What the check means: the routes, when given, are an array of well-formed
    routes to known upstreams, no two enabled ones collide, and one of them is
    the default route unless there is no upstream. *)
Definition site_config_valid (config : Value) : Prop :=
  match get config "routes" with
  | None => True
  | Some (VArray rs) =>
      ∃ parsed,
        Forall2 (valid_route (upstream_names config)) rs parsed
        ∧ NoDup (route_key <$> enabled_routes parsed)
        ∧ (upstream_names config ≠ ∅ → Exists is_default_route parsed)
  | Some _ => False
  end.

(** ** The check decides the specification *)

Lemma upstream_names_nonempty config name : name ∈ upstream_names config → name ≠ "".
Proof.
  unfold upstream_names. rewrite elem_of_list_to_set.
  destruct (get_array config "upstreams"); simpl; [|set_solver].
  rewrite list_elem_of_filter. tauto.
Qed.

Lemma required_route_string_Ok m k s :
  required_route_string m k = Ok s ↔ trim <$> (map_get m k ≫= as_str) = Some s.
Proof. apply ok_or_Ok. Qed.

Lemma match_type_name_parse m raw :
  trim raw = match_type_name m → parse_route_match_type raw = m.
Proof.
  intros Hraw. unfold parse_route_match_type. rewrite Hraw.
  destruct m; vm_compute; reflexivity.
Qed.

Lemma match_type_name_inj : Inj (=) (=) match_type_name.
Proof. by intros [] []. Qed.

Lemma starts_with_slash_nonempty p : starts_with "/" p = true → is_empty p = false.
Proof. by destruct p. Qed.

(** The key the loop stores for a route is the text of [route_key]. *)
Definition key_text (k : RouteMatchType * string * Z) : string * string * Z :=
  (match_type_name k.1.1, k.1.2, k.2).

Lemma key_text_inj : Inj (=) (=) key_text.
Proof.
  intros [[m p] z] [[m' p'] z'] [= Hm -> ->]. by apply match_type_name_inj in Hm as ->.
Qed.

(** The effect of one accepted route on the scan. *)
Definition scan_route (r : SiteRoute) (scan : RouteScan) : RouteScan :=
  if route_enabled r
  then ({[ key_text (route_key r) ]} ∪ scan.1,
        if String.eqb (path r) "/" then true else scan.2)
  else scan.

Lemma validate_route_Ok names v scan scan' :
  (∀ n, n ∈ names → n ≠ "") →
  validate_route names v scan = Ok scan' ↔
  ∃ r, valid_route names v r
       ∧ (route_enabled r = true → key_text (route_key r) ∉ scan.1)
       ∧ scan' = scan_route r scan.
Proof.
  intros Hnames. destruct scan as [keys dflt]. unfold validate_route, valid_route, parse_route_value.
  destruct v as [| | | | |m]; simpl; try (split; [done|intros (r & [Hp _] & _); discriminate Hp]).
  unfold required_route_string, get_str. simpl.
  destruct (map_get m "name" ≫= as_str) as [n|]; simpl; [|naive_solver].
  destruct (map_get m "path" ≫= as_str) as [p|]; simpl; [|naive_solver].
  destruct (map_get m "upstream" ≫= as_str) as [u|]; simpl; [|naive_solver].
  destruct (map_get m "match_type" ≫= as_str) as [mt|]; simpl; [|naive_solver].
  destruct (is_empty (trim n)) eqn:En; simpl; [naive_solver|].
  destruct (starts_with "/" (trim p)) eqn:Ep; simpl.
  2: { split; [done|]. intros (r & (Hr & _ & Hs & _) & _).
       destruct (is_empty (trim p) || is_empty (trim u)); simplify_eq/=. congruence. }
  rewrite (starts_with_slash_nonempty _ Ep). simpl.
  assert (Hu : trim u ∈ names → is_empty (trim u) = false).
  { intros Hin. apply is_empty_false. by apply Hnames. }
  case_bool_decide as Hmt; simpl.
  2: { split; [done|]. intros (r & (Hr & Hm & _) & _). destruct (is_empty (trim u)); [done|].
       simplify_eq/=. rewrite Hm in Hmt. destruct (parse_route_match_type mt); set_solver. }
  case_bool_decide as Hup; simpl.
  2: { split; [done|]. intros (r & (Hr & _ & _ & Hin) & _). destruct (is_empty (trim u)); [done|].
       by simplify_eq/=. }
  rewrite (Hu Hup).
  assert (Hm : trim mt = match_type_name (parse_route_match_type mt)).
  { rewrite !elem_of_cons in Hmt. destruct Hmt as [Hmt|[Hmt|Hmt]]; [| |set_solver].
    - by rewrite (match_type_name_parse PathPrefix).
    - by rewrite (match_type_name_parse PathExact). }
  unfold scan_route, key_text, route_key.
  destruct (route_is_enabled m) eqn:Een; simpl.
  - rewrite Hm. case_decide as Hk; split.
    + done.
    + intros (r & (Hr & _) & Hkey & _). simplify_eq/=. by destruct Hkey.
    + intros [= <-]. eexists. split; [split_and!; [done|simpl; by rewrite ?Hm|done..]|].
      by simpl; rewrite ?Hm.
    + intros (r & (Hr & _) & _ & ->). by simplify_eq/=.
  - split.
    + intros [= <-]. eexists. split; [split_and!; [done|simpl; by rewrite ?Hm|done..]|].
      by simpl; rewrite ?Hm.
    + intros (r & (Hr & _) & _ & ->). by simplify_eq/=.
Qed.

Lemma scan_route_default r scan :
  (scan_route r scan).2 = true ↔ is_default_route r ∨ scan.2 = true.
Proof.
  unfold scan_route, is_default_route. destruct (route_enabled r); [|naive_solver]. simpl.
  destruct (String.eqb_spec (path r) "/"); naive_solver.
Qed.

Lemma validate_routes_Ok names vs scan scan' :
  (∀ n, n ∈ names → n ≠ "") →
  validate_routes names vs scan = Ok scan' ↔
  ∃ rs, Forall2 (valid_route names) vs rs
        ∧ NoDup (route_key <$> enabled_routes rs)
        ∧ (∀ r, r ∈ enabled_routes rs → key_text (route_key r) ∉ scan.1)
        ∧ scan' = foldl (λ s r, scan_route r s) scan rs.
Proof.
  intros Hnames. revert scan. induction vs as [|v vs IH]; intros scan; simpl.
  { split.
    - intros [= ->]. exists []. split_and!; [done|constructor|set_solver|done].
    - intros (rs & Hrs & _ & _ & ->). apply Forall2_nil_inv_l in Hrs as ->. done. }
  rewrite result_bind_Ok. setoid_rewrite IH. setoid_rewrite (validate_route_Ok _ _ _ _ Hnames).
  split.
  - intros (? & (r & Hr & Hkey & ->) & rs & Hrs & Hnd & Hkeys & ->). exists (r :: rs).
    unfold enabled_routes. rewrite filter_cons. unfold scan_route in Hkeys.
    split_and!; [by constructor|..|done]; case_decide as Hen; try done.
    + rewrite fmap_cons. constructor; [|done]. intros Hin.
      apply list_elem_of_fmap in Hin as (r' & Heq & Hr').
      apply (Hkeys r' Hr'). rewrite Hen, <-Heq.
      by apply elem_of_union_l, elem_of_singleton.
    + rewrite Hen in Hkeys. simpl in Hkeys. intros r'. rewrite elem_of_cons.
      intros [->|Hr']; [auto|].
      by apply Hkeys, not_elem_of_union in Hr' as [_ ?].
    + by destruct (route_enabled r).
  - intros (rs & Hrs & Hnd & Hkeys & ->). inversion Hrs as [|? r ? rs' Hr Hrs']; subst.
    unfold enabled_routes in Hnd, Hkeys. rewrite filter_cons in Hnd, Hkeys.
    eexists. split.
    { exists r. split_and!; [done| |done]. intros Hen. rewrite decide_True in Hkeys by done.
      apply Hkeys. left. }
    exists rs'. unfold scan_route at 1. case_decide as Hen.
    + rewrite fmap_cons in Hnd. apply NoDup_cons in Hnd as [Hni Hnd]. rewrite Hen.
      split_and!; [done..| |done]. simpl. intros r' Hr'. rewrite not_elem_of_union.
      split; [|apply Hkeys; by right]. rewrite not_elem_of_singleton.
      intros Heq%key_text_inj. apply Hni. rewrite <-Heq. by apply list_elem_of_fmap_2.
    + destruct (route_enabled r); [done|]. by split_and!.
Qed.

Lemma scan_routes_default rs scan :
  (foldl (λ s r, scan_route r s) scan rs).2 = true ↔ Exists is_default_route rs ∨ scan.2 = true.
Proof.
  revert scan. induction rs as [|r rs IH]; intros scan; simpl.
  { rewrite Exists_nil. naive_solver. }
  rewrite IH, scan_route_default, Exists_cons. tauto.
Qed.

Lemma validate_site_config_iff_aux (config : Value) :
  validate_site_config config = Ok tt ↔ site_config_valid config.
Proof.
  unfold validate_site_config, site_config_valid.
  destruct (get config "routes") as [[| | | |vs|]|]; simpl; try done.
  pose proof (upstream_names_nonempty config) as Hne.
  generalize dependent (upstream_names config). intros names Hne.
  case_decide as Hempty.
  { destruct Hempty as [-> Hnames]. split; [done|].
    intros (rs & Hrs & _ & Hd). apply Forall2_nil_inv_l in Hrs as ->.
    by destruct (proj1 (Exists_nil _) (Hd Hnames)). }
  rewrite result_bind_Ok. setoid_rewrite (validate_routes_Ok _ _ _ _ Hne). split.
  - intros (scan & (rs & Hrs & Hnd & _ & ->) & Hif). exists rs. split_and!; [done..|].
    intros Hnames. case_decide as Hd; [done|].
    destruct (scan_routes_default rs (∅, false)) as [Hs _].
    destruct (snd _) eqn:E in Hs, Hd; [|by destruct Hd]. by destruct Hs.
  - intros (rs & Hrs & Hnd & Hd). eexists. split.
    { exists rs. split_and!; [done..| |done]. set_solver. }
    rewrite decide_False; [done|]. intros [Hnames Hf]. apply not_true_iff_false in Hf.
    apply Hf, scan_routes_default. left. auto.
Qed.

(** C24: [validate_site_config] accepts a configuration exactly when it meets the
    specification [site_config_valid]. *)
Theorem validate_site_config_iff (config : Value) :
  validate_site_config config = Ok tt ↔ site_config_valid config.
Proof. apply validate_site_config_iff_aux. Qed.

(** ** What an accepted configuration gives the store *)

#[export] Instance route_cmp_laws : CmpLaws route_cmp.
Proof. unfold route_cmp. apply _. Qed.

Lemma parse_routes_valid config ups vs rs :
  get config "routes" = Some (VArray vs) →
  Forall2 (valid_route (upstream_names config)) vs rs →
  parse_routes config ups = sort_site_routes rs.
Proof.
  intros Hget Hrs. unfold parse_routes. rewrite Hget. f_equal. apply filter_map_Forall2.
  eapply Forall2_impl; [done|]. by intros v r [? _].
Qed.

Lemma Exists_perm {A} (P : A → Prop) l k : l ≡ₚ k → Exists P l → Exists P k.
Proof. intros Hp. by rewrite Hp. Qed.


Definition demo_config : Value := jobj
  [("upstreams", VArray [jobj [("name", VString "web")]; jobj [("name", VString "api")]]);
   ("routes", VArray
     [jobj [("name", VString "default"); ("path", VString "/"); ("upstream", VString "web");
            ("match_type", VString "path_prefix"); ("priority", jnat 1000)];
      jobj [("name", VString "api"); ("path", VString " /api"); ("upstream", VString "api");
            ("match_type", VString "path_prefix")]])].

Definition demo_routes : list Value := default [] (get_array demo_config "routes").

Lemma demo_has_upstreams : upstream_names demo_config ≠ ∅.
Proof.
  assert (bool_decide ("web" ∈ upstream_names demo_config) = true) as Hin%bool_decide_eq_true
    by (vm_compute; reflexivity).
  set_solver.
Qed.


(** The route table of a release resolves: every route names a parsed upstream. *)
Definition routes_resolve (upstreams : list Upstream) (routes : list SiteRoute) : Prop :=
  Forall (λ r, upstream r ∈ (upstream_name <$> upstreams)) routes.

(** No upstream name of the configuration has surrounding blanks. *)
Definition upstream_names_trimmed (config : Value) : Prop :=
  Forall (λ u, trim (upstream_name u) = upstream_name u) (parse_upstreams config).

Lemma elem_of_upstream_names config n :
  n ∈ upstream_names config ↔
  n ≠ "" ∧ ∃ u, u ∈ parse_upstreams config ∧ n = trim (upstream_name u).
Proof.
  unfold upstream_names, parse_upstreams. rewrite elem_of_list_to_set.
  destruct (get_array config "upstreams") as [us|]; simpl; [|set_solver].
  rewrite list_elem_of_filter, list_elem_of_fmap. apply and_iff_compat_l. split.
  - intros (s & -> & (v & Hv & Hs)%elem_of_filter_map). unfold get_str in Hs.
    eexists. split; [apply elem_of_filter_map; exists v; split; [done|]|].
    { unfold parse_upstream. by rewrite Hs. }
    done.
  - intros (u & (v & Hv & Hu)%elem_of_filter_map & ->). exists (upstream_name u).
    split; [done|]. apply elem_of_filter_map. exists v. split; [done|]. unfold get_str.
    unfold parse_upstream in Hu. destruct (get v "name" ≫= as_str); simplify_eq/=. done.
Qed.

(** When the upstream names carry no surrounding blanks, the routes of an
    accepted configuration resolve against the upstreams the store reads, and so
    does the default route the store adds when no routes are given. *)
Theorem accepted_routes_resolve (config : Value) :
  validate_site_config config = Ok tt → upstream_names_trimmed config →
  routes_resolve (parse_upstreams config) (parse_routes config (parse_upstreams config)).
Proof.
  rewrite validate_site_config_iff_aux. unfold site_config_valid, routes_resolve. intros Hv Htrim.
  destruct (get config "routes") as [[| | | |vs|]|] eqn:Hget; try done.
  - destruct Hv as (rs & Hrs & _). rewrite (parse_routes_valid _ _ _ _ Hget Hrs).
    unfold sort_site_routes. rewrite sort_by_perm. clear Hget.
    induction Hrs as [|v r vs rs Hr _ IH]; constructor; [|done].
    destruct Hr as (_ & _ & _ & (_ & u & Hu & Hn)%elem_of_upstream_names).
    unfold upstream_names_trimmed in Htrim. rewrite Forall_forall in Htrim.
    rewrite Hn, (Htrim u Hu). by apply list_elem_of_fmap_2.
  - unfold parse_routes. rewrite Hget. destruct (parse_upstreams config); constructor; [|done].
    left.
Qed.

Lemma accepted_routes_resolve_witness :
  validate_site_config demo_config = Ok tt
  ∧ routes_resolve (parse_upstreams demo_config)
      (parse_routes demo_config (parse_upstreams demo_config)).
Proof.
  split; [vm_compute; reflexivity|]. apply accepted_routes_resolve.
  - vm_compute. reflexivity.
  - repeat constructor.
Defined.

Definition padded_config : Value := jobj
  [("upstreams", VArray [jobj [("name", VString " web ")]]);
   ("routes", VArray
     [jobj [("name", VString "default"); ("path", VString "/"); ("upstream", VString "web");
            ("match_type", VString "path_prefix")]])].

(** The check compares trimmed upstream names, the store keeps them as
    written: a configuration whose upstream is called [" web "] is accepted,
    and its compiled default route leads to an upstream that does not exist. *)
Theorem padded_upstream_name_dangles :
  validate_site_config padded_config = Ok tt
  ∧ ¬ routes_resolve (parse_upstreams padded_config)
        (parse_routes padded_config (parse_upstreams padded_config)).
Proof.
  split; [vm_compute; reflexivity|].
  assert (parse_routes padded_config (parse_upstreams padded_config)
          = [mkSiteRoute "default" true PathPrefix "/" "web" 100 false]) as ->
    by (vm_compute; reflexivity).
  assert (parse_upstreams padded_config = [mkUpstream " web " RoundRobin []]) as ->
    by (vm_compute; reflexivity).
  unfold routes_resolve. rewrite Forall_singleton. simpl. by rewrite list_elem_of_singleton.
Qed.

(** ** Route order *)

(** The declarative reading of the comparator. *)
Definition route_before (r s : SiteRoute) : Prop :=
  (priority r < priority s)%Z ∨
  priority r = priority s ∧
  (path_len s < path_len r ∨
   path_len r = path_len s ∧
   (match_type r = PathExact ∧ match_type s = PathPrefix ∨
    match_type r = match_type s ∧ String.compare (route_name r) (route_name s) ≠ Gt)).

Lemma route_cmp_before r s : route_cmp r s ≠ Gt ↔ route_before r s.
Proof.
  unfold route_cmp, route_before, cmp_then, then_with, cmp_rev, cmp_on.
  destruct (Z.compare_spec (priority r) (priority s)); [|naive_solver lia..].
  destruct (Nat.compare_spec (path_len s) (path_len r)); [|naive_solver lia..].
  destruct (match_type r) eqn:?, (match_type s) eqn:?; simpl; naive_solver lia.
Qed.

(** [sort_site_routes] keeps exactly the given routes, and orders them so
    that a request tried against them from the front meets first the smaller
    priority number, then the longer path, then the exact match, then the
    smaller name; routes equal in all four keep their configured order. *)
Theorem sort_site_routes_spec (rs : list SiteRoute) :
  sort_site_routes rs ≡ₚ rs
  ∧ StronglySorted route_before (sort_site_routes rs)
  ∧ ∀ k, filter (λ r, route_cmp k r = Eq) (sort_site_routes rs)
         = filter (λ r, route_cmp k r = Eq) rs.
Proof.
  unfold sort_site_routes. split_and!.
  - apply sort_by_perm.
  - pose proof (sort_by_sorted route_cmp rs) as Hs. unfold sorted_by in Hs.
    induction Hs as [|r l Hs IH Hall]; constructor; [done|].
    eapply Forall_impl; [done|]. intros s. apply route_cmp_before.
  - intros k. apply sort_by_stable, _.
Qed.
