(* ===== verification/ConfigCompiler.v ===== *)
(** * Configuration bundles (crates/config-compiler)

    [compile_site_bundle] renders a site into the JSON document a node applies;
    [compile_site_cleanup_bundle] renders the removal of a site.  The release id
    and the creation time they draw are arguments. *)

From stdpp Require Import prelude strings pretty gmap sorting.
From Stdlib Require Import Ascii.
From S2P Require Import Prelude RustStr Json Extern AppError Domain SiteConfig.

(** ** The serde form of the domain types *)

Definition site_status_json (s : SiteStatus) : Value :=
  VString match s with Draft => "draft" | Published => "published" | Disabled => "disabled" end.

Definition protocol_json (p : Protocol) : Value :=
  VString match p with Http => "http" | Https => "https" | Tcp => "tcp" end.

Definition balance_method_json (m : UpstreamBalanceMethod) : Value :=
  VString match m with
          | RoundRobin => "round_robin"
          | WeightedRoundRobin => "weighted_round_robin"
          | LeastConnections => "least_connections"
          | IpHash => "ip_hash"
          end.

Definition endpoint_json (e : UpstreamEndpoint) : Value := jobj
  [("address", VString (address e)); ("weight", jnat (weight e));
   ("active", VBool (active e)); ("backup", VBool (backup e))].

Definition upstream_json (u : Upstream) : Value := jobj
  [("name", VString (upstream_name u)); ("balance_method", balance_method_json (balance_method u));
   ("endpoints", VArray (endpoint_json <$> endpoints u))].

Definition route_json (r : SiteRoute) : Value := jobj
  [("name", VString (route_name r)); ("enabled", VBool (route_enabled r));
   ("match_type", VString (match_type_name (match_type r))); ("path", VString (path r));
   ("upstream", VString (upstream r)); ("priority", jint (priority r));
   ("strip_prefix", VBool (strip_path_prefix r))].

Definition cache_rule_json (r : CacheRule) : Value := jobj
  [("name", VString (rule_name r)); ("match_extensions", VArray (VString <$> match_extensions r));
   ("expires_seconds", jnat (expires_seconds r)); ("cache_control", VString (cache_control r))].

(** ** Bundles *)

Record CompiledConfigBundle := mkBundle {
  manifest : ReleaseManifest;
  rendered_config : Value;
  bundle_certificates : list CertificateRef;
  signature : string;
}.

Definition signature_for_release `{!Extern} (release_version : string) (release_id : Uuid) :
    string :=
  "sig:" +:+ release_version +:+ ":" +:+ uuid_to_string release_id.

(** The document a node applies for a site. *)
Definition render_site (site : SiteSpec) : Value := jobj
  [("site_code", VString (spec_code site)); ("status", site_status_json (spec_status site));
   ("domain", VString (spec_domain site)); ("listen_port", jnat (spec_listen_port site));
   ("protocol", protocol_json (spec_protocol site));
   ("tls_enabled", VBool (spec_tls_enabled site));
   ("upstreams", VArray (upstream_json <$> upstreams site));
   ("routes", VArray (route_json <$> routes site));
   ("cache_rules", VArray (cache_rule_json <$> cache_rules site))].

Definition compile_site_bundle `{!Extern} (site : SiteSpec) (certificates : list CertificateRef)
    (targets : list ReleaseTarget) (release_version : string) (release_id : Uuid)
    (now : DateTime) : Result CompiledConfigBundle string :=
  if is_empty (trim (spec_domain site)) then Err "site domain cannot be empty"
  else
    let config_hash := "sha256:" +:+ spec_name site +:+ ":" +:+ release_version in
    Ok {|
      manifest := {|
        manifest_release_id := release_id;
        manifest_release_version := release_version;
        scope := "site";
        manifest_config_hash := config_hash;
        manifest_created_at := now;
        manifest_sites := [site];
        manifest_certificates := certificates;
        manifest_targets := targets;
      |};
      rendered_config := render_site site;
      bundle_certificates := certificates;
      signature := signature_for_release release_version release_id;
    |}.

(** The document a node applies to remove a site. *)
Definition render_cleanup `{!Extern} (site : SiteSpec) : Value := jobj
  [("sites", VArray []);
   ("cleanup", jobj
     [("site_ids", VArray [VString (uuid_to_string (spec_id site))]);
      ("site_codes", VArray [VString (spec_code site)]);
      ("domains", VArray [VString (spec_domain site)])])].

Definition compile_site_cleanup_bundle `{!Extern} (site : SiteSpec)
    (targets : list ReleaseTarget) (release_version : string) (release_id : Uuid)
    (now : DateTime) : Result CompiledConfigBundle string :=
  if is_empty (trim (spec_code site)) then Err "site code cannot be empty"
  else
    let config_hash := "sha256:cleanup:" +:+ spec_code site +:+ ":" +:+ release_version in
    Ok {|
      manifest := {|
        manifest_release_id := release_id;
        manifest_release_version := release_version;
        scope := "site_cleanup";
        manifest_config_hash := config_hash;
        manifest_created_at := now;
        manifest_sites := [];
        manifest_certificates := [];
        manifest_targets := targets;
      |};
      rendered_config := render_cleanup site;
      bundle_certificates := [];
      signature := signature_for_release release_version release_id;
    |}.

(** The digest and the signature of a bundle do not depend on what it deploys:
    two specifications of the same name give the same ones. *)
Theorem digest_ignores_config `{!Extern} s s' certs certs' targets targets' version rid now b b' :
  spec_name s = spec_name s' →
  compile_site_bundle s certs targets version rid now = Ok b →
  compile_site_bundle s' certs' targets' version rid now = Ok b' →
  manifest_config_hash (manifest b) = manifest_config_hash (manifest b')
  ∧ signature b = signature b'.
Proof.
  unfold compile_site_bundle. intros Hname.
  destruct (is_empty (trim (spec_domain s))), (is_empty (trim (spec_domain s'))); try done.
  intros [= <-] [= <-]. simpl. by rewrite Hname.
Qed.

(** ** Reading a rendered site back *)

(** What the store's readers return: texts without surrounding blanks, numbers
    in range. *)
Definition route_canonical (r : SiteRoute) : Prop :=
  (trim (route_name r) = route_name r ∧ route_name r ≠ "")
  ∧ (trim (path r) = path r ∧ path r ≠ "")
  ∧ (trim (upstream r) = upstream r ∧ upstream r ≠ "")
  ∧ (i32_min ≤ priority r ≤ i32_max)%Z.

Definition upstream_canonical (u : Upstream) : Prop :=
  Forall (λ e, (0 ≤ weight e ≤ u16_max)%Z) (endpoints u).

Lemma try_from_id lo hi x : (lo ≤ x ≤ hi)%Z → try_from lo hi x = Some x.
Proof. intros. by apply try_from_Some. Qed.

Lemma as_i64_jint z : (i64_min ≤ z ≤ i64_max)%Z → as_i64 (jint z) = Some z.
Proof. intros. unfold jint. case_decide; simpl; [|done]. by rewrite decide_True by lia. Qed.

Lemma parse_route_json r : route_canonical r → parse_route_value (route_json r) = Some r.
Proof.
  intros ([Hn Hn'] & [Hp Hp'] & [Hu Hu'] & Hz). destruct r as [n e m p u z s]; simpl in *.
  unfold parse_route_value, route_json, route_priority, route_is_enabled.
  cbn [as_object jobj mbind option_bind]. jget.
  cbn [mbind option_bind fmap option_fmap option_map as_str as_bool
       route_name route_enabled match_type path upstream priority strip_path_prefix].
  rewrite Hn, Hp, Hu, !(proj2 (is_empty_false _)) by done.
  rewrite as_i64_jint by (unfold i32_min, i32_max, i64_min, i64_max in *; lia).
  cbn [mbind option_bind orb default from_option]. rewrite try_from_id by done.
  cbn [from_option]. f_equal. f_equal. destruct m; vm_compute; reflexivity.
Qed.

Lemma parse_upstream_json u : upstream_canonical u → parse_upstream (upstream_json u) = Some u.
Proof.
  intros Hu. destruct u as [n m es]. unfold upstream_canonical in Hu. simpl in Hu.
  unfold parse_upstream, upstream_json, parse_upstream_balance_method, get_array.
  jget. cbn [mbind option_bind fmap option_fmap option_map or_else as_str as_array from_option
             upstream_name balance_method endpoints].
  f_equal. f_equal.
  - destruct m; vm_compute; reflexivity.
  - apply filter_map_Forall2, Forall2_fmap_l, Forall_Forall2_diag.
    eapply Forall_impl; [exact Hu|]. intros [a w ac b] Hw. simpl in *.
    unfold parse_endpoint, endpoint_json, parse_endpoint_object, jobj. jget.
    cbn [mbind option_bind as_str as_u64 jnat weight]. by rewrite try_from_id.
Qed.

Lemma parse_endpoint_canonical v e : parse_endpoint v = Some e → (0 ≤ weight e ≤ u16_max)%Z.
Proof.
  unfold parse_endpoint, parse_endpoint_object, u16_max. destruct v as [| | |a| |m]; try done.
  { intros [= <-]. simpl. lia. }
  destruct (map_get m "address" ≫= as_str); simpl; [|done]. intros [= <-]. simpl.
  destruct ((map_get m "weight" ≫= as_u64) ≫= _) as [w|] eqn:E; simpl; [|lia].
  apply bind_Some in E as (w' & _ & [-> ?]%try_from_Some). done.
Qed.

Lemma parse_upstreams_canonical config : Forall upstream_canonical (parse_upstreams config).
Proof.
  unfold parse_upstreams. destruct (get_array config "upstreams") as [us|]; simpl; [|constructor].
  rewrite Forall_forall. intros u (v & _ & Hv)%elem_of_filter_map. revert Hv.
  unfold parse_upstream. destruct (get v "name" ≫= as_str); simpl; [|done]. intros [= <-].
  unfold upstream_canonical. simpl. destruct (get_array v "endpoints"); simpl; [|constructor].
  rewrite Forall_forall. intros e (w & _ & Hw)%elem_of_filter_map.
  by eapply parse_endpoint_canonical.
Qed.

Lemma parse_route_canonical v r : parse_route_value v = Some r → route_canonical r.
Proof.
  unfold parse_route_value, route_canonical, route_priority.
  destruct (as_object v) as [m|]; simpl; [|done].
  destruct (map_get m "name" ≫= as_str) as [n|]; simpl; [|done].
  destruct (map_get m "path" ≫= as_str) as [p|]; simpl; [|done].
  destruct (map_get m "upstream" ≫= as_str) as [u|]; simpl; [|done].
  destruct (is_empty (trim n)) eqn:En, (is_empty (trim p)) eqn:Ep, (is_empty (trim u)) eqn:Eu;
    simpl; try done.
  apply is_empty_false in En, Ep, Eu.
  intros [= <-]. simpl. rewrite !trim_idemp. split_and!; try done.
  all: destruct ((map_get m "priority" ≫= as_i64) ≫= _) as [z|] eqn:E; simpl;
    [apply bind_Some in E as (z' & _ & [-> ?]%try_from_Some)|]; unfold i32_min, i32_max in *; lia.
Qed.

Lemma get_array_render_upstreams site :
  get_array (render_site site) "upstreams" = Some (upstream_json <$> upstreams site).
Proof. unfold get_array, render_site. by jget. Qed.

Lemma get_render_routes site :
  get (render_site site) "routes" = Some (VArray (route_json <$> routes site)).
Proof. unfold render_site. by jget. Qed.

Lemma parse_upstreams_render site :
  Forall upstream_canonical (upstreams site) → parse_upstreams (render_site site) = upstreams site.
Proof.
  intros H. unfold parse_upstreams. rewrite get_array_render_upstreams. simpl.
  apply filter_map_Forall2, Forall2_fmap_l, Forall_Forall2_diag.
  eapply Forall_impl; [done|]. apply parse_upstream_json.
Qed.

Lemma parse_routes_render site ups :
  Forall route_canonical (routes site) → sorted_by route_cmp (routes site) →
  parse_routes (render_site site) ups = routes site.
Proof.
  intros H Hs. unfold parse_routes. rewrite get_render_routes.
  rewrite (filter_map_Forall2 _ _ (routes site)).
  - by apply sort_by_sorted_id.
  - apply Forall2_fmap_l, Forall_Forall2_diag. eapply Forall_impl; [done|]. apply parse_route_json.
Qed.

(** The default route is canonical when the first upstream's name is. *)
Lemma parse_routes_canonical config :
  (get config "routes" = None →
   Forall (λ u, trim (upstream_name u) = upstream_name u ∧ upstream_name u ≠ "")
     (parse_upstreams config)) →
  Forall route_canonical (parse_routes config (parse_upstreams config))
  ∧ sorted_by route_cmp (parse_routes config (parse_upstreams config)).
Proof.
  intros Hn. unfold parse_routes.
  destruct (get config "routes") as [[| | | |vs|]|]; try (split; [done|constructor]).
  - split; [|apply sort_by_sorted, _]. unfold sort_site_routes. rewrite sort_by_perm.
    rewrite Forall_forall. intros r (v & _ & Hv)%elem_of_filter_map.
    by eapply parse_route_canonical.
  - specialize (Hn eq_refl). destruct (parse_upstreams config) as [|u us]; simpl.
    { split; constructor. }
    inversion Hn; subst. split; [|repeat constructor].
    constructor; [|done]. unfold route_canonical. simpl.
    split_and!; try done; try tauto; by vm_compute.
Qed.
