(* ===== verification/Records.v ===== *)
(** * The records of the hub (apps/hub-api/src/store.rs)

    One record type per table.  Fields whose Rust names are shared by several
    structs carry a prefix ([site_], [op_], ...); [set_f v r] is the record [r]
    with the field [f] replaced, as in [r.f = v]. *)

From stdpp Require Import prelude strings pretty gmap sorting.
From Stdlib Require Import Ascii.
From S2P Require Import Prelude RustStr Json Extern AppError Domain SiteConfig ConfigCompiler.

(** ** Records *)

(** The bits of an [f32]: the usage figures are stored and never computed with. *)
Abbreviation F32 := Z.

Record NodeRecord := mkNodeRecord {
  identity : NodeIdentity;
  runtime : NodeRuntimeState;
  labels : Value;
  hostname : option string;
  public_ip : option string;
  private_ip : option string;
  bootstrap_token : option string;
  pingora_version : option string;
  agent_version : option string;
}.

Record HeartbeatRecord := mkHeartbeatRecord {
  hb_node_id : Uuid;
  hb_pingora_version : string;
  hb_agent_version : string;
  hb_active_config_version : option string;
  hb_site_count : Z;
  cpu_usage : F32;
  mem_usage : F32;
  disk_usage : F32;
  hb_health_score : Z;
  reported_at : DateTime;
}.

Record SiteBindingRecord := mkBinding {
  binding_node_id : Uuid;
  binding_role : string;
  binding_priority : Z;
}.

Record SiteRecord := mkSiteRecord {
  site_id : Uuid;
  site_code : string;
  site_name : string;
  site_domain : string;
  site_listen_port : Z;
  site_protocol : Protocol;
  site_tls_enabled : bool;
  site_status : SiteStatus;
  site_version : Z;
  site_config : Value;
  bindings : list SiteBindingRecord;
}.

Record NodeAckRecord := mkAck {
  apply_status : string;
  current_version : option string;
  ack_message : option string;
  acked_at : option DateTime;
}.

Record ReleaseRecord := mkReleaseRecord {
  release_id : Uuid;
  scope_type : string;
  scope_id : option Uuid;
  release_type : string;
  release_version : string;
  reason : string;
  release_status : string;
  bundle : CompiledConfigBundle;
  target_node_ids : list Uuid;
  ack_status : gmap Uuid NodeAckRecord;
  release_created_at : DateTime;
}.

Record DnsProviderRecord := mkDnsProvider {
  provider_id : Uuid;
  provider_name : string;
  provider_type : string;
  api_endpoint : option string;
  credential_encrypted : string;
  provider_status : string;
  provider_created_at : DateTime;
}.

Record DnsZoneRecord := mkDnsZone {
  zone_id : Uuid;
  zone_provider_id : Uuid;
  zone_name : string;
  external_zone_id : string;
  zone_status : string;
  zone_created_at : DateTime;
}.

Record CertificateRecord := mkCertificate {
  certificate_id : Uuid;
  cert_code : string;
  common_name : string;
  sans : list string;
  fingerprint_sha256 : string;
  certificate_status : string;
  certificate_not_after : option DateTime;
  certificate_created_at : DateTime;
}.

Record CertificateOrderRecord := mkOrder {
  order_id : Uuid;
  order_site_id : option Uuid;
  order_certificate_id : option Uuid;
  order_zone_id : Uuid;
  order_type : string;
  acme_provider : string;
  challenge_type : string;
  challenge_payload : Value;
  order_status : string;
  error_message : option string;
  certificate_expires_at : option DateTime;
  order_created_at : DateTime;
}.

Record AdminUserRecord := mkAdminUser {
  user_id : Uuid;
  username : string;
  display_name : string;
  password_hash : string;
  user_status : string;
  last_login_at : option DateTime;
  user_created_at : DateTime;
}.

Record AdminSessionRecord := mkAdminSession {
  session_id : Uuid;
  session_user_id : Uuid;
  session_token_hash : string;
  session_expires_at : DateTime;
  session_created_at : DateTime;
  session_last_seen_at : DateTime;
}.

Record AdminSessionContext := mkSessionContext {
  ctx_user_id : Uuid;
  ctx_username : string;
  ctx_display_name : string;
  ctx_status : string;
  ctx_expires_at : DateTime;
}.

Record OperationTemplateRecord := mkTemplateRecord {
  template_id : Uuid;
  template_name : string;
  operation_type : string;
  template_command : string;
  template_allowed_params : Value;
  template_timeout_seconds : Z;
  run_as_user : string;
  approval_required : bool;
  template_created_at : DateTime;
}.

Record NodeOperationRecord := mkOperation {
  operation_id : Uuid;
  op_node_id : Uuid;
  op_template_id : Uuid;
  event_id : option Uuid;
  input_params : Value;
  exec_status : string;
  requested_by : string;
  approved_by : option string;
  exit_code : option Z;
  stdout_log : option string;
  stderr_log : option string;
  started_at : option DateTime;
  finished_at : option DateTime;
  op_created_at : DateTime;
}.

Record ClaimedNodeOperation := mkClaimed {
  operation : NodeOperationRecord;
  template : OperationTemplateRecord;
}.

Record NodeDeleteGuard := mkDeleteGuard {
  bound_site_codes : list string;
  failover_policy_count : nat;
}.

(** ** Field updates *)

Definition set_name (v : string) (r : NodeIdentity) : NodeIdentity :=
  mkNodeIdentity (r.(id)) (r.(node_code)) v (r.(region)) (r.(idc)) (r.(status)).
Definition set_region (v : string) (r : NodeIdentity) : NodeIdentity :=
  mkNodeIdentity (r.(id)) (r.(node_code)) (r.(name)) v (r.(idc)) (r.(status)).
Definition set_idc (v : string) (r : NodeIdentity) : NodeIdentity :=
  mkNodeIdentity (r.(id)) (r.(node_code)) (r.(name)) (r.(region)) v (r.(status)).
Definition set_status (v : NodeStatus) (r : NodeIdentity) : NodeIdentity :=
  mkNodeIdentity (r.(id)) (r.(node_code)) (r.(name)) (r.(region)) (r.(idc)) v.
Definition set_active_config_version (v : option string) (r : NodeRuntimeState) : NodeRuntimeState :=
  mkNodeRuntimeState v (r.(last_seen_at)) (r.(site_count)) (r.(health_score)).
Definition set_last_seen_at (v : option DateTime) (r : NodeRuntimeState) : NodeRuntimeState :=
  mkNodeRuntimeState (r.(active_config_version)) v (r.(site_count)) (r.(health_score)).
Definition set_identity (v : NodeIdentity) (r : NodeRecord) : NodeRecord :=
  mkNodeRecord v (r.(runtime)) (r.(labels)) (r.(hostname)) (r.(public_ip)) (r.(private_ip))
    (r.(bootstrap_token)) (r.(pingora_version)) (r.(agent_version)).
Definition set_runtime (v : NodeRuntimeState) (r : NodeRecord) : NodeRecord :=
  mkNodeRecord (r.(identity)) v (r.(labels)) (r.(hostname)) (r.(public_ip)) (r.(private_ip))
    (r.(bootstrap_token)) (r.(pingora_version)) (r.(agent_version)).
Definition set_labels (v : Value) (r : NodeRecord) : NodeRecord :=
  mkNodeRecord (r.(identity)) (r.(runtime)) v (r.(hostname)) (r.(public_ip))
    (r.(private_ip)) (r.(bootstrap_token)) (r.(pingora_version)) (r.(agent_version)).
Definition set_hostname (v : option string) (r : NodeRecord) : NodeRecord :=
  mkNodeRecord (r.(identity)) (r.(runtime)) (r.(labels)) v (r.(public_ip)) (r.(private_ip))
    (r.(bootstrap_token)) (r.(pingora_version)) (r.(agent_version)).
Definition set_public_ip (v : option string) (r : NodeRecord) : NodeRecord :=
  mkNodeRecord (r.(identity)) (r.(runtime)) (r.(labels)) (r.(hostname)) v (r.(private_ip))
    (r.(bootstrap_token)) (r.(pingora_version)) (r.(agent_version)).
Definition set_private_ip (v : option string) (r : NodeRecord) : NodeRecord :=
  mkNodeRecord (r.(identity)) (r.(runtime)) (r.(labels)) (r.(hostname)) (r.(public_ip)) v
    (r.(bootstrap_token)) (r.(pingora_version)) (r.(agent_version)).
Definition set_bootstrap_token (v : option string) (r : NodeRecord) : NodeRecord :=
  mkNodeRecord (r.(identity)) (r.(runtime)) (r.(labels)) (r.(hostname)) (r.(public_ip))
    (r.(private_ip)) v (r.(pingora_version)) (r.(agent_version)).
Definition set_pingora_version (v : option string) (r : NodeRecord) : NodeRecord :=
  mkNodeRecord (r.(identity)) (r.(runtime)) (r.(labels)) (r.(hostname)) (r.(public_ip))
    (r.(private_ip)) (r.(bootstrap_token)) v (r.(agent_version)).
Definition set_agent_version (v : option string) (r : NodeRecord) : NodeRecord :=
  mkNodeRecord (r.(identity)) (r.(runtime)) (r.(labels)) (r.(hostname)) (r.(public_ip))
    (r.(private_ip)) (r.(bootstrap_token)) (r.(pingora_version)) v.
Definition set_site_name (v : string) (r : SiteRecord) : SiteRecord :=
  mkSiteRecord (r.(site_id)) (r.(site_code)) v (r.(site_domain)) (r.(site_listen_port))
    (r.(site_protocol)) (r.(site_tls_enabled)) (r.(site_status)) (r.(site_version))
    (r.(site_config)) (r.(bindings)).
Definition set_site_domain (v : string) (r : SiteRecord) : SiteRecord :=
  mkSiteRecord (r.(site_id)) (r.(site_code)) (r.(site_name)) v (r.(site_listen_port))
    (r.(site_protocol)) (r.(site_tls_enabled)) (r.(site_status)) (r.(site_version))
    (r.(site_config)) (r.(bindings)).
Definition set_site_listen_port (v : Z) (r : SiteRecord) : SiteRecord :=
  mkSiteRecord (r.(site_id)) (r.(site_code)) (r.(site_name)) (r.(site_domain)) v
    (r.(site_protocol)) (r.(site_tls_enabled)) (r.(site_status)) (r.(site_version))
    (r.(site_config)) (r.(bindings)).
Definition set_site_protocol (v : Protocol) (r : SiteRecord) : SiteRecord :=
  mkSiteRecord (r.(site_id)) (r.(site_code)) (r.(site_name)) (r.(site_domain))
    (r.(site_listen_port)) v (r.(site_tls_enabled)) (r.(site_status)) (r.(site_version))
    (r.(site_config)) (r.(bindings)).
Definition set_site_tls_enabled (v : bool) (r : SiteRecord) : SiteRecord :=
  mkSiteRecord (r.(site_id)) (r.(site_code)) (r.(site_name)) (r.(site_domain))
    (r.(site_listen_port)) (r.(site_protocol)) v (r.(site_status)) (r.(site_version))
    (r.(site_config)) (r.(bindings)).
Definition set_site_status (v : SiteStatus) (r : SiteRecord) : SiteRecord :=
  mkSiteRecord (r.(site_id)) (r.(site_code)) (r.(site_name)) (r.(site_domain))
    (r.(site_listen_port)) (r.(site_protocol)) (r.(site_tls_enabled)) v (r.(site_version))
    (r.(site_config)) (r.(bindings)).
Definition set_site_version (v : Z) (r : SiteRecord) : SiteRecord :=
  mkSiteRecord (r.(site_id)) (r.(site_code)) (r.(site_name)) (r.(site_domain))
    (r.(site_listen_port)) (r.(site_protocol)) (r.(site_tls_enabled)) (r.(site_status)) v
    (r.(site_config)) (r.(bindings)).
Definition set_site_config (v : Value) (r : SiteRecord) : SiteRecord :=
  mkSiteRecord (r.(site_id)) (r.(site_code)) (r.(site_name)) (r.(site_domain))
    (r.(site_listen_port)) (r.(site_protocol)) (r.(site_tls_enabled)) (r.(site_status))
    (r.(site_version)) v (r.(bindings)).
Definition set_bindings (v : list SiteBindingRecord) (r : SiteRecord) : SiteRecord :=
  mkSiteRecord (r.(site_id)) (r.(site_code)) (r.(site_name)) (r.(site_domain))
    (r.(site_listen_port)) (r.(site_protocol)) (r.(site_tls_enabled)) (r.(site_status))
    (r.(site_version)) (r.(site_config)) v.
Definition set_release_status (v : string) (r : ReleaseRecord) : ReleaseRecord :=
  mkReleaseRecord (r.(release_id)) (r.(scope_type)) (r.(scope_id)) (r.(release_type))
    (r.(release_version)) (r.(reason)) v (r.(bundle)) (r.(target_node_ids)) (r.(ack_status))
    (r.(release_created_at)).
Definition set_target_node_ids (v : list Uuid) (r : ReleaseRecord) : ReleaseRecord :=
  mkReleaseRecord (r.(release_id)) (r.(scope_type)) (r.(scope_id)) (r.(release_type))
    (r.(release_version)) (r.(reason)) (r.(release_status)) (r.(bundle)) v (r.(ack_status))
    (r.(release_created_at)).
Definition set_ack_status (v : gmap Uuid NodeAckRecord) (r : ReleaseRecord) : ReleaseRecord :=
  mkReleaseRecord (r.(release_id)) (r.(scope_type)) (r.(scope_id)) (r.(release_type))
    (r.(release_version)) (r.(reason)) (r.(release_status)) (r.(bundle))
    (r.(target_node_ids)) v (r.(release_created_at)).
Definition set_order_site_id (v : option Uuid) (r : CertificateOrderRecord) : CertificateOrderRecord :=
  mkOrder (r.(order_id)) v (r.(order_certificate_id)) (r.(order_zone_id)) (r.(order_type))
    (r.(acme_provider)) (r.(challenge_type)) (r.(challenge_payload)) (r.(order_status))
    (r.(error_message)) (r.(certificate_expires_at)) (r.(order_created_at)).
Definition set_challenge_payload (v : Value) (r : CertificateOrderRecord) : CertificateOrderRecord :=
  mkOrder (r.(order_id)) (r.(order_site_id)) (r.(order_certificate_id)) (r.(order_zone_id))
    (r.(order_type)) (r.(acme_provider)) (r.(challenge_type)) v (r.(order_status))
    (r.(error_message)) (r.(certificate_expires_at)) (r.(order_created_at)).
Definition set_order_status (v : string) (r : CertificateOrderRecord) : CertificateOrderRecord :=
  mkOrder (r.(order_id)) (r.(order_site_id)) (r.(order_certificate_id)) (r.(order_zone_id))
    (r.(order_type)) (r.(acme_provider)) (r.(challenge_type)) (r.(challenge_payload)) v
    (r.(error_message)) (r.(certificate_expires_at)) (r.(order_created_at)).
Definition set_error_message (v : option string) (r : CertificateOrderRecord) : CertificateOrderRecord :=
  mkOrder (r.(order_id)) (r.(order_site_id)) (r.(order_certificate_id)) (r.(order_zone_id))
    (r.(order_type)) (r.(acme_provider)) (r.(challenge_type)) (r.(challenge_payload))
    (r.(order_status)) v (r.(certificate_expires_at)) (r.(order_created_at)).
Definition set_password_hash (v : string) (r : AdminUserRecord) : AdminUserRecord :=
  mkAdminUser (r.(user_id)) (r.(username)) (r.(display_name)) v (r.(user_status))
    (r.(last_login_at)) (r.(user_created_at)).
Definition set_last_login_at (v : option DateTime) (r : AdminUserRecord) : AdminUserRecord :=
  mkAdminUser (r.(user_id)) (r.(username)) (r.(display_name)) (r.(password_hash))
    (r.(user_status)) v (r.(user_created_at)).
Definition set_session_last_seen_at (v : DateTime) (r : AdminSessionRecord) : AdminSessionRecord :=
  mkAdminSession (r.(session_id)) (r.(session_user_id)) (r.(session_token_hash))
    (r.(session_expires_at)) (r.(session_created_at)) v.
Definition set_exec_status (v : string) (r : NodeOperationRecord) : NodeOperationRecord :=
  mkOperation (r.(operation_id)) (r.(op_node_id)) (r.(op_template_id)) (r.(event_id))
    (r.(input_params)) v (r.(requested_by)) (r.(approved_by)) (r.(exit_code))
    (r.(stdout_log)) (r.(stderr_log)) (r.(started_at)) (r.(finished_at)) (r.(op_created_at)).
Definition set_approved_by (v : option string) (r : NodeOperationRecord) : NodeOperationRecord :=
  mkOperation (r.(operation_id)) (r.(op_node_id)) (r.(op_template_id)) (r.(event_id))
    (r.(input_params)) (r.(exec_status)) (r.(requested_by)) v (r.(exit_code))
    (r.(stdout_log)) (r.(stderr_log)) (r.(started_at)) (r.(finished_at)) (r.(op_created_at)).
Definition set_exit_code (v : option Z) (r : NodeOperationRecord) : NodeOperationRecord :=
  mkOperation (r.(operation_id)) (r.(op_node_id)) (r.(op_template_id)) (r.(event_id))
    (r.(input_params)) (r.(exec_status)) (r.(requested_by)) (r.(approved_by)) v
    (r.(stdout_log)) (r.(stderr_log)) (r.(started_at)) (r.(finished_at)) (r.(op_created_at)).
Definition set_stdout_log (v : option string) (r : NodeOperationRecord) : NodeOperationRecord :=
  mkOperation (r.(operation_id)) (r.(op_node_id)) (r.(op_template_id)) (r.(event_id))
    (r.(input_params)) (r.(exec_status)) (r.(requested_by)) (r.(approved_by))
    (r.(exit_code)) v (r.(stderr_log)) (r.(started_at)) (r.(finished_at))
    (r.(op_created_at)).
Definition set_stderr_log (v : option string) (r : NodeOperationRecord) : NodeOperationRecord :=
  mkOperation (r.(operation_id)) (r.(op_node_id)) (r.(op_template_id)) (r.(event_id))
    (r.(input_params)) (r.(exec_status)) (r.(requested_by)) (r.(approved_by))
    (r.(exit_code)) (r.(stdout_log)) v (r.(started_at)) (r.(finished_at))
    (r.(op_created_at)).
Definition set_started_at (v : option DateTime) (r : NodeOperationRecord) : NodeOperationRecord :=
  mkOperation (r.(operation_id)) (r.(op_node_id)) (r.(op_template_id)) (r.(event_id))
    (r.(input_params)) (r.(exec_status)) (r.(requested_by)) (r.(approved_by))
    (r.(exit_code)) (r.(stdout_log)) (r.(stderr_log)) v (r.(finished_at))
    (r.(op_created_at)).
Definition set_finished_at (v : option DateTime) (r : NodeOperationRecord) : NodeOperationRecord :=
  mkOperation (r.(operation_id)) (r.(op_node_id)) (r.(op_template_id)) (r.(event_id))
    (r.(input_params)) (r.(exec_status)) (r.(requested_by)) (r.(approved_by))
    (r.(exit_code)) (r.(stdout_log)) (r.(stderr_log)) (r.(started_at)) v (r.(op_created_at)).
