(* ===== verification/Store.v ===== *)
(** * The repository (apps/hub-api/src/store.rs)

    The in-memory repository: one hash map per table and the secondary indexes.
    An operation takes the state and returns the new one; the in-memory
    repository never fails.  The invariant [indexes_ok] ties the indexes to the
    tables; the theorems show which operations keep it, and what each
    compound operation does to the tables. *)

From stdpp Require Import prelude strings pretty gmap sorting.
From Stdlib Require Import Ascii.
From S2P Require Import Prelude RustStr Json Extern AppError Domain SiteConfig ConfigCompiler Records.

(** ** The state *)

Record MemoryState := mkMemoryState {
  nodes : gmap Uuid NodeRecord;
  node_ids_by_code : gmap string Uuid;
  sites : gmap Uuid SiteRecord;
  site_ids_by_code : gmap string Uuid;
  releases : gmap Uuid ReleaseRecord;
  release_ids_by_version : gmap string Uuid;
  latest_release_by_node : gmap Uuid Uuid;
  dns_providers : gmap Uuid DnsProviderRecord;
  dns_provider_ids_by_name : gmap string Uuid;
  dns_zones : gmap Uuid DnsZoneRecord;
  certificates : gmap Uuid CertificateRecord;
  site_certificate_refs : gmap Uuid (list CertificateRef);
  certificate_orders : gmap Uuid CertificateOrderRecord;
  admin_users : gmap Uuid AdminUserRecord;
  admin_user_ids_by_username : gmap string Uuid;
  admin_sessions : gmap string AdminSessionRecord;
  operation_templates : gmap Uuid OperationTemplateRecord;
  operation_template_ids_by_name : gmap string Uuid;
  node_operations : gmap Uuid NodeOperationRecord;
}.

Definition set_nodes (v : gmap Uuid NodeRecord) (r : MemoryState) : MemoryState :=
  mkMemoryState v (r.(node_ids_by_code)) (r.(sites)) (r.(site_ids_by_code)) (r.(releases))
    (r.(release_ids_by_version)) (r.(latest_release_by_node)) (r.(dns_providers))
    (r.(dns_provider_ids_by_name)) (r.(dns_zones)) (r.(certificates))
    (r.(site_certificate_refs)) (r.(certificate_orders)) (r.(admin_users))
    (r.(admin_user_ids_by_username)) (r.(admin_sessions)) (r.(operation_templates))
    (r.(operation_template_ids_by_name)) (r.(node_operations)).
Definition set_node_ids_by_code (v : gmap string Uuid) (r : MemoryState) : MemoryState :=
  mkMemoryState (r.(nodes)) v (r.(sites)) (r.(site_ids_by_code)) (r.(releases))
    (r.(release_ids_by_version)) (r.(latest_release_by_node)) (r.(dns_providers))
    (r.(dns_provider_ids_by_name)) (r.(dns_zones)) (r.(certificates))
    (r.(site_certificate_refs)) (r.(certificate_orders)) (r.(admin_users))
    (r.(admin_user_ids_by_username)) (r.(admin_sessions)) (r.(operation_templates))
    (r.(operation_template_ids_by_name)) (r.(node_operations)).
Definition set_sites (v : gmap Uuid SiteRecord) (r : MemoryState) : MemoryState :=
  mkMemoryState (r.(nodes)) (r.(node_ids_by_code)) v (r.(site_ids_by_code)) (r.(releases))
    (r.(release_ids_by_version)) (r.(latest_release_by_node)) (r.(dns_providers))
    (r.(dns_provider_ids_by_name)) (r.(dns_zones)) (r.(certificates))
    (r.(site_certificate_refs)) (r.(certificate_orders)) (r.(admin_users))
    (r.(admin_user_ids_by_username)) (r.(admin_sessions)) (r.(operation_templates))
    (r.(operation_template_ids_by_name)) (r.(node_operations)).
Definition set_site_ids_by_code (v : gmap string Uuid) (r : MemoryState) : MemoryState :=
  mkMemoryState (r.(nodes)) (r.(node_ids_by_code)) (r.(sites)) v (r.(releases))
    (r.(release_ids_by_version)) (r.(latest_release_by_node)) (r.(dns_providers))
    (r.(dns_provider_ids_by_name)) (r.(dns_zones)) (r.(certificates))
    (r.(site_certificate_refs)) (r.(certificate_orders)) (r.(admin_users))
    (r.(admin_user_ids_by_username)) (r.(admin_sessions)) (r.(operation_templates))
    (r.(operation_template_ids_by_name)) (r.(node_operations)).
Definition set_releases (v : gmap Uuid ReleaseRecord) (r : MemoryState) : MemoryState :=
  mkMemoryState (r.(nodes)) (r.(node_ids_by_code)) (r.(sites)) (r.(site_ids_by_code)) v
    (r.(release_ids_by_version)) (r.(latest_release_by_node)) (r.(dns_providers))
    (r.(dns_provider_ids_by_name)) (r.(dns_zones)) (r.(certificates))
    (r.(site_certificate_refs)) (r.(certificate_orders)) (r.(admin_users))
    (r.(admin_user_ids_by_username)) (r.(admin_sessions)) (r.(operation_templates))
    (r.(operation_template_ids_by_name)) (r.(node_operations)).
Definition set_release_ids_by_version (v : gmap string Uuid) (r : MemoryState) : MemoryState :=
  mkMemoryState (r.(nodes)) (r.(node_ids_by_code)) (r.(sites)) (r.(site_ids_by_code))
    (r.(releases)) v (r.(latest_release_by_node)) (r.(dns_providers))
    (r.(dns_provider_ids_by_name)) (r.(dns_zones)) (r.(certificates))
    (r.(site_certificate_refs)) (r.(certificate_orders)) (r.(admin_users))
    (r.(admin_user_ids_by_username)) (r.(admin_sessions)) (r.(operation_templates))
    (r.(operation_template_ids_by_name)) (r.(node_operations)).
Definition set_latest_release_by_node (v : gmap Uuid Uuid) (r : MemoryState) : MemoryState :=
  mkMemoryState (r.(nodes)) (r.(node_ids_by_code)) (r.(sites)) (r.(site_ids_by_code))
    (r.(releases)) (r.(release_ids_by_version)) v (r.(dns_providers))
    (r.(dns_provider_ids_by_name)) (r.(dns_zones)) (r.(certificates))
    (r.(site_certificate_refs)) (r.(certificate_orders)) (r.(admin_users))
    (r.(admin_user_ids_by_username)) (r.(admin_sessions)) (r.(operation_templates))
    (r.(operation_template_ids_by_name)) (r.(node_operations)).
Definition set_dns_providers (v : gmap Uuid DnsProviderRecord) (r : MemoryState) : MemoryState :=
  mkMemoryState (r.(nodes)) (r.(node_ids_by_code)) (r.(sites)) (r.(site_ids_by_code))
    (r.(releases)) (r.(release_ids_by_version)) (r.(latest_release_by_node)) v
    (r.(dns_provider_ids_by_name)) (r.(dns_zones)) (r.(certificates))
    (r.(site_certificate_refs)) (r.(certificate_orders)) (r.(admin_users))
    (r.(admin_user_ids_by_username)) (r.(admin_sessions)) (r.(operation_templates))
    (r.(operation_template_ids_by_name)) (r.(node_operations)).
Definition set_dns_provider_ids_by_name (v : gmap string Uuid) (r : MemoryState) : MemoryState :=
  mkMemoryState (r.(nodes)) (r.(node_ids_by_code)) (r.(sites)) (r.(site_ids_by_code))
    (r.(releases)) (r.(release_ids_by_version)) (r.(latest_release_by_node))
    (r.(dns_providers)) v (r.(dns_zones)) (r.(certificates)) (r.(site_certificate_refs))
    (r.(certificate_orders)) (r.(admin_users)) (r.(admin_user_ids_by_username))
    (r.(admin_sessions)) (r.(operation_templates)) (r.(operation_template_ids_by_name))
    (r.(node_operations)).
Definition set_dns_zones (v : gmap Uuid DnsZoneRecord) (r : MemoryState) : MemoryState :=
  mkMemoryState (r.(nodes)) (r.(node_ids_by_code)) (r.(sites)) (r.(site_ids_by_code))
    (r.(releases)) (r.(release_ids_by_version)) (r.(latest_release_by_node))
    (r.(dns_providers)) (r.(dns_provider_ids_by_name)) v (r.(certificates))
    (r.(site_certificate_refs)) (r.(certificate_orders)) (r.(admin_users))
    (r.(admin_user_ids_by_username)) (r.(admin_sessions)) (r.(operation_templates))
    (r.(operation_template_ids_by_name)) (r.(node_operations)).
Definition set_certificates (v : gmap Uuid CertificateRecord) (r : MemoryState) : MemoryState :=
  mkMemoryState (r.(nodes)) (r.(node_ids_by_code)) (r.(sites)) (r.(site_ids_by_code))
    (r.(releases)) (r.(release_ids_by_version)) (r.(latest_release_by_node))
    (r.(dns_providers)) (r.(dns_provider_ids_by_name)) (r.(dns_zones)) v
    (r.(site_certificate_refs)) (r.(certificate_orders)) (r.(admin_users))
    (r.(admin_user_ids_by_username)) (r.(admin_sessions)) (r.(operation_templates))
    (r.(operation_template_ids_by_name)) (r.(node_operations)).
Definition set_site_certificate_refs (v : gmap Uuid (list CertificateRef)) (r : MemoryState) : MemoryState :=
  mkMemoryState (r.(nodes)) (r.(node_ids_by_code)) (r.(sites)) (r.(site_ids_by_code))
    (r.(releases)) (r.(release_ids_by_version)) (r.(latest_release_by_node))
    (r.(dns_providers)) (r.(dns_provider_ids_by_name)) (r.(dns_zones)) (r.(certificates)) v
    (r.(certificate_orders)) (r.(admin_users)) (r.(admin_user_ids_by_username))
    (r.(admin_sessions)) (r.(operation_templates)) (r.(operation_template_ids_by_name))
    (r.(node_operations)).
Definition set_certificate_orders (v : gmap Uuid CertificateOrderRecord) (r : MemoryState) : MemoryState :=
  mkMemoryState (r.(nodes)) (r.(node_ids_by_code)) (r.(sites)) (r.(site_ids_by_code))
    (r.(releases)) (r.(release_ids_by_version)) (r.(latest_release_by_node))
    (r.(dns_providers)) (r.(dns_provider_ids_by_name)) (r.(dns_zones)) (r.(certificates))
    (r.(site_certificate_refs)) v (r.(admin_users)) (r.(admin_user_ids_by_username))
    (r.(admin_sessions)) (r.(operation_templates)) (r.(operation_template_ids_by_name))
    (r.(node_operations)).
Definition set_admin_users (v : gmap Uuid AdminUserRecord) (r : MemoryState) : MemoryState :=
  mkMemoryState (r.(nodes)) (r.(node_ids_by_code)) (r.(sites)) (r.(site_ids_by_code))
    (r.(releases)) (r.(release_ids_by_version)) (r.(latest_release_by_node))
    (r.(dns_providers)) (r.(dns_provider_ids_by_name)) (r.(dns_zones)) (r.(certificates))
    (r.(site_certificate_refs)) (r.(certificate_orders)) v (r.(admin_user_ids_by_username))
    (r.(admin_sessions)) (r.(operation_templates)) (r.(operation_template_ids_by_name))
    (r.(node_operations)).
Definition set_admin_user_ids_by_username (v : gmap string Uuid) (r : MemoryState) : MemoryState :=
  mkMemoryState (r.(nodes)) (r.(node_ids_by_code)) (r.(sites)) (r.(site_ids_by_code))
    (r.(releases)) (r.(release_ids_by_version)) (r.(latest_release_by_node))
    (r.(dns_providers)) (r.(dns_provider_ids_by_name)) (r.(dns_zones)) (r.(certificates))
    (r.(site_certificate_refs)) (r.(certificate_orders)) (r.(admin_users)) v
    (r.(admin_sessions)) (r.(operation_templates)) (r.(operation_template_ids_by_name))
    (r.(node_operations)).
Definition set_admin_sessions (v : gmap string AdminSessionRecord) (r : MemoryState) : MemoryState :=
  mkMemoryState (r.(nodes)) (r.(node_ids_by_code)) (r.(sites)) (r.(site_ids_by_code))
    (r.(releases)) (r.(release_ids_by_version)) (r.(latest_release_by_node))
    (r.(dns_providers)) (r.(dns_provider_ids_by_name)) (r.(dns_zones)) (r.(certificates))
    (r.(site_certificate_refs)) (r.(certificate_orders)) (r.(admin_users))
    (r.(admin_user_ids_by_username)) v (r.(operation_templates))
    (r.(operation_template_ids_by_name)) (r.(node_operations)).
Definition set_operation_templates (v : gmap Uuid OperationTemplateRecord) (r : MemoryState) : MemoryState :=
  mkMemoryState (r.(nodes)) (r.(node_ids_by_code)) (r.(sites)) (r.(site_ids_by_code))
    (r.(releases)) (r.(release_ids_by_version)) (r.(latest_release_by_node))
    (r.(dns_providers)) (r.(dns_provider_ids_by_name)) (r.(dns_zones)) (r.(certificates))
    (r.(site_certificate_refs)) (r.(certificate_orders)) (r.(admin_users))
    (r.(admin_user_ids_by_username)) (r.(admin_sessions)) v
    (r.(operation_template_ids_by_name)) (r.(node_operations)).
Definition set_operation_template_ids_by_name (v : gmap string Uuid) (r : MemoryState) : MemoryState :=
  mkMemoryState (r.(nodes)) (r.(node_ids_by_code)) (r.(sites)) (r.(site_ids_by_code))
    (r.(releases)) (r.(release_ids_by_version)) (r.(latest_release_by_node))
    (r.(dns_providers)) (r.(dns_provider_ids_by_name)) (r.(dns_zones)) (r.(certificates))
    (r.(site_certificate_refs)) (r.(certificate_orders)) (r.(admin_users))
    (r.(admin_user_ids_by_username)) (r.(admin_sessions)) (r.(operation_templates)) v
    (r.(node_operations)).
Definition set_node_operations (v : gmap Uuid NodeOperationRecord) (r : MemoryState) : MemoryState :=
  mkMemoryState (r.(nodes)) (r.(node_ids_by_code)) (r.(sites)) (r.(site_ids_by_code))
    (r.(releases)) (r.(release_ids_by_version)) (r.(latest_release_by_node))
    (r.(dns_providers)) (r.(dns_provider_ids_by_name)) (r.(dns_zones)) (r.(certificates))
    (r.(site_certificate_refs)) (r.(certificate_orders)) (r.(admin_users))
    (r.(admin_user_ids_by_username)) (r.(admin_sessions)) (r.(operation_templates))
    (r.(operation_template_ids_by_name)) v.

Definition empty_state : MemoryState :=
  mkMemoryState ∅ ∅ ∅ ∅ ∅ ∅ ∅ ∅ ∅ ∅ ∅ ∅ ∅ ∅ ∅ ∅ ∅ ∅ ∅.

(** ** Sites *)

Definition to_spec `{!Extern} (self : SiteRecord) : SiteSpec :=
  let ups := parse_upstreams (site_config self) in
  {|
    spec_id := site_id self;
    spec_code := site_code self;
    spec_name := site_name self;
    spec_domain := site_domain self;
    spec_listen_port := site_listen_port self;
    spec_protocol := site_protocol self;
    spec_tls_enabled := site_tls_enabled self;
    spec_status := site_status self;
    upstreams := ups;
    routes := parse_routes (site_config self) ups;
    cache_rules := parse_cache_rules (site_config self);
  |}.

(** ** Names of enumerations *)

Definition node_status_name (s : NodeStatus) : string :=
  match s with
  | Pending => "pending" | Online => "online" | Suspect => "suspect"
  | Offline => "offline" | Maintenance => "maintenance"
  end.

Definition site_status_name (s : SiteStatus) : string :=
  match s with Draft => "draft" | Published => "published" | Disabled => "disabled" end.

Definition protocol_name (p : Protocol) : string :=
  match p with Http => "http" | Https => "https" | Tcp => "tcp" end.

(** How the database rows are read back. *)
Definition decode_node_status (raw : string) : NodeStatus :=
  if decide (raw = "pending") then Pending
  else if decide (raw = "online") then Online
  else if decide (raw = "suspect") then Suspect
  else if decide (raw = "offline") then Offline
  else if decide (raw = "maintenance") then Maintenance
  else Pending.

Definition decode_site_status (raw : string) : SiteStatus :=
  if decide (raw = "draft") then Draft
  else if decide (raw = "published") then Published
  else if decide (raw = "disabled") then Disabled
  else Draft.

Definition decode_protocol (raw : string) : Protocol :=
  if decide (raw = "http") then Http
  else if decide (raw = "https") then Https
  else if decide (raw = "tcp") then Tcp
  else Http.

(** ** Release status *)

(** The three flags of [aggregate_release_status]. *)
Record AckScan := mkAckScan { has_in_progress : bool; has_failed : bool; all_success : bool }.

Definition scan_ack (s : AckScan) (ack : NodeAckRecord) : AckScan :=
  let st := apply_status ack in
  if decide (st = "success") then s
  else if decide (st = "failed") then mkAckScan (has_in_progress s) true false
  else if decide (st = "downloading" ∨ st = "applying")
  then mkAckScan true (has_failed s) false
  else mkAckScan (has_in_progress s) (has_failed s) false.

Definition aggregate_release_status `{!Extern} (acks : gmap Uuid NodeAckRecord) : string :=
  if decide (acks = ∅) then "pending"
  else
    let s := foldl scan_ack (mkAckScan false false true) (values acks) in
    if has_failed s then "failed"
    else if all_success s then "success"
    else if has_in_progress s then "publishing"
    else "pending".

(** ** Nodes *)

Definition save_node (node : NodeRecord) (state : MemoryState) : MemoryState :=
  let state := set_node_ids_by_code
    (<[node_code (identity node) := id (identity node)]> (node_ids_by_code state)) state in
  set_nodes (<[id (identity node) := node]> (nodes state)) state.

Definition node (state : MemoryState) (node_id : Uuid) : option NodeRecord :=
  nodes state !! node_id.

Definition node_id_by_code (state : MemoryState) (node_code : string) : option Uuid :=
  node_ids_by_code state !! node_code.

Definition list_nodes `{!Extern} (state : MemoryState) : list NodeRecord := values (nodes state).

(** [sort(); dedup()] on strings. *)
Definition sort_dedup (l : list string) : list string := dedup (sort_by String.compare l).

Definition binds_node (node_id : Uuid) (site : SiteRecord) : Prop :=
  Exists (λ b, binding_node_id b = node_id) (bindings site).
#[export] Instance binds_node_dec node_id site : Decision (binds_node node_id site).
Proof. apply _. Defined.

Definition node_delete_guard `{!Extern} (state : MemoryState) (node_id : Uuid) :
    NodeDeleteGuard :=
  mkDeleteGuard
    (sort_dedup (site_code <$> filter (binds_node node_id) (values (sites state)))) 0.

(** The effect of the removal of a node on a site and on a release. *)
Definition unbind_node (node_id : Uuid) (site : SiteRecord) : SiteRecord :=
  set_bindings (filter (λ b, binding_node_id b ≠ node_id) (bindings site)) site.

Definition untarget_node `{!Extern} (node_id : Uuid) (release : ReleaseRecord) : ReleaseRecord :=
  let release := set_target_node_ids
    (filter (λ candidate, candidate ≠ node_id) (target_node_ids release)) release in
  let release := set_ack_status (delete node_id (ack_status release)) release in
  set_release_status (aggregate_release_status (ack_status release)) release.

Definition delete_node `{!Extern} (node_id : Uuid) (state : MemoryState) : MemoryState :=
  match nodes state !! node_id with
  | None => state
  | Some node =>
      let state := set_nodes (delete node_id (nodes state)) state in
      let state := set_node_ids_by_code
        (delete (node_code (identity node)) (node_ids_by_code state)) state in
      let state := set_latest_release_by_node
        (delete node_id (latest_release_by_node state)) state in
      let state := set_sites (unbind_node node_id <$> sites state) state in
      set_releases (untarget_node node_id <$> releases state) state
  end.

(** What a heartbeat changes in the node's record. *)
Definition apply_heartbeat (heartbeat : HeartbeatRecord) (node : NodeRecord) : NodeRecord :=
  {|
    identity :=
      if decide (status (identity node) = Maintenance) then identity node
      else set_status Online (identity node);
    runtime := {|
      active_config_version := hb_active_config_version heartbeat;
      last_seen_at := Some (reported_at heartbeat);
      site_count := hb_site_count heartbeat;
      health_score := hb_health_score heartbeat;
    |};
    labels := labels node;
    hostname := hostname node;
    public_ip := public_ip node;
    private_ip := private_ip node;
    bootstrap_token := bootstrap_token node;
    pingora_version := Some (hb_pingora_version heartbeat);
    agent_version := Some (hb_agent_version heartbeat);
  |}.

Definition record_heartbeat (heartbeat : HeartbeatRecord) (state : MemoryState) : MemoryState :=
  set_nodes (alter (apply_heartbeat heartbeat) (hb_node_id heartbeat) (nodes state)) state.

(** ** Sites *)

Definition save_site (site : SiteRecord) (state : MemoryState) : MemoryState :=
  let state := set_site_ids_by_code
    (<[site_code site := site_id site]> (site_ids_by_code state)) state in
  set_sites (<[site_id site := site]> (sites state)) state.

Definition site (state : MemoryState) (site_id : Uuid) : option SiteRecord :=
  sites state !! site_id.

Definition site_id_by_code (state : MemoryState) (site_code : string) : option Uuid :=
  site_ids_by_code state !! site_code.

Definition list_sites `{!Extern} (state : MemoryState) : list SiteRecord := values (sites state).

(** A certificate order outlives its site. *)
Definition detach_order (site_id : Uuid) (order : CertificateOrderRecord) :
    CertificateOrderRecord :=
  if decide (order_site_id order = Some site_id) then set_order_site_id None order else order.

Definition delete_site (site_id : Uuid) (state : MemoryState) : MemoryState :=
  match sites state !! site_id with
  | None => state
  | Some site =>
      let state := set_sites (delete site_id (sites state)) state in
      let state := set_site_ids_by_code
        (delete (site_code site) (site_ids_by_code state)) state in
      let state := set_site_certificate_refs
        (delete site_id (site_certificate_refs state)) state in
      set_certificate_orders (detach_order site_id <$> certificate_orders state) state
  end.

(** The in-memory repository keeps no failover policies. *)
Definition update_active_failover_policy_targets (site_id primary_node_id standby_node_id : Uuid)
    (state : MemoryState) : Z := 0.

(** ** Releases *)

Definition save_release (release : ReleaseRecord) (state : MemoryState) : MemoryState :=
  let state := set_release_ids_by_version
    (<[release_version release := release_id release]> (release_ids_by_version state)) state in
  let state := set_latest_release_by_node
    (foldl (λ m node_id, <[node_id := release_id release]> m)
       (latest_release_by_node state) (target_node_ids release)) state in
  set_releases (<[release_id release := release]> (releases state)) state.

Definition release (state : MemoryState) (release_id : Uuid) : option ReleaseRecord :=
  releases state !! release_id.

Definition release_by_version (state : MemoryState) (version : string) : option ReleaseRecord :=
  match release_ids_by_version state !! version with
  | None => None
  | Some release_id => releases state !! release_id
  end.

Definition list_releases `{!Extern} (state : MemoryState) : list ReleaseRecord :=
  values (releases state).

Definition latest_release_id_for_node (state : MemoryState) (node_id : Uuid) : option Uuid :=
  latest_release_by_node state !! node_id.

Definition ack_release_record `{!Extern} (node_id : Uuid) (ack : NodeAckRecord)
    (release : ReleaseRecord) : ReleaseRecord :=
  let release := set_ack_status (<[node_id := ack]> (ack_status release)) release in
  set_release_status (aggregate_release_status (ack_status release)) release.

Definition update_release_ack `{!Extern} (release_id node_id : Uuid) (ack : NodeAckRecord)
    (state : MemoryState) : MemoryState :=
  set_releases (alter (ack_release_record node_id ack) release_id (releases state)) state.

(** ** DNS providers and zones *)

Definition save_dns_provider (provider : DnsProviderRecord) (state : MemoryState) : MemoryState :=
  let state := set_dns_provider_ids_by_name
    (<[provider_name provider := provider_id provider]> (dns_provider_ids_by_name state)) state in
  set_dns_providers (<[provider_id provider := provider]> (dns_providers state)) state.

Definition dns_provider (state : MemoryState) (provider_id : Uuid) : option DnsProviderRecord :=
  dns_providers state !! provider_id.

Definition dns_provider_by_name (state : MemoryState) (name : string) :
    option DnsProviderRecord :=
  match dns_provider_ids_by_name state !! name with
  | None => None
  | Some provider_id => dns_providers state !! provider_id
  end.

Definition list_dns_providers `{!Extern} (state : MemoryState) : list DnsProviderRecord :=
  values (dns_providers state).

Definition delete_dns_provider `{!Extern} (provider_id : Uuid) (state : MemoryState) :
    MemoryState :=
  match dns_providers state !! provider_id with
  | None => state
  | Some provider =>
      let state := set_dns_providers (delete provider_id (dns_providers state)) state in
      let state := set_dns_provider_ids_by_name
        (delete (provider_name provider) (dns_provider_ids_by_name state)) state in
      let zone_ids :=
        zone_id <$> filter (λ zone, zone_provider_id zone = provider_id)
                      (values (dns_zones state)) in
      set_dns_zones (foldl (λ m zone_id, delete zone_id m) (dns_zones state) zone_ids) state
  end.

Definition save_dns_zone (zone : DnsZoneRecord) (state : MemoryState) : MemoryState :=
  set_dns_zones (<[zone_id zone := zone]> (dns_zones state)) state.

Definition dns_zone (state : MemoryState) (zone_id : Uuid) : option DnsZoneRecord :=
  dns_zones state !! zone_id.

Definition dns_zone_by_provider_name `{!Extern} (state : MemoryState) (provider_id : Uuid)
    (name : string) : option DnsZoneRecord :=
  find_where (λ zone, zone_provider_id zone = provider_id ∧ zone_name zone = name)
    (values (dns_zones state)).

Definition list_dns_zones `{!Extern} (state : MemoryState) : list DnsZoneRecord :=
  values (dns_zones state).

Definition delete_dns_zone (zone_id : Uuid) (state : MemoryState) : MemoryState :=
  set_dns_zones (delete zone_id (dns_zones state)) state.

(** ** Certificates *)

Definition save_certificate (certificate : CertificateRecord) (state : MemoryState) :
    MemoryState :=
  set_certificates
    (<[certificate_id certificate := certificate]> (certificates state)) state.

Definition site_certificates (state : MemoryState) (site_id : Uuid) : list CertificateRef :=
  default [] (site_certificate_refs state !! site_id).

Definition save_certificate_order (order : CertificateOrderRecord) (state : MemoryState) :
    MemoryState :=
  set_certificate_orders (<[order_id order := order]> (certificate_orders state)) state.

Definition certificate_order (state : MemoryState) (order_id : Uuid) :
    option CertificateOrderRecord :=
  certificate_orders state !! order_id.

Definition list_certificate_orders `{!Extern} (state : MemoryState) :
    list CertificateOrderRecord :=
  values (certificate_orders state).

(** ** Administrators *)

Definition save_admin_user (user : AdminUserRecord) (state : MemoryState) : MemoryState :=
  let state := set_admin_user_ids_by_username
    (<[username user := user_id user]> (admin_user_ids_by_username state)) state in
  set_admin_users (<[user_id user := user]> (admin_users state)) state.

Definition admin_user_by_username (state : MemoryState) (name : string) :
    option AdminUserRecord :=
  match admin_user_ids_by_username state !! name with
  | None => None
  | Some user_id => admin_users state !! user_id
  end.

Definition touch_admin_user_login (user_id : Uuid) (at_ : DateTime) (state : MemoryState) :
    MemoryState :=
  set_admin_users (alter (set_last_login_at (Some at_)) user_id (admin_users state)) state.

Definition save_admin_session (session : AdminSessionRecord) (state : MemoryState) :
    MemoryState :=
  set_admin_sessions
    (<[session_token_hash session := session]> (admin_sessions state)) state.

Definition admin_session_by_token_hash (state : MemoryState) (token_hash : string) :
    option AdminSessionContext :=
  match admin_sessions state !! token_hash with
  | None => None
  | Some session =>
      match admin_users state !! session_user_id session with
      | None => None
      | Some user =>
          Some (mkSessionContext (user_id user) (username user) (display_name user)
                  (user_status user) (session_expires_at session))
      end
  end.

Definition touch_admin_session (token_hash : string) (at_ : DateTime) (state : MemoryState) :
    MemoryState :=
  set_admin_sessions (alter (set_session_last_seen_at at_) token_hash (admin_sessions state)) state.

Definition delete_admin_session (token_hash : string) (state : MemoryState) : MemoryState :=
  set_admin_sessions (delete token_hash (admin_sessions state)) state.

Definition delete_admin_sessions_for_user (uid : Uuid) (exclude : option string)
    (state : MemoryState) : MemoryState :=
  set_admin_sessions
    (filter (λ kv, session_user_id kv.2 ≠ uid ∨ Some kv.1 = exclude) (admin_sessions state))
    state.

(** ** Operation templates and operations *)

Definition save_operation_template (template : OperationTemplateRecord) (state : MemoryState) :
    MemoryState :=
  let state := set_operation_template_ids_by_name
    (<[template_name template := template_id template]>
       (operation_template_ids_by_name state)) state in
  set_operation_templates
    (<[template_id template := template]> (operation_templates state)) state.

Definition operation_template (state : MemoryState) (template_id : Uuid) :
    option OperationTemplateRecord :=
  operation_templates state !! template_id.

Definition operation_template_by_name (state : MemoryState) (name : string) :
    option OperationTemplateRecord :=
  match operation_template_ids_by_name state !! name with
  | None => None
  | Some template_id => operation_templates state !! template_id
  end.

Definition list_operation_templates `{!Extern} (state : MemoryState) :
    list OperationTemplateRecord :=
  values (operation_templates state).

Definition delete_operation_template (tid : Uuid) (state : MemoryState) : MemoryState :=
  match operation_templates state !! tid with
  | None => state
  | Some template =>
      let state := set_operation_templates (delete tid (operation_templates state)) state in
      let state := set_operation_template_ids_by_name
        (delete (template_name template) (operation_template_ids_by_name state)) state in
      set_node_operations
        (filter (λ kv, op_template_id kv.2 ≠ tid) (node_operations state)) state
  end.

Definition save_node_operation (operation : NodeOperationRecord) (state : MemoryState) :
    MemoryState :=
  set_node_operations (<[operation_id operation := operation]> (node_operations state)) state.

Definition node_operation (state : MemoryState) (operation_id : Uuid) :
    option NodeOperationRecord :=
  node_operations state !! operation_id.

Definition list_node_operations `{!Extern} (state : MemoryState) (node_id : Uuid) :
    list NodeOperationRecord :=
  sort_by (cmp_rev (cmp_on op_created_at Z.compare))
    (filter (λ op, op_node_id op = node_id) (values (node_operations state))).

(** The operations a node may claim. *)
Definition claimable (node_id : Uuid) (op : NodeOperationRecord) : Prop :=
  op_node_id op = node_id ∧ exec_status op = "approved".
#[export] Instance claimable_dec node_id op : Decision (claimable node_id op).
Proof. apply _. Defined.

Definition claim_next_node_operation `{!Extern} (node_id : Uuid) (now : DateTime)
    (state : MemoryState) : option ClaimedNodeOperation * MemoryState :=
  let next_operation_id :=
    operation_id <$> min_by (cmp_on op_created_at Z.compare)
                       (filter (claimable node_id) (values (node_operations state))) in
  match next_operation_id with
  | None => (None, state)
  | Some oid =>
      match node_operations state !! oid with
      | None => (None, state)
      | Some operation =>
          let operation := set_started_at (Some now) (set_exec_status "running" operation) in
          let state := set_node_operations (<[oid := operation]> (node_operations state)) state in
          match operation_templates state !! op_template_id operation with
          | None => (None, state)
          | Some template => (Some (mkClaimed operation template), state)
          end
      end
  end.

Definition update_node_operation (operation : NodeOperationRecord) (state : MemoryState) :
    MemoryState :=
  set_node_operations (<[operation_id operation := operation]> (node_operations state)) state.

(** Sorting and removing duplicates keeps the set of strings. *)
Lemma sort_dedup_spec l :
  NoDup (sort_dedup l) ∧ sorted_by String.compare (sort_dedup l) ∧ ∀ x, x ∈ sort_dedup l ↔ x ∈ l.
Proof.
  unfold sort_dedup. split_and!.
  - apply (NoDup_dedup_sorted String.compare); [apply String.compare_eq_iff|].
    apply sort_by_sorted, _.
  - apply sorted_by_dedup, sort_by_sorted, _.
  - intros x. by rewrite elem_of_dedup, elem_of_sort_by.
Qed.

(** ** Release status: the loop against its meaning *)

Definition ack_in_progress (ack : NodeAckRecord) : Prop :=
  apply_status ack = "downloading" ∨ apply_status ack = "applying".
#[export] Instance ack_in_progress_dec ack : Decision (ack_in_progress ack).
Proof. unfold ack_in_progress. apply _. Defined.

(** The rollout of a release, from the acknowledgements of its targets: one
    failure fails it, success takes all of them, and it is publishing while one
    target works on it. *)
Definition release_status_spec (acks : gmap Uuid NodeAckRecord) : string :=
  if decide (acks = ∅) then "pending"
  else if decide (map_Exists (λ _ a, apply_status a = "failed") acks) then "failed"
  else if decide (map_Forall (λ _ a, apply_status a = "success") acks) then "success"
  else if decide (map_Exists (λ _ a, ack_in_progress a) acks) then "publishing"
  else "pending".

Lemma scan_acks_spec l s :
  let s' := foldl scan_ack s l in
  (has_failed s' = true ↔ has_failed s = true ∨ Exists (λ a, apply_status a = "failed") l)
  ∧ (all_success s' = true ↔ all_success s = true ∧ Forall (λ a, apply_status a = "success") l)
  ∧ (has_in_progress s' = true ↔ has_in_progress s = true ∨ Exists ack_in_progress l).
Proof.
  revert s. induction l as [|a l IH]; intros s; simpl.
  { rewrite !Exists_nil, Forall_nil. naive_solver. }
  destruct (IH (scan_ack s a)) as (IH1 & IH2 & IH3). rewrite IH1, IH2, IH3.
  rewrite !Exists_cons, Forall_cons. unfold scan_ack, ack_in_progress.
  destruct (decide (apply_status a = "success")) as [->|]; [naive_solver|].
  destruct (decide (apply_status a = "failed")) as [->|]; [naive_solver|].
  destruct (decide (apply_status a = "downloading" ∨ apply_status a = "applying")); naive_solver.
Qed.

Section Aggregate.
Context `{!Extern, !ExternLaws}.
Implicit Types acks : gmap Uuid NodeAckRecord.

Lemma Exists_values (P : NodeAckRecord → Prop) acks :
  Exists P (values acks) ↔ map_Exists (λ _ a, P a) acks.
Proof.
  rewrite Exists_exists. unfold map_Exists. setoid_rewrite elem_of_values. naive_solver.
Qed.

Lemma Forall_values (P : NodeAckRecord → Prop) acks :
  Forall P (values acks) ↔ map_Forall (λ _ a, P a) acks.
Proof.
  rewrite Forall_forall. unfold map_Forall. setoid_rewrite elem_of_values. naive_solver.
Qed.

Lemma aggregate_release_status_spec_aux acks :
  aggregate_release_status acks = release_status_spec acks.
Proof.
  unfold aggregate_release_status, release_status_spec. case_decide; [done|].
  pose proof (scan_acks_spec (values acks) (mkAckScan false false true)) as (Hf & Hs & Hp).
  rewrite Exists_values in Hf, Hp. rewrite Forall_values in Hs. simpl in Hf, Hs, Hp.
  destruct (has_failed _); [rewrite decide_True by naive_solver; done|].
  rewrite decide_False by naive_solver.
  destruct (all_success _); [rewrite decide_True by naive_solver; done|].
  rewrite decide_False by naive_solver.
  destruct (has_in_progress _); [by rewrite decide_True by naive_solver|].
  by rewrite decide_False by naive_solver.
Qed.

(** The status the code computes with one pass over the acknowledgements, in
    whatever order the hash map yields them, is the declarative rollout status. *)
Theorem aggregate_release_status_spec acks :
  aggregate_release_status acks = release_status_spec acks.
Proof. apply aggregate_release_status_spec_aux. Qed.
End Aggregate.

(** ** Tables and their indexes *)

(** A record with an id and a unique name. *)
Class Indexed (R : Type) := { rid : R → Uuid; rkey : R → string }.

#[export] Instance Indexed_node : Indexed NodeRecord :=
  {| rid n := id (identity n); rkey n := node_code (identity n) |}.
#[export] Instance Indexed_site : Indexed SiteRecord := {| rid := site_id; rkey := site_code |}.
#[export] Instance Indexed_release : Indexed ReleaseRecord :=
  {| rid := release_id; rkey := release_version |}.
#[export] Instance Indexed_provider : Indexed DnsProviderRecord :=
  {| rid := provider_id; rkey := provider_name |}.
#[export] Instance Indexed_user : Indexed AdminUserRecord := {| rid := user_id; rkey := username |}.
#[export] Instance Indexed_template : Indexed OperationTemplateRecord :=
  {| rid := template_id; rkey := template_name |}.

(** Records are filed under their ids, and the index is exactly the map from
    their names to their ids. *)
Record index_ok `{!Indexed R} (table : gmap Uuid R) (index : gmap string Uuid) : Prop := {
  index_complete : ∀ u r, table !! u = Some r → rid r = u ∧ index !! rkey r = Some u;
  index_sound : ∀ k u, index !! k = Some u → ∃ r, table !! u = Some r ∧ rkey r = k;
}.

(** Saving [r] keeps the index exact: its name is not another record's, and it
    does not rename the record it replaces. *)
Record saveable `{!Indexed R} (table : gmap Uuid R) (index : gmap string Uuid) (r : R) : Prop := {
  save_no_clash : ∀ u, index !! rkey r = Some u → u = rid r;
  save_no_rename : ∀ r', table !! rid r = Some r' → rkey r' = rkey r;
}.

Section Index.
Context `{!Indexed R}.
Implicit Types (table : gmap Uuid R) (index : gmap string Uuid).

Lemma index_ok_empty : index_ok (R:=R) ∅ ∅.
Proof. split; intros *; by rewrite lookup_empty. Qed.

Lemma index_ok_insert table index r :
  index_ok table index → saveable table index r →
  index_ok (<[rid r := r]> table) (<[rkey r := rid r]> index).
Proof.
  intros [Hc Hs] [Hclash Hren]. split.
  - intros u r'. rewrite lookup_insert_Some. intros [[<- <-]|[Hne Hr']].
    { by rewrite lookup_insert_eq. }
    destruct (Hc _ _ Hr') as [Hid Hidx]. split; [done|].
    rewrite lookup_insert_ne; [done|]. intros Heq. rewrite <-Heq in Hidx. naive_solver.
  - intros k u. rewrite lookup_insert_Some. intros [[<- <-]|[Hne Hk]].
    { exists r. by rewrite lookup_insert_eq. }
    destruct (Hs _ _ Hk) as (r' & Hr' & <-). exists r'. split; [|done].
    rewrite lookup_insert_ne; [done|]. intros <-. apply Hne. by rewrite (Hren _ Hr').
Qed.

Lemma index_ok_delete table index u r :
  index_ok table index → table !! u = Some r →
  index_ok (delete u table) (delete (rkey r) index).
Proof.
  intros [Hc Hs] Hu. split.
  - intros u' r'. rewrite lookup_delete_Some. intros [Hne Hr'].
    destruct (Hc _ _ Hr') as [Hid Hidx]. split; [done|].
    rewrite lookup_delete_ne; [done|]. intros Heq. rewrite <-Heq in Hidx.
    destruct (Hc _ _ Hu). naive_solver.
  - intros k u'. rewrite lookup_delete_Some. intros [Hne Hk].
    destruct (Hs _ _ Hk) as (r' & Hr' & <-). exists r'. split; [|done].
    rewrite lookup_delete_ne; [done|]. intros <-. naive_solver.
Qed.

(** Updates that touch neither id nor name keep the index exact. *)
Lemma index_ok_fmap (f : R → R) table index :
  (∀ r, rid (f r) = rid r ∧ rkey (f r) = rkey r) →
  index_ok table index → index_ok (f <$> table) index.
Proof.
  intros Hf [Hc Hs]. split.
  - intros u r. rewrite lookup_fmap, fmap_Some. intros (r' & Hr' & ->).
    destruct (Hf r') as [-> ->]. auto.
  - intros k u Hk. destruct (Hs _ _ Hk) as (r & Hr & <-). exists (f r).
    rewrite lookup_fmap, Hr. split; [done|]. apply Hf.
Qed.

Lemma index_ok_alter (f : R → R) u table index :
  (∀ r, rid (f r) = rid r ∧ rkey (f r) = rkey r) →
  index_ok table index → index_ok (alter f u table) index.
Proof.
  intros Hf [Hc Hs]. split.
  - intros u' r. rewrite lookup_alter_Some. intros [(<- & r' & Hr' & ->)|[? ?]]; [|auto].
    destruct (Hf r') as [-> ->]. auto.
  - intros k u' Hk. destruct (Hs _ _ Hk) as (r & Hr & <-). destruct (decide (u = u')) as [<-|].
    + exists (f r). rewrite lookup_alter_eq, Hr. split; [done|]. apply Hf.
    + exists r. by rewrite lookup_alter_ne.
Qed.

(** Names are unique. *)
Lemma index_ok_unique table index u u' r r' :
  index_ok table index → table !! u = Some r → table !! u' = Some r' → rkey r = rkey r' → u = u'.
Proof.
  intros [Hc _] Hr Hr' Heq. apply Hc in Hr as [_ Hr]. apply Hc in Hr' as [_ Hr']. congruence.
Qed.

(** Lookup by name finds exactly the record of that name. *)
Lemma index_ok_by_name table index k r :
  index_ok table index →
  (u ← index !! k; table !! u) = Some r ↔ rkey r = k ∧ table !! rid r = Some r.
Proof.
  intros [Hc Hs]. rewrite bind_Some. split.
  - intros (u & Hk & Hr). destruct (Hc _ _ Hr) as [<- _].
    destruct (Hs _ _ Hk) as (r' & ? & ?). naive_solver.
  - intros [<- Hr]. exists (rid r). split; [|done]. by apply Hc in Hr as [_ ?].
Qed.

(** A name without an index entry is free. *)
Lemma saveable_fresh table index r :
  table !! rid r = None → index !! rkey r = None → saveable table index r.
Proof. intros H1 H2. split; intros *; [by rewrite H2|by rewrite H1]. Qed.

Lemma saveable_update table index r r' :
  index_ok table index → table !! rid r = Some r' → rkey r = rkey r' → saveable table index r.
Proof.
  intros [Hc Hs] Hr Hkey. split.
  - intros u Hu. rewrite Hkey in Hu. apply Hc in Hr as [? ?]. congruence.
  - intros r'' Hr''. naive_solver.
Qed.
End Index.

#[export] Hint Resolve index_ok_empty index_ok_insert : mesh.

(** ** The repository invariant *)

(** Every target of a release has an acknowledgement slot and nobody else, and
    the stored status is the aggregate of the slots. *)
Record release_ok `{!Extern} (r : ReleaseRecord) : Prop := {
  release_acks : dom (ack_status r) = list_to_set (target_node_ids r);
  release_aggregate : release_status r = aggregate_release_status (ack_status r);
}.

Record repo_ok `{!Extern} (s : MemoryState) : Prop := {
  nodes_ok : index_ok (nodes s) (node_ids_by_code s);
  sites_ok : index_ok (sites s) (site_ids_by_code s);
  releases_indexed : index_ok (releases s) (release_ids_by_version s);
  providers_ok : index_ok (dns_providers s) (dns_provider_ids_by_name s);
  users_ok : index_ok (admin_users s) (admin_user_ids_by_username s);
  templates_ok : index_ok (operation_templates s) (operation_template_ids_by_name s);
  zones_keyed : map_Forall (λ u z, zone_id z = u) (dns_zones s);
  orders_keyed : map_Forall (λ u o, order_id o = u) (certificate_orders s);
  sessions_keyed : map_Forall (λ h x, session_token_hash x = h) (admin_sessions s);
  operations_keyed : map_Forall (λ u o, operation_id o = u) (node_operations s);
  operations_templates :
    map_Forall (λ _ o, is_Some (operation_templates s !! op_template_id o)) (node_operations s);
  releases_ok : map_Forall (λ _ r, release_ok r) (releases s);
  latest_ok :
    map_Forall (λ n r, ∃ rel, releases s !! r = Some rel ∧ n ∈ target_node_ids rel)
      (latest_release_by_node s);
}.

(** The mutations of the repository, under conditions that keep names and their
    indexes together.  The service establishes them before it calls, except that it
    lets an administrator rename a template or a provider: such a save is no step here. *)
Inductive repo_step `{!Extern} (s : MemoryState) : MemoryState → Prop :=
  | step_save_node n :
      saveable (nodes s) (node_ids_by_code s) n → repo_step s (save_node n s)
  | step_delete_node u : repo_step s (delete_node u s)
  | step_heartbeat h : repo_step s (record_heartbeat h s)
  | step_save_site x :
      saveable (sites s) (site_ids_by_code s) x → repo_step s (save_site x s)
  | step_delete_site u : repo_step s (delete_site u s)
  | step_save_release r :
      releases s !! release_id r = None → release_ids_by_version s !! release_version r = None →
      release_ok r → repo_step s (save_release r s)
  | step_ack r n a :
      (∀ rel, releases s !! r = Some rel → n ∈ target_node_ids rel) →
      repo_step s (update_release_ack r n a s)
  | step_save_provider p :
      saveable (dns_providers s) (dns_provider_ids_by_name s) p →
      repo_step s (save_dns_provider p s)
  | step_delete_provider u : repo_step s (delete_dns_provider u s)
  | step_save_zone z : repo_step s (save_dns_zone z s)
  | step_delete_zone u : repo_step s (delete_dns_zone u s)
  | step_save_certificate c : repo_step s (save_certificate c s)
  | step_save_order o : repo_step s (save_certificate_order o s)
  | step_save_user u :
      saveable (admin_users s) (admin_user_ids_by_username s) u →
      repo_step s (save_admin_user u s)
  | step_touch_user u t : repo_step s (touch_admin_user_login u t s)
  | step_save_session x : repo_step s (save_admin_session x s)
  | step_touch_session h t : repo_step s (touch_admin_session h t s)
  | step_delete_session h : repo_step s (delete_admin_session h s)
  | step_delete_sessions u e : repo_step s (delete_admin_sessions_for_user u e s)
  | step_save_template t :
      saveable (operation_templates s) (operation_template_ids_by_name s) t →
      repo_step s (save_operation_template t s)
  | step_delete_template u : repo_step s (delete_operation_template u s)
  | step_save_operation o :
      is_Some (operation_templates s !! op_template_id o) →
      repo_step s (save_node_operation o s)
  | step_claim n t : repo_step s (claim_next_node_operation n t s).2
  | step_update_operation o :
      is_Some (operation_templates s !! op_template_id o) →
      repo_step s (update_node_operation o s).

Lemma repo_ok_empty `{!Extern} : repo_ok empty_state.
Proof. split; simpl; eauto with mesh; apply map_Forall_empty. Qed.

(** [save_release] points every target at the release. *)
Lemma lookup_latest_foldl (l : list Uuid) (r : Uuid) (m : gmap Uuid Uuid) n :
  foldl (λ m n, <[n := r]> m) m l !! n = if decide (n ∈ l) then Some r else m !! n.
Proof.
  revert m. induction l as [|x l IH]; intros m; cbn [foldl].
  { by rewrite decide_False by set_solver. }
  rewrite IH. destruct (decide (n = x)) as [->|Hne].
  - rewrite lookup_insert_eq, (decide_True (P := x ∈ x :: l)) by set_solver. by case_decide.
  - rewrite lookup_insert_ne by done. apply decide_ext. set_solver.
Qed.

(** A map filtered or shrunk keeps what holds of all its entries. *)
Lemma map_Forall_foldl_delete {A} (P : Uuid → A → Prop) (l : list Uuid) (m : gmap Uuid A) :
  map_Forall P m → map_Forall P (foldl (λ m k, delete k m) m l).
Proof.
  revert m. induction l as [|k l IH]; intros m Hm; simpl; [done|].
  by apply IH, map_Forall_delete.
Qed.

Lemma map_Forall_alter {A} (P : Uuid → A → Prop) (f : A → A) k (m : gmap Uuid A) :
  (∀ x, m !! k = Some x → P k x → P k (f x)) → map_Forall P m → map_Forall P (alter f k m).
Proof.
  intros Hf Hm j x. rewrite lookup_alter_Some. intros [(<- & y & Hy & ->)|[_ ?]]; auto.
Qed.

Lemma map_Forall_fmap' {A} (P : Uuid → A → Prop) (f : A → A) (m : gmap Uuid A) :
  (∀ k x, P k x → P k (f x)) → map_Forall P m → map_Forall P (f <$> m).
Proof. intros Hf Hm k x. rewrite lookup_fmap, fmap_Some. intros (y & ? & ->). auto. Qed.

Lemma untarget_node_ok `{!Extern} u r : release_ok r → release_ok (untarget_node u r).
Proof.
  intros [Hd Ha]. split; simpl; [|done]. rewrite dom_delete_L, Hd. apply set_eq. intros x.
  rewrite elem_of_difference, !elem_of_list_to_set, list_elem_of_filter. set_solver.
Qed.

Lemma ack_release_record_ok `{!Extern} n a r :
  n ∈ target_node_ids r → release_ok r → release_ok (ack_release_record n a r).
Proof.
  intros Hn [Hd Ha]. split; simpl; [|done]. rewrite dom_insert_L, Hd.
  apply subseteq_union_1_L, singleton_subseteq_l, elem_of_list_to_set, Hn.
Qed.

Lemma map_Forall_filter {A} (P : Uuid → A → Prop) (Q : Uuid * A → Prop)
    `{!∀ x, Decision (Q x)} (m : gmap Uuid A) :
  map_Forall P m → map_Forall P (filter Q m).
Proof. intros Hm k x [? _]%map_lookup_filter_Some. auto. Qed.

(** Splits the invariant of the new state; what the operation does not touch is
    discharged at once. *)
Ltac repo_split := intros []; split; simpl; try done.

Section Preservation.
Context `{!Extern}.
Implicit Types s : MemoryState.

Lemma save_node_ok n s :
  saveable (nodes s) (node_ids_by_code s) n → repo_ok s → repo_ok (save_node n s).
Proof. intros Hn. repo_split. exact (index_ok_insert _ _ n nodes_ok0 Hn). Qed.

Lemma delete_node_ok u s : repo_ok s → repo_ok (delete_node u s).
Proof.
  unfold delete_node. destruct (nodes s !! u) as [n|] eqn:Hn; [|done]. repo_split.
  - exact (index_ok_delete _ _ u n nodes_ok0 Hn).
  - by apply index_ok_fmap.
  - by apply index_ok_fmap.
  - apply map_Forall_fmap'; [|done]. intros _. apply untarget_node_ok.
  - intros x r [Hne Hr]%lookup_delete_Some. destruct (latest_ok0 _ _ Hr) as (rel & Hrel & Hx).
    exists (untarget_node u rel). rewrite lookup_fmap, Hrel. split; [done|]. simpl.
    by apply list_elem_of_filter.
Qed.

Lemma record_heartbeat_ok h s : repo_ok s → repo_ok (record_heartbeat h s).
Proof.
  repo_split. apply index_ok_alter; [|done]. intros r. simpl.
  by case_decide.
Qed.

Lemma save_site_ok x s :
  saveable (sites s) (site_ids_by_code s) x → repo_ok s → repo_ok (save_site x s).
Proof. intros Hx. repo_split. exact (index_ok_insert _ _ x sites_ok0 Hx). Qed.

Lemma delete_site_ok u s : repo_ok s → repo_ok (delete_site u s).
Proof.
  unfold delete_site. destruct (sites s !! u) as [x|] eqn:Hx; [|done]. repo_split.
  - exact (index_ok_delete _ _ u x sites_ok0 Hx).
  - apply map_Forall_fmap'; [|done]. intros k o Ho. unfold detach_order. by case_decide.
Qed.

Lemma save_release_ok r s :
  releases s !! release_id r = None → release_ids_by_version s !! release_version r = None →
  release_ok r → repo_ok s → repo_ok (save_release r s).
Proof.
  intros Hid Hv Hr. repo_split.
  - exact (index_ok_insert _ _ r releases_indexed0 (saveable_fresh (releases s) _ r Hid Hv)).
  - by apply map_Forall_insert_2.
  - intros n u. rewrite lookup_latest_foldl. case_decide as Hn.
    + intros [= <-]. exists r. by rewrite lookup_insert_eq.
    + intros Hu. destruct (latest_ok0 _ _ Hu) as (rel & Hrel & ?). exists rel.
      rewrite lookup_insert_ne; [done|]. congruence.
Qed.

Lemma update_release_ack_ok r n a s :
  (∀ rel, releases s !! r = Some rel → n ∈ target_node_ids rel) →
  repo_ok s → repo_ok (update_release_ack r n a s).
Proof.
  intros Hn. repo_split.
  - by apply index_ok_alter.
  - apply map_Forall_alter; [|done]. intros rel Hrel. apply ack_release_record_ok. auto.
  - intros x u Hu. destruct (latest_ok0 _ _ Hu) as (rel & Hrel & ?).
    destruct (decide (r = u)) as [<-|].
    + exists (ack_release_record n a rel). by rewrite lookup_alter_eq, Hrel.
    + exists rel. by rewrite lookup_alter_ne.
Qed.

Lemma save_dns_provider_ok p s :
  saveable (dns_providers s) (dns_provider_ids_by_name s) p →
  repo_ok s → repo_ok (save_dns_provider p s).
Proof. intros Hp. repo_split. exact (index_ok_insert _ _ p providers_ok0 Hp). Qed.

Lemma delete_dns_provider_ok u s : repo_ok s → repo_ok (delete_dns_provider u s).
Proof.
  unfold delete_dns_provider. destruct (dns_providers s !! u) as [p|] eqn:Hu; [|done]. repo_split.
  - exact (index_ok_delete _ _ u p providers_ok0 Hu).
  - by apply map_Forall_foldl_delete.
Qed.

Lemma save_admin_user_ok u s :
  saveable (admin_users s) (admin_user_ids_by_username s) u →
  repo_ok s → repo_ok (save_admin_user u s).
Proof. intros Hu. repo_split. exact (index_ok_insert _ _ u users_ok0 Hu). Qed.

Lemma save_operation_template_ok t s :
  saveable (operation_templates s) (operation_template_ids_by_name s) t →
  repo_ok s → repo_ok (save_operation_template t s).
Proof.
  intros Ht. repo_split.
  - exact (index_ok_insert _ _ t templates_ok0 Ht).
  - intros k o Ho. apply lookup_insert_is_Some'. right. by apply (operations_templates0 k).
Qed.

Lemma delete_operation_template_ok u s : repo_ok s → repo_ok (delete_operation_template u s).
Proof.
  unfold delete_operation_template. destruct (operation_templates s !! u) as [t|] eqn:Hu; [|done].
  repo_split.
  - exact (index_ok_delete _ _ u t templates_ok0 Hu).
  - by apply map_Forall_filter.
  - intros k o [Ho Hne]%map_lookup_filter_Some. simpl in Hne.
    rewrite lookup_delete_ne by done. by apply (operations_templates0 k).
Qed.

Lemma save_node_operation_ok o s :
  is_Some (operation_templates s !! op_template_id o) →
  repo_ok s → repo_ok (save_node_operation o s).
Proof. intros Ho. repo_split; by apply map_Forall_insert_2. Qed.

(** The operation a claim picks, if any. *)
Definition next_claim (n : Uuid) (s : MemoryState) : option NodeOperationRecord :=
  min_by (cmp_on op_created_at Z.compare) (filter (claimable n) (values (node_operations s))).

Definition start_operation (now : DateTime) (o : NodeOperationRecord) : NodeOperationRecord :=
  set_started_at (Some now) (set_exec_status "running" o).

Lemma claim_ok n now s : repo_ok s → repo_ok (claim_next_node_operation n now s).2.
Proof.
  intros Hok. unfold claim_next_node_operation. fold (next_claim n s).
  destruct (next_claim n s) as [o|]; simpl; [|done].
  destruct (node_operations s !! operation_id o) as [o'|] eqn:Ho'; simpl; [|done].
  assert (repo_ok (save_node_operation (start_operation now o') s)) as Hok'.
  { apply save_node_operation_ok; [|done]. by apply (operations_templates s Hok _ o' Ho'). }
  assert (operation_id (start_operation now o') = operation_id o) as Heq.
  { simpl. by apply (operations_keyed s Hok _ o'). }
  unfold save_node_operation in Hok'. rewrite Heq in Hok'.
  by destruct (operation_templates s !! op_template_id o').
Qed.

(** Every guarded mutation keeps the invariant. *)
Lemma repo_step_ok s s' : repo_ok s → repo_step s s' → repo_ok s'.
Proof.
  intros Hok Hstep. destruct Hstep; revert Hok;
    auto using save_node_ok, delete_node_ok, record_heartbeat_ok, save_site_ok, delete_site_ok,
      save_release_ok, update_release_ack_ok, save_dns_provider_ok, delete_dns_provider_ok,
      save_admin_user_ok, save_operation_template_ok, delete_operation_template_ok,
      save_node_operation_ok, claim_ok.
  all: try (repo_split; solve [by apply map_Forall_insert_2|by apply map_Forall_delete]).
  - repo_split. by apply index_ok_alter.
  - repo_split. intros k x. rewrite lookup_alter_Some. intros [(<- & y & Hy & ->)|[_ ?]]; auto.
    by apply (sessions_keyed0 _ y).
  - repo_split. intros k x [? _]%map_lookup_filter_Some. auto.
Qed.

End Preservation.

(** ** Dispatch of operations *)

Section Dispatch.
Context `{!Extern, !ExternLaws}.
Implicit Types s : MemoryState.

(** The approved operations of a node. *)
Definition approved_ops (n : Uuid) (s : MemoryState) : gmap Uuid NodeOperationRecord :=
  filter (λ kv, claimable n kv.2) (node_operations s).

Lemma elem_of_claimable n s o :
  repo_ok s →
  o ∈ filter (claimable n) (values (node_operations s)) ↔
  approved_ops n s !! operation_id o = Some o.
Proof.
  intros Hok. unfold approved_ops.
  rewrite list_elem_of_filter, elem_of_values, map_lookup_filter_Some. simpl. split.
  - intros [? [k Hk]]. by rewrite (operations_keyed s Hok _ _ Hk).
  - intros [? ?]. eauto.
Qed.

Lemma next_claim_None n s :
  repo_ok s → next_claim n s = None ↔ approved_ops n s = ∅.
Proof.
  intros Hok. unfold next_claim. rewrite min_by_None. split.
  - intros Hnil. apply map_empty. intros k. apply eq_None_not_Some. intros [o Ho].
    apply (not_elem_of_nil o). rewrite <-Hnil. apply elem_of_claimable; [done|].
    pose proof Ho as [Hk _]%map_lookup_filter_Some.
    by rewrite (operations_keyed s Hok _ _ Hk).
  - intros Hemp. apply elem_of_nil_inv. intros o. rewrite elem_of_claimable by done.
    by rewrite Hemp, lookup_empty.
Qed.

Lemma next_claim_Some n s o :
  repo_ok s → next_claim n s = Some o →
  approved_ops n s !! operation_id o = Some o
  ∧ map_Forall (λ _ o', op_created_at o ≤ op_created_at o')%Z (approved_ops n s).
Proof.
  intros Hok Ho. split.
  - apply elem_of_claimable; [done|]. by eapply min_by_elem.
  - intros k o' Hk. pose proof Hk as [Hop _]%map_lookup_filter_Some.
    assert (o' ∈ filter (claimable n) (values (node_operations s))) as Hin.
    { apply elem_of_claimable; [done|]. by rewrite (operations_keyed s Hok _ _ Hop). }
    exact (min_by_le (cmp_on op_created_at Z.compare) _ _ _ Ho Hin).
Qed.

(** Starting an operation removes it, and only it, from the approved ones. *)
Lemma approved_ops_start n now o s :
  approved_ops n (save_node_operation (start_operation now o) s)
  = delete (operation_id o) (approved_ops n s).
Proof.
  unfold approved_ops, save_node_operation, claimable. simpl.
  rewrite map_filter_insert_False by (simpl; naive_solver).
  by rewrite map_filter_delete.
Qed.

(** A claim takes the next operation, marks it running and returns it with its
    template. *)
Lemma claim_next_spec n now s :
  repo_ok s →
  match next_claim n s with
  | None => claim_next_node_operation n now s = (None, s)
  | Some o =>
      ∃ t, operation_templates s !! op_template_id o = Some t
           ∧ claim_next_node_operation n now s
             = (Some (mkClaimed (start_operation now o) t),
                save_node_operation (start_operation now o) s)
  end.
Proof.
  intros Hok. unfold claim_next_node_operation. fold (next_claim n s).
  destruct (next_claim n s) as [o|] eqn:Ho; simpl; [|done].
  apply next_claim_Some in Ho as [[Hop _]%map_lookup_filter_Some _]; [|done].
  rewrite Hop. simpl. destruct (operations_templates s Hok _ _ Hop) as [t Ht].
  exists t. by rewrite Ht.
Qed.

(** A node polling at the given times: what each poll returns. *)
Fixpoint poll (n : Uuid) (times : list DateTime) (s : MemoryState) :
    list (option ClaimedNodeOperation) * MemoryState :=
  match times with
  | [] => ([], s)
  | now :: times' =>
      let '(c, s') := claim_next_node_operation n now s in
      let '(cs, s'') := poll n times' s' in
      (c :: cs, s'')
  end.

(** C28: Operations are dispatched exactly once, oldest first: if a node polls as
    often as it has approved operations, the polls return exactly the approved
    operations in the order of their creation, each marked running at the time of
    its poll, and nothing approved is left. *)
Theorem poll_dispatches_fifo n times s :
  repo_ok s → length times = size (approved_ops n s) →
  ∃ ops cs s', poll n times s = (Some <$> cs, s')
    ∧ operation <$> cs = zip_with start_operation times ops
    ∧ ops ≡ₚ (map_to_list (approved_ops n s)).*2
    ∧ StronglySorted (λ o o', op_created_at o ≤ op_created_at o')%Z ops
    ∧ approved_ops n s' = ∅ ∧ repo_ok s'.
Proof.
  revert s. induction times as [|now times IH]; intros s Hok Hlen; simpl in *.
  { exists [], [], s. symmetry in Hlen. apply map_size_empty_iff in Hlen.
    rewrite Hlen, map_to_list_empty. split_and!; [done..|constructor|done|done]. }
  pose proof (claim_next_spec n now s Hok) as Hclaim.
  destruct (next_claim n s) as [o|] eqn:Ho.
  2: { apply next_claim_None in Ho; [|done]. rewrite Ho, map_size_empty in Hlen. done. }
  destruct Hclaim as (t & Ht & Hclaim). rewrite Hclaim.
  apply next_claim_Some in Ho as [Hin Hmin]; [|done].
  pose proof (claim_ok n now s Hok) as Hok'. rewrite Hclaim in Hok'. simpl in Hok'.
  destruct (IH _ Hok') as (ops & cs & s' & Hpoll & Hops & Hperm & Hsort & Hempty & Hok'').
  { rewrite approved_ops_start, map_size_delete_Some by done. by rewrite <-Hlen. }
  rewrite approved_ops_start in Hperm. rewrite Hpoll.
  exists (o :: ops), (mkClaimed (start_operation now o) t :: cs), s'.
  split_and!; [done|by rewrite fmap_cons, Hops| | |done..].
  - by rewrite Hperm, <-(map_to_list_delete _ _ _ Hin).
  - constructor; [done|]. rewrite Hperm, Forall_fmap, Forall_forall. intros [k o'] Hk. simpl.
    apply elem_of_map_to_list, lookup_delete_Some in Hk as [_ Hk]. by apply (Hmin k).
Qed.
End Dispatch.

(** ** A small repository *)

Definition sample_template : OperationTemplateRecord :=
  mkTemplateRecord 7 "reload" "service_reload" "systemctl reload {{unit}}"
    (VArray [VString "unit"]) 30 "root" false 0.

Definition sample_operation (oid created : Z) : NodeOperationRecord :=
  mkOperation oid 1 7 None (jobj [("unit", VString "pingora")]) "approved" "admin" None None
    None None None None created.

Definition sample_node (u : Uuid) (c : string) (st : NodeStatus) : NodeRecord :=
  mkNodeRecord (mkNodeIdentity u c c "cn-east" "lab" st) (mkNodeRuntimeState None None 0 100)
    (VObject []) None None None None None None.

Definition sample_state : MemoryState :=
  save_node_operation (sample_operation 21 200)
    (save_node_operation (sample_operation 20 100)
      (save_operation_template sample_template
        (save_node (sample_node 1 "edge-a" Online) empty_state))).

Lemma sample_state_steps : rtc repo_step empty_state sample_state.
Proof.
  eapply rtc_l; [apply (step_save_node _ (sample_node 1 "edge-a" Online)); by apply saveable_fresh|].
  eapply rtc_l; [apply (step_save_template _ sample_template); by apply saveable_fresh|].
  eapply rtc_l; [apply (step_save_operation _ (sample_operation 20 100)); by exists sample_template|].
  eapply rtc_l; [apply (step_save_operation _ (sample_operation 21 200)); by exists sample_template|].
  apply rtc_refl.
Qed.

Lemma sample_state_ok : repo_ok sample_state.
Proof.
  apply save_node_operation_ok; [by exists sample_template|].
  apply save_node_operation_ok; [by exists sample_template|].
  apply save_operation_template_ok; [by apply saveable_fresh|].
  apply save_node_ok; [by apply saveable_fresh|]. apply repo_ok_empty.
Qed.


Lemma poll_dispatches_fifo_witness :
  ∃ ops cs s', poll 1 [300; 301]%Z sample_state = (Some <$> cs, s')
    ∧ operation <$> cs = zip_with start_operation [300; 301]%Z ops
    ∧ ops ≡ₚ (map_to_list (approved_ops 1 sample_state)).*2
    ∧ StronglySorted (λ o o', op_created_at o ≤ op_created_at o')%Z ops
    ∧ approved_ops 1 s' = ∅ ∧ repo_ok s'.
Proof.
  apply (poll_dispatches_fifo 1 [300; 301]%Z sample_state).
  - apply sample_state_ok.
  - vm_compute. reflexivity.
Defined.

(** ** Removal of a node *)

(** Removing a node removes every trace of it from the routing state: its
    record and its name, its bindings to sites, its place among the targets and
    acknowledgements of releases and its latest release; the other bindings and
    targets keep their order, and the releases' statuses are those of the
    remaining targets. *)
Theorem delete_node_cascade `{!Extern} (u : Uuid) (n : NodeRecord) (s : MemoryState) :
  repo_ok s → nodes s !! u = Some n →
  let s' := delete_node u s in
  nodes s' = delete u (nodes s)
  ∧ (∀ c, node_id_by_code s' c ≠ Some u)
  ∧ latest_release_id_for_node s' u = None
  ∧ (∀ k x, site s' k = Some x ↔ ∃ x', site s k = Some x' ∧ x = unbind_node u x')
  ∧ map_Forall (λ _ x, ¬ binds_node u x) (sites s')
  ∧ map_Forall (λ _ r, u ∉ target_node_ids r ∧ ack_status r !! u = None
                       ∧ release_status r = aggregate_release_status (ack_status r)) (releases s')
  ∧ repo_ok s'.
Proof.
  intros Hok Hn s'. pose proof (delete_node_ok u s Hok) as Hok'. fold s' in Hok'.
  revert Hok'. subst s'. unfold delete_node. rewrite Hn. simpl. intros Hok'. split_and!.
  - done.
  - intros c Hc. destruct (index_sound _ _ (nodes_ok _ Hok') c u Hc) as (r & Hr & _).
    simpl in Hr. by rewrite lookup_delete_eq in Hr.
  - unfold latest_release_id_for_node. simpl. apply lookup_delete_eq.
  - intros k x. unfold site. simpl. rewrite lookup_fmap, fmap_Some. done.
  - intros k x. rewrite lookup_fmap, fmap_Some. intros (x' & _ & ->). unfold binds_node. simpl.
    rewrite Exists_exists. intros (b & [? _]%list_elem_of_filter & ?). done.
  - intros k r. rewrite lookup_fmap, fmap_Some. intros (r' & _ & ->). simpl. split_and!.
    + rewrite list_elem_of_filter. naive_solver.
    + apply lookup_delete_eq.
    + done.
  - done.
Qed.

Lemma delete_node_cascade_witness :
  nodes (delete_node 1 sample_state) = ∅ ∧ repo_ok (delete_node 1 sample_state).
Proof.
  split; [vm_compute; reflexivity|].
  apply (delete_node_cascade 1 (sample_node 1 "edge-a" Online) sample_state).
  - apply sample_state_ok.
  - vm_compute. reflexivity.
Defined.

(** ** Names round-trip *)

Lemma decode_node_status_name st : decode_node_status (node_status_name st) = st.
Proof. by destruct st. Qed.

Lemma decode_site_status_name st : decode_site_status (site_status_name st) = st.
Proof. by destruct st. Qed.

Lemma decode_protocol_name p : decode_protocol (protocol_name p) = p.
Proof. by destruct p. Qed.

(** ** What a release carries *)

(** C35: The document compiled for a site can be read back: parsing it gives the
    upstreams and the route table of the site's specification, in the same
    order, whenever the site gives its routes explicitly or names its upstreams
    without surrounding blanks. *)
Theorem compiled_config_reads_back `{!Extern} (x : SiteRecord) certs targets version rid now b :
  compile_site_bundle (to_spec x) certs targets version rid now = Ok b →
  (get (site_config x) "routes" = None →
   Forall (λ u, trim (upstream_name u) = upstream_name u ∧ upstream_name u ≠ "")
     (parse_upstreams (site_config x))) →
  parse_upstreams (rendered_config b) = upstreams (to_spec x)
  ∧ parse_routes (rendered_config b) (parse_upstreams (rendered_config b))
    = routes (to_spec x).
Proof.
  unfold compile_site_bundle. destruct (is_empty _); [done|]. intros [= <-] Hn.
  cbn [rendered_config]. destruct (parse_routes_canonical _ Hn) as [Hc Hs].
  rewrite parse_upstreams_render by (apply parse_upstreams_canonical).
  split; [done|]. by apply parse_routes_render.
Qed.

Definition sample_site : SiteRecord :=
  mkSiteRecord 50 "shop" "Shop" "shop.example.com" 443 Https true Draft 1 demo_config
    [mkBinding 1 "primary" 10; mkBinding 2 "standby" 20].

Lemma compiled_config_reads_back_witness :
  ∃ b, compile_site_bundle (to_spec sample_site) [] [] "rel-1" 9 9 = Ok b
    ∧ parse_upstreams (rendered_config b) = upstreams (to_spec sample_site)
    ∧ parse_routes (rendered_config b) (parse_upstreams (rendered_config b))
      = routes (to_spec sample_site).
Proof.
  eexists. split; [reflexivity|].
  eapply (compiled_config_reads_back sample_site [] [] "rel-1" 9 9).
  - reflexivity.
  - intros H. discriminate H.
Defined.

Definition sample_acks : gmap Uuid NodeAckRecord :=
  <[1%Z := mkAck "success" None None None]> (<[2%Z := mkAck "applying" None None None]> ∅).

Lemma aggregate_release_status_spec_witness :
  aggregate_release_status sample_acks = "publishing" ∧ release_status_spec sample_acks = "publishing".
Proof.
  split; [vm_compute; reflexivity|]. rewrite <-(aggregate_release_status_spec sample_acks).
  vm_compute. reflexivity.
Defined.
