(* ===== verification/TokenStore.v ===== *)
(** * Node tokens (apps/hub-api/src/token_store.rs)

    [NodeTokenStore] is the trait the service uses, with the fresh tokens and
    the expiry passed in; [TokenLaws] is what it promises: at most one access
    and one refresh token per node are live, issuing new ones revokes the old
    ones, and revoking leaves none.  The in-memory store is shown to keep the
    promise. *)

From stdpp Require Import prelude strings pretty gmap.
From S2P Require Import Prelude RustStr Json Extern.

Record TokenLease := mkLease { lease_node_id : Uuid; lease_expires_at : DateTime }.
#[export] Instance TokenLease_eq_dec : EqDecision TokenLease.
Proof. solve_decision. Defined.

Record IssuedTokens := mkIssued {
  access_token : string;
  refresh_token : string;
  token_expires_at : DateTime;
}.

(** [issue_tokens node_id access refresh expires_at]: the store files the two
    tokens, made by the caller, until [expires_at]. *)
Class NodeTokenStore (T : Type) := {
  no_tokens : T;
  issue_tokens : Uuid → string → string → DateTime → T → IssuedTokens * T;
  access_lease : T → string → option TokenLease;
  refresh_lease : T → string → option TokenLease;
  revoke_tokens : Uuid → T → T;
}.

(** Leases of one kind after the tokens of a node are dropped. *)
Definition drop_node (n : Uuid) (o : option TokenLease) : option TokenLease :=
  l ← o; if decide (lease_node_id l = n) then None else Some l.

(** [tokens_ok] is the invariant of the implementation. *)
Class TokenLaws (T : Type) `{!NodeTokenStore T} := {
  tokens_ok : T → Prop;
  no_tokens_ok : tokens_ok no_tokens;
  no_tokens_access : ∀ tok, access_lease no_tokens tok = None;
  no_tokens_refresh : ∀ tok, refresh_lease no_tokens tok = None;
  issue_result : ∀ n a r e t, (issue_tokens n a r e t).1 = mkIssued a r e;
  issue_ok : ∀ n a r e t,
    tokens_ok t → access_lease t a = None → refresh_lease t r = None →
    tokens_ok (issue_tokens n a r e t).2;
  issue_access : ∀ n a r e t tok,
    tokens_ok t → access_lease t a = None → refresh_lease t r = None →
    access_lease (issue_tokens n a r e t).2 tok
    = if decide (tok = a) then Some (mkLease n e) else drop_node n (access_lease t tok);
  issue_refresh : ∀ n a r e t tok,
    tokens_ok t → access_lease t a = None → refresh_lease t r = None →
    refresh_lease (issue_tokens n a r e t).2 tok
    = if decide (tok = r) then Some (mkLease n e) else drop_node n (refresh_lease t tok);
  revoke_ok : ∀ n t, tokens_ok t → tokens_ok (revoke_tokens n t);
  revoke_access : ∀ n t tok,
    tokens_ok t → access_lease (revoke_tokens n t) tok = drop_node n (access_lease t tok);
  revoke_refresh : ∀ n t tok,
    tokens_ok t → refresh_lease (revoke_tokens n t) tok = drop_node n (refresh_lease t tok);
}.

(** ** The in-memory store *)

Record MemoryTokenState := mkTokenState {
  access : gmap string TokenLease;
  refresh : gmap string TokenLease;
  current_access_by_node : gmap Uuid string;
  current_refresh_by_node : gmap Uuid string;
}.

(** [if let Some(previous) = current.remove(&node_id) { live.remove(&previous); }]. *)
Definition remove_current (node_id : Uuid) (current : gmap Uuid string)
    (live : gmap string TokenLease) : gmap Uuid string * gmap string TokenLease :=
  match current !! node_id with
  | Some previous => (delete node_id current, delete previous live)
  | None => (delete node_id current, live)
  end.

Definition memory_revoke_tokens (node_id : Uuid) (state : MemoryTokenState) : MemoryTokenState :=
  let '(cur_a, acc) := remove_current node_id (current_access_by_node state) (access state) in
  let '(cur_r, ref) := remove_current node_id (current_refresh_by_node state) (refresh state) in
  mkTokenState acc ref cur_a cur_r.

Definition memory_issue_tokens (node_id : Uuid) (access_token refresh_token : string)
    (expires_at : DateTime) (state : MemoryTokenState) : IssuedTokens * MemoryTokenState :=
  let '(cur_a, acc) := remove_current node_id (current_access_by_node state) (access state) in
  let '(cur_r, ref) := remove_current node_id (current_refresh_by_node state) (refresh state) in
  let lease := mkLease node_id expires_at in
  (mkIssued access_token refresh_token expires_at,
   mkTokenState (<[access_token := lease]> acc) (<[refresh_token := lease]> ref)
     (<[node_id := access_token]> cur_a) (<[node_id := refresh_token]> cur_r)).

Definition memory_access_lease (state : MemoryTokenState) (tok : string) : option TokenLease :=
  access state !! tok.
Definition memory_refresh_lease (state : MemoryTokenState) (tok : string) : option TokenLease :=
  refresh state !! tok.

#[export] Instance MemoryTokenStore : NodeTokenStore MemoryTokenState := {|
  no_tokens := mkTokenState ∅ ∅ ∅ ∅;
  issue_tokens := memory_issue_tokens;
  access_lease := memory_access_lease;
  refresh_lease := memory_refresh_lease;
  revoke_tokens := memory_revoke_tokens;
|}.

(** The live tokens of one kind are exactly the current ones of their nodes. *)
Definition current_ok (current : gmap Uuid string) (live : gmap string TokenLease) : Prop :=
  ∀ tok n, current !! n = Some tok ↔ lease_node_id <$> live !! tok = Some n.

Section Current.
Implicit Types (current : gmap Uuid string) (live : gmap string TokenLease).

Lemma remove_current_lookup n current live tok :
  current_ok current live → (remove_current n current live).2 !! tok = drop_node n (live !! tok).
Proof.
  intros Hok. unfold remove_current, drop_node. destruct (live !! tok) as [l|] eqn:Hl; simpl.
  - assert (current !! lease_node_id l = Some tok) as Hcur by (apply Hok; by rewrite Hl).
    destruct (current !! n) as [prev|] eqn:Hn; simpl; case_decide as Heq; subst; simplify_eq.
    + apply lookup_delete_eq.
    + rewrite lookup_delete_ne; [done|]. intros ->. apply Hok in Hn. rewrite Hl in Hn. naive_solver.
    + done.
  - destruct (current !! n); simpl; [|done]. by apply lookup_delete_None; right.
Qed.

Lemma remove_current_ok n current live :
  current_ok current live →
  let '(c, l) := remove_current n current live in current_ok c l ∧ c !! n = None.
Proof.
  intros Hok. pose proof (remove_current_lookup n current live) as Hlook. unfold remove_current in *.
  assert (∀ tok m, delete n current !! m = Some tok ↔ lease_node_id <$> drop_node n (live !! tok) = Some m)
    as Hgen.
  { intros tok m. rewrite lookup_delete_Some, (Hok tok m). unfold drop_node.
    destruct (live !! tok) as [l|]; simpl; [|naive_solver]. case_decide; naive_solver. }
  destruct (current !! n) as [prev|] eqn:Hn; (split; [|apply lookup_delete_eq]).
  - intros tok m. rewrite Hgen. by rewrite <-(Hlook tok Hok).
  - intros tok m. rewrite Hgen. by rewrite <-(Hlook tok Hok).
Qed.

Lemma current_ok_insert n tok e current live :
  current_ok current live → current !! n = None → live !! tok = None →
  current_ok (<[n := tok]> current) (<[tok := mkLease n e]> live).
Proof.
  intros Hok Hn Htok tok' n'. destruct (decide (tok = tok')) as [<-|Hne].
  - rewrite (lookup_insert_eq live). simpl. rewrite lookup_insert_Some. split.
    + intros [[-> _]|[Hne Hn']]; [done|]. apply Hok in Hn'. by rewrite Htok in Hn'.
    + intros [= ->]. auto.
  - rewrite (lookup_insert_ne live) by done. rewrite <-(Hok tok' n'), lookup_insert_Some.
    split; [naive_solver|]. intros Hn'. right. split; [|done]. congruence.
Qed.
End Current.

(** A lease that survives the revocation was there, for another node. *)
Lemma drop_node_Some n o l : drop_node n o = Some l → o = Some l ∧ lease_node_id l ≠ n.
Proof. unfold drop_node. destruct o; simpl; [|done]. case_decide; naive_solver. Qed.

Lemma drop_node_None n o : o = None → drop_node n o = None.
Proof. by intros ->. Qed.

#[export] Instance MemoryTokenLaws : TokenLaws MemoryTokenState.
Proof.
  refine {| tokens_ok t :=
    current_ok (current_access_by_node t) (access t)
    ∧ current_ok (current_refresh_by_node t) (refresh t) |}.
  - split; intros ??; simpl; by rewrite !lookup_empty.
  - done.
  - done.
  - intros. simpl. unfold memory_issue_tokens. by do 2 destruct (remove_current _ _ _).
  - intros n a r e t [Ha Hr] Hna Hnr. simpl in *. unfold memory_issue_tokens.
    pose proof (remove_current_lookup n _ _ a Ha) as Hla.
    pose proof (remove_current_lookup n _ _ r Hr) as Hlr.
    pose proof (remove_current_ok n _ _ Ha) as Hoa. pose proof (remove_current_ok n _ _ Hr) as Hor.
    do 2 destruct (remove_current _ _ _). simpl in *. destruct Hoa, Hor.
    rewrite drop_node_None in Hla, Hlr by done.
    split; by apply current_ok_insert.
  - intros n a r e t tok [Ha Hr] Hna Hnr. simpl in *.
    unfold memory_issue_tokens, memory_access_lease in *.
    pose proof (remove_current_lookup n _ _ tok Ha) as Hla.
    do 2 destruct (remove_current _ _ _). simpl in *. case_decide; subst.
    + apply lookup_insert_eq.
    + by rewrite lookup_insert_ne.
  - intros n a r e t tok [Ha Hr] Hna Hnr. simpl in *.
    unfold memory_issue_tokens, memory_refresh_lease in *.
    pose proof (remove_current_lookup n _ _ tok Hr) as Hlr.
    do 2 destruct (remove_current _ _ _). simpl in *. case_decide; subst.
    + apply lookup_insert_eq.
    + by rewrite lookup_insert_ne.
  - intros n t [Ha Hr]. simpl. unfold memory_revoke_tokens.
    pose proof (remove_current_ok n _ _ Ha) as Hoa. pose proof (remove_current_ok n _ _ Hr) as Hor.
    do 2 destruct (remove_current _ _ _). simpl. by destruct Hoa, Hor.
  - intros n t tok [Ha Hr]. simpl. unfold memory_revoke_tokens, memory_access_lease.
    pose proof (remove_current_lookup n _ _ tok Ha) as Hla.
    by do 2 destruct (remove_current _ _ _).
  - intros n t tok [Ha Hr]. simpl. unfold memory_revoke_tokens, memory_refresh_lease.
    pose proof (remove_current_lookup n _ _ tok Hr) as Hlr.
    by do 2 destruct (remove_current _ _ _).
Defined.
