(* ===== verification/Hub.v ===== *)
(** * The hub service: state and effects (apps/hub-api/src/service.rs)

    [HubService] holds the repository, the token store and the release counter;
    [World] is their state together with the positions reached in the random
    and clock streams.  A handler is a function [Hub A]: it returns a value or
    an [AppError], and the state as it leaves it, on errors too.  The service is
    written against the interface [NodeTokenStore]. *)

From stdpp Require Import prelude strings pretty gmap sorting.
From S2P Require Import Prelude RustStr Json Extern AppError Domain Records Store TokenStore.

Record World (T : Type) := mkWorld {
  repo : MemoryState;
  tokens : T;
  release_counter : Z;
  cert_auto_renew_before_days : Z;
  rng_next : nat;
  clock_next : nat;
}.
Arguments mkWorld {T}.
Arguments repo {T}.
Arguments tokens {T}.
Arguments release_counter {T}.
Arguments cert_auto_renew_before_days {T}.
Arguments rng_next {T}.
Arguments clock_next {T}.

Definition set_repo {T} (s : MemoryState) (w : World T) : World T :=
  mkWorld s (tokens w) (release_counter w) (cert_auto_renew_before_days w) (rng_next w)
    (clock_next w).
Definition set_tokens {T} (t : T) (w : World T) : World T :=
  mkWorld (repo w) t (release_counter w) (cert_auto_renew_before_days w) (rng_next w)
    (clock_next w).
Definition set_release_counter {T} (c : Z) (w : World T) : World T :=
  mkWorld (repo w) (tokens w) c (cert_auto_renew_before_days w) (rng_next w) (clock_next w).
Definition set_rng_next {T} (i : nat) (w : World T) : World T :=
  mkWorld (repo w) (tokens w) (release_counter w) (cert_auto_renew_before_days w) i (clock_next w).
Definition set_clock_next {T} (i : nat) (w : World T) : World T :=
  mkWorld (repo w) (tokens w) (release_counter w) (cert_auto_renew_before_days w) (rng_next w) i.

Definition Hub (T A : Type) : Type := World T → Fallible A * World T.

Section Monad.
Context {T : Type} `{EX : !Extern, NT : !NodeTokenStore T}.

Definition ret {A} (a : A) : Hub T A := λ w, (Ok a, w).
Definition fail {A} (e : AppError) : Hub T A := λ w, (Err e, w).
Definition bind {A B} (m : Hub T A) (k : A → Hub T B) : Hub T B := λ w,
  match m w with
  | (Ok a, w') => k a w'
  | (Err e, w') => (Err e, w')
  end.
Definition lift {A} (r : Fallible A) : Hub T A := λ w, (r, w).

(** [if !b { return Err(e); }]. *)
Definition require (b : bool) (e : AppError) : Hub T unit := λ w,
  (if b then Ok tt else Err e, w).

(** A query of the repository and an update of it. *)
Definition read {A} (f : MemoryState → A) : Hub T A := λ w, (Ok (f (repo w)), w).
Definition write (f : MemoryState → MemoryState) : Hub T unit := λ w,
  (Ok tt, set_repo (f (repo w)) w).

(** [Uuid::new_v4()] and [Utc::now()]. *)
Definition new_v4 : Hub T Uuid := λ w,
  (Ok (rng (rng_next w)), set_rng_next (S (rng_next w)) w).
Definition utc_now : Hub T DateTime := λ w,
  (Ok (clock (clock_next w)), set_clock_next (S (clock_next w)) w).

(** [o.ok_or_else(|| e)?]. *)
Definition get_or {A} (o : option A) (e : AppError) : Hub T A := lift (ok_or o e).

(** Queries and updates of the token store. *)
Definition read_tokens {A} (f : T → A) : Hub T A := λ w, (Ok (f (tokens w)), w).
Definition write_tokens {A} (f : T → A * T) : Hub T A := λ w,
  let '(a, t) := f (tokens w) in (Ok a, set_tokens t w).

(** [release_counter.fetch_add(1, Relaxed)]. *)
Definition next_serial : Hub T Z := λ w,
  (Ok (release_counter w), set_release_counter (wrap_u64 (release_counter w + 1)) w).
End Monad.

Notation "'let!' x := e 'in' k" := (bind e (λ x, k))
  (at level 10, x pattern at level 0, e at level 100, k at level 200,
   format "'let!'  x  :=  e  'in' '//' k") : mesh_scope.
Notation "'do!' e 'in' k" := (bind e (λ _, k))
  (at level 10, e at level 100, k at level 200, format "'do!'  e  'in' '//' k") : mesh_scope.

(** [HubService::new_memory_with_cert_auto_renew_before_days]; the horizon is
    clamped to at least a day. *)
Definition normalize_cert_auto_renew_before_days (d : Z) : Z := Z.max d 1.

Definition new_memory `{!NodeTokenStore T} (d : Z) : World T :=
  mkWorld empty_state no_tokens 1 (normalize_cert_auto_renew_before_days d) 0 0.

(** ** Running handlers *)

Section Inversion.
Context {T : Type} `{EX : !Extern, NT : !NodeTokenStore T}.
Implicit Types w : World T.

Lemma bind_Ok {A B} (m : Hub T A) (k : A → Hub T B) w b w' :
  bind m k w = (Ok b, w') ↔ ∃ a w1, m w = (Ok a, w1) ∧ k a w1 = (Ok b, w').
Proof. unfold bind. destruct (m w) as [[a|e] w1]; naive_solver. Qed.

Lemma bind_Err {A B} (m : Hub T A) (k : A → Hub T B) w e w' :
  bind m k w = (Err e, w') ↔
  m w = (Err e, w') ∨ ∃ a w1, m w = (Ok a, w1) ∧ k a w1 = (Err e, w').
Proof. unfold bind. destruct (m w) as [[a|e'] w1]; naive_solver. Qed.

Lemma require_Ok b e w u w' : require b e w = (Ok u, w') ↔ b = true ∧ w' = w.
Proof. unfold require. destruct b, u; naive_solver. Qed.

Lemma require_Err b e w e' w' : require b e w = (Err e', w') ↔ b = false ∧ e' = e ∧ w' = w.
Proof. unfold require. destruct b; naive_solver. Qed.

Lemma read_Ok {A} (f : MemoryState → A) w a w' :
  read f w = (Ok a, w') ↔ a = f (repo w) ∧ w' = w.
Proof. unfold read. naive_solver. Qed.

Lemma read_tokens_Ok {A} (f : T → A) w a w' :
  read_tokens f w = (Ok a, w') ↔ a = f (tokens w) ∧ w' = w.
Proof. unfold read_tokens. naive_solver. Qed.

Lemma write_Ok f w u w' : write f w = (Ok u, w') ↔ w' = set_repo (f (repo w)) w.
Proof. unfold write. destruct u. naive_solver. Qed.

Lemma lift_Ok {A} (r : Fallible A) w a w' : lift r w = (Ok a, w') ↔ r = Ok a ∧ w' = w.
Proof. unfold lift. naive_solver. Qed.

Lemma lift_Err {A} (r : Fallible A) w e w' : lift r w = (Err e, w') ↔ r = Err e ∧ w' = w.
Proof. unfold lift. naive_solver. Qed.

Lemma get_or_Ok {A} (o : option A) e w a w' :
  get_or o e w = (Ok a, w') ↔ o = Some a ∧ w' = w.
Proof. unfold get_or. rewrite lift_Ok, ok_or_Ok. done. Qed.

Lemma get_or_Err {A} (o : option A) e w e' w' :
  get_or o e w = (Err e', w') ↔ o = None ∧ e' = e ∧ w' = w.
Proof. unfold get_or. rewrite lift_Err. destruct o; naive_solver. Qed.

Lemma ret_Ok {A} (a b : A) w w' : ret a w = (Ok b, w') ↔ b = a ∧ w' = w.
Proof. unfold ret. naive_solver. Qed.
End Inversion.

(** Turns the guards that held into propositions. *)
Ltac guard_norm :=
  repeat match goal with
  | H : negb (is_empty _) = true |- _ => apply negb_true_iff, is_empty_false in H
  | H : negb (bool_decide _) = true |- _ => apply negb_true_iff, bool_decide_eq_false in H
  | H : negb _ = true |- _ => apply negb_true_iff in H
  | H : bool_decide _ = true |- _ => apply bool_decide_eq_true in H
  end.

(** Inverts a successful run: binds are split, reads, writes and guards are
    resolved; what remains are the calls of other handlers. *)
Ltac hub_inv :=
  repeat match goal with
  | H : bind _ _ _ = (Ok _, _) |- _ => apply bind_Ok in H as (? & ? & ? & ?)
  | H : require _ _ _ = (Ok _, _) |- _ => apply require_Ok in H as [? ->]
  | H : read _ _ = (Ok _, _) |- _ => apply read_Ok in H as [-> ->]
  | H : read_tokens _ _ = (Ok _, _) |- _ => apply read_tokens_Ok in H as [-> ->]
  | H : write _ _ = (Ok _, _) |- _ => apply write_Ok in H as ->
  | H : get_or _ _ _ = (Ok _, _) |- _ => apply get_or_Ok in H as [? ->]
  | H : lift _ _ = (Ok _, _) |- _ => apply lift_Ok in H as [? ->]
  | H : ret _ _ = (Ok _, _) |- _ => apply ret_Ok in H as [? ->]
  | H : new_v4 _ = (Ok _, _) |- _ => injection H as <- <-
  | H : utc_now _ = (Ok _, _) |- _ => injection H as <- <-
  | H : next_serial _ = (Ok _, _) |- _ => injection H as <- <-
  | H : fail _ _ = (Ok _, _) |- _ => discriminate H
  end; guard_norm.

(** Does a handler leave the repository and the tokens alone when it fails? *)
Definition atomic_on_error {T A} (m : Hub T A) : Prop :=
  ∀ w e w', m w = (Err e, w') → repo w' = repo w ∧ tokens w' = tokens w.

(** Does a step never change the repository and the tokens? *)
Definition pure_step {T A} (m : Hub T A) : Prop :=
  ∀ w r w', m w = (r, w') → repo w' = repo w ∧ tokens w' = tokens w.

(** Does a step never fail? *)
Definition never_fails {T A} (m : Hub T A) : Prop := ∀ w e w', m w ≠ (Err e, w').

Create HintDb hub discriminated.

Section Atomicity.
Context {T : Type} `{EX : !Extern, NT : !NodeTokenStore T}.

Lemma atomic_pure {A} (m : Hub T A) : pure_step m → atomic_on_error m.
Proof. intros Hm w e w' H. by eapply Hm. Qed.

Lemma atomic_never_fails {A} (m : Hub T A) : never_fails m → atomic_on_error m.
Proof. intros Hm w e w' H. by destruct (Hm w e w'). Qed.

(** Checks before effects: a pure step may precede anything atomic. *)
Lemma atomic_bind_pure {A B} (m : Hub T A) (k : A → Hub T B) :
  pure_step m → (∀ a, atomic_on_error (k a)) → atomic_on_error (bind m k).
Proof.
  intros Hm Hk w e w' [H|(a & w1 & H1 & H2)]%bind_Err; [by eapply Hm|].
  apply Hm in H1 as [<- <-]. by eapply Hk.
Qed.

(** Once an effect has happened nothing may fail. *)
Lemma atomic_bind_effect {A B} (m : Hub T A) (k : A → Hub T B) :
  atomic_on_error m → (∀ a, never_fails (k a)) → atomic_on_error (bind m k).
Proof.
  intros Hm Hk w e w' [H|(a & w1 & H1 & H2)]%bind_Err; [by eapply Hm|].
  by destruct (Hk a w1 e w').
Qed.

Lemma never_fails_bind {A B} (m : Hub T A) (k : A → Hub T B) :
  never_fails m → (∀ a, never_fails (k a)) → never_fails (bind m k).
Proof. intros Hm Hk w e w' [H|(a & w1 & H1 & H2)]%bind_Err; [by eapply Hm|by eapply Hk]. Qed.

Lemma pure_bind {A B} (m : Hub T A) (k : A → Hub T B) :
  pure_step m → (∀ a, pure_step (k a)) → pure_step (bind m k).
Proof.
  intros Hm Hk w r w'. unfold bind. destruct (m w) as [[a|e] w1] eqn:H.
  - intros Hr. apply Hm in H as [<- <-]. by eapply Hk.
  - intros [= <- <-]. by eapply Hm.
Qed.

Lemma pure_ret {A} (a : A) : pure_step (ret (T:=T) a).
Proof. by intros w r w' [= <- <-]. Qed.
Lemma pure_fail {A} e : pure_step (fail (T:=T) (A:=A) e).
Proof. by intros w r w' [= <- <-]. Qed.
Lemma pure_lift {A} (x : Fallible A) : pure_step (lift (T:=T) x).
Proof. by intros w r w' [= <- <-]. Qed.
Lemma pure_get_or {A} (o : option A) e : pure_step (get_or (T:=T) o e).
Proof. apply pure_lift. Qed.
Lemma pure_require b e : pure_step (require (T:=T) b e).
Proof. by intros w r w' [= <- <-]. Qed.
Lemma pure_read {A} (f : MemoryState → A) : pure_step (read (T:=T) f).
Proof. by intros w r w' [= <- <-]. Qed.
Lemma pure_read_tokens {A} (f : T → A) : pure_step (read_tokens f).
Proof. by intros w r w' [= <- <-]. Qed.
Lemma pure_new_v4 : pure_step (new_v4 (T:=T)).
Proof. by intros w r w' [= <- <-]. Qed.
Lemma pure_utc_now : pure_step (utc_now (T:=T)).
Proof. by intros w r w' [= <- <-]. Qed.
Lemma pure_next_serial : pure_step (next_serial (T:=T)).
Proof. by intros w r w' [= <- <-]. Qed.

Lemma never_fails_ret {A} (a : A) : never_fails (ret (T:=T) a).
Proof. by intros w e w'. Qed.
Lemma never_fails_write f : never_fails (write (T:=T) f).
Proof. by intros w e w'. Qed.
Lemma never_fails_read {A} (f : MemoryState → A) : never_fails (read (T:=T) f).
Proof. by intros w e w'. Qed.
Lemma never_fails_new_v4 : never_fails (new_v4 (T:=T)).
Proof. by intros w e w'. Qed.
Lemma never_fails_utc_now : never_fails (utc_now (T:=T)).
Proof. by intros w e w'. Qed.
Lemma never_fails_write_tokens {A} (f : T → A * T) : never_fails (write_tokens f).
Proof. intros w e w'. unfold write_tokens. by destruct (f _). Qed.
End Atomicity.

#[export] Hint Resolve pure_ret pure_fail pure_lift pure_get_or pure_require pure_read
  pure_read_tokens pure_new_v4 pure_utc_now pure_next_serial pure_bind
  never_fails_ret never_fails_write never_fails_read never_fails_new_v4 never_fails_utc_now
  never_fails_write_tokens never_fails_bind atomic_pure atomic_never_fails : hub.

(** Atomicity by walking the handler: pure steps first, effects last. *)
Ltac atomic_step :=
  match goal with
  | |- ∀ _, _ => intros ?
  | |- atomic_on_error (match ?x with _ => _ end) => destruct x
  | |- never_fails (match ?x with _ => _ end) => destruct x
  | |- pure_step (match ?x with _ => _ end) => destruct x
  | |- atomic_on_error (bind _ _) =>
      first [apply atomic_bind_pure; [solve [eauto 10 with hub|case_match; eauto 10 with hub]|]
            |apply atomic_bind_effect; [|]]
  | |- never_fails (bind _ _) => apply never_fails_bind
  | |- pure_step (bind _ _) => apply pure_bind
  | |- _ => solve [eauto 10 with hub]
  end.
Ltac solve_atomic := repeat atomic_step.

(** ** The invariant of the hub *)

(** The ids of the tables that are keyed by drawn uuids. *)
Definition used_ids (s : MemoryState) : gset Uuid :=
  dom (nodes s) ∪ dom (sites s) ∪ dom (releases s) ∪ dom (dns_providers s)
  ∪ dom (admin_users s) ∪ dom (operation_templates s) ∪ dom (node_operations s)
  ∪ dom (dns_zones s) ∪ dom (certificates s) ∪ dom (certificate_orders s).

(** The tokens the store makes from drawn uuids. *)
Definition access_token_of `{!Extern} (u : Uuid) : string := "node-at-" +:+ uuid_to_string u.
Definition refresh_token_of `{!Extern} (u : Uuid) : string := "node-rt-" +:+ uuid_to_string u.

Section WorldOk.
Context {T : Type} `{EX : !Extern, EL : !ExternLaws, NT : !NodeTokenStore T, TL : !TokenLaws T}.
Implicit Types w : World T.

(** The repository and the token store are in order, and nothing is filed under
    a uuid that is still to be drawn. *)
Record world_ok (w : World T) : Prop := {
  world_repo : repo_ok (repo w);
  world_tokens : tokens_ok (tokens w);
  world_fresh_ids : ∀ i, rng_next w ≤ i → rng i ∉ used_ids (repo w);
  world_fresh_access : ∀ i, rng_next w ≤ i → access_lease (tokens w) (access_token_of (rng i)) = None;
  world_fresh_refresh : ∀ i, rng_next w ≤ i → refresh_lease (tokens w) (refresh_token_of (rng i)) = None;
}.

Lemma used_ids_empty : used_ids empty_state = ∅.
Proof. unfold used_ids. simpl. rewrite !dom_empty_L. set_solver. Qed.

Lemma world_ok_new d : world_ok (new_memory d).
Proof.
  split; simpl.
  - apply repo_ok_empty.
  - apply no_tokens_ok.
  - intros i _. rewrite used_ids_empty. set_solver.
  - intros. apply no_tokens_access.
  - intros. apply no_tokens_refresh.
Qed.

(** A step of the repository that files records only under uuids drawn before. *)
Lemma world_ok_repo w s' w' :
  world_ok w → repo w' = s' → tokens w' = tokens w → rng_next w ≤ rng_next w' →
  repo_ok s' →
  (∀ u, u ∈ used_ids s' → u ∈ used_ids (repo w) ∨ ∃ i, i < rng_next w' ∧ u = rng i) →
  world_ok w'.
Proof.
  intros [Hr Ht Hf Ha Hrf] <- Htok Hrng Hok' Hused. split; [done|by rewrite Htok|..].
  - intros i Hi Hin. destruct (Hused _ Hin) as [Hin'|(j & Hj & Heq)].
    + by apply (Hf i); [lia|].
    + apply rng_inj in Heq. lia.
  - intros i Hi. rewrite Htok. apply Ha. lia.
  - intros i Hi. rewrite Htok. apply Hrf. lia.
Qed.

(** Without a change of state. *)
Lemma world_ok_same w w' :
  world_ok w → repo w' = repo w → tokens w' = tokens w → rng_next w ≤ rng_next w' → world_ok w'.
Proof.
  intros Hw Hr Ht Hn. eapply (world_ok_repo w (repo w)); try done; [by apply world_repo|auto].
Qed.

Lemma access_token_of_inj u v : access_token_of u = access_token_of v → u = v.
Proof. unfold access_token_of. intros H. simplify_eq. by apply uuid_to_string_inj. Qed.

Lemma refresh_token_of_inj u v : refresh_token_of u = refresh_token_of v → u = v.
Proof. unfold refresh_token_of. intros H. simplify_eq. by apply uuid_to_string_inj. Qed.

Lemma drop_node_fresh n (o : option TokenLease) : o = None → drop_node n o = None.
Proof. by intros ->. Qed.

(** Issuing tokens made from the next two uuids. *)
Lemma world_ok_issue w n e w' :
  world_ok w →
  repo w' = repo w → rng_next w' = S (S (rng_next w)) →
  tokens w' = (issue_tokens n (access_token_of (rng (rng_next w)))
                 (refresh_token_of (rng (S (rng_next w)))) e (tokens w)).2 →
  world_ok w'.
Proof.
  intros [Hr Ht Hf Ha Hrf] Hrepo Hrng Htok. split; rewrite ?Hrepo, ?Hrng, ?Htok; [done|..].
  - apply issue_ok; [done|apply Ha; lia|apply Hrf; lia].
  - intros i Hi. apply Hf. lia.
  - intros i Hi. rewrite issue_access by (done || apply Ha || apply Hrf; lia).
    rewrite decide_False; [apply drop_node_fresh, Ha; lia|].
    intros Heq%access_token_of_inj%rng_inj. lia.
  - intros i Hi. rewrite issue_refresh by (done || apply Ha || apply Hrf; lia).
    rewrite decide_False; [apply drop_node_fresh, Hrf; lia|].
    intros Heq%refresh_token_of_inj%rng_inj. lia.
Qed.

Lemma world_ok_revoke w n w' :
  world_ok w → repo w' = repo w → rng_next w' = rng_next w →
  tokens w' = revoke_tokens n (tokens w) → world_ok w'.
Proof.
  intros [Hr Ht Hf Ha Hrf] Hrepo Hrng Htok. split; rewrite ?Hrepo, ?Hrng, ?Htok; [done|..].
  - by apply revoke_ok.
  - done.
  - intros i Hi. rewrite revoke_access by done. by apply drop_node_fresh, Ha.
  - intros i Hi. rewrite revoke_refresh by done. by apply drop_node_fresh, Hrf.
Qed.
End WorldOk.
