(* ===== verification/HubAdmin.v ===== *)
(** * Administrators (apps/hub-api/src/service.rs)

    Accounts, login, sessions and passwords. *)

From stdpp Require Import prelude strings pretty gmap sorting.
From Stdlib Require Import Ascii.
From S2P Require Import Prelude RustStr Json Extern AppError Domain Records Store TokenStore Hub.

(** ** Requests and responses (crates/protocol/src/admin.rs) *)

Record AdminLoginRequest := mkLogin { login_username : string; login_password : string }.

Record AdminSessionInfo := mkSessionInfo {
  info_user_id : Uuid;
  info_username : string;
  info_display_name : string;
  info_expires_at : DateTime;
}.

Record AdminLoginResponse := mkLoginResponse { login_session : AdminSessionInfo }.
Record AdminMeResponse := mkMeResponse { me_session : AdminSessionInfo }.

Record ChangeAdminPasswordRequest := mkChangePassword {
  current_password : string;
  new_password : string;
}.

Record ChangeAdminPasswordResponse := mkChangePasswordResponse {
  changed_user_id : Uuid;
  changed_username : string;
  changed : bool;
}.

(** ** Helpers *)

Definition ADMIN_SESSION_TTL_HOURS : Z := 8.

Definition normalize_admin_username (raw : string) : Fallible string :=
  let normalized := to_ascii_lowercase (trim raw) in
  if is_empty normalized then Err (bad_request "username is required") else Ok normalized.

Definition normalize_admin_display_name (raw : string) : string :=
  if is_empty (trim raw) then "Administrator" else trim raw.

Section Admin.
Context {T : Type} `{EX : !Extern, NT : !NodeTokenStore T}.

Definition hash_password (raw_password : string) : Hub T string :=
  do! require (negb (bool_decide (String.length raw_password < 6)))
        (bad_request "password must contain at least 6 characters") in
  let! salt := new_v4 in
  lift (map_err internal (argon2_hash raw_password salt)).

Definition verify_password (hash raw_password : string) : Fallible unit :=
  match argon2_verify hash raw_password with
  | Err error => Err (internal error)
  | Ok true => Ok tt
  | Ok false => Err (unauthorized "invalid username or password")
  end.

Definition generate_admin_session_token : Hub T string :=
  let! a := new_v4 in
  let! b := new_v4 in
  ret ("adm_" +:+ uuid_simple a +:+ uuid_simple b).

Definition hash_session_token (raw_token : string) : string := sha256_hex raw_token.

Definition validate_admin_session (session : AdminSessionContext) : Hub T unit :=
  do! require (bool_decide (ctx_status session = "active"))
        (unauthorized "admin account is disabled") in
  let! now := utc_now in
  require (negb (ctx_expires_at session <? now)%Z) (unauthorized "admin session expired").

(** ** Handlers *)

Definition ensure_admin_user (name display raw_password : string) : Hub T bool :=
  let! normalized_username := lift (normalize_admin_username name) in
  let! existing := read (λ s, admin_user_by_username s normalized_username) in
  match existing with
  | Some _ => ret false
  | None =>
      let! uid := new_v4 in
      let! hash := hash_password raw_password in
      let! now := utc_now in
      let user := {|
        user_id := uid;
        username := normalized_username;
        display_name := normalize_admin_display_name display;
        password_hash := hash;
        user_status := "active";
        last_login_at := None;
        user_created_at := now;
      |} in
      do! write (save_admin_user user) in
      ret true
  end.

Definition login_admin (request : AdminLoginRequest) : Hub T (AdminLoginResponse * string) :=
  let! name := lift (normalize_admin_username (login_username request)) in
  do! require (negb (is_empty (login_password request))) (bad_request "password is required") in
  let! found := read (λ s, admin_user_by_username s name) in
  let! user := get_or found (unauthorized "invalid username or password") in
  do! require (bool_decide (user_status user = "active"))
        (unauthorized "admin account is disabled") in
  do! lift (verify_password (password_hash user) (login_password request)) in
  let! raw_session_token := generate_admin_session_token in
  let! sid := new_v4 in
  let! t1 := utc_now in
  let! t2 := utc_now in
  let! t3 := utc_now in
  let session := {|
    session_id := sid;
    session_user_id := user_id user;
    session_token_hash := hash_session_token raw_session_token;
    session_expires_at := t1 + hours ADMIN_SESSION_TTL_HOURS;
    session_created_at := t2;
    session_last_seen_at := t3;
  |} in
  do! write (save_admin_session session) in
  let! t4 := utc_now in
  do! write (touch_admin_user_login (user_id user) t4) in
  ret (mkLoginResponse
         (mkSessionInfo (user_id user) (username user) (display_name user)
            (session_expires_at session)), raw_session_token).

Definition authorize_admin_session (session_token : string) : Hub T AdminSessionInfo :=
  do! require (negb (is_empty (trim session_token))) (unauthorized "missing admin session") in
  let session_hash := hash_session_token session_token in
  let! found := read (λ s, admin_session_by_token_hash s session_hash) in
  let! session := get_or found (unauthorized "invalid admin session") in
  do! validate_admin_session session in
  let! now := utc_now in
  do! write (touch_admin_session session_hash now) in
  ret (mkSessionInfo (ctx_user_id session) (ctx_username session) (ctx_display_name session)
         (ctx_expires_at session)).

Definition current_admin (session_token : string) : Hub T AdminMeResponse :=
  let! session := authorize_admin_session session_token in
  ret (mkMeResponse session).

Definition change_admin_password (session_token : string) (request : ChangeAdminPasswordRequest) :
    Hub T ChangeAdminPasswordResponse :=
  let! session := authorize_admin_session session_token in
  do! require (negb (is_empty (current_password request)))
        (bad_request "current_password is required") in
  do! require (negb (is_empty (new_password request))) (bad_request "new_password is required") in
  do! require (bool_decide (current_password request ≠ new_password request))
        (bad_request "new password must be different from current password") in
  let! found := read (λ s, admin_user_by_username s (info_username session)) in
  let! user := get_or found (unauthorized "admin account not found") in
  do! require (bool_decide (user_status user = "active"))
        (unauthorized "admin account is disabled") in
  do! lift (verify_password (password_hash user) (current_password request)) in
  let! hash := hash_password (new_password request) in
  let user := set_password_hash hash user in
  do! write (save_admin_user user) in
  do! write (delete_admin_sessions_for_user (user_id user)
               (Some (hash_session_token session_token))) in
  ret (mkChangePasswordResponse (user_id user) (username user) true).

Definition logout_admin (session_token : string) : Hub T unit :=
  if is_empty (trim session_token) then ret tt
  else
    do! write (delete_admin_session (hash_session_token session_token)) in
    ret tt.

(** ** Sessions *)

(** When [authorize_admin_session] accepts a token. *)
Definition session_live (s : MemoryState) (now : DateTime) (token : string)
    (info : AdminSessionInfo) : Prop :=
  trim token ≠ "" ∧
  ∃ session user,
    admin_sessions s !! hash_session_token token = Some session
    ∧ admin_users s !! session_user_id session = Some user
    ∧ user_status user = "active" ∧ (now ≤ session_expires_at session)%Z
    ∧ info = mkSessionInfo (user_id user) (username user) (display_name user)
               (session_expires_at session).

Lemma authorize_admin_session_iff token w info :
  (∃ w', authorize_admin_session token w = (Ok info, w'))
  ↔ session_live (repo w) (clock (clock_next w)) token info.
Proof.
  unfold authorize_admin_session, session_live. split.
  - intros [w' H]. hub_inv. unfold validate_admin_session in *. hub_inv. simplify_eq/=.
    split; [done|]. rename select (admin_session_by_token_hash _ _ = _) into Hctx.
    unfold admin_session_by_token_hash in Hctx.
    destruct (admin_sessions (repo w) !! _) as [session|] eqn:Hs; [|done].
    destruct (admin_users (repo w) !! _) as [user|] eqn:Hu; [|done]. simplify_eq/=.
    exists session, user. split_and!; try done. lia.
  - intros (Htok & session & user & Hs & Hu & Hact & Hexp & ->).
    apply is_empty_false in Htok. unfold bind, require, read, admin_session_by_token_hash. simpl.
    rewrite Htok, Hs, Hu. simpl. unfold validate_admin_session, bind, require. simpl.
    rewrite bool_decide_true by done. simpl.
    destruct (Z.ltb_spec (session_expires_at session) (clock (clock_next w))); [lia|]. simpl. eauto.
Qed.

Context `{EL : !ExternLaws}.

Lemma session_token_nonblank a b : trim ("adm_" +:+ uuid_simple a +:+ uuid_simple b) ≠ "".
Proof. apply (trim_nonblank "_"%char); [vm_compute; done|]. simpl. set_solver. Qed.

Lemma admin_user_by_username_Some s name user :
  repo_ok s → admin_user_by_username s name = Some user →
  username user = name ∧ admin_users s !! user_id user = Some user.
Proof.
  intros Hok H. apply (index_ok_by_name _ _ name user (users_ok s Hok)).
  unfold admin_user_by_username in H. by destruct (admin_user_ids_by_username s !! name).
Qed.

Lemma verify_password_Ok h pw : verify_password h pw = Ok tt ↔ argon2_verify h pw = Ok true.
Proof. unfold verify_password. destruct (argon2_verify h pw) as [[]|]; naive_solver. Qed.

Lemma hash_password_Ok pw w h w' :
  hash_password pw w = (Ok h, w') →
  6 ≤ String.length pw ∧ (∀ pw', argon2_verify h pw' = Ok (bool_decide (pw' = pw)))
  ∧ repo w' = repo w ∧ tokens w' = tokens w ∧ clock_next w' = clock_next w.
Proof.
  unfold hash_password. intros H. hub_inv.
  rename select (map_err _ _ = _) into Hh.
  destruct (argon2_hash pw _) as [h'|] eqn:E; simplify_eq/=.
  split_and!; [lia| |done..]. intros pw'. by eapply argon2_verify_hash.
Qed.

(** The session a login opens, and the form of its token. *)
Lemma login_admin_run request w resp token w' :
  repo_ok (repo w) → login_admin request w = (Ok (resp, token), w') →
  info_expires_at (login_session resp)
  = (clock (clock_next w) + hours ADMIN_SESSION_TTL_HOURS)%Z
  ∧ (∃ a b, token = "adm_" +:+ uuid_simple a +:+ uuid_simple b)
  ∧ ∀ now, (now ≤ info_expires_at (login_session resp))%Z →
      session_live (repo w') now token (login_session resp).
Proof.
  intros Hok H. unfold login_admin, generate_admin_session_token in H. hub_inv.
  simplify_eq/=. split; [done|]. split; [eauto|]. intros now Hnow.
  rename select (admin_user_by_username _ _ = _) into Huser.
  apply admin_user_by_username_Some in Huser as [Hname Huser]; [|done].
  split; [apply session_token_nonblank|]. eexists _, _.
  split; [apply lookup_insert_eq|]. simpl. rewrite lookup_alter_eq, Huser. by split_and!.
Qed.

(** A successful login opens a session: the token it returns is accepted
    and identifies the user, until eight hours after the login. *)
Theorem login_opens_session request w resp token w' :
  repo_ok (repo w) → login_admin request w = (Ok (resp, token), w') →
  (clock (clock_next w') ≤ info_expires_at (login_session resp))%Z →
  info_expires_at (login_session resp)
  = (clock (clock_next w) + hours ADMIN_SESSION_TTL_HOURS)%Z
  ∧ ∃ w'', authorize_admin_session token w' = (Ok (login_session resp), w'').
Proof.
  intros Hok H Hexp. apply login_admin_run in H as (Ht & _ & Hlive); [|done].
  split; [done|]. apply authorize_admin_session_iff. auto.
Qed.

(** After a password change the account accepts exactly the new password,
    every other session of the account is closed, the session that asked for the
    change stays open, and the sessions of other accounts are left alone. *)
Theorem change_password_effect token request w resp w' :
  repo_ok (repo w) → change_admin_password token request w = (Ok resp, w') →
  (∃ user, admin_users (repo w') !! changed_user_id resp = Some user
     ∧ username user = changed_username resp
     ∧ ∀ pw, verify_password (password_hash user) pw = Ok tt ↔ pw = new_password request)
  ∧ is_Some (admin_sessions (repo w') !! hash_session_token token)
  ∧ (∀ h x, admin_sessions (repo w') !! h = Some x →
       session_user_id x = changed_user_id resp → h = hash_session_token token)
  ∧ (∀ h x, admin_sessions (repo w) !! h = Some x →
       session_user_id x ≠ changed_user_id resp → h ≠ hash_session_token token →
       admin_sessions (repo w') !! h = Some x).
Proof.
  intros Hok H. unfold change_admin_password in H.
  apply bind_Ok in H as (info & w1 & Hauth & H). hub_inv. simplify_eq/=.
  rename select (hash_password _ _ = _) into Hhash.
  apply hash_password_Ok in Hhash as (_ & Hverify & Hrepo & _ & _). rewrite Hrepo.
  unfold authorize_admin_session, validate_admin_session in Hauth. hub_inv. simplify_eq/=.
  rename select (admin_session_by_token_hash _ _ = _) into Hctx.
  unfold admin_session_by_token_hash in Hctx.
  destruct (admin_sessions (repo w) !! _) as [session|] eqn:Hs; [|done]. clear Hctx.
  split_and!.
  - eexists. rewrite lookup_insert_eq. split; [done|]. split; [done|]. intros pw. simpl.
    rewrite verify_password_Ok, Hverify. split; [|intros ->; by rewrite bool_decide_true].
    intros [= ?%bool_decide_eq_true]. done.
  - eexists. apply map_lookup_filter_Some. rewrite lookup_alter_eq, Hs. simpl. auto.
  - intros h ses [_ Hh]%map_lookup_filter_Some Hu. simpl in Hh. naive_solver.
  - intros h ses Hx Hu Hh. apply map_lookup_filter_Some. rewrite lookup_alter_ne by done. auto.
Qed.

(** Logging out closes the session: its token is refused from then on. *)
Theorem logout_closes_session token w r w' :
  logout_admin token w = (r, w') →
  r = Ok tt ∧ ∀ info w'', authorize_admin_session token w' ≠ (Ok info, w'').
Proof.
  unfold logout_admin. intros H.
  assert (r = Ok tt ∧ (trim token = "" ∨ admin_sessions (repo w') !! hash_session_token token = None))
    as [-> Hgone].
  { destruct (is_empty (trim token)) eqn:E.
    - apply is_empty_spec in E. injection H as <- <-. auto.
    - injection H as <- <-. split; [done|]. right. simpl. apply lookup_delete_eq. }
  split; [done|]. intros info w'' Hauth.
  assert (session_live (repo w') (clock (clock_next w')) token info)
    as (Hne & session & user & Hs & _) by (apply authorize_admin_session_iff; eauto).
  destruct Hgone; congruence.
Qed.

Lemma ensure_admin_user_true name display pw w w' :
  ensure_admin_user name display pw w = (Ok true, w') →
  ∃ n user, normalize_admin_username name = Ok n
    ∧ repo w' = save_admin_user user (repo w) ∧ username user = n ∧ user_status user = "active"
    ∧ 6 ≤ String.length pw
    ∧ ∀ pw', argon2_verify (password_hash user) pw' = Ok (bool_decide (pw' = pw)).
Proof.
  unfold ensure_admin_user. intros H.
  apply bind_Ok in H as (n & w1 & [Hn ->]%lift_Ok & H).
  apply bind_Ok in H as (ex & w2 & [-> ->]%read_Ok & H).
  destruct (admin_user_by_username _ _); [discriminate H|]. hub_inv. simplify_eq/=.
  rename select (hash_password _ _ = _) into Hhash.
  apply hash_password_Ok in Hhash as (Hlen & Hverify & Hrepo & _ & _).
  eexists n, _. split; [done|]. rewrite Hrepo. by split_and!.
Qed.

(** Bootstrapping the administrator is idempotent and makes the account
    usable: after the call that created it, a login with the same name, in any
    letter case, and the same password succeeds, and a second call reports that
    the account exists and changes nothing. *)
Theorem ensure_admin_user_login name display pw w w' :
  ensure_admin_user name display pw w = (Ok true, w') →
  (∃ resp token w'', login_admin (mkLogin name pw) w' = (Ok (resp, token), w''))
  ∧ ∀ display' pw', ensure_admin_user name display' pw' w' = (Ok false, w').
Proof.
  intros (n & user & Hn & Hrepo & Hname & Hact & Hlen & Hverify)%ensure_admin_user_true.
  assert (admin_user_by_username (repo w') n = Some user) as Hfind.
  { unfold admin_user_by_username. rewrite Hrepo. simpl. rewrite Hname, lookup_insert_eq.
    by rewrite lookup_insert_eq. }
  split.
  - unfold login_admin, bind, lift, read. simpl. rewrite Hn. simpl. destruct pw; [simpl in Hlen; lia|].
    simpl. rewrite Hfind. simpl. rewrite Hact. simpl. unfold verify_password.
    rewrite Hverify, bool_decide_true by done. simpl. by eexists _, _, _.
  - intros. unfold ensure_admin_user, bind, lift, read. simpl. rewrite Hn. by rewrite Hfind.
Qed.
End Admin.

(** ** Examples *)

Definition admin_world : World MemoryTokenState := mkWorld empty_state no_tokens 1 30 0 0.

(** The world after the administrator was created. *)
Definition created_world : World MemoryTokenState :=
  (ensure_admin_user " Admin" "" "secret1" admin_world).2.

Lemma created_world_ok : repo_ok (repo created_world).
Proof.
  apply (save_admin_user_ok (mkAdminUser 1000 "admin" "Administrator" "$argon2$secret1" "active" None 0));
    [by apply saveable_fresh|apply repo_ok_empty].
Qed.

Definition demo_token : string := "adm_10021003".
Definition demo_session : AdminSessionInfo :=
  mkSessionInfo 1000 "admin" "Administrator" (1 + hours 8).

Lemma login_opens_session_witness :
  ∃ w'', authorize_admin_session demo_token (login_admin (mkLogin "admin" "secret1") created_world).2
         = (Ok demo_session, w'').
Proof.
  eapply (login_opens_session (mkLogin "admin" "secret1") created_world
            (mkLoginResponse demo_session) demo_token).
  - apply created_world_ok.
  - vm_compute. reflexivity.
  - vm_compute. discriminate.
Defined.

Definition login_world : World MemoryTokenState :=
  (login_admin (mkLogin "admin" "secret1") created_world).2.

Lemma login_world_ok : repo_ok (repo login_world).
Proof.
  pose proof created_world_ok as Hok.
  assert (repo login_world = touch_admin_user_login 1000 4
    (save_admin_session (mkAdminSession 1004 1000 (hash_session_token demo_token) (1 + hours 8) 2 3)
       (repo created_world))) as -> by (vm_compute; reflexivity).
  eapply repo_step_ok; [|apply step_touch_user]. by eapply repo_step_ok; [|apply step_save_session].
Qed.

Lemma change_password_effect_witness :
  is_Some (admin_sessions (repo (change_admin_password demo_token
    (mkChangePassword "secret1" "secret2") login_world).2) !! hash_session_token demo_token).
Proof.
  eapply (change_password_effect demo_token (mkChangePassword "secret1" "secret2") login_world
            (mkChangePasswordResponse 1000 "admin" true)).
  - apply login_world_ok.
  - vm_compute. reflexivity.
Defined.

Lemma logout_closes_session_witness :
  (logout_admin demo_token login_world).1 = Ok tt
  ∧ ∀ info w'', authorize_admin_session demo_token (logout_admin demo_token login_world).2
                ≠ (Ok info, w'').
Proof.
  apply (logout_closes_session demo_token login_world). vm_compute. reflexivity.
Defined.

Lemma ensure_admin_user_login_witness :
  ∃ resp token w'', login_admin (mkLogin " Admin" "secret1") created_world
                    = (Ok (resp, token), w'').
Proof.
  eapply (ensure_admin_user_login " Admin" "" "secret1" admin_world created_world).
  vm_compute. reflexivity.
Defined.

Definition two_characters : string := of_bytes (map ascii_of_N [229; 175; 134; 231; 160; 129]%N).

(** The minimum of six that the error message gives in characters is counted
    in bytes: a password of two three-byte characters is accepted. *)
Theorem password_length_counts_bytes :
  chars_count two_characters = 2
  ∧ is_ok (hash_password two_characters admin_world).1 = true.
Proof. vm_compute. done. Qed.
