(* ===== verification/HubNodes.v ===== *)
(** * Nodes (apps/hub-api/src/service.rs)

    Enrolment of nodes with a one-time bootstrap token, their access and refresh
    tokens, heartbeats, overviews and removal. *)

From stdpp Require Import prelude strings pretty gmap sorting.
From Stdlib Require Import Ascii.
From S2P Require Import Prelude RustStr Json Extern AppError Domain Records Store TokenStore Hub.

(** ** Requests and responses (crates/protocol) *)

Record CreateNodeRequest := mkCreateNode {
  req_node_code : string;
  req_node_name : string;
  req_region : string;
  req_idc : string;
  req_labels : Value;
}.

Record CreateNodeResponse := mkCreateNodeResponse {
  created_node_id : Uuid;
  created_bootstrap_token : string;
}.

Record DeleteNodeResponse := mkDeleteNodeResponse {
  deleted_node_id : Uuid;
  deleted_node_code : string;
  node_deleted : bool;
}.

Record NodeOverview := mkNodeOverview {
  ov_node_id : Uuid;
  ov_node_code : string;
  ov_name : string;
  ov_region : string;
  ov_idc : string;
  ov_labels : Value;
  ov_status : string;
  ov_active_config_version : option string;
  ov_last_seen_at : option DateTime;
}.

Record NodeSiteOverview := mkNodeSite {
  ns_site_id : Uuid;
  ns_site_code : string;
  ns_name : string;
  ns_domain : string;
  ns_status : string;
  ns_version : Z;
  ns_binding_role : string;
  ns_priority : Z;
}.

Record NodeDetail := mkNodeDetail {
  detail_node : NodeOverview;
  detail_hostname : option string;
  detail_public_ip : option string;
  detail_private_ip : option string;
  detail_pingora_version : option string;
  detail_agent_version : option string;
  runtime_site_count : Z;
  detail_health_score : Z;
  detail_sites : list NodeSiteOverview;
}.

Record NodeRegisterRequest := mkRegister {
  reg_node_code : string;
  reg_bootstrap_token : string;
  reg_hostname : string;
  reg_public_ip : option string;
  reg_private_ip : option string;
  reg_agent_version : string;
}.

(** [NodeRegisterResponse] and [NodeRefreshResponse] have the same fields. *)
Record NodeTokensResponse := mkTokensResponse {
  resp_node_id : Uuid;
  resp_access_token : string;
  resp_refresh_token : string;
  resp_expires_at : DateTime;
}.

Record NodeRefreshRequest := mkRefresh { refresh_node_id : Uuid; refresh_req_token : string }.

Record NodeHeartbeatRequest := mkHeartbeat {
  beat_node_id : Uuid;
  beat_pingora_version : string;
  beat_agent_version : string;
  beat_active_config_version : option string;
  beat_site_count : Z;
  beat_cpu_usage : F32;
  beat_mem_usage : F32;
  beat_disk_usage : F32;
  beat_health_score : Z;
}.

Record NodeHeartbeatResponse := mkHeartbeatResponse {
  server_time : DateTime;
  next_heartbeat_after_seconds : Z;
}.

(** ** Handlers *)

Definition node_overview (node : NodeRecord) : NodeOverview := {|
  ov_node_id := id (identity node);
  ov_node_code := node_code (identity node);
  ov_name := name (identity node);
  ov_region := region (identity node);
  ov_idc := idc (identity node);
  ov_labels := labels node;
  ov_status := node_status_name (status (identity node));
  ov_active_config_version := active_config_version (runtime node);
  ov_last_seen_at := last_seen_at (runtime node);
|}.

(** The site's entry in the detail of a node it is bound to. *)
Definition node_site (node_id : Uuid) (x : SiteRecord) : option NodeSiteOverview :=
  b ← find_where (λ b, binding_node_id b = node_id) (bindings x);
  Some {|
    ns_site_id := site_id x;
    ns_site_code := site_code x;
    ns_name := site_name x;
    ns_domain := site_domain x;
    ns_status := site_status_name (site_status x);
    ns_version := site_version x;
    ns_binding_role := binding_role b;
    ns_priority := binding_priority b;
  |}.

Definition node_site_cmp : NodeSiteOverview → NodeSiteOverview → comparison :=
  cmp_then (cmp_on ns_priority Z.compare) (cmp_on ns_site_code String.compare).

Section Nodes.
Context {T : Type} `{EX : !Extern, NT : !NodeTokenStore T}.

Definition hash_bootstrap_token (raw_token : string) : string := sha256_hex raw_token.

Definition create_node (request : CreateNodeRequest) : Hub T CreateNodeResponse :=
  do! require (negb (is_empty (trim (req_node_code request)) || is_empty (trim (req_node_name request))))
        (bad_request "node_code and name are required") in
  let! existing := read (λ s, node_id_by_code s (req_node_code request)) in
  do! require (bool_decide (existing = None)) (conflict "node_code already exists") in
  let! node_id := new_v4 in
  let! boot := new_v4 in
  let bootstrap := "boot-" +:+ uuid_to_string boot in
  let bootstrap_token_hash := hash_bootstrap_token bootstrap in
  let node := {|
    identity := mkNodeIdentity node_id (req_node_code request) (req_node_name request)
                  (req_region request) (req_idc request) Pending;
    runtime := mkNodeRuntimeState None None 0 100;
    labels := req_labels request;
    hostname := None;
    public_ip := None;
    private_ip := None;
    bootstrap_token := Some bootstrap_token_hash;
    pingora_version := None;
    agent_version := None;
  |} in
  do! write (save_node node) in
  ret (mkCreateNodeResponse node_id bootstrap).

Definition list_node_overviews : Hub T (list NodeOverview) :=
  let! ns := read list_nodes in
  ret (sort_by (cmp_on ov_node_code String.compare) (node_overview <$> ns)).

Definition node_detail (node_id : Uuid) : Hub T NodeDetail :=
  let! found := read (λ s, node s node_id) in
  let! n := get_or found (not_found "node not found") in
  let! ss := read list_sites in
  ret {|
    detail_node := node_overview n;
    detail_hostname := hostname n;
    detail_public_ip := public_ip n;
    detail_private_ip := private_ip n;
    detail_pingora_version := pingora_version n;
    detail_agent_version := agent_version n;
    runtime_site_count := site_count (runtime n);
    detail_health_score := health_score (runtime n);
    detail_sites := sort_by node_site_cmp (filter_map (node_site node_id) ss);
  |}.

Definition hub_delete_node (node_id : Uuid) : Hub T DeleteNodeResponse :=
  let! found := read (λ s, node s node_id) in
  let! n := get_or found (not_found "node not found") in
  let! guard := read (λ s, node_delete_guard s node_id) in
  do! require (bool_decide (bound_site_codes guard = []))
        (conflict ("node is still bound to site(s): " +:+ join ", " (bound_site_codes guard))) in
  do! require (bool_decide (failover_policy_count guard = 0))
        (conflict ("node is still referenced by " +:+ pretty (failover_policy_count guard)
                   +:+ " failover policy entries")) in
  do! write_tokens (λ t, (tt, revoke_tokens node_id t)) in
  do! write (delete_node node_id) in
  ret (mkDeleteNodeResponse node_id (node_code (identity n)) true).

(** [issue_node_tokens] with [issue_tokens] of the store: two fresh tokens,
    valid for 24 hours. *)
Definition issue_node_tokens (node_id : Uuid) : Hub T IssuedTokens :=
  let! a := new_v4 in
  let! r := new_v4 in
  let! now := utc_now in
  write_tokens (issue_tokens node_id (access_token_of a) (refresh_token_of r)
                  (now + hours 24)).

Definition tokens_response (node_id : Uuid) (issued : IssuedTokens) : NodeTokensResponse :=
  mkTokensResponse node_id (access_token issued) (refresh_token issued) (token_expires_at issued).

(** The record of a node after its registration. *)
Definition registered (request : NodeRegisterRequest) (now : DateTime) (n : NodeRecord) :
    NodeRecord :=
  let n := set_identity (set_status Online (identity n)) n in
  let n := set_hostname (Some (reg_hostname request)) n in
  let n := set_public_ip (reg_public_ip request) n in
  let n := set_private_ip (reg_private_ip request) n in
  let n := set_agent_version (Some (reg_agent_version request)) n in
  let n := set_bootstrap_token None n in
  set_runtime (set_last_seen_at (Some now) (runtime n)) n.

Definition register_node (request : NodeRegisterRequest) : Hub T NodeTokensResponse :=
  let! found := read (λ s, node_id_by_code s (reg_node_code request)) in
  let! node_id := get_or found (not_found "node_code not found") in
  let! found := read (λ s, node s node_id) in
  let! n := get_or found (not_found "node not found") in
  let! expected := get_or (bootstrap_token n)
    (unauthorized "bootstrap token already used or unavailable") in
  do! require (bool_decide (expected = hash_bootstrap_token (reg_bootstrap_token request)))
        (unauthorized "invalid bootstrap token") in
  let! issued := issue_node_tokens node_id in
  let! now := utc_now in
  do! write (save_node (registered request now n)) in
  ret (tokens_response node_id issued).

Definition refresh_node_token (request : NodeRefreshRequest) : Hub T NodeTokensResponse :=
  let! found := read_tokens (λ t, refresh_lease t (refresh_req_token request)) in
  let! lease := get_or found (unauthorized "invalid refresh token") in
  do! require (bool_decide (lease_node_id lease = refresh_node_id request))
        (unauthorized "refresh token does not match node") in
  let! issued := issue_node_tokens (refresh_node_id request) in
  ret (tokens_response (refresh_node_id request) issued).

Definition authorize_node (node_id : Uuid) (tok : string) : Hub T unit :=
  let! found := read_tokens (λ t, access_lease t tok) in
  let! lease := get_or found (unauthorized "invalid access token") in
  do! require (bool_decide (lease_node_id lease = node_id))
        (unauthorized "access token does not match node") in
  let! now := utc_now in
  do! require (negb (lease_expires_at lease <? now)%Z) (unauthorized "access token expired") in
  let! found := read (λ s, node s node_id) in
  require (negb (bool_decide (found = None))) (not_found "node not found").

Definition node_heartbeat (request : NodeHeartbeatRequest) : Hub T NodeHeartbeatResponse :=
  let! found := read (λ s, node s (beat_node_id request)) in
  do! require (negb (bool_decide (found = None))) (not_found "node not found") in
  let! now := utc_now in
  do! write (record_heartbeat {|
    hb_node_id := beat_node_id request;
    hb_pingora_version := beat_pingora_version request;
    hb_agent_version := beat_agent_version request;
    hb_active_config_version := beat_active_config_version request;
    hb_site_count := beat_site_count request;
    cpu_usage := beat_cpu_usage request;
    mem_usage := beat_mem_usage request;
    disk_usage := beat_disk_usage request;
    hb_health_score := beat_health_score request;
    reported_at := now;
  |}) in
  let! now := utc_now in
  ret (mkHeartbeatResponse now 15).

(** ** Failed requests leave the state alone *)

Lemma issue_node_tokens_never_fails n : never_fails (issue_node_tokens n).
Proof. unfold issue_node_tokens. solve_atomic. Qed.
#[local] Hint Resolve issue_node_tokens_never_fails : hub.

(** A node request that is refused changes neither the repository nor the
    tokens: no handler fails after its first effect. *)
Theorem node_requests_atomic :
  (∀ r, atomic_on_error (create_node r))
  ∧ (∀ u, atomic_on_error (hub_delete_node u))
  ∧ (∀ r, atomic_on_error (register_node r))
  ∧ (∀ r, atomic_on_error (refresh_node_token r))
  ∧ (∀ u tok, atomic_on_error (authorize_node u tok))
  ∧ (∀ r, atomic_on_error (node_heartbeat r)).
Proof.
  split_and!; intros;
    unfold create_node, hub_delete_node, register_node, refresh_node_token, authorize_node,
      node_heartbeat; solve_atomic.
Qed.

(** ** Tokens *)

Context `{EL : !ExternLaws, TL : !TokenLaws T}.

(** When [authorize_node] accepts a token. *)
Definition token_accepted (w : World T) (n : Uuid) (tok : string) : Prop :=
  ∃ e, access_lease (tokens w) tok = Some (mkLease n e)
       ∧ (clock (clock_next w) ≤ e)%Z ∧ is_Some (nodes (repo w) !! n).

Lemma authorize_node_iff n tok w :
  (∃ w', authorize_node n tok w = (Ok tt, w')) ↔ token_accepted w n tok.
Proof.
  unfold authorize_node, token_accepted. split.
  - intros [w' H]. hub_inv. simplify_eq/=. rename select TokenLease into lease.
    exists (lease_expires_at lease). split_and!; [by destruct lease|lia|].
    by apply not_eq_None_Some.
  - intros (e & Hl & He & [m Hm]). unfold bind, read_tokens. simpl. rewrite Hl. simpl.
    rewrite bool_decide_true by done. simpl.
    destruct (Z.ltb_spec e (clock (clock_next w))); [lia|]. simpl. unfold node. rewrite Hm. simpl.
    eauto.
Qed.

Lemma issue_node_tokens_run n w :
  world_ok w →
  ∃ w', issue_node_tokens n w
        = (Ok (mkIssued (access_token_of (rng (rng_next w))) (refresh_token_of (rng (S (rng_next w))))
                 (clock (clock_next w) + hours 24)), w')
    ∧ world_ok w' ∧ repo w' = repo w ∧ clock_next w' = S (clock_next w)
    ∧ (∀ tok, access_lease (tokens w') tok
         = if decide (tok = access_token_of (rng (rng_next w)))
           then Some (mkLease n (clock (clock_next w) + hours 24))
           else drop_node n (access_lease (tokens w) tok))
    ∧ (∀ tok, refresh_lease (tokens w') tok
         = if decide (tok = refresh_token_of (rng (S (rng_next w))))
           then Some (mkLease n (clock (clock_next w) + hours 24))
           else drop_node n (refresh_lease (tokens w) tok)).
Proof.
  intros Hw. pose proof Hw as [_ Ht _ Ha Hr].
  unfold issue_node_tokens, bind, new_v4, utc_now, write_tokens. simpl.
  set (e := (clock (clock_next w) + hours 24)%Z).
  rewrite (surjective_pairing (issue_tokens _ _ _ _ _)), issue_result.
  eexists. split; [done|]. split_and!; simpl.
  - by eapply (world_ok_issue w n e).
  - done.
  - done.
  - intros tok. apply issue_access; [done|apply Ha; lia|apply Hr; lia].
  - intros tok. apply issue_refresh; [done|apply Ha; lia|apply Hr; lia].
Qed.

(** The lease of a node's token after an issue is the issued one. *)
Lemma drop_node_neq n e o : drop_node n o ≠ Some (mkLease n e).
Proof.
  unfold drop_node. destruct o as [l|]; simpl; [|done]. case_decide; [done|]. by intros [= ->].
Qed.

(** C27: Refreshing rotates a node's tokens, in any state the invariant holds of and
    for a node that is stored: in the state the refresh leaves, the new access
    token is accepted (when no more than its 24 hours passed on the way), no other
    access token is accepted for the node, and no refresh token but the new one can
    be exchanged again, so neither can the presented one. *)
Theorem refresh_rotates_tokens request w resp w' :
  world_ok w → is_Some (nodes (repo w) !! refresh_node_id request) →
  (clock (clock_next w') ≤ clock (clock_next w) + hours 24)%Z →
  refresh_node_token request w = (Ok resp, w') →
  (∃ w'', authorize_node (refresh_node_id request) (resp_access_token resp) w' = (Ok tt, w''))
  ∧ (∀ tok w'', tok ≠ resp_access_token resp →
       authorize_node (refresh_node_id request) tok w' ≠ (Ok tt, w''))
  ∧ (∀ tok r w'', tok ≠ resp_refresh_token resp →
       refresh_node_token (mkRefresh (refresh_node_id request) tok) w' ≠ (Ok r, w''))
  ∧ refresh_req_token request ≠ resp_refresh_token resp
  ∧ world_ok w'.
Proof.
  intros Hw Hnode Hclock H. unfold refresh_node_token in H. hub_inv. simplify_eq/=.
  rename select (issue_node_tokens _ _ = _) into Hrun.
  destruct (issue_node_tokens_run (refresh_node_id request) w Hw)
    as (w1 & Hiss & Hw1 & Hrepo & Hcl & Hacc & Href).
  rewrite Hiss in Hrun. injection Hrun as <- <-. simpl in *.
  rename select (refresh_lease _ _ = _) into Hold. split_and!.
  - apply authorize_node_iff. eexists. rewrite Hacc, decide_True by done.
    rewrite Hrepo. split_and!; done.
  - intros tok w'' Hne Hauth.
    assert (token_accepted w1 (refresh_node_id request) tok) as (e & He & _)
      by (apply authorize_node_iff; eauto).
    rewrite Hacc, decide_False in He by done. by apply drop_node_neq in He.
  - intros tok r w'' Hne Hagain. unfold refresh_node_token in Hagain. hub_inv. simpl in *.
    rename select (refresh_lease (tokens w1) _ = _) into He.
    rewrite Href, decide_False in He by done. rename select TokenLease into l.
    match type of He with _ = Some ?l => destruct l; simplify_eq/= end.
    by apply drop_node_neq in He.
  - intros Heq. rewrite Heq in Hold.
    by rewrite (world_fresh_refresh w Hw) in Hold by lia.
  - done.
Qed.

(** ** Enrolment *)

Lemma used_ids_save_node n s : used_ids (save_node n s) = {[ id (identity n) ]} ∪ used_ids s.
Proof. unfold used_ids, save_node. simpl. rewrite dom_insert_L. set_solver. Qed.

Lemma elem_of_used_node s u : is_Some (nodes s !! u) → u ∈ used_ids s.
Proof. intros H. apply elem_of_dom in H. unfold used_ids. set_solver. Qed.

(** Rewriting the record of a known node, name and id kept. *)
Lemma world_ok_save_node w n n' w' :
  world_ok w → nodes (repo w) !! id (identity n') = Some n →
  node_code (identity n') = node_code (identity n) →
  repo w' = save_node n' (repo w) → tokens w' = tokens w → rng_next w ≤ rng_next w' → world_ok w'.
Proof.
  intros Hw Hn Hcode Hr Ht Hrng. eapply (world_ok_repo w); try done.
  - apply save_node_ok; [|by apply world_repo].
    exact (saveable_update _ _ n' n (nodes_ok _ (world_repo w Hw)) Hn Hcode).
  - intros u. rewrite used_ids_save_node. intros [->%elem_of_singleton|]%elem_of_union; [|auto].
    left. apply elem_of_used_node. eauto.
Qed.

Lemma node_by_code s c u n :
  repo_ok s → node_id_by_code s c = Some u → node s u = Some n →
  id (identity n) = u ∧ node_code (identity n) = c.
Proof.
  intros Hok Hc Hn. destruct (index_complete _ _ (nodes_ok s Hok) u n Hn) as [Hid _].
  destruct (index_sound _ _ (nodes_ok s Hok) c u Hc) as (n' & Hn' & Hk).
  unfold node in Hn. naive_solver.
Qed.

Lemma register_node_run request w resp w' :
  world_ok w → register_node request w = (Ok resp, w') →
  ∃ n u now,
    node_id_by_code (repo w) (reg_node_code request) = Some u
    ∧ node (repo w) u = Some n ∧ id (identity n) = u ∧ node_code (identity n) = reg_node_code request
    ∧ repo w' = save_node (registered request now n) (repo w)
    ∧ resp_node_id resp = u
    ∧ access_lease (tokens w') (resp_access_token resp)
      = Some (mkLease u (clock (clock_next w) + hours 24))
    ∧ world_ok w'.
Proof.
  intros Hw H. unfold register_node in H. hub_inv. simplify_eq/=.
  rename select (issue_node_tokens _ _ = _) into Hrun.
  rename select (node_id_by_code _ _ = _) into Hcode. rename select (node _ _ = _) into Hnode.
  match type of Hcode with _ = Some ?y => rename y into u end.
  match type of Hnode with _ = Some ?y => rename y into n end.
  destruct (issue_node_tokens_run u w Hw) as (w1 & Hiss & Hw1 & Hrepo & Hcl & Hacc & _).
  rewrite Hiss in Hrun. injection Hrun as <- <-.
  destruct (node_by_code _ _ _ _ (world_repo w Hw) Hcode Hnode) as [Hid Hnc].
  exists n, u, (clock (clock_next w1)). simpl. rewrite Hrepo. split_and!; try done.
  - by rewrite Hacc, decide_True by done.
  - eapply (world_ok_save_node w1 n (registered request (clock (clock_next w1)) n)); simpl; try done.
    + rewrite Hrepo. by rewrite Hid.
    + by rewrite Hrepo.
Qed.

(** C26: Registration is single-use: it brings the node online with its bootstrap
    token consumed and a working access token, and every further registration
    under the same node code is refused without effect. *)
Theorem register_single_use request w resp w' :
  world_ok w → (clock (clock_next w') ≤ clock (clock_next w) + hours 24)%Z →
  register_node request w = (Ok resp, w') →
  (∃ n, node (repo w') (resp_node_id resp) = Some n
     ∧ node_code (identity n) = reg_node_code request
     ∧ status (identity n) = Online ∧ bootstrap_token n = None)
  ∧ (∃ w'', authorize_node (resp_node_id resp) (resp_access_token resp) w' = (Ok tt, w''))
  ∧ (∀ request', reg_node_code request' = reg_node_code request →
       register_node request' w'
       = (Err (unauthorized "bootstrap token already used or unavailable"), w'))
  ∧ world_ok w'.
Proof.
  intros Hw Hclock H.
  apply register_node_run in H as (n & u & now & Hcode & Hnode & Hid & Hnc & Hrepo & -> & Hacc & Hw');
    [|done].
  set (n' := registered request now n) in *.
  assert (node (repo w') u = Some n') as Hn'.
  { rewrite Hrepo. unfold node, save_node. simpl. rewrite <-Hid at 1. apply lookup_insert_eq. }
  assert (node_id_by_code (repo w') (reg_node_code request) = Some u) as Hc'.
  { rewrite Hrepo. unfold node_id_by_code, save_node. simpl. rewrite Hnc, lookup_insert_eq.
    by rewrite Hid. }
  split_and!.
  - exists n'. by split_and!.
  - apply authorize_node_iff. eexists. rewrite Hacc. split_and!; [done|done|by eexists].
  - intros request' Heq. unfold register_node, bind, read, get_or, lift. simpl. rewrite Heq, Hc'.
    simpl. by rewrite Hn'.
  - done.
Qed.

Lemma create_node_ok request w resp w1 :
  world_ok w → create_node request w = (Ok resp, w1) → world_ok w1.
Proof.
  intros Hw H. unfold create_node in H. hub_inv. simplify_eq/=.
  rename select (node_id_by_code _ _ = None) into Hcode.
  eapply (world_ok_repo w); simpl; try done; [lia| |].
  - apply save_node_ok; [|by apply world_repo]. apply saveable_fresh; [|done].
    apply not_elem_of_dom. intros Hin. apply (world_fresh_ids w Hw (rng_next w)); [lia|].
    unfold used_ids. set_solver.
  - intros u. rewrite used_ids_save_node. intros [->%elem_of_singleton|]%elem_of_union; [|auto].
    right. exists (rng_next w). split; [lia|done].
Qed.

(** A created node can register with the bootstrap token it was given: the
    token round-trips, although only its digest is stored. *)
Theorem create_then_register request w resp w1 host pub priv agent :
  world_ok w → create_node request w = (Ok resp, w1) →
  ∃ resp' w2,
    register_node (mkRegister (req_node_code request) (created_bootstrap_token resp)
                     host pub priv agent) w1 = (Ok resp', w2)
    ∧ resp_node_id resp' = created_node_id resp.
Proof.
  intros Hw H. pose proof (create_node_ok _ _ _ _ Hw H) as Hw1.
  unfold create_node in H. hub_inv. simplify_eq/=.
  unfold register_node, bind at 1 2 3 4 5 6. unfold read, get_or, lift. simpl.
  unfold node_id_by_code, node, save_node. simpl. rewrite lookup_insert_eq. simpl.
  rewrite lookup_insert_eq. simpl. rewrite bool_decide_true by done. simpl.
  unfold save_node in Hw1. simpl in Hw1.
  destruct (issue_node_tokens_run (rng (rng_next w)) _ Hw1) as (w2 & Hiss & _).
  unfold bind. simpl in Hiss. rewrite Hiss. by eexists _, _.
Qed.

(** ** Removal *)

Lemma used_ids_delete_node u s : used_ids (delete_node u s) ⊆ used_ids s.
Proof.
  unfold used_ids, delete_node. destruct (nodes s !! u); [|done]. simpl.
  rewrite dom_delete_L, !dom_fmap_L. set_solver.
Qed.

Lemma bound_site_codes_nil s u :
  bound_site_codes (node_delete_guard s u) = [] ↔ map_Forall (λ _ x, ¬ binds_node u x) (sites s).
Proof.
  unfold node_delete_guard, sort_dedup. simpl. split.
  - intros Hnil k x Hx Hb. apply (not_elem_of_nil (site_code x)). rewrite <-Hnil.
    rewrite elem_of_dedup, elem_of_sort_by. apply list_elem_of_fmap_2.
    apply list_elem_of_filter. split; [done|]. apply elem_of_values. eauto.
  - intros Hall. apply elem_of_nil_inv. intros c. rewrite elem_of_dedup, elem_of_sort_by.
    intros (x & _ & [Hb [k Hk]%elem_of_values]%list_elem_of_filter)%list_elem_of_fmap.
    by apply (Hall k x).
Qed.

(** A node can be removed exactly when it exists and no site is bound to it,
    and then its record is gone and none of its tokens is accepted any more. *)
Theorem delete_node_guarded u w :
  world_ok w →
  ((∃ r w', hub_delete_node u w = (Ok r, w'))
   ↔ is_Some (node (repo w) u) ∧ map_Forall (λ _ x, ¬ binds_node u x) (sites (repo w)))
  ∧ ∀ r w', hub_delete_node u w = (Ok r, w') →
      nodes (repo w') = delete u (nodes (repo w)) ∧ world_ok w'
      ∧ ∀ tok w'', authorize_node u tok w' ≠ (Ok tt, w'').
Proof.
  intros Hw. split.
  - split.
    + intros (r & w' & H). unfold hub_delete_node in H. hub_inv. simplify_eq/=.
      split; [eauto|]. by apply bound_site_codes_nil.
    + intros [[n Hn] Hb]. apply bound_site_codes_nil in Hb.
      unfold hub_delete_node, bind, read, get_or, lift, require. rewrite Hn. simpl. simpl in Hb.
      rewrite Hb. simpl. eauto.
  - intros r w' H. unfold hub_delete_node in H. hub_inv.
    rename select (write_tokens _ _ = _) into Hrev. injection Hrev as <- <-. simplify_eq/=.
    rename select (node _ _ = Some _) into Hn. unfold node in Hn. split_and!.
    + unfold delete_node. by rewrite Hn.
    + eapply (world_ok_repo (set_tokens (revoke_tokens u (tokens w)) w)); simpl; try done.
      * by eapply (world_ok_revoke w u).
      * apply delete_node_ok, world_repo, Hw.
      * intros x Hx%used_ids_delete_node. auto.
    + intros tok w'' Hauth. eassert (token_accepted _ u tok) as (e & He & _)
        by (apply authorize_node_iff; eauto).
      simpl in He. rewrite revoke_access in He by (by apply world_tokens).
      by apply drop_node_neq in He.
Qed.

(** ** Heartbeats *)

(** A heartbeat is accepted exactly from a known node; it refreshes the
    node's figures and its last-seen time, brings it online unless it is in
    maintenance, and touches no other node. *)
Theorem heartbeat_effect request w :
  ((∃ r w', node_heartbeat request w = (Ok r, w')) ↔ is_Some (node (repo w) (beat_node_id request)))
  ∧ ∀ r w' n, node_heartbeat request w = (Ok r, w') → node (repo w) (beat_node_id request) = Some n →
      ∃ n', node (repo w') (beat_node_id request) = Some n'
        ∧ status (identity n') = (if decide (status (identity n) = Maintenance)
                                  then Maintenance else Online)
        ∧ node_code (identity n') = node_code (identity n)
        ∧ last_seen_at (runtime n') = Some (clock (clock_next w))
        ∧ active_config_version (runtime n') = beat_active_config_version request
        ∧ bootstrap_token n' = bootstrap_token n
        ∧ ∀ u, u ≠ beat_node_id request → node (repo w') u = node (repo w) u.
Proof.
  split.
  - split.
    + intros (r & w' & H). unfold node_heartbeat in H. hub_inv. by apply not_eq_None_Some.
    + intros [n Hn]. unfold node_heartbeat, bind, read, require. rewrite Hn. simpl. eauto.
  - intros r w' n H Hn. unfold node_heartbeat in H. hub_inv. simplify_eq/=.
    unfold node in *. simpl. rewrite lookup_alter_eq, Hn. simpl. eexists. split; [done|]. simpl.
    split_and!; try done; [by case_decide|by case_decide|].
    intros u Hu. by rewrite lookup_alter_ne.
Qed.

(** A refresh token is honoured as long as it is filed for the node: its
    expiry is not consulted, unlike that of access tokens. *)
Theorem refresh_ignores_expiry request lease w :
  world_ok w → refresh_lease (tokens w) (refresh_req_token request) = Some lease →
  lease_node_id lease = refresh_node_id request →
  (lease_expires_at lease < clock (clock_next w))%Z →
  ∃ r w', refresh_node_token request w = (Ok r, w').
Proof.
  intros Hw Hl Hn _. destruct (issue_node_tokens_run (refresh_node_id request) w Hw) as (w1 & Hiss & _).
  unfold refresh_node_token, bind, read_tokens, get_or, lift, require. rewrite Hl. simpl.
  rewrite bool_decide_true by done. rewrite Hiss. eauto.
Qed.
End Nodes.

(** ** Examples *)

Definition demo_create : CreateNodeRequest := mkCreateNode "edge-a" "Edge A" "cn-east" "lab" VNull.
Definition demo_register : NodeRegisterRequest :=
  mkRegister "edge-a" "boot-1001" "edge-a.local" None None "0.1.0".

Definition world0 : World MemoryTokenState := new_memory 30.
Definition world1 : World MemoryTokenState := (create_node demo_create world0).2.
Definition world2 : World MemoryTokenState := (register_node demo_register world1).2.

Lemma world0_ok : world_ok world0.
Proof. apply world_ok_new. Qed.

Lemma world1_ok : world_ok world1.
Proof.
  apply (create_node_ok demo_create world0 (mkCreateNodeResponse 1000 "boot-1001"));
    [apply world0_ok|vm_compute; reflexivity].
Qed.

Definition demo_tokens : NodeTokensResponse :=
  mkTokensResponse 1000 "node-at-1002" "node-rt-1003" (hours 24).

Lemma world2_ok : world_ok world2.
Proof.
  destruct (register_node_run demo_register world1 demo_tokens world2)
    as (? & ? & ? & ? & ? & ? & ? & ? & ? & ? & ?); [apply world1_ok|vm_compute; reflexivity|done].
Qed.

Lemma register_single_use_witness :
  register_node demo_register world2
  = (Err (unauthorized "bootstrap token already used or unavailable"), world2).
Proof.
  eapply (register_single_use demo_register world1 demo_tokens world2).
  - apply world1_ok.
  - vm_compute. discriminate.
  - vm_compute. reflexivity.
  - reflexivity.
Defined.

Lemma create_then_register_witness :
  ∃ resp' w2, register_node demo_register world1 = (Ok resp', w2) ∧ resp_node_id resp' = 1000%Z.
Proof.
  apply (create_then_register demo_create world0 (mkCreateNodeResponse 1000 "boot-1001") world1
           "edge-a.local" None None "0.1.0").
  - apply world0_ok.
  - vm_compute. reflexivity.
Defined.

Definition demo_refresh : NodeRefreshRequest := mkRefresh 1000 "node-rt-1003".
Definition demo_refreshed : NodeTokensResponse :=
  mkTokensResponse 1000 "node-at-1004" "node-rt-1005" (2 + hours 24).

Lemma refresh_rotates_tokens_witness :
  (refresh_node_token demo_refresh world2).1 = Ok demo_refreshed
  ∧ ∀ w'', authorize_node 1000 "node-at-1002" (refresh_node_token demo_refresh world2).2
           ≠ (Ok tt, w'').
Proof.
  split; [vm_compute; reflexivity|]. intros w''.
  eapply (refresh_rotates_tokens demo_refresh world2 demo_refreshed).
  - apply world2_ok.
  - eexists. vm_compute. reflexivity.
  - vm_compute. discriminate.
  - vm_compute. reflexivity.
  - discriminate.
Defined.

Lemma delete_node_guarded_witness :
  (∃ r w', hub_delete_node 1000 world2 = (Ok r, w'))
  ∧ ∀ tok w'', authorize_node 1000 tok (hub_delete_node 1000 world2).2 ≠ (Ok tt, w'').
Proof.
  split; [eexists _, _; vm_compute; reflexivity|].
  eapply (proj2 (delete_node_guarded 1000 world2 world2_ok)
            (mkDeleteNodeResponse 1000 "edge-a" true)).
  vm_compute. reflexivity.
Defined.

Definition demo_beat : NodeHeartbeatRequest :=
  mkHeartbeat 1000 "0.5.0" "0.1.0" (Some "rel-1") 1 0 0 0 90.

Lemma heartbeat_effect_witness :
  ∃ n', node (repo (node_heartbeat demo_beat world2).2) 1000 = Some n'
        ∧ status (identity n') = Online.
Proof.
  destruct (proj2 (heartbeat_effect demo_beat world2) (mkHeartbeatResponse 3 15)
              (node_heartbeat demo_beat world2).2
              (registered demo_register 1
                 (mkNodeRecord (mkNodeIdentity 1000 "edge-a" "Edge A" "cn-east" "lab" Pending)
                    (mkNodeRuntimeState None None 0 100) VNull None None None
                    (Some "sha256:boot-1001") None None))) as (n' & Hn' & Hst & _).
  - vm_compute. reflexivity.
  - vm_compute. reflexivity.
  - exists n'. split; [exact Hn'|]. rewrite Hst. reflexivity.
Defined.

(** The same world long after the tokens have expired. *)
Definition late_world : World MemoryTokenState :=
  set_clock_next (Z.to_nat 5) (set_tokens
    (issue_tokens 1000 "node-at-1004" "node-rt-1005" (-1) (tokens world2)).2
    (set_rng_next 6 world2)).

Lemma late_world_ok : world_ok late_world.
Proof.
  eapply (world_ok_issue (set_clock_next (Z.to_nat 5) world2) 1000 (-1)); [|done|done|].
  - eapply (world_ok_same world2); [apply world2_ok|done|done|done].
  - vm_compute. reflexivity.
Qed.

Lemma refresh_ignores_expiry_witness :
  ∃ r w', refresh_node_token (mkRefresh 1000 "node-rt-1005") late_world = (Ok r, w').
Proof.
  apply (refresh_ignores_expiry (mkRefresh 1000 "node-rt-1005") (mkLease 1000 (-1)) late_world).
  - apply late_world_ok.
  - vm_compute. reflexivity.
  - reflexivity.
  - vm_compute. reflexivity.
Defined.
