(* ===== verification/HubOps.v ===== *)
(** * Operations on nodes (apps/hub-api/src/service.rs)

    Command templates, the operations created from them, their approval, their
    dispatch to the nodes and the results the nodes report. *)

From stdpp Require Import prelude strings pretty gmap sorting.
From Stdlib Require Import Ascii.
From S2P Require Import Prelude RustStr Json Extern AppError OpsTemplate Domain Records Store TokenStore Hub HubNodes.

(** ** Requests and responses (crates/protocol) *)

Record CreateOperationTemplateRequest := mkTemplateRequest {
  rq_name : string;
  rq_operation_type : string;
  rq_command_template : string;
  rq_allowed_params : list string;
  rq_timeout_seconds : Z;
  rq_run_as_user : string;
  rq_approval_required : bool;
}.

Record OperationTemplateOverview := mkTemplateOverview {
  to_template_id : Uuid;
  to_name : string;
  to_operation_type : string;
  to_command_template : string;
  to_allowed_params : list string;
  to_timeout_seconds : Z;
  to_run_as_user : string;
  to_approval_required : bool;
  to_created_at : DateTime;
}.

Record DeleteOperationTemplateResponse := mkDeleteTemplate {
  dt_template_id : Uuid;
  dt_name : string;
  dt_deleted : bool;
}.

Record CreateNodeOperationRequest := mkOperationRequest {
  ro_template_id : Uuid;
  ro_input_params : Value;
  ro_approval_ticket : option string;
}.

(** The overview repeats the operation's fields beside its template's. *)
Record NodeOperationOverview := mkOperationOverview {
  oo_operation : NodeOperationRecord;
  oo_template_name : string;
  oo_operation_type : string;
}.

Record PendingOperationResponse := mkPending {
  po_operation_id : Uuid;
  po_node_id : Uuid;
  po_template_id : Uuid;
  po_template_name : string;
  po_operation_type : string;
  rendered_command : string;
  po_timeout_seconds : Z;
  po_run_as_user : string;
  po_created_at : DateTime;
}.

Record OperationResultRequest := mkResultRequest {
  rr_node_id : Uuid;
  rr_exec_status : string;
  rr_exit_code : Z;
  rr_stdout : string;
  rr_stderr : string;
  rr_finished_at : DateTime;
}.

Record OperationResultResponse := mkResultResponse {
  rs_operation_id : Uuid;
  rs_node_id : Uuid;
  rs_exec_status : string;
}.

(** ** Helpers *)

Definition normalize_operation_template_name `{!Extern} (raw : string) : Fallible string :=
  let normalized := to_lowercase (trim raw) in
  if is_empty normalized then Err (bad_request "operation template name is required")
  else Ok normalized.

Definition operation_types : list string :=
  ["vip_bind"; "vip_unbind"; "route_switch"; "service_reload"; "custom_template"].

Definition normalize_operation_type `{!Extern} (raw : string) : Fallible string :=
  let normalized := to_lowercase (trim raw) in
  if decide (normalized ∈ operation_types) then Ok normalized
  else Err (bad_request "operation_type must be one of vip_bind, vip_unbind, route_switch, service_reload, custom_template").

Definition normalize_allowed_params (raw : list string) : Fallible (list string) :=
  let params := sort_dedup (filter (λ item, item ≠ "") (trim <$> raw)) in
  if decide (32 < length params) then Err (bad_request "allowed_params is too large")
  else Ok params.

Definition normalize_operation_run_as_user (raw : string) : string :=
  if is_empty (trim raw) then "root" else trim raw.

Definition normalize_operation_input_params (raw : Value) : Fallible Map :=
  match raw with
  | VObject map => Ok map
  | _ => Err (bad_request "input_params must be a JSON object")
  end.

Definition normalize_operation_input_array (raw : Value) : list string :=
  default [] (filter_map as_str <$> as_array raw).

Definition operation_kind (raw : string) : option OperationKind :=
  if decide (raw = "vip_bind") then Some VipBind
  else if decide (raw = "vip_unbind") then Some VipUnbind
  else if decide (raw = "route_switch") then Some RouteSwitch
  else if decide (raw = "service_reload") then Some ServiceReload
  else if decide (raw = "custom_template") then Some CustomTemplate
  else None.

Definition build_operation_template (record : OperationTemplateRecord) :
    Fallible OperationTemplate :=
  let? kind := ok_or (operation_kind (operation_type record))
    (internal ("unsupported operation type " +:+ operation_type record)) in
  Ok {|
    OpsTemplate.name := template_name record;
    OpsTemplate.kind := kind;
    OpsTemplate.command_template := template_command record;
    OpsTemplate.allowed_params := normalize_operation_input_array (template_allowed_params record);
    OpsTemplate.timeout_seconds := Z.max (template_timeout_seconds record) 1;
  |}.

(** [OperationValidationError]'s [Display]. *)
Definition validation_message (e : OperationValidationError) : string :=
  match e with
  | UnknownParam k => "unknown parameter: " +:+ k
  | InvalidValue k => "invalid parameter value for: " +:+ k
  | MissingValue k => "missing placeholder value for: " +:+ k
  end.

Definition operation_template_overview (t : OperationTemplateRecord) :
    OperationTemplateOverview := {|
  to_template_id := template_id t;
  to_name := template_name t;
  to_operation_type := operation_type t;
  to_command_template := template_command t;
  to_allowed_params := normalize_operation_input_array (template_allowed_params t);
  to_timeout_seconds := template_timeout_seconds t;
  to_run_as_user := run_as_user t;
  to_approval_required := approval_required t;
  to_created_at := template_created_at t;
|}.

Definition node_operation_overview (o : NodeOperationRecord) (t : OperationTemplateRecord) :
    NodeOperationOverview :=
  mkOperationOverview o (template_name t) (operation_type t).

Definition claimed_node_operation_dispatch (claimed : ClaimedNodeOperation) :
    Fallible PendingOperationResponse :=
  let? t := build_operation_template (template claimed) in
  let? params := normalize_operation_input_params (input_params (operation claimed)) in
  let? rendered :=
    map_err (λ e, bad_request (validation_message e)) (render_command t params) in
  Ok {|
    po_operation_id := operation_id (operation claimed);
    po_node_id := op_node_id (operation claimed);
    po_template_id := template_id (template claimed);
    po_template_name := template_name (template claimed);
    po_operation_type := operation_type (template claimed);
    rendered_command := rendered;
    po_timeout_seconds := OpsTemplate.timeout_seconds t;
    po_run_as_user := run_as_user (template claimed);
    po_created_at := op_created_at (operation claimed);
  |}.

Definition final_statuses : list string := ["success"; "failed"; "timeout"; "cancelled"].

Definition normalize_operation_exec_status `{!Extern} (raw : string) : Fallible string :=
  let normalized := to_lowercase (trim raw) in
  if decide (normalized ∈ final_statuses) then Ok normalized
  else Err (bad_request "exec_status must be one of success, failed, timeout, cancelled").

Definition MAX_LEN : nat := 4000.

Definition truncate_log_output (raw : string) : string :=
  if decide (chars_count raw ≤ MAX_LEN) then raw
  else take_chars MAX_LEN raw +:+ "...".

(** ** Handlers *)

Section Ops.
Context {T : Type} `{EX : !Extern, NT : !NodeTokenStore T}.

(** [existing.map(f).unwrap_or_else(new)]. *)
Definition keep_or {A B} (o : option A) (f : A → B) (new : Hub T B) : Hub T B :=
  match o with Some a => ret (f a) | None => new end.

Definition create_operation_template (request : CreateOperationTemplateRequest) :
    Hub T OperationTemplateOverview :=
  let! name := lift (normalize_operation_template_name (rq_name request)) in
  let! operation_type := lift (normalize_operation_type (rq_operation_type request)) in
  let command := trim (rq_command_template request) in
  do! require (negb (is_empty command)) (bad_request "command_template is required") in
  let! allowed := lift (normalize_allowed_params (rq_allowed_params request)) in
  let! existing := read (λ s, operation_template_by_name s name) in
  let! tid := keep_or existing template_id new_v4 in
  let! created := keep_or existing template_created_at utc_now in
  let t := {|
    template_id := tid;
    template_name := name;
    operation_type := operation_type;
    template_command := command;
    template_allowed_params := VArray (VString <$> allowed);
    template_timeout_seconds := Z.max (rq_timeout_seconds request) 1;
    run_as_user := normalize_operation_run_as_user (rq_run_as_user request);
    approval_required := rq_approval_required request;
    template_created_at := created;
  |} in
  do! write (save_operation_template t) in
  ret (operation_template_overview t).

Definition update_operation_template (tid : Uuid) (request : CreateOperationTemplateRequest) :
    Hub T OperationTemplateOverview :=
  let! found := read (λ s, operation_template s tid) in
  let! existing := get_or found (not_found "operation template not found") in
  let! name := lift (normalize_operation_template_name (rq_name request)) in
  let! operation_type := lift (normalize_operation_type (rq_operation_type request)) in
  let command := trim (rq_command_template request) in
  do! require (negb (is_empty command)) (bad_request "command_template is required") in
  let! duplicated := read (λ s, operation_template_by_name s name) in
  do! require (default true ((λ t, bool_decide (template_id t = tid)) <$> duplicated))
        (conflict "operation template name already exists") in
  let! allowed := lift (normalize_allowed_params (rq_allowed_params request)) in
  let t := {|
    template_id := tid;
    template_name := name;
    operation_type := operation_type;
    template_command := command;
    template_allowed_params := VArray (VString <$> allowed);
    template_timeout_seconds := Z.max (rq_timeout_seconds request) 1;
    run_as_user := normalize_operation_run_as_user (rq_run_as_user request);
    approval_required := rq_approval_required request;
    template_created_at := template_created_at existing;
  |} in
  do! write (save_operation_template t) in
  ret (operation_template_overview t).

(** The in-memory repository reports no foreign-key violation. *)
Definition hub_delete_operation_template (tid : Uuid) : Hub T DeleteOperationTemplateResponse :=
  let! found := read (λ s, operation_template s tid) in
  let! t := get_or found (not_found "operation template not found") in
  do! write (delete_operation_template tid) in
  ret (mkDeleteTemplate tid (template_name t) true).

Definition list_template_overviews : Hub T (list OperationTemplateOverview) :=
  let! ts := read list_operation_templates in
  ret (sort_by (cmp_on to_name String.compare) (operation_template_overview <$> ts)).

Definition approval_ticket (request : CreateNodeOperationRequest) : option string :=
  match trim <$> ro_approval_ticket request with
  | Some v => if is_empty v then None else Some v
  | None => None
  end.

Definition create_node_operation (node_id : Uuid) (request : CreateNodeOperationRequest)
    (requester : string) : Hub T NodeOperationOverview :=
  let! found := read (λ s, node s node_id) in
  do! get_or found (not_found "node not found") in
  let! found := read (λ s, operation_template s (ro_template_id request)) in
  let! t := get_or found (not_found "operation template not found") in
  let! params := lift (normalize_operation_input_params (ro_input_params request)) in
  let! built := lift (build_operation_template t) in
  do! lift (map_err (λ e, bad_request (validation_message e)) (render_command built params)) in
  let ticket := approval_ticket request in
  let exec := if approval_required t && bool_decide (ticket = None) then "pending" else "approved" in
  let approver := if bool_decide (exec = "approved") then Some (default requester ticket) else None in
  let! oid := new_v4 in
  let! now := utc_now in
  let o := {|
    operation_id := oid;
    op_node_id := node_id;
    op_template_id := template_id t;
    event_id := None;
    input_params := VObject params;
    exec_status := exec;
    requested_by := requester;
    approved_by := approver;
    exit_code := None;
    stdout_log := None;
    stderr_log := None;
    started_at := None;
    finished_at := None;
    op_created_at := now;
  |} in
  do! write (save_node_operation o) in
  ret (node_operation_overview o t).

(** The loop of [list_node_operations]. *)
Fixpoint operation_overviews (ops : list NodeOperationRecord) : Hub T (list NodeOperationOverview) :=
  match ops with
  | [] => ret []
  | o :: ops' =>
      let! found := read (λ s, operation_template s (op_template_id o)) in
      let! t := get_or found (internal "operation template missing") in
      let! rest := operation_overviews ops' in
      ret (node_operation_overview o t :: rest)
  end.

Definition hub_list_node_operations (node_id : Uuid) : Hub T (list NodeOperationOverview) :=
  let! found := read (λ s, node s node_id) in
  do! get_or found (not_found "node not found") in
  let! ops := read (λ s, list_node_operations s node_id) in
  operation_overviews ops.

(** The repository's claim, as an effect: the clock is read when there is an operation to
    start. *)
Definition repo_claim (node_id : Uuid) : Hub T (option ClaimedNodeOperation) := λ w,
  let '(c, s) := claim_next_node_operation node_id (clock (clock_next w)) (repo w) in
  let w :=
    if decide (filter (claimable node_id) (values (node_operations (repo w))) = []) then w
    else set_clock_next (S (clock_next w)) w in
  (Ok c, set_repo s w).

Definition hub_claim_next_node_operation (node_id : Uuid) : Hub T (option PendingOperationResponse) :=
  let! claimed := repo_claim node_id in
  match claimed with
  | None => ret None
  | Some c => let! d := lift (claimed_node_operation_dispatch c) in ret (Some d)
  end.

Definition report_node_operation_result (oid : Uuid) (request : OperationResultRequest) :
    Hub T OperationResultResponse :=
  let! found := read (λ s, node_operation s oid) in
  let! o := get_or found (not_found "node operation not found") in
  do! require (bool_decide (op_node_id o = rr_node_id request))
        (unauthorized "operation does not belong to node") in
  let! exec := lift (normalize_operation_exec_status (rr_exec_status request)) in
  let o := set_exec_status exec o in
  let o := set_exit_code (Some (rr_exit_code request)) o in
  let o := set_stdout_log (Some (truncate_log_output (rr_stdout request))) o in
  let o := set_stderr_log (Some (truncate_log_output (rr_stderr request))) o in
  let o := set_finished_at (Some (rr_finished_at request)) o in
  let! o := match started_at o with
            | None => let! now := utc_now in ret (set_started_at (Some now) o)
            | Some _ => ret o
            end in
  do! write (update_node_operation o) in
  ret (mkResultResponse oid (rr_node_id request) exec).

(** ** Dispatch *)

Context `{EL : !ExternLaws, TL : !TokenLaws T}.

Lemma used_ids_save_operation o s :
  used_ids (save_node_operation o s) = {[ operation_id o ]} ∪ used_ids s.
Proof. unfold used_ids, save_node_operation. simpl. rewrite dom_insert_L. set_solver. Qed.

Lemma used_ids_save_template t s :
  used_ids (save_operation_template t s) = {[ template_id t ]} ∪ used_ids s.
Proof. unfold used_ids, save_operation_template. simpl. rewrite dom_insert_L. set_solver. Qed.

(** What a claim does to the world. *)
Lemma repo_claim_run n w :
  world_ok w →
  match next_claim n (repo w) with
  | None => ∃ w', repo_claim n w = (Ok None, w') ∧ repo w' = repo w ∧ world_ok w'
  | Some o =>
      ∃ t w', operation_templates (repo w) !! op_template_id o = Some t
        ∧ repo_claim n w
          = (Ok (Some (mkClaimed (start_operation (clock (clock_next w)) o) t)), w')
        ∧ repo w' = save_node_operation (start_operation (clock (clock_next w)) o) (repo w)
        ∧ world_ok w'
  end.
Proof.
  intros Hw. pose proof (world_repo w Hw) as Hok.
  pose proof (claim_next_spec n (clock (clock_next w)) (repo w) Hok) as Hclaim.
  pose proof (claim_ok n (clock (clock_next w)) (repo w) Hok) as Hok'.
  unfold repo_claim. set (w1 := if decide _ then w else _).
  assert (repo w1 = repo w ∧ tokens w1 = tokens w ∧ rng_next w ≤ rng_next w1) as (Hr1 & Ht1 & Hn1)
    by (subst w1; by case_decide). clearbody w1.
  destruct (next_claim n (repo w)) as [o|] eqn:Ho.
  - destruct Hclaim as (t & Ht & Hc). rewrite Hc in Hok' |- *. eexists t, _.
    split_and!; [done..|]. eapply (world_ok_repo w); simpl; try done.
    intros u. rewrite used_ids_save_operation. intros [->%elem_of_singleton|]%elem_of_union; [|auto].
    left. apply next_claim_Some in Ho as [[Hop _]%map_lookup_filter_Some _]; [|done].
    simpl. apply elem_of_dom_2 in Hop. unfold used_ids. set_solver.
  - rewrite Hclaim. eexists. split_and!; [done..|]. by eapply (world_ok_same w).
Qed.

(** Only approved operations reach a node: what a claim returns is the
    oldest approved operation of that node, which is marked running and is no
    longer claimable, while the other approved operations stay as they were. *)
Theorem claim_returns_oldest_approved n w resp w' :
  world_ok w → hub_claim_next_node_operation n w = (Ok (Some resp), w') →
  ∃ o, approved_ops n (repo w) !! po_operation_id resp = Some o
    ∧ po_node_id resp = n
    ∧ map_Forall (λ _ o', op_created_at o ≤ op_created_at o')%Z (approved_ops n (repo w))
    ∧ node_operation (repo w') (po_operation_id resp)
      = Some (start_operation (clock (clock_next w)) o)
    ∧ approved_ops n (repo w') = delete (po_operation_id resp) (approved_ops n (repo w))
    ∧ world_ok w'.
Proof.
  intros Hw H. unfold hub_claim_next_node_operation in H. apply bind_Ok in H as (c & w1 & Hc & H).
  pose proof (repo_claim_run n w Hw) as Hrun. destruct (next_claim n (repo w)) as [o|] eqn:Ho.
  2: { destruct Hrun as (? & Hrun & _). rewrite Hrun in Hc. injection Hc as <- <-. discriminate H. }
  destruct Hrun as (t & w2 & Ht & Hrun & Hrepo & Hw2). rewrite Hrun in Hc. injection Hc as <- <-.
  hub_inv. simplify_eq/=. rename select (claimed_node_operation_dispatch _ = _) into Hd.
  unfold claimed_node_operation_dispatch in Hd. result_inv. simpl.
  apply next_claim_Some in Ho as [Hin Hmin]; [|by apply world_repo].
  exists o. rewrite Hrepo. split_and!; [done| | | |by apply approved_ops_start|done].
  - apply map_lookup_filter_Some in Hin as [_ [? _]]. done.
  - done.
  - unfold node_operation, save_node_operation. simpl. apply lookup_insert_eq.
Qed.

Lemma create_node_operation_run n request by_ w ov w' :
  world_ok w → create_node_operation n request by_ w = (Ok ov, w') →
  ∃ t params built cmd,
    operation_templates (repo w) !! ro_template_id request = Some t
    ∧ template_id t = ro_template_id request
    ∧ ro_input_params request = VObject params ∧ build_operation_template t = Ok built
    ∧ render_command built params = Ok cmd
    ∧ repo w' = save_node_operation (oo_operation ov) (repo w)
    ∧ node_operations (repo w) !! operation_id (oo_operation ov) = None
    ∧ op_node_id (oo_operation ov) = n ∧ op_template_id (oo_operation ov) = ro_template_id request
    ∧ input_params (oo_operation ov) = VObject params
    ∧ exec_status (oo_operation ov)
      = (if approval_required t && bool_decide (approval_ticket request = None)
         then "pending" else "approved")
    ∧ world_ok w'.
Proof.
  intros Hw H. unfold create_node_operation in H. hub_inv.
  rename select (operation_template _ _ = _) into Ht. unfold operation_template in Ht.
  match type of Ht with _ = Some ?y => rename y into t end.
  rename select (normalize_operation_input_params _ = _) into Hp.
  rename select (build_operation_template _ = _) into Hb.
  rename select (map_err _ _ = _) into Hr.
  unfold normalize_operation_input_params in Hp.
  destruct (ro_input_params request) as [| | | | |params] eqn:Eparams; simplify_eq/=.
  match type of Hb with _ = Ok ?y => rename y into built end.
  destruct (render_command built _) as [cmd|] eqn:Hrender; simplify_eq/=.
  destruct (index_complete _ _ (templates_ok _ (world_repo w Hw)) _ _ Ht) as [Hid _]. simpl in Hid.
  assert (node_operations (repo w) !! rng (rng_next w) = None) as Hfresh.
  { apply not_elem_of_dom. intros Hin. apply (world_fresh_ids w Hw (rng_next w)); [lia|].
    unfold used_ids. set_solver. }
  eexists t, _, built, _. split_and!; try done.
  eapply (world_ok_repo w); simpl; try done; [lia|..].
  - apply save_node_operation_ok; [simpl; rewrite Hid; by eexists|by apply world_repo].
  - intros u. rewrite used_ids_save_operation. intros [->%elem_of_singleton|]%elem_of_union; [|auto].
    right. exists (rng_next w). split; [lia|done].
Qed.

(** C32: What was validated is what runs: an operation created approved for a node
    with nothing else to do is handed to the node at its next claim, with the
    command that validation rendered from the same template and parameters; the
    claim after that returns nothing. *)
Theorem approved_operation_dispatched n request by_ w ov w1 :
  world_ok w → create_node_operation n request by_ w = (Ok ov, w1) →
  exec_status (oo_operation ov) = "approved" → approved_ops n (repo w) = ∅ →
  ∃ resp w2 t params built,
    hub_claim_next_node_operation n w1 = (Ok (Some resp), w2)
    ∧ po_operation_id resp = operation_id (oo_operation ov)
    ∧ operation_template (repo w) (ro_template_id request) = Some t
    ∧ ro_input_params request = VObject params
    ∧ build_operation_template t = Ok built
    ∧ render_command built params = Ok (rendered_command resp)
    ∧ ∃ w3, hub_claim_next_node_operation n w2 = (Ok None, w3).
Proof.
  intros Hw H Hexec Hnone.
  apply create_node_operation_run in H
    as (t & params & built & cmd & Ht & Hid & Hp & Hb & Hr & Hrepo & Hfresh & Hn & Htid & Hip & _ & Hw1);
    [|done].
  set (o := oo_operation ov) in *.
  assert (approved_ops n (repo w1) = {[ operation_id o := o ]}) as Happ.
  { rewrite Hrepo. unfold approved_ops in *. simpl.
    rewrite map_filter_insert_True by done. by rewrite Hnone. }
  pose proof (repo_claim_run n w1 Hw1) as Hrun.
  destruct (next_claim n (repo w1)) as [o'|] eqn:Ho.
  2: { apply next_claim_None in Ho; [|by apply world_repo]. rewrite Happ in Ho.
       by apply map_non_empty_singleton in Ho. }
  apply next_claim_Some in Ho as [Hin _]; [|by apply world_repo].
  rewrite Happ in Hin. apply lookup_singleton_Some in Hin as [_ <-].
  destruct Hrun as (t' & w2 & Ht' & Hrun & Hrepo2 & Hw2).
  rewrite Hrepo, Htid in Ht'. simpl in Ht'. rewrite Ht in Ht'. injection Ht' as <-.
  unfold hub_claim_next_node_operation at 1, bind at 1. rewrite Hrun.
  unfold claimed_node_operation_dispatch, bind, lift. simpl. rewrite Hb. simpl. rewrite Hip. simpl.
  rewrite Hr. simpl. eexists _, w2, t, params, built. split_and!; [done..|].
  pose proof (repo_claim_run n w2 Hw2) as Hrun2.
  destruct (next_claim n (repo w2)) as [o'|] eqn:Ho2.
  { apply next_claim_Some in Ho2 as [Hin _]; [|by apply world_repo].
    rewrite Hrepo2, approved_ops_start, Happ in Hin.
    apply lookup_delete_Some in Hin as [Hne [Heq _]%lookup_singleton_Some]. done. }
  destruct Hrun2 as (w3 & Hrun2 & _). exists w3.
  unfold hub_claim_next_node_operation, bind. by rewrite Hrun2.
Qed.

(** ** Results *)

Lemma truncate_log_output_bound s : chars_count (truncate_log_output s) ≤ MAX_LEN + 3.
Proof.
  unfold truncate_log_output. case_decide; [lia|]. rewrite chars_count_app.
  pose proof (chars_count_take MAX_LEN s). assert (chars_count "..." = 3) as -> by done. lia.
Qed.

Lemma normalize_exec_status_final raw st :
  normalize_operation_exec_status raw = Ok st → st ∈ final_statuses.
Proof. unfold normalize_operation_exec_status. case_decide; [|done]. by intros [= <-]. Qed.

(** What an accepted report does. *)
Lemma report_result_run oid request w r w' :
  report_node_operation_result oid request w = (Ok r, w') →
  world_ok w →
  ∃ o o', node_operation (repo w) oid = Some o ∧ op_node_id o = rr_node_id request
    ∧ node_operations (repo w') = <[oid := o']> (node_operations (repo w))
    ∧ exec_status o' ∈ final_statuses
    ∧ is_Some (started_at o') ∧ finished_at o' = Some (rr_finished_at request)
    ∧ (∀ l, stdout_log o' = Some l ∨ stderr_log o' = Some l → chars_count l ≤ MAX_LEN + 3)
    ∧ (∀ n, ¬ claimable n o') ∧ world_ok w'.
Proof.
  intros H Hw. unfold report_node_operation_result in H.
  apply bind_Ok in H as (? & ? & [-> ->]%read_Ok & H).
  apply bind_Ok in H as (o & ? & [Ho ->]%get_or_Ok & H).
  apply bind_Ok in H as (? & ? & [Hn%bool_decide_eq_true ->]%require_Ok & H).
  apply bind_Ok in H as (st & ? & [Hst%normalize_exec_status_final ->]%lift_Ok & H).
  apply bind_Ok in H as (o' & w1 & Hstart & H).
  pose proof (world_repo w Hw) as Hok. unfold node_operation in Ho.
  pose proof (operations_keyed _ Hok _ _ Ho) as Hid.
  assert (operation_id o' = oid ∧ op_template_id o' = op_template_id o ∧ exec_status o' = st
    ∧ is_Some (started_at o') ∧ finished_at o' = Some (rr_finished_at request)
    ∧ stdout_log o' = Some (truncate_log_output (rr_stdout request))
    ∧ stderr_log o' = Some (truncate_log_output (rr_stderr request))
    ∧ repo w1 = repo w ∧ tokens w1 = tokens w ∧ rng_next w1 = rng_next w)
    as (Hid' & Htid & Hst' & Hsa & Hfa & Hso & Hse & Hr1 & Ht1 & Hn1).
  { simpl in Hstart. destruct (started_at o) as [t0|] eqn:E; hub_inv; subst; simpl;
      rewrite ?E; split_and!; done. }
  hub_inv. simplify_eq/=. exists o, o'. rewrite Hr1. split_and!; try done.
  - by rewrite Hid'.
  - intros l [Hl|Hl]; rewrite ?Hso, ?Hse in Hl; simplify_eq; apply truncate_log_output_bound.
  - intros n [_ Happ]. rewrite Happ in Hst. vm_compute in Hst.
    by repeat (apply elem_of_cons in Hst as [Hst|Hst]; [discriminate|]);
      apply not_elem_of_nil in Hst.
  - eapply (world_ok_repo w); simpl; try done; [by rewrite Hn1| |].
    + apply save_node_operation_ok; [|done]. rewrite Htid.
      by apply (operations_templates _ Hok _ _ Ho).
    + intros u. change (update_node_operation o' (repo w)) with (save_node_operation o' (repo w)).
      rewrite used_ids_save_operation. intros [->%elem_of_singleton|]%elem_of_union; [|auto].
      left. rewrite Hid'. apply elem_of_dom_2 in Ho. unfold used_ids. set_solver.
Qed.

(** A reported result is accepted only from the node the operation was made
    for; it leaves the operation in one of the final statuses, with a start time,
    a finish time and logs of at most 4003 characters, hence never claimable
    again, and changes no other operation; a refused report changes nothing. *)
Theorem report_result_effect oid request w :
  atomic_on_error (report_node_operation_result oid request)
  ∧ ∀ r w', report_node_operation_result oid request w = (Ok r, w') →
      world_ok w →
      ∃ o o', node_operation (repo w) oid = Some o ∧ op_node_id o = rr_node_id request
        ∧ node_operations (repo w') = <[oid := o']> (node_operations (repo w))
        ∧ exec_status o' ∈ final_statuses
        ∧ is_Some (started_at o') ∧ finished_at o' = Some (rr_finished_at request)
        ∧ (∀ l, stdout_log o' = Some l ∨ stderr_log o' = Some l → chars_count l ≤ MAX_LEN + 3)
        ∧ (∀ n, ¬ claimable n o') ∧ world_ok w'.
Proof.
  split.
  { unfold report_node_operation_result. solve_atomic. }
  intros r w'. apply report_result_run.
Qed.
End Ops.

(** The parameter list of a template is accepted exactly when at most 32
    distinct non-blank names remain after trimming; the stored list holds these
    names, each once, in order. *)
Theorem normalize_allowed_params_spec (raw : list string) :
  let names := filter (λ item, item ≠ "") (trim <$> raw) in
  (∃ ps, normalize_allowed_params raw = Ok ps
     ∧ NoDup ps ∧ sorted_by String.compare ps ∧ ∀ x, x ∈ ps ↔ x ∈ names)
  ↔ size (list_to_set names : gset string) ≤ 32.
Proof.
  simpl. set (names := filter (λ item, item ≠ "") (trim <$> raw)).
  destruct (sort_dedup_spec names) as (Hnd & Hsort & Helem).
  assert (size (list_to_set names : gset string) = length (sort_dedup names)) as ->.
  { rewrite <-(size_list_to_set (C:=gset string) (sort_dedup names)) by done. f_equal.
    apply set_eq. intros x. by rewrite !elem_of_list_to_set, Helem. }
  unfold normalize_allowed_params. fold names. case_decide; split.
  - by intros (ps & ? & _).
  - lia.
  - lia.
  - eauto 10.
Qed.

(** ** Examples *)

Definition world3 : World MemoryTokenState :=
  (create_operation_template
     (mkTemplateRequest "Reload" "service_reload" "systemctl reload {{unit}}" ["unit"] 30 "" false)
     world2).2.

Definition demo_operation : CreateNodeOperationRequest :=
  mkOperationRequest 1004 (jobj [("unit", VString "pingora")]) None.

Definition world4 : World MemoryTokenState :=
  (create_node_operation 1000 demo_operation "admin" world3).2.

Lemma world3_ok : world_ok world3.
Proof.
  eapply (world_ok_repo world2 (save_operation_template
    (mkTemplateRecord 1004 "reload" "service_reload" "systemctl reload {{unit}}"
       (VArray [VString "unit"]) 30 "root" false 2) (repo world2))).
  - apply world2_ok.
  - vm_compute. reflexivity.
  - reflexivity.
  - apply Nat.leb_le. vm_compute. reflexivity.
  - apply save_operation_template_ok; [|apply world_repo, world2_ok].
    apply saveable_fresh; vm_compute; reflexivity.
  - intros u. rewrite used_ids_save_template.
    intros [->%elem_of_singleton|]%elem_of_union; [|by left].
    right. exists 4. split; [apply Nat.ltb_lt; vm_compute; reflexivity|reflexivity].
Qed.

Definition demo_overview : NodeOperationOverview :=
  mkOperationOverview
    (mkOperation 1005 1000 1004 None (jobj [("unit", VString "pingora")]) "approved" "admin"
       (Some "admin") None None None None None 3) "reload" "service_reload".

Lemma world4_ok : world_ok world4.
Proof.
  destruct (create_node_operation_run 1000 demo_operation "admin" world3 demo_overview world4)
    as (t & params & built & cmd & H); [apply world3_ok|vm_compute; reflexivity|apply H].
Qed.

Definition demo_pending : PendingOperationResponse :=
  mkPending 1005 1000 1004 "reload" "service_reload" "systemctl reload pingora" 30 "root" 3.

Lemma claim_returns_oldest_approved_witness :
  ∃ o, approved_ops 1000 (repo world4) !! 1005%Z = Some o ∧ exec_status o = "approved".
Proof.
  destruct (claim_returns_oldest_approved 1000 world4 demo_pending
              (hub_claim_next_node_operation 1000 world4).2) as (o & Ho & _).
  - apply world4_ok.
  - vm_compute. reflexivity.
  - exists o. split; [exact Ho|]. by apply map_lookup_filter_Some in Ho as [_ [_ ?]].
Defined.

Lemma approved_operation_dispatched_witness :
  ∃ resp w2, hub_claim_next_node_operation 1000 world4 = (Ok (Some resp), w2)
    ∧ po_operation_id resp = 1005%Z.
Proof.
  destruct (approved_operation_dispatched 1000 demo_operation "admin" world3 demo_overview world4)
    as (resp & w2 & t & params & built & Hclaim & Hid & _).
  - apply world3_ok.
  - vm_compute. reflexivity.
  - reflexivity.
  - vm_compute. reflexivity.
  - exists resp, w2. split; [exact Hclaim|exact Hid].
Defined.

Definition demo_result : OperationResultRequest :=
  mkResultRequest 1000 " SUCCESS " 0 "done" "" 9.

Lemma report_result_effect_witness :
  ∃ o', node_operation (repo (report_node_operation_result 1005 demo_result world4).2) 1005 = Some o'
        ∧ exec_status o' ∈ final_statuses.
Proof.
  destruct (proj2 (report_result_effect 1005 demo_result world4)
              (mkResultResponse 1005 1000 "success")
              (report_node_operation_result 1005 demo_result world4).2)
    as (o & o' & _ & _ & Hops & Hst & _).
  - vm_compute. reflexivity.
  - apply world4_ok.
  - exists o'. split; [|exact Hst]. unfold node_operation. rewrite Hops. apply lookup_insert_eq.
Defined.

(** The template is edited while an operation made from it waits. *)
Definition edited_world : World MemoryTokenState :=
  (update_operation_template 1004
     (mkTemplateRequest "Reload" "service_reload" "systemctl reload pingora" [] 30 "" false) world4).2.

(** Editing a template can strand the operations that wait for dispatch: the
    claim marks the operation as running before it renders the command, and when
    the edited template refuses the stored parameters the node gets an error, the
    operation stays running and no later claim returns it. *)
Theorem edited_template_strands_operation :
  let '(r, w) := hub_claim_next_node_operation 1000 edited_world in
  r = Err (bad_request "unknown parameter: unit")
  ∧ (exec_status <$> node_operation (repo w) 1005) = Some "running"
  ∧ (hub_claim_next_node_operation 1000 w).1 = Ok None.
Proof. vm_compute. done. Qed.

(** The template is renamed, then a new template takes the old name. *)
Definition renamed_world : World MemoryTokenState :=
  (update_operation_template 1004
     (mkTemplateRequest "restart" "service_reload" "systemctl restart pingora" [] 30 "" false)
     world3).2.

(** The in-memory index keeps the old name of a renamed template: creating a
    template under that name overwrites the renamed one instead of adding a
    template. *)
Theorem renamed_template_overwritten :
  let '(r, w) := create_operation_template
    (mkTemplateRequest "reload" "custom_template" "true" [] 30 "" false) renamed_world in
  (template_name <$> operation_template (repo renamed_world) 1004) = Some "restart"
  ∧ (template_name <$> operation_template (repo w) 1004) = Some "reload"
  ∧ size (operation_templates (repo w)) = 1.
Proof. vm_compute. done. Qed.
