(* ===== verification/HubReleases.v ===== *)
(** * Releases (apps/hub-api/src/service.rs)

    Compiling a site into a release for the nodes it is bound to, the cleanup
    release for the nodes it left, what a node may download, and the
    acknowledgements the nodes send back. *)

From stdpp Require Import prelude strings pretty gmap sorting.
From Stdlib Require Import Ascii.
From S2P Require Import Prelude RustStr Json Extern AppError Domain SiteConfig ConfigCompiler Records Store TokenStore Hub HubNodes.

(** ** Requests and responses (crates/protocol) *)

Record SavedRelease := mkSavedRelease {
  saved_release_id : Uuid;
  saved_release_version : string;
  saved_config_hash : string;
  saved_target_node_ids : list Uuid;
}.

Record CreateReleaseRequest := mkCreateRelease {
  cr_scope_type : string;
  cr_scope_id : Uuid;
  cr_release_type : string;
  cr_reason : string;
}.

Record ReleaseStatusCounts := mkCounts {
  count_pending : nat;
  count_in_progress : nat;
  count_success : nat;
  count_failed : nat;
}.

Record ReleaseOverview := mkReleaseOverview {
  ro_release_id : Uuid;
  ro_scope_type : string;
  ro_scope_id : option Uuid;
  ro_release_type : string;
  ro_release_version : string;
  ro_status : string;
  ro_reason : string;
  ro_counts : ReleaseStatusCounts;
  ro_created_at : DateTime;
}.

Record LatestReleaseResponse := mkLatestRelease {
  lr_release_id : Uuid;
  lr_release_version : string;
  lr_config_hash : string;
  download_url : string;
}.

Record ConfigPackageResponse := mkConfigPackage {
  cp_release_id : Uuid;
  cp_release_version : string;
  cp_manifest : Value;
  cp_rendered_config : Value;
  cp_certificates : Value;
  cp_signature : string;
}.

Record ReleaseAckRequest := mkAckRequest {
  ack_node_id : Uuid;
  ack_apply_status : string;
  ack_current_version : string;
  ack_req_message : option string;
}.

Record ReleaseAckResponse := mkAckResponse {
  ackd_release_id : Uuid;
  ackd_node_id : Uuid;
  ackd_apply_status : string;
}.

(** ** The serde form of a manifest *)

Definition uuid_json `{!Extern} (u : Uuid) : Value := VString (uuid_to_string u).
Definition time_json `{!Extern} (t : DateTime) : Value := VString (rfc3339 t).

Definition certificate_json `{!Extern} (c : CertificateRef) : Value := jobj
  [("certificate_id", uuid_json (ref_certificate_id c)); ("version", jint (ref_version c));
   ("common_name", VString (ref_common_name c)); ("sans", VArray (VString <$> ref_sans c));
   ("expires_at", jopt time_json (ref_expires_at c)); ("cert_pem", VString (ref_cert_pem c));
   ("key_pem_encrypted", VString (ref_key_pem_encrypted c));
   ("chain_pem", jopt VString (ref_chain_pem c))].

Definition target_json `{!Extern} (t : ReleaseTarget) : Value := jobj
  [("node_id", uuid_json (target_node_id t));
   ("site_ids", VArray (uuid_json <$> target_site_ids t)); ("preheated", VBool (preheated t))].

Definition site_spec_json `{!Extern} (s : SiteSpec) : Value := jobj
  [("id", uuid_json (spec_id s)); ("site_code", VString (spec_code s));
   ("name", VString (spec_name s)); ("domain", VString (spec_domain s));
   ("listen_port", jnat (spec_listen_port s)); ("protocol", protocol_json (spec_protocol s));
   ("tls_enabled", VBool (spec_tls_enabled s)); ("status", site_status_json (spec_status s));
   ("upstreams", VArray (upstream_json <$> upstreams s));
   ("routes", VArray (route_json <$> routes s));
   ("cache_rules", VArray (cache_rule_json <$> cache_rules s))].

Definition manifest_json `{!Extern} (m : ReleaseManifest) : Value := jobj
  [("release_id", uuid_json (manifest_release_id m));
   ("release_version", VString (manifest_release_version m)); ("scope", VString (scope m));
   ("config_hash", VString (manifest_config_hash m));
   ("created_at", time_json (manifest_created_at m));
   ("sites", VArray (site_spec_json <$> manifest_sites m));
   ("certificates", VArray (certificate_json <$> manifest_certificates m));
   ("targets", VArray (target_json <$> manifest_targets m))].

Definition bundle_json `{!Extern} (b : CompiledConfigBundle) : Value := jobj
  [("manifest", manifest_json (manifest b)); ("rendered_config", rendered_config b);
   ("certificates", VArray (certificate_json <$> bundle_certificates b));
   ("signature", VString (signature b))].

(** ** Helpers *)

Definition pending_ack : NodeAckRecord := mkAck "pending" None None None.

Definition build_release_ack_status (node_ids : list Uuid) : gmap Uuid NodeAckRecord :=
  foldl (λ m n, <[n := pending_ack]> m) ∅ node_ids.

Definition count_ack (c : ReleaseStatusCounts) (ack : NodeAckRecord) : ReleaseStatusCounts :=
  let '(mkCounts p i s f) := c in
  let st := apply_status ack in
  if decide (st = "success") then mkCounts p i (S s) f
  else if decide (st = "failed") then mkCounts p i s (S f)
  else if decide (st = "downloading" ∨ st = "applying") then mkCounts p (S i) s f
  else mkCounts (S p) i s f.

Definition summarize_release_counts `{!Extern} (acks : gmap Uuid NodeAckRecord) :
    ReleaseStatusCounts :=
  foldl count_ack (mkCounts 0 0 0 0) (values acks).

(** [sort(); dedup()] on uuids. *)
Definition sort_dedup_ids (l : list Uuid) : list Uuid := dedup (sort_by Z.compare l).

Definition release_cmp : ReleaseRecord → ReleaseRecord → comparison :=
  cmp_then (cmp_on release_created_at Z.compare) (cmp_on release_version String.compare).

Definition release_overview `{!Extern} (r : ReleaseRecord) : ReleaseOverview := {|
  ro_release_id := release_id r;
  ro_scope_type := scope_type r;
  ro_scope_id := scope_id r;
  ro_release_type := release_type r;
  ro_release_version := release_version r;
  ro_status := aggregate_release_status (ack_status r);
  ro_reason := reason r;
  ro_counts := summarize_release_counts (ack_status r);
  ro_created_at := release_created_at r;
|}.

(** The targets of the last release of a site that are not bound to it now. *)
Definition detached_of (releases : list ReleaseRecord) (site_id : Uuid) (current : list Uuid) :
    list Uuid :=
  let previous :=
    max_by release_cmp
      (filter (λ r, scope_type r = "site" ∧ scope_id r = Some site_id) releases) in
  let detached :=
    default [] ((λ r, filter (λ n, n ∉ current) (target_node_ids r)) <$> previous) in
  sort_dedup_ids detached.

(** ** Handlers *)

Section Releases.
Context {T : Type} `{EX : !Extern, NT : !NodeTokenStore T}.

Definition save_compiled_release (scope_type : string) (scope_id : option Uuid)
    (release_type reason : string) (bundle : CompiledConfigBundle)
    (target_node_ids : list Uuid) : Hub T SavedRelease :=
  let rid := manifest_release_id (manifest bundle) in
  let version := manifest_release_version (manifest bundle) in
  let config_hash := manifest_config_hash (manifest bundle) in
  let acks := build_release_ack_status target_node_ids in
  let! now := utc_now in
  let r := {|
    release_id := rid;
    scope_type := scope_type;
    scope_id := scope_id;
    release_type := release_type;
    release_version := version;
    reason := reason;
    release_status := aggregate_release_status acks;
    bundle := bundle;
    target_node_ids := target_node_ids;
    ack_status := acks;
    release_created_at := now;
  |} in
  do! write (save_release r) in
  ret (mkSavedRelease rid version config_hash target_node_ids).

Definition save_site_release (x : SiteRecord) (release_type reason : string) :
    Hub T SavedRelease :=
  do! lift (validate_site_config (site_config x)) in
  let! serial := next_serial in
  let! now := utc_now in
  let version := build_release_version "site" now serial in
  let node_ids := binding_node_id <$> bindings x in
  let! certs := read (λ s, site_certificates s (site_id x)) in
  let targets :=
    (λ b, mkReleaseTarget (binding_node_id b) [site_id x]
            (bool_decide (binding_role b = "standby"))) <$> bindings x in
  let! rid := new_v4 in
  let! created := utc_now in
  let! b := lift (map_err internal
                    (compile_site_bundle (to_spec x) certs targets version rid created)) in
  save_compiled_release "site" (Some (site_id x)) release_type reason b node_ids.

Definition save_site_cleanup_release (x : SiteRecord) (detached : list Uuid) (reason : string) :
    Hub T SavedRelease :=
  let! serial := next_serial in
  let! now := utc_now in
  let version := build_release_version "cleanup" now serial in
  let targets := (λ n, mkReleaseTarget n [site_id x] false) <$> detached in
  let! rid := new_v4 in
  let! created := utc_now in
  let! b := lift (map_err internal
                    (compile_site_cleanup_bundle (to_spec x) targets version rid created)) in
  save_compiled_release "site_cleanup" (Some (site_id x)) "cleanup"
    ("cleanup detached nodes for " +:+ site_code x +:+ ": " +:+ reason) b detached.

Definition detached_node_ids (s : MemoryState) (site_id : Uuid) (current : list Uuid) :
    list Uuid :=
  detached_of (list_releases s) site_id current.

Definition detached_node_ids_for_site (site_id : Uuid) (current : list Uuid) : Hub T (list Uuid) :=
  read (λ s, detached_node_ids s site_id current).

Definition create_release (request : CreateReleaseRequest) : Hub T SavedRelease :=
  do! require (bool_decide (cr_scope_type request = "site"))
        (bad_request "only site scope is implemented in P0/P1") in
  let! found := read (λ s, site s (cr_scope_id request)) in
  let! x := get_or found (not_found "site not found") in
  let node_ids := binding_node_id <$> bindings x in
  let! detached := detached_node_ids_for_site (site_id x) node_ids in
  do! require (negb (bool_decide (node_ids = [] ∧ detached = [])))
        (bad_request "site has no node bindings") in
  let! primary :=
    if decide (node_ids = []) then ret None
    else let! r := save_site_release x (cr_release_type request) (cr_reason request) in
         ret (Some r) in
  let! cleanup :=
    if decide (detached = []) then ret None
    else let! r := save_site_cleanup_release x detached (cr_reason request) in ret (Some r) in
  let x := set_site_status (if decide (is_Some primary) then Published else Draft) x in
  do! write (save_site x) in
  get_or (or_else primary cleanup) (internal "release creation produced no artifacts").

Definition list_release_overviews : Hub T (list ReleaseOverview) :=
  let! rs := read list_releases in
  ret (sort_by (cmp_rev (cmp_on ro_created_at Z.compare)) (release_overview <$> rs)).

Definition latest_release_for_node (node_id : Uuid) : Hub T LatestReleaseResponse :=
  let! found := read (λ s, latest_release_id_for_node s node_id) in
  let! rid := get_or found (not_found "no release available for node") in
  let! found := read (λ s, release s rid) in
  let! r := get_or found (not_found "release not found") in
  ret {|
    lr_release_id := rid;
    lr_release_version := release_version r;
    lr_config_hash := manifest_config_hash (manifest (bundle r));
    download_url := "/api/node/config/package/" +:+ release_version r +:+ "?node_id="
                    +:+ uuid_to_string node_id;
  |}.

Definition config_package_for_node (node_id : Uuid) (version : string) :
    Hub T ConfigPackageResponse :=
  let! found := read (λ s, release_by_version s version) in
  let! r := get_or found (not_found "release version not found") in
  do! require (bool_decide (node_id ∈ target_node_ids r))
        (unauthorized "node is not a target of this release") in
  ret {|
    cp_release_id := release_id r;
    cp_release_version := release_version r;
    cp_manifest := manifest_json (manifest (bundle r));
    cp_rendered_config := rendered_config (bundle r);
    cp_certificates := VArray (certificate_json <$> bundle_certificates (bundle r));
    cp_signature := signature (bundle r);
  |}.

Definition ack_release (rid : Uuid) (request : ReleaseAckRequest) : Hub T ReleaseAckResponse :=
  let! found := read (λ s, release s rid) in
  let! r := get_or found (not_found "release not found") in
  do! require (bool_decide (ack_node_id request ∈ target_node_ids r))
        (unauthorized "node is not a target of this release") in
  let! now := utc_now in
  let ack := mkAck (ack_apply_status request) (Some (ack_current_version request))
               (ack_req_message request) (Some now) in
  do! write (update_release_ack rid (ack_node_id request) ack) in
  let! found := read (λ s, node s (ack_node_id request)) in
  do! match found with
      | Some n =>
          let! now := utc_now in
          let run := set_active_config_version (Some (ack_current_version request)) (runtime n) in
          let n := set_runtime (set_last_seen_at (Some now) run) n in
          write (save_node n)
      | None => ret tt
      end in
  ret (mkAckResponse rid (ack_node_id request) (ack_apply_status request)).

Context `{EL : !ExternLaws, TL : !TokenLaws T}.

(** ** Counters *)

(** The acknowledgements in a given class. *)
Definition acks_with (P : NodeAckRecord → Prop) `{!∀ a, Decision (P a)}
    (acks : gmap Uuid NodeAckRecord) : nat :=
  length (filter P (values acks)).

Definition ack_succeeded (a : NodeAckRecord) : Prop := apply_status a = "success".
Definition ack_failed (a : NodeAckRecord) : Prop := apply_status a = "failed".
Definition ack_waiting (a : NodeAckRecord) : Prop :=
  ¬ ack_succeeded a ∧ ¬ ack_failed a ∧ ¬ ack_in_progress a.

#[export] Instance ack_succeeded_dec a : Decision (ack_succeeded a).
Proof. unfold ack_succeeded. apply _. Defined.
#[export] Instance ack_failed_dec a : Decision (ack_failed a).
Proof. unfold ack_failed. apply _. Defined.
#[export] Instance ack_waiting_dec a : Decision (ack_waiting a).
Proof. unfold ack_waiting. apply _. Defined.

(** Every slot is in exactly one class. *)
Lemma ack_class a :
  (ack_succeeded a ∧ ¬ ack_failed a ∧ ¬ ack_in_progress a ∧ ¬ ack_waiting a)
  ∨ (¬ ack_succeeded a ∧ ack_failed a ∧ ¬ ack_in_progress a ∧ ¬ ack_waiting a)
  ∨ (¬ ack_succeeded a ∧ ¬ ack_failed a ∧ ack_in_progress a ∧ ¬ ack_waiting a)
  ∨ (¬ ack_succeeded a ∧ ¬ ack_failed a ∧ ¬ ack_in_progress a ∧ ack_waiting a).
Proof.
  unfold ack_waiting, ack_succeeded, ack_failed, ack_in_progress.
  destruct (decide (apply_status a = "success")) as [->|]; [naive_solver|].
  destruct (decide (apply_status a = "failed")) as [->|]; [naive_solver|].
  destruct (decide (apply_status a = "downloading" ∨ apply_status a = "applying")); naive_solver.
Qed.

Lemma count_ack_class p i0 s0 f a :
  count_ack (mkCounts p i0 s0 f) a
  = if decide (ack_succeeded a) then mkCounts p i0 (S s0) f
    else if decide (ack_failed a) then mkCounts p i0 s0 (S f)
    else if decide (ack_in_progress a) then mkCounts p (S i0) s0 f
    else mkCounts (S p) i0 s0 f.
Proof.
  unfold count_ack. unfold ack_succeeded, ack_failed, ack_in_progress.
  repeat case_decide; done.
Qed.

(** Splits on the class of [a] and evaluates the tests on it. *)
Ltac ack_cases a :=
  destruct (ack_class a) as [(?&?&?&?)|[(?&?&?&?)|[(?&?&?&?)|(?&?&?&?)]]];
  rewrite ?count_ack_class, ?filter_cons;
  repeat first [rewrite decide_True by assumption | rewrite decide_False by assumption].

Lemma count_acks_foldl l p i0 s0 f :
  foldl count_ack (mkCounts p i0 s0 f) l
  = mkCounts (length (filter ack_waiting l) + p) (length (filter ack_in_progress l) + i0)
      (length (filter ack_succeeded l) + s0) (length (filter ack_failed l) + f).
Proof.
  revert p i0 s0 f. induction l as [|a l IH]; intros; [done|]. cbn [foldl].
  ack_cases a; rewrite IH; cbn [length]; f_equal; lia.
Qed.

Lemma filter_nil_iff (P : NodeAckRecord → Prop) `{!∀ a, Decision (P a)} l :
  length (filter P l) = 0 ↔ ¬ Exists P l.
Proof.
  induction l as [|a l IH]; simpl; [rewrite Exists_nil; naive_solver|].
  rewrite filter_cons, Exists_cons. case_decide; simpl; [naive_solver lia|naive_solver].
Qed.

(** The counters of a release classify every acknowledgement slot exactly
    once, whatever the iteration order, and agree with the aggregated status:
    a failure is counted exactly when the status is [failed], and the status is
    [success] exactly when there are slots and all of them are successes. *)
Theorem release_counts_spec acks :
  let c := summarize_release_counts acks in
  c = mkCounts (acks_with ack_waiting acks) (acks_with ack_in_progress acks)
        (acks_with ack_succeeded acks) (acks_with ack_failed acks)
  ∧ count_pending c + count_in_progress c + count_success c + count_failed c = size acks
  ∧ (0 < count_failed c ↔ aggregate_release_status acks = "failed")
  ∧ (0 < size acks ∧ count_success c = size acks ↔ aggregate_release_status acks = "success").
Proof.
  simpl. unfold summarize_release_counts. rewrite count_acks_foldl, !Nat.add_0_r. simpl.
  fold (acks_with ack_waiting acks) (acks_with ack_in_progress acks)
    (acks_with ack_succeeded acks) (acks_with ack_failed acks).
  assert (acks_with ack_waiting acks + acks_with ack_in_progress acks
    + acks_with ack_succeeded acks + acks_with ack_failed acks = size acks) as Htotal.
  { unfold acks_with. rewrite <-length_values. induction (values acks) as [|a l IH]; [done|].
    ack_cases a; cbn [length]; lia. }
  rewrite aggregate_release_status_spec_aux.
  assert (acks_with ack_failed acks = 0 ↔ ¬ map_Exists (λ _ a, apply_status a = "failed") acks) as Hf.
  { unfold acks_with. rewrite filter_nil_iff, Exists_values. done. }
  assert (acks_with ack_succeeded acks = size acks
          ↔ map_Forall (λ _ a, apply_status a = "success") acks) as Hs.
  { rewrite <-Forall_values, <-length_values. unfold acks_with, ack_succeeded.
    induction (values acks) as [|a l IH]; [by split|]. rewrite filter_cons, Forall_cons.
    pose proof (length_filter ack_succeeded l). unfold ack_succeeded in *.
    case_decide; cbn [length]; rewrite <-?IH; [naive_solver lia|]. split; [lia|naive_solver]. }
  split_and!; [done|done|..]; unfold release_status_spec.
  - destruct (decide (acks = ∅)) as [->|Hne].
    { split; [|done]. rewrite map_size_empty in Htotal. lia. }
    destruct (decide (map_Exists (λ _ a, apply_status a = "failed") acks)) as [Hex|Hnex].
    + split; [done|]. intros _. apply Nat.neq_0_lt_0. intros Hz. by apply Hf in Hz.
    + apply Hf in Hnex. rewrite Hnex. repeat case_decide; (split; [lia|done]).
  - destruct (decide (acks = ∅)) as [->|Hne].
    { split; [|done]. rewrite map_size_empty. lia. }
    assert (0 < size acks) as Hpos.
    { apply Nat.neq_0_lt_0. by rewrite map_size_non_empty_iff. }
    destruct (decide (map_Exists (λ _ a, apply_status a = "failed") acks)) as [Hex|Hnex].
    { split; [|done]. intros [_ Hall]. apply Hs in Hall.
      destruct Hex as (k & a & Hk & Ha). specialize (Hall k a Hk). simpl in Hall. congruence. }
    destruct (decide (map_Forall (λ _ a, apply_status a = "success") acks)); [naive_solver|].
    case_decide; split; try done; naive_solver.
Qed.

(** ** Downloads *)

(** What a node is told is its latest release it can also download: the
    advertised version exists, the node is one of its targets, and the package
    is that of the advertised release. *)
Theorem latest_release_downloadable n w l w' :
  world_ok w → latest_release_for_node n w = (Ok l, w') →
  ∃ p, config_package_for_node n (lr_release_version l) w' = (Ok p, w')
    ∧ cp_release_id p = lr_release_id l ∧ cp_release_version p = lr_release_version l.
Proof.
  intros Hw H. unfold latest_release_for_node in H. hub_inv. simplify_eq/=.
  rename select (latest_release_id_for_node _ _ = _) into Hlatest.
  rename select (release _ _ = _) into Hrel. unfold release in Hrel.
  pose proof (world_repo w Hw) as Hok.
  destruct (latest_ok _ Hok _ _ Hlatest) as (r & Hr & Hn). rewrite Hrel in Hr. injection Hr as ->.
  destruct (index_complete _ _ (releases_indexed _ Hok) _ _ Hrel) as [Hid Hv]. simpl in Hid, Hv.
  unfold config_package_for_node, bind, read, release_by_version. simpl. rewrite Hv, Hrel. simpl.
  rewrite bool_decide_true by done. simpl. by eexists.
Qed.

(** ** Acknowledgements *)

Lemma used_ids_update_ack r n a s : used_ids (update_release_ack r n a s) = used_ids s.
Proof. unfold used_ids, update_release_ack. simpl. by rewrite dom_alter_L. Qed.

(** What an accepted acknowledgement does. *)
Lemma ack_release_run rid request w resp w' :
  world_ok w → ack_release rid request w = (Ok resp, w') →
  ∃ r r', release (repo w) rid = Some r ∧ ack_node_id request ∈ target_node_ids r
    ∧ release (repo w') rid = Some r' ∧ target_node_ids r' = target_node_ids r
    ∧ (apply_status <$> ack_status r' !! ack_node_id request) = Some (ack_apply_status request)
    ∧ (∀ n, n ≠ ack_node_id request → ack_status r' !! n = ack_status r !! n)
    ∧ release_status r' = release_status_spec (ack_status r')
    ∧ (∀ n, node (repo w) (ack_node_id request) = Some n →
         ∃ n', node (repo w') (ack_node_id request) = Some n'
           ∧ active_config_version (runtime n') = Some (ack_current_version request)
           ∧ status (identity n') = status (identity n))
    ∧ world_ok w'.
Proof.
  intros Hw H. unfold ack_release in H.
  apply bind_Ok in H as (? & ? & [-> ->]%read_Ok & H).
  apply bind_Ok in H as (r & ? & [Hr ->]%get_or_Ok & H).
  apply bind_Ok in H as (? & ? & [Hn%bool_decide_eq_true ->]%require_Ok & H).
  apply bind_Ok in H as (now & w1 & Hnow & H). injection Hnow as <- <-.
  set (ack := mkAck _ _ _ _) in H.
  apply bind_Ok in H as (? & w2 & ->%write_Ok & H). simpl in H.
  set (s1 := update_release_ack rid (ack_node_id request) ack (repo w)) in *.
  pose proof (world_repo w Hw) as Hok. unfold release in Hr.
  assert (repo_ok s1) as Hok1.
  { apply update_release_ack_ok; [|done]. intros rel Hrel. congruence. }
  apply bind_Ok in H as (? & ? & [-> ->]%read_Ok & H). simpl in H.
  apply bind_Ok in H as (? & w3 & Hsave & [-> ->]%ret_Ok).
  set (r' := ack_release_record (ack_node_id request) ack r).
  assert (releases s1 !! rid = Some r') as Hr'.
  { subst s1. unfold update_release_ack. simpl. by rewrite lookup_alter_eq, Hr. }
  assert (∃ s2, repo w3 = s2 ∧ releases s2 = releases s1 ∧ repo_ok s2 ∧ used_ids s2 = used_ids s1
    ∧ tokens w3 = tokens w ∧ rng_next w3 = rng_next w
    ∧ (∀ n, node s1 (ack_node_id request) = Some n →
         ∃ n', node s2 (ack_node_id request) = Some n'
           ∧ active_config_version (runtime n') = Some (ack_current_version request)
           ∧ status (identity n') = status (identity n)))
    as (s2 & <- & Hrels & Hok2 & Hused & Ht & Hrng & Hnode).
  { destruct (node s1 (ack_node_id request)) as [n|] eqn:Hnode; hub_inv; simpl.
    2: { exists s1. split_and!; try done. }
    unfold node in Hnode. destruct (index_complete _ _ (nodes_ok _ Hok1) _ _ Hnode) as [Hid _].
    simpl in Hid. eexists. split; [done|]. split_and!; try done.
    - apply save_node_ok; [|done]. eapply (saveable_update (R:=NodeRecord)); [by apply nodes_ok| |].
      + simpl. by rewrite Hid.
      + done.
    - rewrite used_ids_save_node. simpl. apply subseteq_union_1_L, singleton_subseteq_l.
      rewrite Hid. apply elem_of_used_node. by eexists.
    - intros n0 [= <-]. eexists. unfold node, save_node. simpl. rewrite Hid, lookup_insert_eq. done. }
  exists r, r'. unfold release. rewrite Hrels. split_and!; try done.
  - simpl. by rewrite lookup_insert_eq.
  - intros n Hne. simpl. by rewrite lookup_insert_ne.
  - simpl. apply aggregate_release_status_spec_aux.
  - eapply (world_ok_repo w); try done; [by rewrite Hrng|].
    intros u. rewrite Hused. subst s1. rewrite used_ids_update_ack. auto.
Qed.

(** C30: Only a target of a release can acknowledge it, and a refused
    acknowledgement changes nothing; an accepted one replaces the node's slot and
    no other, leaves the release with the rollout status of all its slots, and
    makes the reported version the node's active version. *)
Theorem ack_release_effect rid request w :
  atomic_on_error (ack_release rid request)
  ∧ (world_ok w → ∀ resp w', ack_release rid request w = (Ok resp, w') →
      ∃ r r', release (repo w) rid = Some r ∧ ack_node_id request ∈ target_node_ids r
        ∧ release (repo w') rid = Some r' ∧ target_node_ids r' = target_node_ids r
        ∧ (apply_status <$> ack_status r' !! ack_node_id request) = Some (ack_apply_status request)
        ∧ (∀ n, n ≠ ack_node_id request → ack_status r' !! n = ack_status r !! n)
        ∧ release_status r' = release_status_spec (ack_status r')
        ∧ (∀ n, node (repo w) (ack_node_id request) = Some n →
             ∃ n', node (repo w') (ack_node_id request) = Some n'
               ∧ active_config_version (runtime n') = Some (ack_current_version request)
               ∧ status (identity n') = status (identity n))
        ∧ world_ok w').
Proof.
  split.
  { unfold ack_release. solve_atomic. }
  intros Hw resp w'. by apply ack_release_run.
Qed.

(** ** Publishing *)

Lemma lookup_ack_foldl l (m : gmap Uuid NodeAckRecord) n :
  foldl (λ m n, <[n := pending_ack]> m) m l !! n
  = if decide (n ∈ l) then Some pending_ack else m !! n.
Proof.
  revert m. induction l as [|x l IH]; intros m; cbn [foldl].
  { by rewrite decide_False by set_solver. }
  rewrite IH. destruct (decide (n = x)) as [->|Hne].
  - rewrite lookup_insert_eq, (decide_True (P := x ∈ x :: l)) by set_solver. by case_decide.
  - rewrite lookup_insert_ne by done. apply decide_ext. set_solver.
Qed.

Lemma lookup_build_acks l n :
  build_release_ack_status l !! n = if decide (n ∈ l) then Some pending_ack else None.
Proof. unfold build_release_ack_status. by rewrite lookup_ack_foldl, lookup_empty. Qed.

Lemma dom_build_acks l : dom (build_release_ack_status l) = list_to_set l.
Proof.
  apply set_eq. intros n. rewrite elem_of_dom, lookup_build_acks, elem_of_list_to_set.
  case_decide; split; try done; by intros [].
Qed.

(** A release starts out pending. *)
Lemma aggregate_build_acks l : aggregate_release_status (build_release_ack_status l) = "pending".
Proof.
  rewrite aggregate_release_status_spec_aux. unfold release_status_spec.
  case_decide as Hne; [done|].
  assert (∀ k a, build_release_ack_status l !! k = Some a → a = pending_ack) as Hall.
  { intros k a. rewrite lookup_build_acks. case_decide; naive_solver. }
  rewrite decide_False by (intros (k & a & Hk & Ha); apply Hall in Hk as ->; done).
  rewrite decide_False.
  2: { intros Hf. destruct (map_choose _ Hne) as (k & a & Hk). pose proof (Hf _ _ Hk) as Ha.
       apply Hall in Hk as ->. done. }
  rewrite decide_False; [done|].
  intros (k & a & Hk & Ha). apply Hall in Hk as ->. by destruct Ha.
Qed.

(** What [save_compiled_release] files. *)
Definition filed (sc : string) (sid : Uuid) (ids : list Uuid) (version : string)
    (w w' : World T) : Prop :=
  ∃ r, repo w' = save_release r (repo w)
    ∧ scope_type r = sc ∧ scope_id r = Some sid ∧ target_node_ids r = ids
    ∧ release_version r = version ∧ release_status r = "pending"
    ∧ manifest_release_version (manifest (bundle r)) = version
    ∧ releases (repo w) !! release_id r = None
    ∧ tokens w' = tokens w ∧ release_counter w' = wrap_u64 (release_counter w + 1)
    ∧ world_ok w'.

Lemma used_ids_save_release r s :
  used_ids (save_release r s) = {[ release_id r ]} ∪ used_ids s.
Proof. unfold used_ids, save_release. simpl. rewrite dom_insert_L. set_solver. Qed.

Lemma fresh_release w : world_ok w → releases (repo w) !! rng (rng_next w) = None.
Proof.
  intros Hw. apply not_elem_of_dom. intros Hin. apply (world_fresh_ids w Hw (rng_next w)); [lia|].
  unfold used_ids. set_solver.
Qed.

(** [w0] is the world before the serial and the release id were drawn. *)
Lemma save_compiled_release_run w0 w sc sid ty why b ids saved w' :
  world_ok w0 → repo w = repo w0 → tokens w = tokens w0 → rng_next w = S (rng_next w0) →
  release_counter w = wrap_u64 (release_counter w0 + 1) →
  manifest_release_id (manifest b) = rng (rng_next w0) →
  release_ids_by_version (repo w0) !! manifest_release_version (manifest b) = None →
  save_compiled_release sc (Some sid) ty why b ids w = (Ok saved, w') →
  saved_release_id saved = rng (rng_next w0)
  ∧ filed sc sid ids (manifest_release_version (manifest b)) w0 w'.
Proof.
  intros Hw Hr Ht Hn Hc Hid Hv H. unfold save_compiled_release in H. hub_inv. simplify_eq/=.
  split; [done|]. rewrite Hr. eexists. split; [done|]. simpl.
  assert (releases (repo w0) !! manifest_release_id (manifest b) = None) as Hfresh.
  { rewrite Hid. by apply fresh_release. }
  split_and!; try done.
  - apply aggregate_build_acks.
  - eapply (world_ok_repo w0); simpl; try done; [lia| |].
    + apply save_release_ok; [done|done| |by apply world_repo].
      split; [apply dom_build_acks|done].
    + intros u. rewrite used_ids_save_release. intros [->%elem_of_singleton|]%elem_of_union; [|auto].
      right. exists (rng_next w0). simpl. split; [lia|done].
Qed.

Lemma save_site_release_run x ty why w saved w' :
  world_ok w →
  release_ids_by_version (repo w)
    !! build_release_version "site" (clock (clock_next w)) (release_counter w) = None →
  save_site_release x ty why w = (Ok saved, w') →
  saved_release_id saved = rng (rng_next w)
  ∧ filed "site" (site_id x) (binding_node_id <$> bindings x)
      (build_release_version "site" (clock (clock_next w)) (release_counter w)) w w'.
Proof.
  intros Hw Hv H. unfold save_site_release in H. hub_inv. simpl in *.
  rename select (map_err _ _ = _) into Hb. unfold compile_site_bundle in Hb.
  destruct (is_empty _); simplify_eq/=.
  rename select (save_compiled_release _ _ _ _ _ _ _ = _) into Hs.
  eapply save_compiled_release_run in Hs; [exact Hs|done..].
Qed.

Lemma save_site_cleanup_release_run x ids why w saved w' :
  world_ok w →
  release_ids_by_version (repo w)
    !! build_release_version "cleanup" (clock (clock_next w)) (release_counter w) = None →
  save_site_cleanup_release x ids why w = (Ok saved, w') →
  saved_release_id saved = rng (rng_next w)
  ∧ filed "site_cleanup" (site_id x) ids
      (build_release_version "cleanup" (clock (clock_next w)) (release_counter w)) w w'.
Proof.
  intros Hw Hv H. unfold save_site_cleanup_release in H. hub_inv. simpl in *.
  rename select (map_err _ _ = _) into Hb. unfold compile_site_cleanup_bundle in Hb.
  destruct (is_empty _); simplify_eq/=.
  rename select (save_compiled_release _ _ _ _ _ _ _ = _) into Hs.
  eapply save_compiled_release_run in Hs; [exact Hs|done..].
Qed.

(** No version built with a serial still to come is taken. *)
Definition versions_fresh (w : World T) : Prop :=
  ∀ sc t k, (release_counter w ≤ k)%Z →
    release_ids_by_version (repo w) !! build_release_version sc t k = None.

(** [n]'s latest release is a pending release of the site [sid], of the given
    scope and with the given targets. *)
Definition serves (s : MemoryState) (sc : string) (sid : Uuid) (ids : list Uuid) (n : Uuid) : Prop :=
  ∃ r, latest_release_id_for_node s n = Some (release_id r)
    ∧ release s (release_id r) = Some r
    ∧ scope_type r = sc ∧ scope_id r = Some sid ∧ target_node_ids r = ids
    ∧ release_status r = "pending".

Lemma filed_serves sc sid ids v w w' n :
  filed sc sid ids v w w' → n ∈ ids → serves (repo w') sc sid ids n.
Proof.
  intros (r & Hr & Hsc & Hsid & Hids & _ & Hst & _) Hn. exists r. rewrite Hr.
  unfold latest_release_id_for_node, release, save_release. simpl.
  rewrite lookup_latest_foldl, Hids, decide_True, lookup_insert_eq by done. done.
Qed.

Lemma filed_other sc sid ids v w w' n :
  filed sc sid ids v w w' → n ∉ ids →
  latest_release_id_for_node (repo w') n = latest_release_id_for_node (repo w) n.
Proof.
  intros (r & Hr & _ & _ & Hids & _) Hn. rewrite Hr.
  unfold latest_release_id_for_node, save_release. simpl.
  by rewrite lookup_latest_foldl, Hids, decide_False by done.
Qed.

Lemma filed_keeps_serving sc sid ids v w w' sc' sid' ids' n :
  filed sc sid ids v w w' → n ∉ ids → serves (repo w) sc' sid' ids' n →
  serves (repo w') sc' sid' ids' n.
Proof.
  intros Hf Hn (r & Hl & Hr & Hrest). exists r. rewrite (filed_other _ _ _ _ _ _ _ Hf Hn).
  split_and!; [done| |apply Hrest..]. destruct Hf as (r' & -> & _ & _ & _ & _ & _ & _ & Hnew & _).
  unfold release, save_release in *. simpl. rewrite lookup_insert_ne; [done|]. congruence.
Qed.

Lemma serves_save_site x s sc sid ids n : serves (save_site x s) sc sid ids n ↔ serves s sc sid ids n.
Proof. done. Qed.

Lemma used_ids_save_site x s : used_ids (save_site x s) = {[ site_id x ]} ∪ used_ids s.
Proof. unfold used_ids, save_site. simpl. rewrite dom_insert_L. set_solver. Qed.

(** Rewriting the record of a known site, code and id kept. *)
Lemma world_ok_save_site w x x' w' :
  world_ok w → sites (repo w) !! site_id x' = Some x → site_code x' = site_code x →
  repo w' = save_site x' (repo w) → tokens w' = tokens w → rng_next w ≤ rng_next w' → world_ok w'.
Proof.
  intros Hw Hx Hcode Hr Ht Hrng. eapply (world_ok_repo w); try done.
  - apply save_site_ok; [|by apply world_repo].
    exact (saveable_update _ _ x' x (sites_ok _ (world_repo w Hw)) Hx Hcode).
  - intros u. rewrite used_ids_save_site. intros [->%elem_of_singleton|]%elem_of_union; [|auto].
    left. apply elem_of_dom_2 in Hx. unfold used_ids. set_solver.
Qed.

Lemma site_keyed w k x : world_ok w → sites (repo w) !! k = Some x → site_id x = k.
Proof. intros Hw Hx. by destruct (index_complete _ _ (sites_ok _ (world_repo w Hw)) k x Hx). Qed.

Lemma elem_of_sort_dedup_ids l n : n ∈ sort_dedup_ids l ↔ n ∈ l.
Proof. unfold sort_dedup_ids. by rewrite elem_of_dedup, elem_of_sort_by. Qed.

Lemma detached_not_current s sid current n : n ∈ detached_node_ids s sid current → n ∉ current.
Proof.
  unfold detached_node_ids, detached_of. rewrite elem_of_sort_dedup_ids. destruct (max_by _ _); simpl; [|set_solver].
  rewrite list_elem_of_filter. tauto.
Qed.

Lemma build_release_version_scopes t k t' k' :
  build_release_version "site" t k ≠ build_release_version "cleanup" t' k'.
Proof. unfold build_release_version. simpl. discriminate. Qed.

(** The newest of the site's releases that are on record: none was created later, and none
    at the same time under a greater version. *)
Definition last_site_release (on_record : ReleaseRecord → Prop) (sid : Uuid) (r : ReleaseRecord) : Prop :=
  (on_record r ∧ scope_type r = "site" ∧ scope_id r = Some sid)
  ∧ ∀ r', on_record r' → scope_type r' = "site" → scope_id r' = Some sid →
      (release_created_at r' < release_created_at r)%Z
      ∨ release_created_at r' = release_created_at r
        ∧ String.compare (release_version r') (release_version r) ≠ Gt.

(** The nodes a site has left: those the newest release of the site was for and that are
    not bound to it any more, each once; none when the site was never released. *)
Definition left_behind (on_record : ReleaseRecord → Prop) (sid : Uuid) (bound left : list Uuid) : Prop :=
  NoDup left
  ∧ ((∀ r, on_record r → scope_type r = "site" → scope_id r ≠ Some sid) ∧ left = []
     ∨ ∃ r, last_site_release on_record sid r
            ∧ ∀ n, n ∈ left ↔ n ∈ target_node_ids r ∧ n ∉ bound).

Lemma left_behind_mono (P Q : ReleaseRecord → Prop) sid bound l :
  (∀ r, P r ↔ Q r) → left_behind P sid bound l → left_behind Q sid bound l.
Proof. unfold left_behind, last_site_release. intros H. by setoid_rewrite H. Qed.

Lemma NoDup_sort_dedup_ids l : NoDup (sort_dedup_ids l).
Proof. apply (NoDup_dedup_sorted Z.compare); [apply Z.compare_eq|apply sort_by_sorted, _]. Qed.

Lemma release_cmp_le r' r :
  release_cmp r' r ≠ Gt →
  (release_created_at r' < release_created_at r)%Z
  ∨ release_created_at r' = release_created_at r
    ∧ String.compare (release_version r') (release_version r) ≠ Gt.
Proof.
  unfold release_cmp, cmp_then, cmp_on, then_with.
  destruct (Z.compare_spec (release_created_at r') (release_created_at r)); [by right|by left|done].
Qed.

Lemma detached_of_left_behind rs sid bound : left_behind (.∈ rs) sid bound (detached_of rs sid bound).
Proof.
  unfold detached_of. split; [apply NoDup_sort_dedup_ids|].
  destruct (max_by _ _) as [r|] eqn:Hmax; simpl.
  - right. exists r. pose proof (max_by_elem _ _ _ Hmax) as [[Hsc Hsid] Hin]%list_elem_of_filter.
    split; [split; [done|]|].
    + intros r' Hin' Hsc' Hsid'. apply release_cmp_le, (max_by_ge _ _ _ _ Hmax).
      by apply list_elem_of_filter.
    + intros n. rewrite elem_of_sort_dedup_ids, list_elem_of_filter. tauto.
  - left. split; [|done]. apply max_by_None in Hmax. intros r Hin Hsc Hsid.
    apply (not_elem_of_nil r). rewrite <-Hmax. by apply list_elem_of_filter.
Qed.

(** The first stage of [create_release]: the release of the bound nodes. *)
Lemma primary_stage x ty why bound w primary w1 :
  world_ok w → versions_fresh w → (0 ≤ release_counter w < u64_max)%Z →
  bound = binding_node_id <$> bindings x →
  (if decide (bound = []) then ret None
   else let! r := save_site_release x ty why in ret (Some r)) w = (Ok primary, w1) →
  world_ok w1 ∧ (is_Some primary ↔ bound ≠ [])
  ∧ (∀ n, n ∈ bound → serves (repo w1) "site" (site_id x) bound n)
  ∧ (∀ n, n ∉ bound → latest_release_id_for_node (repo w1) n = latest_release_id_for_node (repo w) n)
  ∧ sites (repo w1) = sites (repo w)
  ∧ ∀ t, release_ids_by_version (repo w1) !! build_release_version "cleanup" t (release_counter w1) = None.
Proof.
  intros Hw Hfresh Hcnt Hbound Hp. destruct (decide (bound = [])) as [Hb|Hb].
  { hub_inv. split_and!; try done.
    - rename select (primary = None) into Hnone. rewrite Hnone, Hb. split; [by intros []|done].
    - intros n Hn. rewrite Hb in Hn. set_solver.
    - intros t. apply Hfresh. lia. }
  apply bind_Ok in Hp as (r & w1' & Hs & [-> ->]%ret_Ok).
  apply save_site_release_run in Hs as [_ Hf]; [|done|apply Hfresh; lia]. rewrite <-Hbound in Hf.
  pose proof Hf as (rel & Hrel & _ & _ & _ & Hver & _ & _ & _ & _ & Hcnt1 & Hw1).
  split_and!; [done|by split|..].
  - intros n. by apply (filed_serves _ _ _ _ _ _ _ Hf).
  - intros n. by apply (filed_other _ _ _ _ _ _ _ Hf).
  - by rewrite Hrel.
  - intros t. rewrite Hrel, Hcnt1. unfold save_release. simpl.
    rewrite lookup_insert_ne by (rewrite Hver; apply build_release_version_scopes).
    apply Hfresh. rewrite wrap_u64_id; lia.
Qed.

(** The second stage: the cleanup of the detached nodes. *)
Lemma cleanup_stage x why bound detached w cleanup w2 :
  world_ok w →
  (∀ t, release_ids_by_version (repo w) !! build_release_version "cleanup" t (release_counter w) = None) →
  (∀ n, n ∈ bound → serves (repo w) "site" (site_id x) bound n) →
  (∀ n, n ∈ detached → n ∉ bound) →
  (if decide (detached = []) then ret None
   else let! r := save_site_cleanup_release x detached why in ret (Some r)) w = (Ok cleanup, w2) →
  world_ok w2
  ∧ (∀ n, n ∈ bound → serves (repo w2) "site" (site_id x) bound n)
  ∧ (∀ n, n ∈ detached → serves (repo w2) "site_cleanup" (site_id x) detached n)
  ∧ (∀ n, n ∉ detached → latest_release_id_for_node (repo w2) n = latest_release_id_for_node (repo w) n)
  ∧ sites (repo w2) = sites (repo w).
Proof.
  intros Hw Hv Hserve Hdis Hc. destruct (decide (detached = [])) as [Hd|Hd].
  { hub_inv. split_and!; try done. intros n Hn. rewrite Hd in Hn. set_solver. }
  apply bind_Ok in Hc as (r & w2' & Hs & [-> ->]%ret_Ok).
  apply save_site_cleanup_release_run in Hs as [_ Hf]; [|done|apply Hv].
  pose proof Hf as (rel & Hrel & _ & _ & _ & _ & _ & _ & _ & _ & _ & Hw2).
  split_and!; [done|..].
  - intros n Hn. eapply filed_keeps_serving; [done| |by apply Hserve].
    intros Hin. by apply (Hdis n).
  - intros n. by apply (filed_serves _ _ _ _ _ _ _ Hf).
  - intros n. by apply (filed_other _ _ _ _ _ _ _ Hf).
  - by rewrite Hrel.
Qed.

Lemma create_release_run request w saved w' :
  world_ok w → versions_fresh w → (0 ≤ release_counter w < u64_max)%Z →
  create_release request w = (Ok saved, w') →
  ∃ x, site (repo w) (cr_scope_id request) = Some x
    ∧ let bound := binding_node_id <$> bindings x in
      let detached := detached_node_ids (repo w) (site_id x) bound in
      (∀ n, n ∈ bound → serves (repo w') "site" (site_id x) bound n)
      ∧ (∀ n, n ∈ detached → serves (repo w') "site_cleanup" (site_id x) detached n)
      ∧ (∀ n, n ∉ bound → n ∉ detached →
           latest_release_id_for_node (repo w') n = latest_release_id_for_node (repo w) n)
      ∧ site (repo w') (site_id x)
        = Some (set_site_status (if decide (bound = []) then Draft else Published) x)
      ∧ world_ok w'.
Proof.
  intros Hw Hfresh Hcnt H. unfold create_release in H.
  apply bind_Ok in H as (u1 & wa & [_ ->]%require_Ok & H).
  apply bind_Ok in H as (fd & wb & [-> ->]%read_Ok & H).
  apply bind_Ok in H as (x & wc & [Hx ->]%get_or_Ok & H).
  apply bind_Ok in H as (det & wd & Hdet & H). unfold detached_node_ids_for_site in Hdet.
  apply read_Ok in Hdet as [-> ->].
  set (bound := binding_node_id <$> bindings x) in *.
  apply bind_Ok in H as (u2 & we & [_ ->]%require_Ok & H).
  apply bind_Ok in H as (primary & w1 & Hp & H).
  apply bind_Ok in H as (cleanup & w2 & Hc & H).
  apply bind_Ok in H as (u3 & w3 & ->%write_Ok & H).
  apply get_or_Ok in H as [_ ->]. exists x. split; [done|]. unfold site in Hx.
  apply (primary_stage _ _ _ bound) in Hp as (Hw1 & Hprim & Hserve & Hother & Hsites & Hv1); [|done..].
  apply (cleanup_stage _ _ bound) in Hc as (Hw2 & Hserve2 & Hclean & Hother2 & Hsites2);
    [|done..|intros n; apply detached_not_current].
  simpl. split_and!.
  - intros n Hn. by apply serves_save_site, Hserve2.
  - intros n Hn. by apply serves_save_site, Hclean.
  - intros n Hn Hn'. change (latest_release_id_for_node (repo w2) n = latest_release_id_for_node (repo w) n).
    by rewrite Hother2, Hother.
  - unfold site, save_site. simpl. rewrite lookup_insert_eq. do 2 f_equal.
    destruct primary as [r|]; simpl.
    + rewrite decide_False; [done|]. apply Hprim. by eexists.
    + rewrite decide_True; [done|]. destruct (decide (bound = [])) as [|Hb]; [done|].
      by destruct (proj2 Hprim Hb).
  - pose proof (site_keyed w _ _ Hw Hx) as Hkey.
    eapply (world_ok_save_site w2 x (set_site_status _ x)); simpl; try done.
    by rewrite Hsites2, Hsites, Hkey.
Qed.

(** C1: Creating a release of a site publishes it to exactly the right nodes:
    every bound node gets, as its latest release, a pending release of the site
    whose targets are the bound nodes; every node that the newest release of the
    site on record targeted and that is no longer bound gets a cleanup release,
    whose targets are exactly these nodes; other nodes keep theirs; and the site
    becomes published when it has bound nodes, a draft otherwise. *)
Theorem create_release_publishes request w saved w' :
  world_ok w → versions_fresh w → (0 ≤ release_counter w < u64_max)%Z →
  create_release request w = (Ok saved, w') →
  ∃ x left, site (repo w) (cr_scope_id request) = Some x
    ∧ let bound := binding_node_id <$> bindings x in
      left_behind (λ r, ∃ u, release (repo w) u = Some r) (site_id x) bound left
      ∧ (∀ n, n ∈ bound → serves (repo w') "site" (site_id x) bound n)
      ∧ (∀ n, n ∈ left → serves (repo w') "site_cleanup" (site_id x) left n)
      ∧ (∀ n, n ∉ bound → n ∉ left →
           latest_release_id_for_node (repo w') n = latest_release_id_for_node (repo w) n)
      ∧ site (repo w') (site_id x)
        = Some (set_site_status (if decide (bound = []) then Draft else Published) x)
      ∧ world_ok w'.
Proof.
  intros Hw Hf Hc Hrun. destruct (create_release_run _ _ _ _ Hw Hf Hc Hrun) as (x & Hx & Hrest).
  exists x, (detached_node_ids (repo w) (site_id x) (binding_node_id <$> bindings x)).
  split; [done|]. split; [|done].
  eapply left_behind_mono; [|apply detached_of_left_behind].
  intros r. unfold list_releases. by rewrite elem_of_values.
Qed.
End Releases.

(** ** Examples *)

Definition demo_site : SiteRecord :=
  mkSiteRecord 1004 "shop" "Shop" "shop.example.com" 443 Https true Draft 1 demo_config
    [mkBinding 1000 "primary" 10].

Definition site_world : World MemoryTokenState :=
  set_repo (save_site demo_site (repo world2)) (set_rng_next 5 world2).

Lemma site_world_ok : world_ok site_world.
Proof.
  apply (world_ok_repo world2 (save_site demo_site (repo world2)));
    [apply world2_ok|reflexivity|reflexivity|..].
  - apply Nat.leb_le. vm_compute. reflexivity.
  - apply save_site_ok; [|apply world_repo, world2_ok].
    apply saveable_fresh; vm_compute; reflexivity.
  - intros u. rewrite used_ids_save_site.
    intros [->%elem_of_singleton|]%elem_of_union; [|by left].
    right. exists 4. split; [apply Nat.ltb_lt; vm_compute; reflexivity|reflexivity].
Qed.

Lemma site_world_fresh : versions_fresh site_world.
Proof. intros sc t k _. apply lookup_empty. Qed.

Definition demo_release : CreateReleaseRequest := mkCreateRelease "site" 1004 "manual" "first".

Definition demo_saved : SavedRelease :=
  mkSavedRelease 1005 "rel-site-2-001" "sha256:Shop:rel-site-2-001" [1000%Z].

Definition release_world : World MemoryTokenState := (create_release demo_release site_world).2.

Lemma create_release_publishes_witness :
  ∃ x, site (repo site_world) 1004 = Some x
    ∧ site (repo release_world) 1004 = Some (set_site_status Published x).
Proof.
  destruct (create_release_publishes demo_release site_world demo_saved release_world)
    as (x & left & Hx & _ & _ & _ & _ & Hsite & _).
  - apply site_world_ok.
  - apply site_world_fresh.
  - vm_compute. split; [discriminate|reflexivity].
  - vm_compute. reflexivity.
  - exists x. split; [exact Hx|]. vm_compute in Hx. injection Hx as <-. exact Hsite.
Defined.

Lemma release_world_ok : world_ok release_world.
Proof.
  destruct (save_site_release_run demo_site "manual" "first" site_world demo_saved
              (save_site_release demo_site "manual" "first" site_world).2)
    as [_ (r & _ & _ & _ & _ & _ & _ & _ & _ & _ & _ & Hw)];
    [apply site_world_ok|apply lookup_empty|vm_compute; reflexivity|].
  eapply (world_ok_save_site _ demo_site (set_site_status Published demo_site)); [exact Hw|..];
    vm_compute; reflexivity.
Qed.

Lemma latest_release_downloadable_witness :
  ∃ p, config_package_for_node 1000 "rel-site-2-001" release_world = (Ok p, release_world)
    ∧ cp_release_id p = 1005%Z.
Proof.
  destruct (latest_release_downloadable 1000 release_world
    (mkLatestRelease 1005 "rel-site-2-001" "sha256:Shop:rel-site-2-001"
       "/api/node/config/package/rel-site-2-001?node_id=1000") release_world) as (p & Hp & Hid & _).
  - apply release_world_ok.
  - vm_compute. reflexivity.
  - exists p. split; [exact Hp|exact Hid].
Defined.

Definition demo_ack : ReleaseAckRequest := mkAckRequest 1000 "success" "rel-site-2-001" None.

Lemma ack_release_effect_witness :
  ∃ r', release (repo (ack_release 1005 demo_ack release_world).2) 1005 = Some r'
    ∧ release_status r' = release_status_spec (ack_status r').
Proof.
  destruct (proj2 (ack_release_effect 1005 demo_ack release_world) release_world_ok
              (mkAckResponse 1005 1000 "success") (ack_release 1005 demo_ack release_world).2)
    as (r & r' & _ & _ & Hr' & _ & _ & _ & Hst & _).
  - vm_compute. reflexivity.
  - exists r'. split; [exact Hr'|exact Hst].
Defined.

Lemma release_counts_spec_witness :
  summarize_release_counts sample_acks = mkCounts 0 1 1 0
  ∧ acks_with ack_in_progress sample_acks = 1.
Proof.
  assert (summarize_release_counts sample_acks = mkCounts 0 1 1 0) as H by (vm_compute; reflexivity).
  split; [exact H|]. destruct (release_counts_spec sample_acks) as [Heq _].
  rewrite H in Heq. apply (f_equal count_in_progress) in Heq. symmetry. exact Heq.
Defined.
