(* ===== verification/HubSites.v ===== *)
(** * Sites (apps/hub-api/src/service.rs)

    Creating and editing sites, binding them to nodes, switching their primary
    node, and removing them. *)

From stdpp Require Import prelude strings pretty gmap sorting.
From Stdlib Require Import Ascii.
From S2P Require Import Prelude RustStr Json Extern AppError Domain SiteConfig ConfigCompiler Records Store TokenStore Hub HubNodes HubReleases.

(** ** Requests and responses (crates/protocol) *)

Record CreateSiteRequest := mkCreateSite {
  cs_site_code : option string;
  cs_name : string;
  cs_domain : string;
  cs_listen_port : Z;
  cs_protocol : string;
  cs_tls_enabled : bool;
  cs_config : Value;
}.

Record UpdateSiteRequest := mkUpdateSite {
  us_name : string;
  us_domain : string;
  us_listen_port : Z;
  us_protocol : string;
  us_tls_enabled : bool;
  us_config : Value;
}.

(** [CreateSiteResponse] and [UpdateSiteStatusResponse] have the same fields. *)
Record SiteResponse := mkSiteResponse {
  sr_site_id : Uuid;
  sr_site_code : string;
  sr_version : Z;
  sr_status : string;
}.

Record DeleteSiteResponse := mkDeleteSite {
  ds_site_id : Uuid;
  ds_site_code : string;
  ds_deleted : bool;
}.

Record SiteBindingItem := mkBindingItem {
  item_node_id : Uuid;
  item_binding_role : string;
  item_priority : Z;
  item_node_code : option string;
  item_node_name : option string;
  item_node_status : option string;
}.

Record SiteOverview := mkSiteOverview {
  so_site_id : Uuid;
  so_site_code : string;
  so_name : string;
  so_domain : string;
  so_protocol : string;
  so_status : string;
  so_version : Z;
  so_binding_count : nat;
  so_primary_node_id : option Uuid;
  so_primary_node_code : option string;
  so_primary_node_name : option string;
  so_primary_node_status : option string;
}.

Record SiteDetail := mkSiteDetail {
  sd_site_id : Uuid;
  sd_site_code : string;
  sd_name : string;
  sd_domain : string;
  sd_listen_port : Z;
  sd_protocol : string;
  sd_tls_enabled : bool;
  sd_status : string;
  sd_version : Z;
  sd_config : Value;
  sd_bindings : list SiteBindingItem;
}.

Record SwitchSitePrimaryRequest := mkSwitch {
  sw_target_node_id : option Uuid;
  sw_keep_previous_as_standby : option bool;
  sw_reason : option string;
}.

Record SwitchSitePrimaryResponse := mkSwitchResponse {
  sp_site_id : Uuid;
  sp_previous_primary_node_id : option Uuid;
  sp_current_primary_node_id : Uuid;
  sp_next_standby_node_id : option Uuid;
  sp_binding_count : nat;
  sp_release_id : Uuid;
  sp_release_version : string;
}.

(** ** Site codes *)

Definition dash : ascii := "-"%char.

(** The character a site code keeps for [c], if any. *)
Definition slug_char (c : ascii) : option ascii :=
  if is_lower c || is_digit c then Some c
  else if is_upper c then Some (ascii_lower c)
  else if decide (c ∈ ["-"; "_"; "."; " "]%char) then Some dash
  else None.

(** One turn of the loop of [slugify_site_code]. *)
Definition slug_step (st : list ascii * bool) (c : ascii) : list ascii * bool :=
  let '(value, previous_dash) := st in
  match slug_char c with
  | None => (value, previous_dash)
  | Some ch =>
      if Ascii.eqb ch dash then
        if previous_dash || bool_decide (value = []) then (value, previous_dash)
        else (value ++ [ch], true)
      else (value ++ [ch], false)
  end.

Definition slugify_site_code (raw : string) : string :=
  trim_matches dash (of_bytes (foldl slug_step ([], false) (bytes raw)).1).

(** [(!s.is_empty()).then_some(s)]. *)
Definition nonempty (s : string) : option string := if is_empty s then None else Some s.

(** The base of a site code: the preferred code, the first label of the domain
    or the name, whichever first leaves a code. *)
Definition site_code_base (preferred : option string) (name domain : string) : option string :=
  let preferred := (trim <$> preferred) ≫= nonempty in
  let from_preferred := (slugify_site_code <$> preferred) ≫= nonempty in
  let from_domain := nonempty (slugify_site_code (default domain (head (split "." domain)))) in
  let from_name := nonempty (slugify_site_code name) in
  or_else (or_else from_preferred from_domain) from_name.

(** The [while] loop: the suffix counts up until the candidate is free. [fuel]
    bounds the turns. *)
Fixpoint unique_code_loop (fuel : nat) (taken : gmap string Uuid) (base candidate : string)
    (suffix : Z) : string :=
  match taken !! candidate with
  | None => candidate
  | Some _ =>
      match fuel with
      | O => candidate
      | S fuel' =>
          let suffix := wrap_u32 (suffix + 1) in
          unique_code_loop fuel' taken base (base +:+ "-" +:+ pretty suffix) suffix
      end
  end.

(** Enough turns to pass every code in use. *)
Definition unique_code (taken : gmap string Uuid) (base : string) : string :=
  unique_code_loop (size taken) taken base base 1.

(** ** Bindings *)

Definition parse_protocol (raw : string) : Fallible Protocol :=
  let s := to_ascii_lowercase raw in
  if decide (s = "http") then Ok Http
  else if decide (s = "https") then Ok Https
  else if decide (s = "tcp") then Ok Tcp
  else Err (bad_request "unsupported protocol").

Definition normalize_binding_role (raw : string) : Fallible string :=
  let s := to_ascii_lowercase (trim raw) in
  if decide (s = "primary") then Ok "primary"
  else if decide (s = "standby") then Ok "standby"
  else Err (bad_request "binding_role must be one of primary, standby").

(** The loop of [normalize_site_bindings]: the bindings so far, the nodes seen
    and the number of primaries. *)
Fixpoint normalize_bindings_loop `{!Extern} (raw : list SiteBindingItem)
    (bs : list SiteBindingRecord) (seen : gset Uuid) (primary_count : nat) :
    Fallible (list SiteBindingRecord * nat) :=
  match raw with
  | [] => Ok (bs, primary_count)
  | b :: raw' =>
      if decide (item_node_id b ∈ seen)
      then Err (bad_request ("duplicate binding for node " +:+ uuid_to_string (item_node_id b)))
      else
        let? role := normalize_binding_role (item_binding_role b) in
        normalize_bindings_loop raw'
          (bs ++ [mkBinding (item_node_id b) role (item_priority b)])
          ({[ item_node_id b ]} ∪ seen)
          (if decide (role = "primary") then S primary_count else primary_count)
  end.

Definition normalize_site_bindings `{!Extern} (raw : list SiteBindingItem) :
    Fallible (list SiteBindingRecord) :=
  if decide (raw = []) then Err (bad_request "at least one binding is required")
  else
    let? res := normalize_bindings_loop raw [] ∅ 0 in
    if decide (res.2 ≠ 1) then Err (bad_request "exactly one primary binding is required")
    else Ok (sort_by (cmp_on binding_priority Z.compare) res.1).

Definition is_primary (b : SiteBindingRecord) : Prop := binding_role b = "primary".
Definition is_standby (b : SiteBindingRecord) : Prop := binding_role b = "standby".
#[export] Instance is_primary_dec b : Decision (is_primary b).
Proof. unfold is_primary. apply _. Defined.
#[export] Instance is_standby_dec b : Decision (is_standby b).
Proof. unfold is_standby. apply _. Defined.

Definition primary_site_binding (x : SiteRecord) : option SiteBindingRecord :=
  or_else (find_where is_primary (bindings x)) (head (bindings x)).

Definition select_next_failover_policy_standby (bs : list SiteBindingRecord) (primary : Uuid) :
    option Uuid :=
  binding_node_id <$>
    min_by (cmp_on binding_priority Z.compare)
      (filter (λ b, binding_node_id b ≠ primary ∧ is_standby b) bs).

Definition site_binding_item (b : SiteBindingRecord) (lookup : gmap Uuid NodeRecord) :
    SiteBindingItem :=
  let n := lookup !! binding_node_id b in
  {|
    item_node_id := binding_node_id b;
    item_binding_role := binding_role b;
    item_priority := binding_priority b;
    item_node_code := (λ n, node_code (identity n)) <$> n;
    item_node_name := (λ n, name (identity n)) <$> n;
    item_node_status := (λ n, node_status_name (status (identity n))) <$> n;
  |}.

(** The node a switch picks when the request names none. *)
Definition default_switch_target (current : option Uuid) (bs : list SiteBindingRecord) :
    option Uuid :=
  binding_node_id <$>
    or_else (find_where is_standby (filter (λ b, Some (binding_node_id b) ≠ current) bs))
            (find_where (λ b, Some (binding_node_id b) ≠ current) bs).

(** The remaining bindings, renumbered from [next_priority] in steps of 100. *)
Fixpoint renumber (next_priority : Z) (bs : list SiteBindingRecord) : list SiteBindingRecord :=
  match bs with
  | [] => []
  | b :: bs' =>
      let role := if decide (is_primary b) then "standby" else binding_role b in
      mkBinding (binding_node_id b) role next_priority
        :: renumber (wrap_i32 (next_priority + 100)) bs'
  end.

Definition switched_bindings (target : Uuid) (previous : option Uuid) (keep : bool)
    (bs : list SiteBindingRecord) : list SiteBindingRecord :=
  let kept :=
    match previous with
    | Some p => if keep && bool_decide (p ≠ target) then [mkBinding p "standby" 200] else []
    | None => []
    end in
  let next_priority := if decide (kept = []) then 200%Z else 300%Z in
  let remaining := sort_by (cmp_on binding_priority Z.compare) bs in
  let others :=
    filter (λ b, ¬ (binding_node_id b = target ∨ Some (binding_node_id b) = previous)) remaining in
  mkBinding target "primary" 100 :: kept ++ renumber next_priority others.

(** ** Handlers *)

Section Sites.
Context {T : Type} `{EX : !Extern, NT : !NodeTokenStore T}.

Definition generate_unique_site_code (preferred : option string) (name domain : string) :
    Hub T string :=
  let! base := match site_code_base preferred name domain with
               | Some base => ret base
               | None => let! u := new_v4 in ret ("site-" +:+ uuid_simple u)
               end in
  read (λ s, unique_code (site_ids_by_code s) base).

Definition create_site (request : CreateSiteRequest) : Hub T SiteResponse :=
  do! require (negb (is_empty (trim (cs_domain request)))) (bad_request "domain is required") in
  do! lift (validate_site_config (cs_config request)) in
  let! protocol := lift (parse_protocol (cs_protocol request)) in
  let! code := generate_unique_site_code (cs_site_code request) (cs_name request)
                 (cs_domain request) in
  let! sid := new_v4 in
  let x := {|
    site_id := sid;
    site_code := code;
    site_name := cs_name request;
    site_domain := cs_domain request;
    site_listen_port := cs_listen_port request;
    site_protocol := protocol;
    site_tls_enabled := cs_tls_enabled request;
    site_status := Draft;
    site_version := 1;
    site_config := cs_config request;
    bindings := [];
  |} in
  do! write (save_site x) in
  ret (mkSiteResponse sid code (site_version x) (site_status_name (site_status x))).

Definition update_site (sid : Uuid) (request : UpdateSiteRequest) : Hub T SiteResponse :=
  let! protocol := lift (parse_protocol (us_protocol request)) in
  do! lift (validate_site_config (us_config request)) in
  let! found := read (λ s, site s sid) in
  let! x := get_or found (not_found "site not found") in
  let x := set_site_name (us_name request) x in
  let x := set_site_domain (us_domain request) x in
  let x := set_site_listen_port (us_listen_port request) x in
  let x := set_site_protocol protocol x in
  let x := set_site_tls_enabled (us_tls_enabled request) x in
  let x := set_site_config (us_config request) x in
  let x := set_site_version (wrap_u32 (site_version x + 1)) x in
  let x := set_site_status Draft x in
  do! write (save_site x) in
  ret (mkSiteResponse sid (site_code x) (site_version x) (site_status_name (site_status x))).

Definition update_site_status (sid : Uuid) (enabled : bool) : Hub T SiteResponse :=
  let! found := read (λ s, site s sid) in
  let! x := get_or found (not_found "site not found") in
  let x := set_site_status
    (if enabled then if decide (bindings x = []) then Draft else Published else Disabled) x in
  let x := set_site_version (wrap_u32 (site_version x + 1)) x in
  do! write (save_site x) in
  do! (if decide (bindings x = []) then ret tt
       else
         let release_type := if enabled then "enable" else "disable" in
         let reason := (if enabled then "enable site " else "disable site ") +:+ site_code x in
         let! _ := save_site_release x release_type reason in ret tt) in
  ret (mkSiteResponse sid (site_code x) (site_version x) (site_status_name (site_status x))).

Definition hub_delete_site (sid : Uuid) : Hub T DeleteSiteResponse :=
  let! found := read (λ s, site s sid) in
  let! x := get_or found (not_found "site not found") in
  do! (if decide (bindings x = []) then ret tt
       else let! _ := save_site_cleanup_release x (binding_node_id <$> bindings x) "delete site" in
            ret tt) in
  do! write (delete_site sid) in
  ret (mkDeleteSite sid (site_code x) true).

(** [node_lookup]: the nodes by their ids. *)
Definition node_lookup (s : MemoryState) : gmap Uuid NodeRecord :=
  foldl (λ m n, <[id (identity n) := n]> m) ∅ (list_nodes s).

Definition site_overview (lookup : gmap Uuid NodeRecord) (x : SiteRecord) : SiteOverview :=
  let primary := primary_site_binding x ≫= λ b, lookup !! binding_node_id b in
  {|
    so_site_id := site_id x;
    so_site_code := site_code x;
    so_name := site_name x;
    so_domain := site_domain x;
    so_protocol := protocol_name (site_protocol x);
    so_status := site_status_name (site_status x);
    so_version := site_version x;
    so_binding_count := length (bindings x);
    so_primary_node_id := (λ n, id (identity n)) <$> primary;
    so_primary_node_code := (λ n, node_code (identity n)) <$> primary;
    so_primary_node_name := (λ n, name (identity n)) <$> primary;
    so_primary_node_status := (λ n, node_status_name (status (identity n))) <$> primary;
  |}.

Definition list_site_overviews : Hub T (list SiteOverview) :=
  let! lookup := read node_lookup in
  let! xs := read list_sites in
  ret (sort_by (cmp_on so_site_code String.compare) (site_overview lookup <$> xs)).

Definition site_detail (sid : Uuid) : Hub T SiteDetail :=
  let! lookup := read node_lookup in
  let! found := read (λ s, site s sid) in
  let! x := get_or found (not_found "site not found") in
  ret {|
    sd_site_id := site_id x;
    sd_site_code := site_code x;
    sd_name := site_name x;
    sd_domain := site_domain x;
    sd_listen_port := site_listen_port x;
    sd_protocol := protocol_name (site_protocol x);
    sd_tls_enabled := site_tls_enabled x;
    sd_status := site_status_name (site_status x);
    sd_version := site_version x;
    sd_config := site_config x;
    sd_bindings := (λ b, site_binding_item b lookup) <$> bindings x;
  |}.

(** The nodes of the new bindings are looked up one after the other. *)
Fixpoint check_nodes_exist (bs : list SiteBindingRecord) : Hub T unit :=
  match bs with
  | [] => ret tt
  | b :: bs' =>
      let! found := read (λ s, node s (binding_node_id b)) in
      do! require (negb (bool_decide (found = None)))
            (not_found ("node " +:+ uuid_to_string (binding_node_id b) +:+ " not found")) in
      check_nodes_exist bs'
  end.

(** Returns the site and its number of bindings. *)
Definition bind_site_nodes (sid : Uuid) (raw : list SiteBindingItem) : Hub T (Uuid * nat) :=
  let! bs := lift (normalize_site_bindings raw) in
  do! check_nodes_exist bs in
  let! found := read (λ s, site s sid) in
  let! x := get_or found (not_found "site not found") in
  let x := set_bindings bs x in
  do! write (save_site x) in
  ret (sid, length (bindings x)).

Definition switch_target (request : SwitchSitePrimaryRequest) (current : option Uuid)
    (bs : list SiteBindingRecord) : Hub T Uuid :=
  match sw_target_node_id request with
  | Some target =>
      let! found := read (λ s, node s target) in
      do! require (negb (bool_decide (found = None))) (not_found "target node not found") in
      ret target
  | None =>
      get_or (default_switch_target current bs) (conflict "site has no standby node to switch to")
  end.

Definition switch_site_primary (sid : Uuid) (request : SwitchSitePrimaryRequest) :
    Hub T SwitchSitePrimaryResponse :=
  let! found := read (λ s, site s sid) in
  let! x := get_or found (not_found "site not found") in
  do! require (negb (bool_decide (bindings x = []))) (bad_request "site has no node bindings") in
  let current := binding_node_id <$> primary_site_binding x in
  let! target := switch_target request current (bindings x) in
  do! require (bool_decide (current ≠ Some target))
        (conflict "target node is already the primary node") in
  let keep := default true (sw_keep_previous_as_standby request) in
  let bs := switched_bindings target current keep (bindings x) in
  let next_standby := select_next_failover_policy_standby bs target in
  let x := set_bindings bs x in
  let x := set_site_status Draft x in
  let x := set_site_version (wrap_u32 (site_version x + 1)) x in
  do! write (save_site x) in
  (* [update_active_failover_policy_targets] does nothing in memory *)
  let! saved := create_release {|
    cr_scope_type := "site";
    cr_scope_id := sid;
    cr_release_type := "switch";
    cr_reason := default ("switch primary node for " +:+ site_code x +:+ " to "
                          +:+ uuid_to_string target) (sw_reason request);
  |} in
  ret {|
    sp_site_id := sid;
    sp_previous_primary_node_id := current;
    sp_current_primary_node_id := target;
    sp_next_standby_node_id := next_standby;
    sp_binding_count := length bs;
    sp_release_id := saved_release_id saved;
    sp_release_version := saved_release_version saved;
  |}.
End Sites.

(** ** Site codes: lemmas *)

(** What a site code is made of: lower-case letters, digits and dashes, the
    dashes only between two other characters. *)
Definition slug_char_ok (c : ascii) : bool := is_lower c || is_digit c || Ascii.eqb c dash.

Definition slug_prefix (l : list ascii) : Prop :=
  Forall (λ c, slug_char_ok c = true) l ∧ head l ≠ Some dash ∧ ∀ a b, l ≠ a ++ dash :: dash :: b.

Definition is_slug (l : list ascii) : Prop := slug_prefix l ∧ last l ≠ Some dash.

Lemma slug_char_table c :
  from_option slug_char_ok true (slug_char c) = true
  ∧ implb (slug_char_ok c) (bool_decide (slug_char c = Some c)) = true.
Proof. destruct c as [[] [] [] [] [] [] [] []]; vm_compute; by split. Qed.

Lemma slug_char_ok_some c ch : slug_char c = Some ch → slug_char_ok ch = true.
Proof. intros Hch. destruct (slug_char_table c) as [H _]. by rewrite Hch in H. Qed.

Lemma slug_char_keep c : slug_char_ok c = true → slug_char c = Some c.
Proof. intros Hc. destruct (slug_char_table c) as [_ H]. rewrite Hc in H. by apply bool_decide_eq_true in H. Qed.

(** Adding a character to a code under construction. *)
Lemma slug_prefix_snoc l c :
  slug_prefix l → slug_char_ok c = true → (c = dash → l ≠ [] ∧ last l ≠ Some dash) →
  slug_prefix (l ++ [c]).
Proof.
  intros (Hall & Hhead & Hdd) Hc Hdash. split_and!.
  - apply Forall_app. auto.
  - destruct l; [|done]. simpl. intros [= Hd]. naive_solver.
  - intros a b Heq. destruct b as [|b0 b _] using rev_ind.
    + replace (a ++ [dash; dash]) with ((a ++ [dash]) ++ [dash]) in Heq by (by rewrite <-app_assoc).
      apply app_inj_tail in Heq as [Hl Hcd]. destruct (Hdash Hcd) as [_ Hlast].
      apply Hlast. rewrite Hl. apply last_snoc.
    + replace (a ++ dash :: dash :: b ++ [b0]) with ((a ++ dash :: dash :: b) ++ [b0]) in Heq
        by (by rewrite <-app_assoc).
      apply app_inj_tail in Heq as [Hl _]. by apply (Hdd a b).
Qed.

Lemma slug_prefix_of l k : slug_prefix (l ++ k) → slug_prefix l.
Proof.
  intros (Hall & Hhead & Hdd). split_and!.
  - by apply Forall_app in Hall as [? _].
  - by destruct l.
  - intros a b Heq. apply (Hdd a (b ++ k)). rewrite Heq. by rewrite <-app_assoc.
Qed.

(** The loop keeps a code under construction, and knows its last character. *)
Lemma slug_loop_ok l value prev :
  slug_prefix value → (prev = true ↔ last value = Some dash) →
  slug_prefix (foldl slug_step (value, prev) l).1.
Proof.
  revert value prev. induction l as [|c l IH]; intros value prev Hv Hp; [done|].
  simpl. destruct (slug_char c) as [ch|] eqn:Hch; [|by apply IH].
  apply slug_char_ok_some in Hch. destruct (Ascii.eqb_spec ch dash) as [->|Hne].
  - destruct prev; simpl; [by apply IH|]. case_bool_decide as Hnil; [by apply IH|].
    apply IH; [|by rewrite last_snoc]. apply slug_prefix_snoc; [done..|].
    intros _. split; [done|]. intros Hl. apply Hp in Hl. done.
  - apply IH; [by apply slug_prefix_snoc|]. rewrite last_snoc. split; [done|]. congruence.
Qed.

(** On a code the loop copies. *)
Lemma slug_loop_id l value prev :
  slug_prefix (value ++ l) → (prev = true ↔ last value = Some dash) →
  (foldl slug_step (value, prev) l).1 = value ++ l.
Proof.
  revert value prev. induction l as [|c l IH]; intros value prev Hv Hp; [by rewrite app_nil_r|].
  assert (slug_char_ok c = true) as Hc.
  { destruct Hv as [Hall _]. apply Forall_app in Hall as [_ Hall]. by apply Forall_cons in Hall as [? _]. }
  simpl. rewrite (slug_char_keep c Hc).
  destruct (Ascii.eqb_spec c dash) as [->|Hne].
  - assert (prev = false) as ->.
    { destruct prev; [|done]. destruct Hv as (_ & _ & Hdd).
      assert (last value = Some dash) as Hl by (by apply Hp).
      apply last_Some in Hl as [k ->]. destruct (Hdd k l). by rewrite <-app_assoc. }
    simpl. rewrite bool_decide_false.
    + rewrite IH; [by rewrite <-app_assoc|by rewrite <-app_assoc|by rewrite last_snoc].
    + intros ->. destruct Hv as (_ & Hh & _). by simpl in Hh.
  - rewrite IH; [by rewrite <-app_assoc|by rewrite <-app_assoc|].
    rewrite last_snoc. split; [done|]. congruence.
Qed.

Lemma strip_dash_None l : strip_any [[dash]] l = None ↔ head l ≠ Some dash.
Proof.
  unfold strip_any. destruct l as [|c l]; [done|]. cbn [omap list_omap strip_list].
  destruct (Ascii.eqb_spec dash c) as [<-|]; cbn [head]; [naive_solver|].
  split; [intros _; congruence|done].
Qed.

(** Stripping dashes from a code under construction leaves a code. *)
Lemma trim_dashes_slug l : slug_prefix l → is_slug (bytes (trim_matches dash (of_bytes l))).
Proof.
  intros Hl. unfold trim_matches, trim_end_matches, trim_start_matches.
  rewrite !bytes_of_bytes. rewrite (trim_front_id [[dash]] l) by apply strip_dash_None, Hl.
  destruct (trim_back_all_prefix [[dash]] l) as [k Hk]. split.
  - rewrite Hk in Hl. by eapply slug_prefix_of.
  - unfold trim_back_all. change (reverse <$> [[dash]]) with [[dash]].
    rewrite last_reverse. apply strip_dash_None, trim_front_all_stuck. by repeat constructor.
Qed.

Lemma trim_slug s : is_slug (bytes s) → trim_matches dash s = s.
Proof.
  intros [(_ & Hh & _) Hl]. unfold trim_matches, trim_end_matches, trim_start_matches.
  rewrite bytes_of_bytes, (trim_front_id [[dash]]) by (by apply strip_dash_None).
  unfold trim_back_all. change (reverse <$> [[dash]]) with [[dash]].
  rewrite trim_front_id, reverse_involutive; [apply of_bytes_bytes|].
  apply strip_dash_None. by rewrite head_reverse.
Qed.

Lemma slugify_is_slug raw : is_slug (bytes (slugify_site_code raw)).
Proof. apply trim_dashes_slug, slug_loop_ok; [|done]. split_and!; [done..|]. by intros []. Qed.

Lemma slugify_slug s : is_slug (bytes s) → slugify_site_code s = s.
Proof.
  intros Hs. unfold slugify_site_code.
  rewrite slug_loop_id; [|apply Hs|done]. simpl. rewrite of_bytes_bytes. by apply trim_slug.
Qed.

(** A slugified site code has only lower-case letters, digits and single
    inner dashes, whatever it was made from; and the strings of that form are
    exactly the ones slugifying leaves alone, so that slugifying twice is
    slugifying once. *)
Theorem slugify_site_code_spec raw :
  is_slug (bytes (slugify_site_code raw))
  ∧ (slugify_site_code raw = raw ↔ is_slug (bytes raw))
  ∧ slugify_site_code (slugify_site_code raw) = slugify_site_code raw.
Proof.
  split_and!; [apply slugify_is_slug| |apply slugify_slug, slugify_is_slug].
  split; [|apply slugify_slug]. intros <-. apply slugify_is_slug.
Qed.

(** ** Free codes *)

(** The candidates of the loop: the base, then the base with 2, 3, ... *)
Definition code_candidate (base : string) (i : nat) : string :=
  match i with O => base | S _ => base +:+ "-" +:+ pretty (Z.of_nat (S i)) end.

Lemma code_candidate_inj base i j : code_candidate base i = code_candidate base j → i = j.
Proof.
  assert (∀ t, base ≠ base +:+ "-" +:+ t) as Hne.
  { intros t Heq. apply (f_equal String.length) in Heq. rewrite <-!length_bytes, !bytes_app, !length_app in Heq.
    simpl in Heq. lia. }
  destruct i as [|i], j as [|j]; simpl; intros Heq; [done|by apply Hne in Heq| |].
  - by symmetry in Heq; apply Hne in Heq.
  - simplify_eq. lia.
Qed.

(** Either a free candidate is found within the turns, the first one, or all of
    those tried are taken. *)
Lemma unique_code_loop_spec fuel taken base i :
  (Z.of_nat (i + fuel) < u32_max)%Z →
  let r := unique_code_loop fuel taken base (code_candidate base i) (Z.of_nat (S i)) in
  (∃ j, i ≤ j ∧ r = code_candidate base j ∧ taken !! r = None
     ∧ ∀ k, i ≤ k < j → is_Some (taken !! code_candidate base k))
  ∨ ∀ k, i ≤ k ≤ i + fuel → is_Some (taken !! code_candidate base k).
Proof.
  revert i. induction fuel as [|fuel IH]; intros i Hi; cbn [unique_code_loop];
    destruct (taken !! code_candidate base i) as [u|] eqn:Hc.
  - right. intros k Hk. replace k with i by lia. by rewrite Hc.
  - left. exists i. split_and!; [lia|done|done|lia].
  - rewrite wrap_u32_id by (unfold u32_max in *; lia).
    replace (Z.of_nat (S i) + 1)%Z with (Z.of_nat (S (S i))) by lia.
    destruct (IH (S i)) as [(j & Hj & Hr & Hfree & Hall)|Hall]; [unfold u32_max in *; lia|..].
    + left. exists j. split_and!; [lia|exact Hr|exact Hfree|].
      intros k Hk. destruct (decide (k = i)) as [->|]; [by rewrite Hc|]. apply Hall. lia.
    + right. intros k Hk. destruct (decide (k = i)) as [->|]; [by rewrite Hc|]. apply Hall. lia.
  - left. exists i. split_and!; [lia|done|done|lia].
Qed.

(** There are more candidates than codes in use. *)
Lemma candidates_not_all_taken (taken : gmap string Uuid) base :
  ¬ ∀ k, k ≤ size taken → is_Some (taken !! code_candidate base k).
Proof.
  intros Hall.
  assert (length (code_candidate base <$> seq 0 (S (size taken))) ≤ size (dom taken)) as Hlen.
  { rewrite <-(size_list_to_set (C:=gset string)).
    - apply subseteq_size. intros c. rewrite elem_of_list_to_set, list_elem_of_fmap.
      intros (k & -> & Hk%elem_of_seq). apply elem_of_dom, Hall. lia.
    - apply NoDup_fmap_2; [intros ?? ?%code_candidate_inj; done|apply NoDup_seq]. }
  rewrite length_fmap, length_seq, size_dom in Hlen. lia.
Qed.

Lemma unique_code_free (taken : gmap string Uuid) base :
  (Z.of_nat (size taken) < u32_max)%Z →
  ∃ j, unique_code taken base = code_candidate base j ∧ taken !! unique_code taken base = None
    ∧ ∀ k, k < j → is_Some (taken !! code_candidate base k).
Proof.
  intros Hsize. destruct (unique_code_loop_spec (size taken) taken base 0) as [H|H]; [done|..].
  - destruct H as (j & _ & Hr & Hfree & Hall). exists j. split_and!; [exact Hr|exact Hfree|].
    intros k Hk. apply Hall. lia.
  - destruct (candidates_not_all_taken taken base). intros k Hk. apply H. lia.
Qed.

Section SiteTheorems.
Context {T : Type} `{EX : !Extern, NT : !NodeTokenStore T, EL : !ExternLaws, TL : !TokenLaws T}.

Lemma generate_code_run preferred nm domain (w : World T) :
  ∃ base n, generate_unique_site_code preferred nm domain w
    = (Ok (unique_code (site_ids_by_code (repo w)) base), set_rng_next (n + rng_next w) w).
Proof.
  unfold generate_unique_site_code, bind, read, new_v4, ret.
  destruct (site_code_base preferred nm domain) as [base|]; simpl.
  - exists base, 0. by destruct w.
  - by eexists _, 1.
Qed.

(** A site request is accepted when it names a domain, a known protocol and a
    valid configuration. *)
Definition site_request_ok (request : CreateSiteRequest) : Prop :=
  trim (cs_domain request) ≠ "" ∧ validate_site_config (cs_config request) = Ok tt
  ∧ ∃ p, parse_protocol (cs_protocol request) = Ok p.

(** Creating a site never changes anything when it fails, and succeeds
    exactly on the requests with a non-blank domain, a known protocol and a valid
    configuration.  The new site is an unbound draft at version 1 under a fresh
    id and a code no other site has, and every other site is left alone. *)
Theorem create_site_effect request (w : World T) :
  world_ok w → (Z.of_nat (size (site_ids_by_code (repo w))) < u32_max)%Z →
  let '(r, w') := create_site request w in
  match r with
  | Err _ => ¬ site_request_ok request ∧ repo w' = repo w ∧ tokens w' = tokens w
  | Ok resp =>
      site_request_ok request
      ∧ site (repo w) (sr_site_id resp) = None
      ∧ site_ids_by_code (repo w) !! sr_site_code resp = None
      ∧ (∃ x, site (repo w') (sr_site_id resp) = Some x
           ∧ site_code x = sr_site_code resp ∧ site_domain x = cs_domain request
           ∧ site_config x = cs_config request ∧ site_status x = Draft
           ∧ site_version x = 1%Z ∧ bindings x = [])
      ∧ (∀ u, u ≠ sr_site_id resp → site (repo w') u = site (repo w) u)
      ∧ world_ok w'
  end.
Proof.
  intros Hw Hsize. unfold site_request_ok. unfold create_site.
  unfold bind at 1, require at 1.
  destruct (is_empty (trim (cs_domain request))) eqn:Hd; simpl.
  { apply is_empty_spec in Hd. naive_solver. }
  apply is_empty_false in Hd. unfold bind at 1, lift at 1.
  destruct (validate_site_config (cs_config request)) as [[]|e] eqn:Hv; [|naive_solver].
  unfold bind at 1, lift at 1.
  destruct (parse_protocol (cs_protocol request)) as [p|e] eqn:Hp; [|naive_solver].
  destruct (generate_code_run (cs_site_code request) (cs_name request) (cs_domain request) w)
    as (base & n & Hrun).
  unfold bind at 1. rewrite Hrun. simpl.
  destruct (unique_code_free (site_ids_by_code (repo w)) base Hsize) as (_ & _ & Hfree & _).
  set (code := unique_code _ _) in *. set (sid := rng (n + rng_next w)).
  assert (sites (repo w) !! sid = None) as Hsid.
  { apply not_elem_of_dom. intros Hin. apply (world_fresh_ids w Hw (n + rng_next w)); [lia|].
    unfold used_ids. set_solver. }
  split_and!; try done; [by eexists| | |].
  - eexists. unfold site, save_site. simpl. by rewrite lookup_insert_eq.
  - intros u Hu. unfold site, save_site. simpl. by rewrite lookup_insert_ne.
  - eapply (world_ok_repo w); try done; simpl; [lia| |].
    + apply save_site_ok; [|by apply world_repo]. by apply saveable_fresh.
    + intros u. rewrite used_ids_save_site. intros [->%elem_of_singleton|]%elem_of_union; [|auto].
      right. exists (n + rng_next w). simpl. split; [lia|done].
Qed.
End SiteTheorems.

(** ** Bindings: lemmas *)

(** The binding a request item asks for. *)
Definition binding_of_item (i : SiteBindingItem) (b : SiteBindingRecord) : Prop :=
  binding_node_id b = item_node_id i ∧ binding_priority b = item_priority i
  ∧ normalize_binding_role (item_binding_role i) = Ok (binding_role b).

(** Bindings in order: a node at most once, the roles known, one primary. *)
Record bindings_ok (bs : list SiteBindingRecord) : Prop := {
  bindings_nodup : NoDup (binding_node_id <$> bs);
  bindings_roles : Forall (λ b, is_primary b ∨ is_standby b) bs;
  bindings_primary : length (filter is_primary bs) = 1;
}.

#[export] Instance bindings_ok_perm : Proper ((≡ₚ) ==> iff) bindings_ok.
Proof.
  assert (∀ l k, l ≡ₚ k → bindings_ok l → bindings_ok k) as Hone.
  { intros l k Hp [H1 H2 H3]. split; [by rewrite <-Hp|by rewrite <-Hp|by rewrite <-Hp]. }
  intros l k Hp. split; by apply Hone.
Qed.

Lemma normalize_binding_role_known raw role :
  normalize_binding_role raw = Ok role → role = "primary" ∨ role = "standby".
Proof. unfold normalize_binding_role. repeat case_decide; naive_solver. Qed.

Lemma primaries_cons b l :
  length (filter is_primary (b :: l))
  = (if decide (binding_role b = "primary") then 1 else 0) + length (filter is_primary l).
Proof. rewrite filter_cons. unfold is_primary at 1. by repeat case_decide. Qed.

Lemma normalize_loop_spec `{!Extern} raw bs seen n res :
  normalize_bindings_loop raw bs seen n = Ok res ↔
  ∃ new, Forall2 binding_of_item raw new
    ∧ NoDup (item_node_id <$> raw) ∧ Forall (λ i, item_node_id i ∉ seen) raw
    ∧ res = (bs ++ new, n + length (filter is_primary new)).
Proof.
  revert bs seen n. induction raw as [|i raw IH]; intros bs seen n; simpl.
  { split.
    - intros [= <-]. exists []. rewrite app_nil_r, Nat.add_0_r. repeat constructor.
    - intros (new & ->%Forall2_nil_inv_l & _ & _ & ->). by rewrite app_nil_r, Nat.add_0_r. }
  case_decide as Hseen.
  { split; [done|]. intros (new & _ & _ & Hall & _). by apply Forall_cons in Hall as [? _]. }
  rewrite result_bind_Ok. setoid_rewrite IH. split.
  - intros (role & Hrole & new & Hnew & Hnd & Hall & ->).
    exists (mkBinding (item_node_id i) role (item_priority i) :: new). split_and!.
    + by constructor.
    + constructor; [|done]. rewrite list_elem_of_fmap. intros (j & Hj & Hin).
      rewrite Forall_forall in Hall. apply (Hall j) in Hin. set_solver.
    + constructor; [done|]. eapply Forall_impl; [done|]. set_solver.
    + rewrite <-app_assoc, primaries_cons. simpl. f_equal. repeat case_decide; (done || lia).
  - intros (new & Hnew & Hnd & Hall & ->).
    apply Forall2_cons_inv_l in Hnew as (b & new' & (Hb1 & Hb2 & Hb3) & Hnew & ->).
    apply NoDup_cons in Hnd as [Hi Hnd]. apply Forall_cons in Hall as [_ Hall].
    exists (binding_role b). split; [done|]. exists new'. split_and!; [done|done| |].
    + apply Forall_forall. intros j Hj. rewrite Forall_forall in Hall. specialize (Hall j Hj).
      rewrite not_elem_of_union, not_elem_of_singleton. split; [|done].
      intros Heq. apply Hi. rewrite <-Heq. by apply list_elem_of_fmap_2.
    + rewrite <-app_assoc, primaries_cons. destruct b as [bn br bp]. simpl in *. subst.
      f_equal. repeat case_decide; (done || lia).
Qed.

Lemma binding_items_nodes raw new :
  Forall2 binding_of_item raw new → binding_node_id <$> new = item_node_id <$> raw.
Proof. induction 1 as [|i b raw new (Hb & _ & _) _ IH]; [done|]. by rewrite !fmap_cons, Hb, IH. Qed.

Lemma binding_items_roles raw new :
  Forall2 binding_of_item raw new → Forall (λ b, is_primary b ∨ is_standby b) new.
Proof.
  induction 1 as [|i b raw new (_ & _ & Hr) _ IH]; constructor; [|done].
  by apply normalize_binding_role_known in Hr.
Qed.

Lemma normalize_site_bindings_ok `{!Extern} raw bs :
  (normalize_site_bindings raw = Ok bs ↔
   ∃ new, Forall2 binding_of_item raw new ∧ NoDup (item_node_id <$> raw)
     ∧ length (filter is_primary new) = 1
     ∧ bs = sort_by (cmp_on binding_priority Z.compare) new)
  ∧ (normalize_site_bindings raw = Ok bs →
       bindings_ok bs ∧ sorted_by (cmp_on binding_priority Z.compare) bs
       ∧ length bs = length raw).
Proof.
  assert (normalize_site_bindings raw = Ok bs ↔
   ∃ new, Forall2 binding_of_item raw new ∧ NoDup (item_node_id <$> raw)
     ∧ length (filter is_primary new) = 1
     ∧ bs = sort_by (cmp_on binding_priority Z.compare) new) as Hiff.
  { unfold normalize_site_bindings. case_decide as Hraw.
    { subst. split; [done|]. intros (new & ->%Forall2_nil_inv_l & _ & Hone & _). done. }
    rewrite result_bind_Ok. setoid_rewrite normalize_loop_spec. split.
    - intros (res & (new & Hnew & Hnd & _ & ->) & Hres). simpl in Hres.
      case_decide as Hone; [done|]. injection Hres as <-. exists new.
      split_and!; [done..| |done]. lia.
    - intros (new & Hnew & Hnd & Hone & ->). eexists. split.
      + exists new. split_and!; [done|done| |done]. apply Forall_forall. set_solver.
      + simpl. rewrite Hone, decide_False by tauto. done. }
  split; [exact Hiff|]. rewrite Hiff. intros (new & Hnew & Hnd & Hone & ->). split_and!.
  - rewrite sort_by_perm. split; [|by eapply binding_items_roles|done].
    by rewrite (binding_items_nodes _ _ Hnew).
  - apply sort_by_sorted, _.
  - rewrite sort_by_length. symmetry. by eapply Forall2_length.
Qed.

(** The bindings of a site are accepted exactly when there are some, no node
    is bound twice, every role reads as primary or standby and exactly one is
    primary; they are stored sorted by priority, with the nodes and priorities
    asked for, and are in order. *)
Theorem normalize_site_bindings_iff `{!Extern} raw bs :
  (normalize_site_bindings raw = Ok bs ↔
   ∃ new, Forall2 binding_of_item raw new ∧ NoDup (item_node_id <$> raw)
     ∧ length (filter is_primary new) = 1
     ∧ bs = sort_by (cmp_on binding_priority Z.compare) new)
  ∧ (normalize_site_bindings raw = Ok bs →
       bindings_ok bs ∧ sorted_by (cmp_on binding_priority Z.compare) bs
       ∧ length bs = length raw).
Proof. apply normalize_site_bindings_ok. Qed.

(** ** Switching: lemmas *)

Lemma renumber_nodes k l : binding_node_id <$> renumber k l = binding_node_id <$> l.
Proof. revert k. induction l as [|b l IH]; intros k; [done|]. cbn [renumber]. by rewrite !fmap_cons, IH. Qed.

Lemma length_renumber k l : length (renumber k l) = length l.
Proof. by rewrite <-(length_fmap binding_node_id), renumber_nodes, length_fmap. Qed.

Lemma renumber_standby k l :
  Forall (λ b, is_primary b ∨ is_standby b) l → Forall is_standby (renumber k l).
Proof.
  intros Hl. revert k. induction Hl as [|b l Hb Hl IH]; intros k; [constructor|].
  constructor; [|apply IH]. unfold is_standby, is_primary in *. simpl. case_decide; naive_solver.
Qed.

(** [n] priorities from [k] on, in steps of 100. *)
Definition ladder (k : Z) (n : nat) : list Z := (λ i, k + 100 * Z.of_nat i)%Z <$> seq 0 n.

Lemma ladder_cons k n : ladder k (S n) = k :: ladder (k + 100) n.
Proof.
  unfold ladder. simpl. f_equal; [lia|]. rewrite <-fmap_S_seq, <-list_fmap_compose.
  apply list_fmap_ext. intros i j _. simpl. lia.
Qed.

Lemma renumber_priorities k l :
  (0 ≤ k)%Z → (k + 100 * Z.of_nat (length l) ≤ i32_max)%Z →
  binding_priority <$> renumber k l = ladder k (length l).
Proof.
  revert k. induction l as [|b l IH]; intros k Hk Hl; [done|]. cbn [renumber length] in *.
  rewrite fmap_cons, ladder_cons. simpl. f_equal.
  rewrite wrap_i32_id by (unfold i32_min, i32_max in *; lia). apply IH; lia.
Qed.

Lemma filter_standby_nil l : Forall is_standby l → filter is_primary l = [].
Proof.
  induction 1 as [|b l Hb _ IH]; [done|]. rewrite filter_cons_False; [done|].
  unfold is_primary, is_standby in *. congruence.
Qed.

Lemma bindings_ok_cons target k l :
  NoDup (target :: (binding_node_id <$> l)) → Forall is_standby l →
  bindings_ok (mkBinding target "primary" k :: l).
Proof.
  intros Hnd Hall. split.
  - done.
  - constructor; [by left|]. eapply Forall_impl; [done|]. by right.
  - by rewrite filter_cons_True, filter_standby_nil.
Qed.

(** The bindings that are neither the target nor the previous primary. *)
Definition other_bindings (target p : Uuid) (bs : list SiteBindingRecord) : list SiteBindingRecord :=
  filter (λ b, ¬ (binding_node_id b = target ∨ Some (binding_node_id b) = Some p))
    (sort_by (cmp_on binding_priority Z.compare) bs).

Lemma switched_bindings_shape target p keep bs :
  p ≠ target →
  switched_bindings target (Some p) keep bs
  = mkBinding target "primary" 100
      :: (if keep then [mkBinding p "standby" 200] else [])
      ++ renumber (if keep then 300 else 200) (other_bindings target p bs).
Proof.
  intros Hne. unfold switched_bindings. rewrite bool_decide_true by done.
  by destruct keep.
Qed.

Lemma elem_of_other_nodes target p bs n :
  n ∈ binding_node_id <$> other_bindings target p bs
  ↔ n ∈ binding_node_id <$> bs ∧ n ≠ target ∧ n ≠ p.
Proof.
  unfold other_bindings. rewrite !list_elem_of_fmap.
  setoid_rewrite list_elem_of_filter. setoid_rewrite elem_of_sort_by. naive_solver.
Qed.

Lemma NoDup_other_nodes target p bs :
  NoDup (binding_node_id <$> bs) → NoDup (binding_node_id <$> other_bindings target p bs).
Proof.
  intros Hnd. unfold other_bindings. eapply sublist_NoDup; [|apply fmap_sublist, sublist_filter].
  by rewrite sort_by_perm.
Qed.

Lemma Forall_other (P : SiteBindingRecord → Prop) target p bs :
  Forall P bs → Forall P (other_bindings target p bs).
Proof.
  rewrite !Forall_forall. intros Hbs b [_ Hb%elem_of_sort_by]%list_elem_of_filter. by apply Hbs.
Qed.

Lemma length_other target p bs : length (other_bindings target p bs) ≤ length bs.
Proof.
  unfold other_bindings. etrans; [apply length_filter|]. by rewrite sort_by_length.
Qed.

(** Switching well-formed bindings: one primary, the target, first; the others
    are standbys; the nodes are the old ones and the target, the previous primary
    only if it is kept; the priorities are 100, 200, 300, ... *)
Lemma switched_bindings_spec target p keep bs :
  bindings_ok bs → p ≠ target → p ∈ binding_node_id <$> bs →
  (100 * (Z.of_nat (length bs) + 3) ≤ i32_max)%Z →
  let bs' := switched_bindings target (Some p) keep bs in
  bindings_ok bs'
  ∧ head bs' = Some (mkBinding target "primary" 100)
  ∧ (∀ n, n ∈ binding_node_id <$> bs' ↔
       n = target ∨ n ∈ binding_node_id <$> bs ∧ (n = p → keep = true))
  ∧ binding_priority <$> bs' = ladder 100 (length bs').
Proof.
  intros [Hnd Hroles _] Hne Hp Hlen bs'. subst bs'. rewrite switched_bindings_shape by done.
  set (k := if keep then 300%Z else 200%Z).
  pose proof (length_other target p bs) as Hlo.
  split_and!.
  - apply bindings_ok_cons.
    + rewrite fmap_app, renumber_nodes. apply NoDup_cons. split.
      * rewrite elem_of_app, elem_of_other_nodes. destruct keep; set_solver.
      * apply NoDup_app. split_and!; [destruct keep; repeat constructor; set_solver| |].
        -- intros n Hn. rewrite elem_of_other_nodes. destruct keep; set_solver.
        -- by apply NoDup_other_nodes.
    + apply Forall_app. split; [by destruct keep; repeat constructor|].
      by apply renumber_standby, Forall_other.
  - done.
  - intros n. rewrite fmap_cons, fmap_app, renumber_nodes, elem_of_cons, elem_of_app,
      elem_of_other_nodes. simpl.
    destruct keep; simpl; rewrite ?list_elem_of_singleton; split; intros H;
      destruct (decide (n = target)), (decide (n = p)); set_solver.
  - assert (binding_priority <$> renumber k (other_bindings target p bs)
            = ladder k (length (other_bindings target p bs))) as Hr.
    { apply renumber_priorities; subst k; destruct keep; unfold i32_max in *; lia. }
    rewrite fmap_cons, fmap_app, Hr. cbn [length]. rewrite ladder_cons, length_app, length_renumber.
    simpl. f_equal. subst k. destruct keep; simpl; [by rewrite ladder_cons|done].
Qed.

Lemma ladder_ge k n x : x ∈ ladder k n → (k ≤ x)%Z.
Proof. unfold ladder. rewrite list_elem_of_fmap. intros (i & -> & _). lia. Qed.

Lemma ladder_sorted l k n :
  binding_priority <$> l = ladder k n → sorted_by (cmp_on binding_priority Z.compare) l.
Proof.
  revert k n. induction l as [|b l IH]; intros k n Hl; [constructor|].
  destruct n as [|n]; [done|]. rewrite fmap_cons, ladder_cons in Hl. injection Hl as Hb Hl.
  constructor; [by eapply IH|]. apply Forall_forall. intros c Hc. unfold cmp_on.
  assert (binding_priority c ∈ ladder (k + 100) n) as Hin by (rewrite <-Hl; by apply list_elem_of_fmap_2).
  apply ladder_ge in Hin. rewrite Z.compare_le_iff. lia.
Qed.

(** The standby a failover falls back on is the first one of the new list. *)
Lemma switched_next_standby target p keep bs :
  bindings_ok bs → p ≠ target → p ∈ binding_node_id <$> bs →
  (100 * (Z.of_nat (length bs) + 3) ≤ i32_max)%Z →
  let bs' := switched_bindings target (Some p) keep bs in
  select_next_failover_policy_standby bs' target = binding_node_id <$> head (tail bs').
Proof.
  intros Hok Hne Hp Hlen bs'.
  destruct (switched_bindings_spec target p keep bs Hok Hne Hp Hlen) as (Hok' & Hhead & _ & Hpri).
  fold bs' in Hok', Hhead, Hpri. destruct bs' as [|b rest]; [done|]. injection Hhead as ->.
  destruct Hok' as [Hnd Hroles Hone]. rewrite filter_cons_True in Hone by done.
  cbn [tail]. unfold select_next_failover_policy_standby.
  rewrite filter_cons_False by (simpl; tauto).
  rewrite filter_keep_all, min_by_sorted; [done|..].
  - eapply (ladder_sorted _ 200). cbn [length] in Hpri. rewrite fmap_cons, ladder_cons in Hpri.
    by injection Hpri.
  - apply NoDup_cons in Hnd as [Hnd _]. apply Forall_forall. intros b Hb. split.
    + intros Heq. apply Hnd. change (target ∈ binding_node_id <$> rest). rewrite <-Heq.
      by apply list_elem_of_fmap_2.
    + rewrite Forall_forall in Hroles. destruct (Hroles b) as [Hprim|]; [by right| |done].
      cbn [length] in Hone. assert (filter is_primary rest = []) as Hnil
        by (apply nil_length_inv; lia).
      assert (b ∈ filter is_primary rest) as Hin by (by apply list_elem_of_filter).
      rewrite Hnil in Hin. by apply not_elem_of_nil in Hin.
Qed.

Section BindTheorems.
Context {T : Type} `{EX : !Extern, NT : !NodeTokenStore T, EL : !ExternLaws, TL : !TokenLaws T}.

Lemma check_nodes_Ok bs (w : World T) u w' :
  check_nodes_exist bs w = (Ok u, w') →
  w' = w ∧ Forall (λ b, is_Some (node (repo w) (binding_node_id b))) bs.
Proof.
  induction bs as [|b bs IH]; intros H; simpl in H; hub_inv; [done|].
  rename select (_ ≠ None) into Hb. rename select (check_nodes_exist _ _ = _) into Hrec.
  destruct (IH Hrec) as [-> Hall]. split; [done|]. constructor; [|done].
  by apply not_eq_None_Some.
Qed.

Lemma pure_check_nodes bs : pure_step (check_nodes_exist (T:=T) bs).
Proof. induction bs; simpl; [apply pure_ret|]. repeat atomic_step. Qed.

(** Binding a site to nodes changes nothing when it fails; when it succeeds
    every bound node exists, the site's bindings are in order and sorted by
    priority, and the rest of the site and all other sites are as before. *)
Theorem bind_site_nodes_effect sid raw (w : World T) :
  atomic_on_error (bind_site_nodes (T:=T) sid raw)
  ∧ (world_ok w → ∀ n w', bind_site_nodes sid raw w = (Ok n, w') →
      ∃ x bs, site (repo w) sid = Some x ∧ normalize_site_bindings raw = Ok bs
        ∧ site (repo w') sid = Some (set_bindings bs x)
        ∧ bindings_ok bs ∧ sorted_by (cmp_on binding_priority Z.compare) bs
        ∧ Forall (λ b, is_Some (node (repo w) (binding_node_id b))) bs
        ∧ (∀ u, u ≠ sid → site (repo w') u = site (repo w) u)
        ∧ world_ok w').
Proof.
  split.
  { unfold bind_site_nodes. pose proof pure_check_nodes. solve_atomic. }
  intros Hw n w' H. unfold bind_site_nodes in H. hub_inv.
  rename select (check_nodes_exist _ _ = _) into Hc. apply check_nodes_Ok in Hc as [-> Hnodes].
  rename select (site _ _ = _) into Hx. rename select (normalize_site_bindings _ = _) into Hbs.
  destruct (proj2 (normalize_site_bindings_ok raw _) Hbs) as (Hok & Hsorted & _).
  pose proof (site_keyed w _ _ Hw Hx) as Hkey.
  eexists _, _. split_and!; [done|done| |done|done|done| |].
  - unfold site, save_site. simpl. by rewrite Hkey, lookup_insert_eq.
  - intros u Hu. unfold site, save_site. simpl. by rewrite Hkey, lookup_insert_ne.
  - eapply (world_ok_save_site w _ (set_bindings _ _)); simpl; try done. by rewrite Hkey.
Qed.
End BindTheorems.

Section SwitchTheorems.
Context {T : Type} `{EX : !Extern, NT : !NodeTokenStore T, EL : !ExternLaws, TL : !TokenLaws T}.

Lemma primary_of_ok x :
  bindings_ok (bindings x) →
  ∃ p, primary_site_binding x = Some p ∧ p ∈ bindings x ∧ is_primary p.
Proof.
  intros [_ _ Hone]. unfold primary_site_binding.
  destruct (find_where is_primary (bindings x)) as [p|] eqn:Hp.
  - apply find_where_Some in Hp. by exists p.
  - apply find_where_None in Hp. destruct (filter is_primary (bindings x)) as [|q l] eqn:Hf; [done|].
    assert (q ∈ filter is_primary (bindings x)) as [Hq Hin]%list_elem_of_filter
      by (rewrite Hf; by left).
    rewrite Forall_forall in Hp. by destruct (Hp q Hin).
Qed.

Lemma primary_of_head x b :
  head (bindings x) = Some b → is_primary b → primary_site_binding x = Some b.
Proof.
  unfold primary_site_binding. destruct (bindings x) as [|c l]; [done|]. intros [= ->] Hb.
  by rewrite find_where_cons, decide_True.
Qed.

(** The node a switch goes to when none is named: the first standby of the list that is
    not the current primary, or else, when there is no such standby, the first bound node
    that is not the current primary. *)
Definition next_in_line (current : option Uuid) (bs : list SiteBindingRecord) (t : Uuid) : Prop :=
  ∃ before b after, bs = before ++ b :: after ∧ t = binding_node_id b ∧ current ≠ Some t
    ∧ (binding_role b = "standby"
         ∧ (∀ c, c ∈ before → binding_role c = "standby" → current = Some (binding_node_id c))
       ∨ (∀ c, c ∈ bs → binding_role c = "standby" → current = Some (binding_node_id c))
         ∧ ∀ c, c ∈ before → current = Some (binding_node_id c)).

(** The node a request asks for. *)
Definition requested_target (request : SwitchSitePrimaryRequest) (current : option Uuid)
    (bs : list SiteBindingRecord) (t : Uuid) : Prop :=
  match sw_target_node_id request with
  | Some named => t = named
  | None => next_in_line current bs t
  end.

(** The standby the policies get: a standby other than the primary, of the least priority
    number; none when there is no other standby. *)
Definition policy_standby (bs : list SiteBindingRecord) (primary : Uuid) (standby : option Uuid) : Prop :=
  match standby with
  | Some u => ∃ b, b ∈ bs ∧ binding_node_id b = u ∧ u ≠ primary ∧ binding_role b = "standby"
      ∧ ∀ c, c ∈ bs → binding_node_id c ≠ primary → binding_role c = "standby" →
          (binding_priority b ≤ binding_priority c)%Z
  | None => ∀ c, c ∈ bs → binding_role c = "standby" → binding_node_id c = primary
  end.

Lemma default_target_next current bs t :
  default_switch_target current bs = Some t → next_in_line current bs t.
Proof.
  unfold default_switch_target. rewrite fmap_Some, find_where_filter. intros (b & Hb & ->).
  unfold or_else in Hb. destruct (find_where (λ x, _ ∧ is_standby x) bs) as [c|] eqn:Hc.
  - simplify_eq. apply find_where_first in Hc as (l & k & -> & [Hcur Hst] & Hfirst).
    exists l, b, k. split_and!; [done..|]. left. split; [done|]. intros c Hin Hs.
    apply dec_stable. intros Hne. apply (Hfirst c Hin). done.
  - apply find_where_None in Hc. rewrite Forall_forall in Hc.
    apply find_where_first in Hb as (l & k & -> & Hcur & Hfirst).
    exists l, b, k. split_and!; [done..|]. right. split.
    + intros c Hin Hs. apply dec_stable. intros Hne. by apply (Hc c Hin).
    + intros c Hin. apply dec_stable. intros Hne. by apply (Hfirst c Hin).
Qed.

Lemma select_standby_spec bs primary :
  policy_standby bs primary (select_next_failover_policy_standby bs primary).
Proof.
  unfold select_next_failover_policy_standby. destruct (min_by _ _) as [b|] eqn:Hb; simpl.
  - pose proof (min_by_elem _ _ _ Hb) as [[Hne Hst] Hin]%list_elem_of_filter.
    exists b. split_and!; [done..|]. intros c Hc Hcne Hcst.
    pose proof (min_by_le _ _ _ c Hb) as Hle. unfold cmp_on in Hle.
    apply Z.compare_le_iff, Hle, list_elem_of_filter. done.
  - apply min_by_None in Hb. intros c Hc Hst. apply dec_stable. intros Hne.
    apply (not_elem_of_nil c). rewrite <-Hb. by apply list_elem_of_filter.
Qed.

(** Where a switch goes: an existing node if one is named, else the next in line. *)
Lemma switch_target_Ok request current bs (w : World T) t w' :
  switch_target request current bs w = (Ok t, w') →
  w' = w ∧ requested_target request current bs t
  ∧ (is_Some (sw_target_node_id request) → is_Some (node (repo w) t)).
Proof.
  unfold switch_target, requested_target.
  destruct (sw_target_node_id request) as [t'|]; intros H; hub_inv.
  - subst. split; [done|]. split; [done|]. intros _. by apply not_eq_None_Some.
  - split; [done|]. split; [by apply default_target_next|]. by intros [].
Qed.

(** C29: A successful switch of a site whose bindings are in order goes to the node
    the request names, which exists, or, when it names none, to the first standby
    other than the current primary (the first other bound node when there is no such
    standby); it makes that node its only primary, reports the old one, keeps every other bound node as
    a standby (the old primary unless the request drops it), renumbers the priorities to 100,
    200, ..., bumps the version, publishes the site, and gives every node now
    bound, as its latest release, a release of the site for exactly those nodes. *)
Theorem switch_site_primary_effect sid request (w : World T) x resp w' :
  world_ok w → versions_fresh w → (0 ≤ release_counter w < u64_max)%Z →
  site (repo w) sid = Some x → bindings_ok (bindings x) →
  (100 * (Z.of_nat (length (bindings x)) + 3) ≤ i32_max)%Z →
  switch_site_primary sid request w = (Ok resp, w') →
  let keep := default true (sw_keep_previous_as_standby request) in
  ∃ p x', p ∈ bindings x ∧ is_primary p
    ∧ sp_previous_primary_node_id resp = Some (binding_node_id p)
    ∧ sp_current_primary_node_id resp ≠ binding_node_id p
    ∧ requested_target request (Some (binding_node_id p)) (bindings x) (sp_current_primary_node_id resp)
    ∧ (is_Some (sw_target_node_id request) → is_Some (node (repo w) (sp_current_primary_node_id resp)))
    ∧ site (repo w') sid = Some x'
    ∧ bindings_ok (bindings x')
    ∧ (binding_node_id <$> primary_site_binding x') = Some (sp_current_primary_node_id resp)
    ∧ (∀ n, n ∈ binding_node_id <$> bindings x' ↔
         n = sp_current_primary_node_id resp
         ∨ n ∈ binding_node_id <$> bindings x ∧ (n = binding_node_id p → keep = true))
    ∧ binding_priority <$> bindings x' = ladder 100 (length (bindings x'))
    ∧ sp_next_standby_node_id resp = (binding_node_id <$> head (tail (bindings x')))
    ∧ site_version x' = wrap_u32 (site_version x + 1) ∧ site_status x' = Published
    ∧ (∀ n, n ∈ binding_node_id <$> bindings x' →
         serves (repo w') "site" sid (binding_node_id <$> bindings x') n)
    ∧ world_ok w'.
Proof.
  intros Hw Hfresh Hcnt Hx Hok Hlen H keep. unfold switch_site_primary in H.
  apply bind_Ok in H as (? & ? & [-> ->]%read_Ok & H).
  apply bind_Ok in H as (x0 & ? & [Hx0 ->]%get_or_Ok & H).
  rewrite Hx in Hx0. injection Hx0 as <-.
  apply bind_Ok in H as (? & ? & [_ ->]%require_Ok & H).
  destruct (primary_of_ok x Hok) as (p & Hp & Hpin & Hprim). rewrite Hp in H. simpl in H.
  apply bind_Ok in H as (t & w1 & (-> & Htarget & Hnode)%switch_target_Ok & H).
  apply bind_Ok in H as (? & ? & [Hne%bool_decide_eq_true ->]%require_Ok & H).
  assert (binding_node_id p ≠ t) as Hpt by congruence. clear Hne. fold keep in H.
  set (bs := switched_bindings t (Some (binding_node_id p)) keep (bindings x)) in H.
  set (xs := set_site_version _ _) in H.
  apply bind_Ok in H as (? & w2 & ->%write_Ok & H).
  apply bind_Ok in H as (saved & w3 & Hrel & [-> ->]%ret_Ok).
  pose proof (list_elem_of_fmap_2 binding_node_id _ _ Hpin) as Hpn.
  destruct (switched_bindings_spec t _ keep (bindings x) Hok Hpt Hpn Hlen)
    as (Hok' & Hhead & Hnodes & Hpri).
  pose proof (switched_next_standby t _ keep (bindings x) Hok Hpt Hpn Hlen) as Hnext.
  fold bs in Hok', Hhead, Hnodes, Hpri, Hnext. clearbody bs.
  pose proof (site_keyed w _ _ Hw Hx) as Hkey.
  assert (world_ok (set_repo (save_site xs (repo w)) w)) as Hw1.
  { eapply (world_ok_save_site w x xs); simpl; try done. by rewrite Hkey. }
  apply create_release_run in Hrel as (xr & Hx2 & Hrel); [|done|exact Hfresh|exact Hcnt].
  unfold site, save_site in Hx2. simpl in Hx2. rewrite Hkey, lookup_insert_eq in Hx2.
  injection Hx2 as <-. simpl in Hrel. rewrite Hkey in Hrel.
  destruct Hrel as (Hserve & _ & _ & Hsite & Hw').
  exists p. eexists. split_and!; [done|done|done|done|exact Htarget|exact Hnode|exact Hsite|exact Hok'|..];
    try done.
  - by erewrite primary_of_head by done.
  - simpl. rewrite decide_False; [done|]. by destruct bs.
Qed.
End SwitchTheorems.

(** ** Examples *)

Definition demo_site_request : CreateSiteRequest :=
  mkCreateSite None "Shop" "Shop.example.org" 443 "HTTPS" true demo_config.

Lemma site_codes_bound : (Z.of_nat (size (site_ids_by_code (repo site_world))) < u32_max)%Z.
Proof. vm_compute. reflexivity. Qed.

(** The code [shop] is taken, so the second shop is [shop-2]. *)
Lemma create_site_effect_witness :
  (create_site demo_site_request site_world).1 = Ok (mkSiteResponse 1005 "shop-2" 1 "draft")
  ∧ world_ok (create_site demo_site_request site_world).2.
Proof.
  pose proof (create_site_effect demo_site_request site_world site_world_ok site_codes_bound) as H.
  assert ((create_site demo_site_request site_world).1 = Ok (mkSiteResponse 1005 "shop-2" 1 "draft"))
    as Hr by (vm_compute; reflexivity).
  split; [exact Hr|].
  destruct (create_site demo_site_request site_world) as [r w']. simpl in Hr. subst r. apply H.
Defined.

Definition second_node : CreateNodeRequest := mkCreateNode "edge-b" "Edge B" "cn-east" "lab" VNull.
Definition two_nodes_world : World MemoryTokenState := (create_node second_node site_world).2.

Lemma two_nodes_world_ok : world_ok two_nodes_world.
Proof.
  apply (create_node_ok second_node site_world (mkCreateNodeResponse 1005 "boot-1006"));
    [apply site_world_ok|vm_compute; reflexivity].
Qed.

Definition demo_items : list SiteBindingItem :=
  [mkBindingItem 1005 " Standby" 20 None None None; mkBindingItem 1000 "PRIMARY" 10 None None None].
Definition demo_bindings : list SiteBindingRecord :=
  [mkBinding 1000 "primary" 10; mkBinding 1005 "standby" 20].

Lemma normalize_site_bindings_iff_witness :
  normalize_site_bindings demo_items = Ok demo_bindings ∧ bindings_ok demo_bindings.
Proof.
  assert (normalize_site_bindings demo_items = Ok demo_bindings) as H by (vm_compute; reflexivity).
  split; [exact H|]. apply (proj2 (normalize_site_bindings_iff demo_items demo_bindings) H).
Defined.

Definition bound_world : World MemoryTokenState := (bind_site_nodes 1004 demo_items two_nodes_world).2.

Lemma bind_site_nodes_effect_witness :
  site (repo bound_world) 1004 = Some (set_bindings demo_bindings demo_site).
Proof.
  destruct (proj2 (bind_site_nodes_effect 1004 demo_items two_nodes_world) two_nodes_world_ok
              (1004%Z, 2) bound_world) as (x & bs & Hx & Hbs & Hx' & _).
  - vm_compute. reflexivity.
  - rewrite Hx'. vm_compute in Hx, Hbs. injection Hx as <-. injection Hbs as <-. reflexivity.
Defined.

Definition bound_site : SiteRecord := set_bindings demo_bindings demo_site.

Lemma bound_world_ok : world_ok bound_world.
Proof.
  apply (world_ok_save_site two_nodes_world demo_site bound_site bound_world);
    [apply two_nodes_world_ok|vm_compute; reflexivity..|apply Nat.leb_le; vm_compute; reflexivity].
Qed.

Lemma demo_bindings_ok : bindings_ok demo_bindings.
Proof.
  split; [by apply (bool_decide_unpack _); vm_compute| |done].
  repeat constructor; vm_compute; tauto.
Qed.

Definition demo_switch : SwitchSitePrimaryRequest := mkSwitch None None None.

Lemma switch_site_primary_effect_witness :
  ∃ x', site (repo (switch_site_primary 1004 demo_switch bound_world).2) 1004 = Some x'
    ∧ (binding_node_id <$> primary_site_binding x') = Some 1005%Z.
Proof.
  destruct (switch_site_primary_effect 1004 demo_switch bound_world bound_site
    (mkSwitchResponse 1004 (Some 1000%Z) 1005 (Some 1000%Z) 2 1007 "rel-site-2-001")
    (switch_site_primary 1004 demo_switch bound_world).2)
    as (p & x' & _ & _ & _ & _ & _ & _ & Hx' & _ & Hprim & _).
  - apply bound_world_ok.
  - intros sc t k _. apply lookup_empty.
  - vm_compute. split; [discriminate|reflexivity].
  - vm_compute. reflexivity.
  - apply demo_bindings_ok.
  - vm_compute. discriminate.
  - vm_compute. reflexivity.
  - exists x'. split; [exact Hx'|exact Hprim].
Defined.

Definition blank_update : UpdateSiteRequest :=
  mkUpdateSite "Shop" " " 443 "https" true demo_config.

(** Editing a site does not check what creating it does: a site can be given
    a blank domain, with which no site can be created.  A switch of such a site
    then fails after its bindings have been rewritten: the caller gets an internal
    error, the stored primary has changed, and no release was made of it. *)
Theorem blank_domain_strands_switch :
  (create_site (mkCreateSite None "Shop" " " 443 "https" true demo_config) bound_world).1
    = Err (bad_request "domain is required")
  ∧ ∃ r w1 e w2 x,
      update_site 1004 blank_update bound_world = (Ok r, w1)
      ∧ switch_site_primary 1004 demo_switch w1 = (Err e, w2)
      ∧ e = internal "site domain cannot be empty"
      ∧ site (repo w2) 1004 = Some x
      ∧ (binding_node_id <$> primary_site_binding x) = Some 1005%Z
      ∧ releases (repo w2) = releases (repo bound_world).
Proof.
  split; [vm_compute; reflexivity|].
  eexists _, (update_site 1004 blank_update bound_world).2, _,
    (switch_site_primary 1004 demo_switch (update_site 1004 blank_update bound_world).2).2, _.
  split_and!; vm_compute; reflexivity.
Qed.
