(* ===== verification/HubDns.v ===== *)
(** * DNS providers and zones (apps/hub-api/src/service.rs, crates/dns-provider)

    The registry of provider accounts, the zones found through them, and the
    synchronisation of the zones with what a provider reports. *)

From stdpp Require Import prelude strings pretty gmap sorting.
From Stdlib Require Import Ascii.
From S2P Require Import Prelude RustStr Json Extern AppError Domain Records Store TokenStore Hub HubNodes.

(** ** Providers (crates/dns-provider) *)

Record ProviderZone := mkProviderZone {
  pz_zone_id : string;
  pz_zone_name : string;
  pz_status : string;
}.

Record ProviderConfig := mkProviderConfig {
  pc_provider_type : string;
  pc_api_endpoint : option string;
  pc_credentials : Value;
}.

Record CloudflareConfig := mkCloudflareConfig {
  api_token : string;
  api_base : string;
}.

(** [CloudflareConfig::from_provider_config]. *)
Definition from_provider_config (config : ProviderConfig) : Result CloudflareConfig string :=
  let? token :=
    match get_str (pc_credentials config) "api_token" with
    | Some t => if is_empty (trim t) then Err "cloudflare api_token is required" else Ok t
    | None => Err "cloudflare api_token is required"
    end in
  Ok (mkCloudflareConfig token
        (default "https://api.cloudflare.com/client/v4" (pc_api_endpoint config))).

(** What the provider code calls: the printer and the parser of [serde_json],
    and the answer of the Cloudflare zones API at a given moment. *)
Class DnsExtern := {
  json_to_string : Value → string;
  json_from_str : string → Result Value string;
  cloudflare_zones : nat → CloudflareConfig → list string → Result (list ProviderZone) string;
}.

(** [NoopDnsProvider::list_zones]. *)
Definition noop_list_zones (names : list string) : list ProviderZone :=
  (λ name, mkProviderZone ("noop-" +:+ name) name "active") <$> names.

(** [build_provider(config)?.list_zones(names)]. *)
Definition provider_list_zones `{!DnsExtern} (moment : nat) (config : ProviderConfig)
    (names : list string) : Result (list ProviderZone) string :=
  if decide (pc_provider_type config = "cloudflare") then
    let? cloudflare := from_provider_config config in
    cloudflare_zones moment cloudflare names
  else if decide (pc_provider_type config = "noop" ∨ pc_provider_type config = "custom")
  then Ok (noop_list_zones names)
  else Err ("unsupported dns provider type: " +:+ pc_provider_type config).

(** ** Requests and responses (crates/protocol) *)

Record CreateDnsProviderRequest := mkCreateProvider {
  cp_name : string;
  cp_provider_type : string;
  cp_api_endpoint : option string;
  cp_credentials : Value;
}.

Record CreateDnsProviderResponse := mkProviderResponse {
  pr_provider_id : Uuid;
  pr_name : string;
  pr_status : string;
}.

Record DeleteDnsProviderResponse := mkDeletedProvider {
  dp_provider_id : Uuid;
  dp_name : string;
  dp_deleted : bool;
}.

Record DnsProviderOverview := mkProviderOverview {
  po_provider_id : Uuid;
  po_name : string;
  po_provider_type : string;
  po_api_endpoint : option string;
  po_status : string;
  po_created_at : DateTime;
}.

Record SyncDnsZonesRequest := mkSync {
  sync_provider_id : Uuid;
  zone_names : list string;
}.

Record SyncDnsZonesResponse := mkSynced {
  synced_provider_id : Uuid;
  synced_zone_ids : list Uuid;
}.

Record DnsZoneOverview := mkZoneOverview {
  zo_zone_id : Uuid;
  zo_provider_id : Uuid;
  zo_zone_name : string;
  zo_status : string;
  zo_created_at : DateTime;
}.

Record UpdateDnsZoneStatusResponse := mkZoneStatus {
  uz_zone_id : Uuid;
  uz_zone_name : string;
  uz_status : string;
}.

Record DeleteDnsZoneResponse := mkDeletedZone {
  dz_zone_id : Uuid;
  dz_zone_name : string;
  dz_deleted : bool;
}.

(** ** Helpers *)

Definition validate_dns_provider_type (provider_type : string) : Fallible unit :=
  if decide (provider_type ∈ ["cloudflare"; "alidns"; "route53"; "dnspod"; "custom"; "noop"])
  then Ok tt else Err (bad_request "unsupported dns provider type").

Definition provider_config_from_record `{!DnsExtern} (record : DnsProviderRecord) :
    Fallible ProviderConfig :=
  let? credentials := map_err internal (json_from_str (credential_encrypted record)) in
  Ok (mkProviderConfig (provider_type record) (api_endpoint record) credentials).

Definition provider_overview (p : DnsProviderRecord) : DnsProviderOverview :=
  mkProviderOverview (provider_id p) (provider_name p) (provider_type p) (api_endpoint p)
    (provider_status p) (provider_created_at p).

Definition zone_overview (z : DnsZoneRecord) : DnsZoneOverview :=
  mkZoneOverview (zone_id z) (zone_provider_id z) (zone_name z) (zone_status z)
    (zone_created_at z).

Definition set_zone_status (v : string) (z : DnsZoneRecord) : DnsZoneRecord :=
  mkDnsZone (zone_id z) (zone_provider_id z) (zone_name z) (external_zone_id z) v
    (zone_created_at z).

(** ** Handlers *)

Section Dns.
Context {T : Type} `{EX : !Extern, DX : !DnsExtern, NT : !NodeTokenStore T}.

Definition create_dns_provider (request : CreateDnsProviderRequest) :
    Hub T CreateDnsProviderResponse :=
  do! lift (validate_dns_provider_type (cp_provider_type request)) in
  let! known := read (λ s, dns_provider_by_name s (cp_name request)) in
  do! require (bool_decide (known = None)) (conflict "dns provider name already exists") in
  let! pid := new_v4 in
  let! now := utc_now in
  let p := mkDnsProvider pid (cp_name request) (cp_provider_type request)
             (cp_api_endpoint request) (json_to_string (cp_credentials request)) "active" now in
  do! write (save_dns_provider p) in
  ret (mkProviderResponse pid (provider_name p) (provider_status p)).

Definition update_dns_provider (pid : Uuid) (request : CreateDnsProviderRequest) :
    Hub T CreateDnsProviderResponse :=
  do! lift (validate_dns_provider_type (cp_provider_type request)) in
  let! found := read (λ s, dns_provider s pid) in
  let! existing := get_or found (not_found "dns provider not found") in
  let! duplicated := read (λ s, dns_provider_by_name s (cp_name request)) in
  do! require
        (match duplicated with Some p => bool_decide (provider_id p = pid) | None => true end)
        (conflict "dns provider name already exists") in
  let p := mkDnsProvider pid (cp_name request) (cp_provider_type request)
             (cp_api_endpoint request) (json_to_string (cp_credentials request))
             (provider_status existing) (provider_created_at existing) in
  do! write (save_dns_provider p) in
  ret (mkProviderResponse pid (provider_name p) (provider_status p)).

Definition hub_delete_dns_provider (pid : Uuid) : Hub T DeleteDnsProviderResponse :=
  let! found := read (λ s, dns_provider s pid) in
  let! p := get_or found (not_found "dns provider not found") in
  let! zones := read list_dns_zones in
  do! require (negb (bool_decide (Exists (λ z, zone_provider_id z = pid) zones)))
        (conflict "dns provider still owns synced zones; delete or disable those zones first") in
  do! write (delete_dns_provider pid) in
  ret (mkDeletedProvider pid (provider_name p) true).

Definition list_provider_overviews : Hub T (list DnsProviderOverview) :=
  let! ps := read list_dns_providers in
  ret (sort_by (cmp_on po_name String.compare) (provider_overview <$> ps)).

(** The loop of [sync_dns_zones] over the zones the provider reported. *)
Fixpoint sync_zones (pid : Uuid) (infos : list ProviderZone) (zone_ids : list Uuid) :
    Hub T (list Uuid) :=
  match infos with
  | [] => ret zone_ids
  | info :: infos' =>
      let! existing := read (λ s, dns_zone_by_provider_name s pid (pz_zone_name info)) in
      let! zid := match existing with Some z => ret (zone_id z) | None => new_v4 end in
      let! now := utc_now in
      let zone := mkDnsZone zid pid (pz_zone_name info) (pz_zone_id info) (pz_status info) now in
      do! write (save_dns_zone zone) in
      sync_zones pid infos' (zone_ids ++ [zid])
  end.

(** The provider is asked at the present moment. *)
Definition ask_provider (config : ProviderConfig) (names : list string) :
    Hub T (list ProviderZone) := λ w,
  (map_err bad_request (provider_list_zones (clock_next w) config names), w).

Definition sync_dns_zones (request : SyncDnsZonesRequest) : Hub T SyncDnsZonesResponse :=
  do! require (negb (bool_decide (zone_names request = [])))
        (bad_request "zone_names must not be empty") in
  let! found := read (λ s, dns_provider s (sync_provider_id request)) in
  let! p := get_or found (not_found "dns provider not found") in
  let! config := lift (provider_config_from_record p) in
  let! infos := ask_provider config (zone_names request) in
  do! require (negb (bool_decide (infos = []))) (not_found "no dns zones found from provider") in
  let! ids := sync_zones (sync_provider_id request) infos [] in
  ret (mkSynced (sync_provider_id request) ids).

Definition list_zone_overviews : Hub T (list DnsZoneOverview) :=
  let! zs := read list_dns_zones in
  ret (sort_by (cmp_on zo_zone_name String.compare) (zone_overview <$> zs)).

Definition update_dns_zone_status (zid : Uuid) (enabled : bool) :
    Hub T UpdateDnsZoneStatusResponse :=
  let! found := read (λ s, dns_zone s zid) in
  let! z := get_or found (not_found "dns zone not found") in
  let z := set_zone_status (if enabled then "active" else "disabled") z in
  do! write (save_dns_zone z) in
  ret (mkZoneStatus zid (zone_name z) (zone_status z)).

Definition hub_delete_dns_zone (zid : Uuid) : Hub T DeleteDnsZoneResponse :=
  let! found := read (λ s, dns_zone s zid) in
  let! z := get_or found (not_found "dns zone not found") in
  let! orders := read list_certificate_orders in
  do! require (negb (bool_decide (Exists (λ o, order_zone_id o = zid) orders)))
        (conflict "dns zone is still referenced by certificate orders") in
  do! write (delete_dns_zone zid) in
  ret (mkDeletedZone zid (zone_name z) true).
End Dns.

(** ** Synchronisation *)

(** A provider has at most one zone of a name. *)
Definition zones_unique (s : MemoryState) : Prop :=
  ∀ u v z z', dns_zones s !! u = Some z → dns_zones s !! v = Some z' →
    zone_provider_id z = zone_provider_id z' → zone_name z = zone_name z' → u = v.

(** No zone is lost, moved or renamed, and those of other providers are not
    touched at all. *)
Definition zones_kept (pid : Uuid) (s s' : MemoryState) : Prop :=
  ∀ u z, dns_zones s !! u = Some z →
    ∃ z', dns_zones s' !! u = Some z' ∧ zone_provider_id z' = zone_provider_id z
      ∧ zone_name z' = zone_name z ∧ (zone_provider_id z ≠ pid → z' = z).

(** The zone [info] is stored under [u], with what the provider reported. *)
Definition zone_stored (s : MemoryState) (pid : Uuid) (info : ProviderZone) (u : Uuid) : Prop :=
  ∃ z, dns_zones s !! u = Some z ∧ zone_id z = u ∧ zone_provider_id z = pid
    ∧ zone_name z = pz_zone_name info ∧ external_zone_id z = pz_zone_id info
    ∧ zone_status z = pz_status info.

#[export] Instance zones_kept_preorder pid : PreOrder (zones_kept pid).
Proof.
  split.
  - intros s u z Hz. by exists z.
  - intros s1 s2 s3 H1 H2 u z Hz. destruct (H1 u z Hz) as (z2 & Hz2 & Hp & Hn & Hsame).
    destruct (H2 u z2 Hz2) as (z3 & Hz3 & Hp' & Hn' & Hsame'). exists z3.
    split_and!; [done|congruence|congruence|]. intros Hne.
    rewrite Hsame' by congruence. by apply Hsame.
Qed.

Section DnsTheorems.
Context {T : Type} `{EX : !Extern, DX : !DnsExtern, NT : !NodeTokenStore T}.
Context `{EL : !ExternLaws, TL : !TokenLaws T}.
Implicit Types w : World T.

Lemma zone_lookup s pid n :
  match dns_zone_by_provider_name s pid n with
  | Some z => ∃ u, dns_zones s !! u = Some z ∧ zone_provider_id z = pid ∧ zone_name z = n
  | None => ∀ u z, dns_zones s !! u = Some z → ¬ (zone_provider_id z = pid ∧ zone_name z = n)
  end.
Proof.
  unfold dns_zone_by_provider_name. destruct (find_where _ _) as [z|] eqn:Hz.
  - apply find_where_Some in Hz as [[u Hu]%elem_of_values [Hp Hn]]. by exists u.
  - intros u z Hu. apply find_where_None in Hz. rewrite Forall_forall in Hz.
    apply Hz. apply elem_of_values. by exists u.
Qed.

Lemma used_ids_save_zone z s : used_ids (save_dns_zone z s) = {[ zone_id z ]} ∪ used_ids s.
Proof. unfold used_ids, save_dns_zone. simpl. rewrite dom_insert_L. set_solver. Qed.

Lemma used_ids_save_provider p s :
  used_ids (save_dns_provider p s) = {[ provider_id p ]} ∪ used_ids s.
Proof. unfold used_ids, save_dns_provider. simpl. rewrite dom_insert_L. set_solver. Qed.

Lemma save_dns_zone_ok z s : repo_ok s → repo_ok (save_dns_zone z s).
Proof. intros Hs. by eapply repo_step_ok, step_save_zone. Qed.

(** Storing a zone over the one of its name, or under a new id when there is
    none. *)
Lemma save_zone_kept s z :
  (∀ u z', dns_zones s !! u = Some z' → zone_provider_id z' = zone_provider_id z →
     zone_name z' = zone_name z → u = zone_id z) →
  (∀ z', dns_zones s !! zone_id z = Some z' →
     zone_provider_id z' = zone_provider_id z ∧ zone_name z' = zone_name z) →
  zones_unique s →
  zones_unique (save_dns_zone z s) ∧ zones_kept (zone_provider_id z) s (save_dns_zone z s).
Proof.
  intros Hkey Hslot Huniq. unfold zones_unique, zones_kept, save_dns_zone. simpl. split.
  - intros u v a b. rewrite !lookup_insert_Some.
    intros [[<- <-]|[Hu Ha]] [[<- <-]|[Hv Hb]] Hp Hn; [done|..].
    + symmetry. by eapply Hkey.
    + by eapply Hkey.
    + by eapply Huniq.
  - intros u a Ha. destruct (decide (u = zone_id z)) as [->|Hne].
    + destruct (Hslot _ Ha) as [Hp Hn]. exists z. rewrite lookup_insert_eq.
      split_and!; [done..|]. congruence.
    + exists a. by rewrite lookup_insert_ne.
Qed.

(** What the turns of the loop keep. *)
Definition sync_inv (pid : Uuid) (w w' : World T) : Prop :=
  world_ok w' ∧ zones_unique (repo w') ∧ zones_kept pid (repo w) (repo w')
  ∧ dns_providers (repo w') = dns_providers (repo w).

Lemma sync_one pid info rest acc w ids w' :
  world_ok w → zones_unique (repo w) →
  sync_zones pid (info :: rest) acc w = (Ok ids, w') →
  ∃ zid w1, sync_inv pid w w1 ∧ zone_stored (repo w1) pid info zid
    ∧ (∀ u z, dns_zones (repo w) !! u = Some z →
         ¬ (zone_provider_id z = pid ∧ zone_name z = pz_zone_name info) →
         dns_zones (repo w1) !! u = Some z)
    ∧ sync_zones pid rest (acc ++ [zid]) w1 = (Ok ids, w').
Proof.
  intros Hw Huniq H. cbn [sync_zones] in H.
  apply bind_Ok in H as (ex & ? & [-> ->]%read_Ok & H).
  apply bind_Ok in H as (zid & w1 & Hzid & H).
  apply bind_Ok in H as (now & w2 & Hnow & H). injection Hnow as <- <-.
  apply bind_Ok in H as (? & w3 & ->%write_Ok & H).
  set (z := mkDnsZone zid pid (pz_zone_name info) (pz_zone_id info) (pz_status info)
              (clock (clock_next w1))) in *.
  pose proof (zone_lookup (repo w) pid (pz_zone_name info)) as Hlook.
  assert (repo w1 = repo w ∧ tokens w1 = tokens w ∧ rng_next w ≤ rng_next w1
    ∧ (zid ∈ used_ids (repo w) ∨ ∃ i, i < rng_next w1 ∧ zid = rng i)
    ∧ (∀ u z', dns_zones (repo w) !! u = Some z' → zone_provider_id z' = pid →
         zone_name z' = pz_zone_name info → u = zid)
    ∧ (∀ z', dns_zones (repo w) !! zid = Some z' →
         zone_provider_id z' = pid ∧ zone_name z' = pz_zone_name info))
    as (Hr & Ht & Hrng & Hused & Hkey & Hslot).
  { destruct (dns_zone_by_provider_name _ _ _) as [z0|].
    - apply ret_Ok in Hzid as [-> ->]. destruct Hlook as (u & Hu & Hp & Hn).
      pose proof (zones_keyed _ (world_repo w Hw) _ _ Hu) as Hid. simpl in Hid. subst u.
      split_and!; [done..| | |].
      + left. apply elem_of_dom_2 in Hu. unfold used_ids. set_solver.
      + intros u z' Hz' Hp' Hn'. eapply Huniq; [done..|congruence|congruence].
      + intros z' Hz'. naive_solver.
    - injection Hzid as <- <-. simpl. split_and!; [done|done|lia| | |].
      + right. exists (rng_next w). split; [lia|done].
      + intros u z' Hz' Hp' Hn'. by destruct (Hlook _ _ Hz').
      + intros z' Hz'. destruct (world_fresh_ids w Hw (rng_next w)); [lia|].
        apply elem_of_dom_2 in Hz'. unfold used_ids. set_solver. }
  destruct (save_zone_kept (repo w) z Hkey Hslot Huniq) as [Huniq' Hkept].
  exists zid. eexists. split; [|split; [|split; [|exact H]]]; simpl; rewrite ?Hr.
  - split_and!; [|exact Huniq'|exact Hkept|done].
    eapply (world_ok_repo w); simpl; try done.
    + apply save_dns_zone_ok, world_repo, Hw.
    + intros u. rewrite used_ids_save_zone.
      intros [->%elem_of_singleton|]%elem_of_union; [exact Hused|auto].
  - exists z. unfold save_dns_zone. simpl. by rewrite lookup_insert_eq.
  - intros u z' Hz' Hne. unfold save_dns_zone. simpl. rewrite lookup_insert_ne; [done|].
    intros <-. by apply Hne, Hslot.
Qed.

Lemma sync_zones_run pid infos acc w ids w' :
  world_ok w → zones_unique (repo w) → sync_zones pid infos acc w = (Ok ids, w') →
  ∃ new, ids = acc ++ new ∧ sync_inv pid w w'
    ∧ (∀ u z, dns_zones (repo w) !! u = Some z →
         ¬ (zone_provider_id z = pid ∧ zone_name z ∈ pz_zone_name <$> infos) →
         dns_zones (repo w') !! u = Some z)
    ∧ length new = length infos
    ∧ (NoDup (pz_zone_name <$> infos) → Forall2 (zone_stored (repo w') pid) infos new).
Proof.
  revert acc w. induction infos as [|info rest IH]; intros acc w Hw Huniq H.
  { apply ret_Ok in H as [-> ->]. exists []. rewrite app_nil_r. by split_and!. }
  apply sync_one in H as (zid & w1 & (Hw1 & Huniq1 & Hkept1 & Hprov1) & Hst & Hframe1 & H); [|done..].
  destruct (IH _ _ Hw1 Huniq1 H) as (new & -> & (Hw' & Huniq' & Hkept' & Hprov') & Hframe & Hlen & Hall).
  exists (zid :: new). split_and!.
  - by rewrite <-app_assoc.
  - split_and!; [done|done|by etrans|congruence].
  - intros u z Hz Hne. rewrite fmap_cons, elem_of_cons in Hne. apply Hframe; [|tauto].
    apply Hframe1; [done|tauto].
  - simpl. by f_equal.
  - rewrite fmap_cons. intros [Hni Hnd]%NoDup_cons. constructor; [|by apply Hall].
    destruct Hst as (z & Hz & Hid & Hp & Hn & Hrest). exists z. split; [|done].
    apply Hframe; [done|]. rewrite Hn. tauto.
Qed.

Lemma never_fails_sync pid infos acc : never_fails (sync_zones (T:=T) pid infos acc).
Proof.
  revert acc. induction infos as [|info rest IH]; intros acc; cbn [sync_zones]; [apply never_fails_ret|].
  solve_atomic.
Qed.

Lemma pure_ask_provider config names : pure_step (ask_provider (T:=T) config names).
Proof. by intros w r w' [= <- <-]. Qed.

(** Synchronising zones changes nothing when it fails.  When it succeeds,
    the provider has at most one zone of each name; every zone known before keeps
    its id, owner and name, and those of other providers or not reported are
    untouched; and when the provider reports each name once, each reported zone
    is stored, under the id returned for it, with the reported status. *)
Theorem sync_dns_zones_effect request w :
  atomic_on_error (sync_dns_zones (T:=T) request)
  ∧ (world_ok w → zones_unique (repo w) →
     ∀ resp w', sync_dns_zones request w = (Ok resp, w') →
     ∃ p config infos,
       dns_provider (repo w) (sync_provider_id request) = Some p
       ∧ provider_config_from_record p = Ok config
       ∧ provider_list_zones (clock_next w) config (zone_names request) = Ok infos
       ∧ zones_unique (repo w') ∧ zones_kept (sync_provider_id request) (repo w) (repo w')
       ∧ (∀ u z, dns_zones (repo w) !! u = Some z →
            zone_name z ∉ pz_zone_name <$> infos → dns_zones (repo w') !! u = Some z)
       ∧ (NoDup (pz_zone_name <$> infos) →
            Forall2 (zone_stored (repo w') (sync_provider_id request)) infos (synced_zone_ids resp))
       ∧ world_ok w').
Proof.
  split.
  { unfold sync_dns_zones. pose proof pure_ask_provider. pose proof never_fails_sync.
    solve_atomic. }
  intros Hw Huniq resp w' H. unfold sync_dns_zones in H. hub_inv.
  rename select (dns_provider _ _ = _) into Hp.
  rename select (provider_config_from_record _ = _) into Hcfg.
  rename select (ask_provider _ _ _ = _) into Hask.
  rename select (sync_zones _ _ _ _ = _) into Hs.
  unfold ask_provider in Hask. injection Hask as Hask <-.
  destruct (provider_list_zones _ _ _) as [infos|] eqn:Hinfos; [|done]. injection Hask as <-.
  destruct (sync_zones_run _ _ _ _ _ _ Hw Huniq Hs)
    as (new & -> & (Hw' & Huniq' & Hkept & _) & Hframe & _ & Hall).
  subst resp. eexists _, _, infos. split_and!; [done..| | |done].
  - intros u z Hz Hn. apply Hframe; [done|tauto].
  - exact Hall.
Qed.
End DnsTheorems.

(** ** Examples *)

(** Accounts without credentials, which the [noop] provider does not need. *)
#[export] Instance demo_dns : DnsExtern := {|
  json_to_string _ := "{}";
  json_from_str s := if decide (s = "{}") then Ok (VObject []) else Err "expected value";
  cloudflare_zones _ _ _ := Err "cloudflare is not reachable";
|}.

Definition demo_provider : CreateDnsProviderRequest := mkCreateProvider "main" "noop" None (VObject []).
Definition provider_world : World MemoryTokenState := (create_dns_provider demo_provider world0).2.

Definition demo_record : DnsProviderRecord := mkDnsProvider 1000 "main" "noop" None "{}" "active" 0.

Lemma provider_world_ok : world_ok provider_world.
Proof.
  apply (world_ok_repo world0 (save_dns_provider demo_record (repo world0)));
    [apply world0_ok|vm_compute; reflexivity|reflexivity|..].
  - apply Nat.leb_le. vm_compute. reflexivity.
  - apply save_dns_provider_ok; [|apply repo_ok_empty].
    apply saveable_fresh; vm_compute; reflexivity.
  - intros u. rewrite used_ids_save_provider.
    intros [->%elem_of_singleton|]%elem_of_union; [|by left].
    right. exists 0. split; [apply Nat.ltb_lt; vm_compute; reflexivity|reflexivity].
Qed.

Definition demo_sync : SyncDnsZonesRequest := mkSync 1000 ["example.com"; "example.org"].

Lemma sync_dns_zones_effect_witness :
  (sync_dns_zones demo_sync provider_world).1 = Ok (mkSynced 1000 [1001%Z; 1002%Z])
  ∧ zones_unique (repo (sync_dns_zones demo_sync provider_world).2).
Proof.
  assert ((sync_dns_zones demo_sync provider_world).1 = Ok (mkSynced 1000 [1001%Z; 1002%Z])) as Hr
    by (vm_compute; reflexivity).
  split; [exact Hr|].
  destruct (proj2 (sync_dns_zones_effect demo_sync provider_world) provider_world_ok)
    with (resp := mkSynced 1000 [1001%Z; 1002%Z]) (w' := (sync_dns_zones demo_sync provider_world).2)
    as (p & config & infos & _ & _ & _ & Hu & _).
  - intros u v z z' Hz. discriminate Hz.
  - vm_compute. reflexivity.
  - exact Hu.
Defined.

Definition renamed_provider : CreateDnsProviderRequest :=
  mkCreateProvider "backup" "noop" None (VObject []).

(** Renaming a provider leaves its old name in the index: no provider has
    the old name any more, and still none can be created under it. *)
Theorem renamed_provider_blocks_name :
  let w := (update_dns_provider 1000 renamed_provider provider_world).2 in
  (update_dns_provider 1000 renamed_provider provider_world).1
    = Ok (mkProviderResponse 1000 "backup" "active")
  ∧ (po_name <$>
       default [] (match (list_provider_overviews w).1 with Ok l => Some l | Err _ => None end))
    = ["backup"]
  ∧ (create_dns_provider demo_provider w).1 = Err (conflict "dns provider name already exists").
Proof. vm_compute. split_and!; reflexivity. Qed.
