(* ===== verification/HubCerts.v ===== *)
(** * Certificate orders (apps/hub-api/src/service.rs)

    The names a certificate may have, the zone that covers one, and the life of
    a certificate order up to its hand-over to the DNS worker: creation, renewal
    of a site's certificate, retry and reset. *)

From stdpp Require Import prelude strings pretty gmap sorting.
From Stdlib Require Import Ascii.
From S2P Require Import Prelude RustStr Json Extern AppError Domain SiteConfig ConfigCompiler Records Store TokenStore Hub HubNodes HubReleases HubDns.

(** ** Requests and responses (crates/protocol) *)

Record CreateCertificateOrderRequest := mkCreateOrder {
  co_site_id : option Uuid;
  co_domain : option string;
  co_sans : list string;
  co_acme_provider : string;
  co_challenge_type : string;
  co_zone_id : Uuid;
}.

Record CreateCertificateOrderResponse := mkOrderResponse {
  or_order_id : Uuid;
  or_certificate_id : option Uuid;
  or_order_status : string;
  or_challenge_payload : Value;
}.

Record CertificateOrderOverview := mkOrderOverview {
  oo_order_id : Uuid;
  oo_site_id : option Uuid;
  oo_certificate_id : option Uuid;
  oo_zone_id : Uuid;
  oo_order_type : string;
  oo_acme_provider : string;
  oo_challenge_type : string;
  oo_order_status : string;
  oo_challenge_payload : Value;
  oo_error_message : option string;
  oo_certificate_expires_at : option DateTime;
  oo_next_renew_at : option DateTime;
  oo_created_at : DateTime;
}.

Record RenewSiteCertificateResponse := mkRenewed {
  rn_site_id : Uuid;
  rn_domain : string;
  rn_zone_id : Uuid;
  rn_order_id : Uuid;
  rn_certificate_id : option Uuid;
  rn_order_status : string;
}.

(** ** Names *)

Definition certificate_dns_domain (identifier : string) : string :=
  default identifier (strip_prefix "*." identifier).

Definition dns01_record_name (identifier : string) : string :=
  "_acme-challenge." +:+ certificate_dns_domain identifier.

(** The [valid] of the loop over the labels. *)
Definition valid_label (label : string) : bool :=
  negb (is_empty label) && negb (starts_with "-" label) && negb (ends_with "-" label)
  && forallb (λ c, is_ascii_alphanumeric c || Ascii.eqb c "-") (bytes label).

Definition normalize_certificate_identifier (raw : string) : Fallible string :=
  let value := to_ascii_lowercase (trim_end_matches "." (trim raw)) in
  if is_empty value then Err (bad_request "certificate domain is required")
  else if contains "://" value || contains "/" value || contains ":" value
  then Err (bad_request "certificate domain must be a dns name")
  else if contains "*" value && negb (starts_with "*." value)
  then Err (bad_request "wildcard certificate must use the left-most *. label")
  else
    let base := certificate_dns_domain value in
    if negb (contains "." base) then Err (bad_request "certificate domain must include a zone")
    else if forallb valid_label (split "." base) then Ok value
    else Err (bad_request "certificate domain contains an invalid label").

(** The loop of [normalize_certificate_sans]. *)
Fixpoint normalize_sans_loop (raw : list string) (seen : gset string) (sans : list string) :
    Fallible (list string) :=
  match raw with
  | [] => Ok sans
  | value :: raw' =>
      let? identifier := normalize_certificate_identifier value in
      if decide (identifier ∈ seen) then normalize_sans_loop raw' seen sans
      else normalize_sans_loop raw' ({[ identifier ]} ∪ seen) (sans ++ [identifier])
  end.

Definition normalize_certificate_sans (common_name : string) (raw_sans : list string) :
    Fallible (list string) :=
  normalize_sans_loop (common_name :: raw_sans) ∅ [].

Definition domain_matches_zone (domain zone_name : string) : bool :=
  let domain := to_ascii_lowercase (trim_end_matches "." (certificate_dns_domain domain)) in
  let zone_name := to_ascii_lowercase (trim_end_matches "." (trim zone_name)) in
  String.eqb domain zone_name || ends_with ("." +:+ zone_name) domain.

(** ** Orders *)

Definition next_certificate_renew_at (expires_at : option DateTime) (before_days : Z) :
    option DateTime :=
  (λ value, value - days (normalize_cert_auto_renew_before_days before_days))%Z <$> expires_at.

Definition is_failed_certificate_order_status (status : string) : bool :=
  bool_decide (status ∈ ["dns_challenge_failed"; "issue_failed"]).

Definition order_overview (order : CertificateOrderRecord) (before_days : Z) :
    CertificateOrderOverview :=
  mkOrderOverview (order_id order) (order_site_id order) (order_certificate_id order)
    (order_zone_id order) (order_type order) (acme_provider order) (challenge_type order)
    (order_status order) (challenge_payload order) (error_message order)
    (certificate_expires_at order)
    (next_certificate_renew_at (certificate_expires_at order) before_days)
    (order_created_at order).

(** An order the DNS worker is not done with. *)
Definition order_active (o : CertificateOrderRecord) : Prop :=
  order_status o ∉ ["issued"; "dns_challenge_failed"; "issue_failed"].

(** The orders that stand in the way of a renewal. *)
Definition blocks_renewal (sid : Uuid) (cid : option Uuid) (o : CertificateOrderRecord) : Prop :=
  (order_site_id o = Some sid ∨ (is_Some cid ∧ order_certificate_id o = cid)) ∧ order_active o.

#[export] Instance order_active_dec o : Decision (order_active o).
Proof. unfold order_active. apply _. Defined.
#[export] Instance blocks_renewal_dec sid cid o : Decision (blocks_renewal sid cid o).
Proof. unfold blocks_renewal. apply _. Defined.

(** The zones that can serve a name. *)
Definition serving_zone (name : string) (z : DnsZoneRecord) : Prop :=
  zone_status z = "active" ∧ domain_matches_zone name (zone_name z) = true.
#[export] Instance serving_zone_dec name z : Decision (serving_zone name z).
Proof. unfold serving_zone. apply _. Defined.

Definition zone_name_len (z : DnsZoneRecord) : nat := String.length (zone_name z).

(** ** Handlers *)

Section Certs.
Context {T : Type} `{EX : !Extern, NT : !NodeTokenStore T}.

(** [self.certificate_order_overview(order)]. *)
Definition certificate_order_overview (order : CertificateOrderRecord) :
    Hub T CertificateOrderOverview := λ w,
  (Ok (order_overview order (cert_auto_renew_before_days w)), w).

Definition issue_certificate_order (site_id certificate_id : option Uuid) (common_name : string)
    (sans : list string) (zone_id : Uuid) (zone_name acme_provider order_type : string) :
    Hub T CreateCertificateOrderResponse :=
  let! cid :=
    match certificate_id with
    | Some cid => ret cid
    | None =>
        let! cid := new_v4 in
        let! code := new_v4 in
        let! stub := new_v4 in
        let! now := utc_now in
        do! write (save_certificate
              (mkCertificate cid ("cert-" +:+ uuid_to_string code) common_name sans
                 ("stub-" +:+ uuid_to_string stub) "staging" None now)) in
        ret cid
    end in
  let! token := new_v4 in
  let payload := jobj
    [("zone_name", VString zone_name); ("identifier", VString common_name);
     ("sans", VArray (VString <$> sans));
     ("record_name", VString (dns01_record_name common_name)); ("record_type", VString "TXT");
     ("record_value", VString ("token-" +:+ uuid_to_string token)); ("ttl", jint 60)] in
  let! oid := new_v4 in
  let! now := utc_now in
  let order := mkOrder oid site_id (Some cid) zone_id order_type acme_provider "dns-01" payload
                 "pending_dns_challenge" None None now in
  do! write (save_certificate_order order) in
  ret (mkOrderResponse oid (order_certificate_id order) (order_status order) payload).

Definition create_certificate_order (request : CreateCertificateOrderRequest) :
    Hub T CreateCertificateOrderResponse :=
  do! require (bool_decide (co_challenge_type request = "dns-01"))
        (bad_request "only dns-01 challenge is implemented") in
  let! x := match co_site_id request with
            | Some sid =>
                let! found := read (λ s, site s sid) in
                let! x := get_or found (not_found "site not found") in
                ret (Some x)
            | None => ret None
            end in
  let named := (trim <$> co_domain request) ≫= (λ v, if is_empty v then None else Some v) in
  let! requested := get_or (or_else named (site_domain <$> x))
    (bad_request "domain is required for standalone certificate orders") in
  let! common_name := lift (normalize_certificate_identifier requested) in
  let! sans := lift (normalize_certificate_sans common_name (co_sans request)) in
  do! require (negb (1 <? length sans))
        (bad_request "real acme certificate orders currently support a single dns identifier") in
  let! found := read (λ s, dns_zone s (co_zone_id request)) in
  let! z := get_or found (not_found "dns zone not found") in
  do! require (bool_decide (zone_status z = "active")) (bad_request "dns zone must be active") in
  do! require (domain_matches_zone common_name (zone_name z))
        (bad_request "certificate domain is not covered by selected dns zone") in
  issue_certificate_order (site_id <$> x) None common_name sans (co_zone_id request)
    (zone_name z) (co_acme_provider request) "issue".

Definition renew_site_certificate (sid : Uuid) : Hub T RenewSiteCertificateResponse :=
  let! found := read (λ s, site s sid) in
  let! x := get_or found (not_found "site not found") in
  do! require (site_tls_enabled x && bool_decide (site_protocol x = Https))
        (bad_request "only https/tls-enabled sites can renew certificates") in
  let! certs := read (λ s, site_certificates s sid) in
  let cid := ref_certificate_id <$> head certs in
  let! orders := read list_certificate_orders in
  do! match find_where (blocks_renewal sid cid) orders with
      | Some o =>
          fail (conflict ("site already has an active certificate order "
                          +:+ uuid_to_string (order_id o) +:+ " in status " +:+ order_status o))
      | None => ret tt
      end in
  let! common_name := lift (normalize_certificate_identifier (site_domain x)) in
  let! zones := read list_dns_zones in
  let! z := get_or (max_by (cmp_on zone_name_len Nat.compare) (filter (serving_zone common_name) zones))
              (not_found "no matching dns zone found for site domain") in
  let! response := issue_certificate_order (Some (site_id x)) cid common_name [common_name]
                     (zone_id z) (zone_name z) "letsencrypt-production" "renew" in
  ret (mkRenewed sid (site_domain x) (zone_id z) (or_order_id response)
         (or_certificate_id response) (or_order_status response)).

Definition list_order_overviews : Hub T (list CertificateOrderOverview) := λ w,
  let orders := (λ o, order_overview o (cert_auto_renew_before_days w))
                  <$> list_certificate_orders (repo w) in
  (Ok (sort_by (cmp_rev (cmp_on oo_created_at Z.compare)) orders), w).

Definition requeue_certificate_order (order : CertificateOrderRecord) (action : string) :
    Hub T CertificateOrderOverview :=
  do! require (bool_decide (order_status order ≠ "issued"))
        (conflict ("cannot " +:+ action +:+ " an issued certificate order")) in
  let order := set_order_status "pending_dns_challenge" order in
  let order := set_challenge_payload (VObject []) order in
  let order := set_error_message None order in
  do! write (save_certificate_order order) in
  certificate_order_overview order.

Definition retry_certificate_order (oid : Uuid) : Hub T CertificateOrderOverview :=
  let! found := read (λ s, certificate_order s oid) in
  let! o := get_or found (not_found "certificate order not found") in
  do! require (is_failed_certificate_order_status (order_status o))
        (conflict "only failed certificate orders can be retried") in
  requeue_certificate_order o "retry".

Definition reset_certificate_order (oid : Uuid) : Hub T CertificateOrderOverview :=
  let! found := read (λ s, certificate_order s oid) in
  let! o := get_or found (not_found "certificate order not found") in
  do! require (bool_decide (order_status o ≠ "issued"))
        (conflict "issued certificate orders cannot be reset") in
  requeue_certificate_order o "reset".
End Certs.

(** ** Zones cover names label by label *)

(** The labels of a DNS name, a final dot and the case ignored. *)
Definition dns_labels (name : string) : list string :=
  split "." (to_ascii_lowercase (trim_end_matches "." name)).

(** A zone covers a certificate name exactly when the labels of the zone are
    the last labels of the name (of the name behind the [*.] of a wildcard): a
    zone never covers a name that only ends with the same characters. *)
Theorem domain_matches_zone_iff domain zone :
  domain_matches_zone domain zone = true
  ↔ dns_labels (trim zone) `suffix_of` dns_labels (certificate_dns_domain domain).
Proof.
  unfold domain_matches_zone, dns_labels. rewrite orb_true_iff, String.eqb_eq. apply split_suffix.
Qed.

(** ** Certificate names *)

(** A host name: two labels or more, of letters, digits and inner dashes; a
    certificate name may put a wildcard label in front. *)
Definition host_labels (labels : list string) : Prop :=
  2 ≤ length labels ∧ Forall (λ l, valid_label l = true) labels.

Definition certificate_name (v : string) : Prop :=
  ∃ labels, host_labels labels ∧ (v = join "." labels ∨ v = "*." +:+ join "." labels).

(** The characters of a host name. *)
Definition host_char (c : ascii) : bool := is_ascii_alphanumeric c || Ascii.eqb c "-".

Lemma contains_missing p s c : c ∈ bytes p → c ∉ bytes s → contains p s = false.
Proof.
  intros Hp Hs. apply not_true_iff_false. rewrite contains_spec. intros (a & b & ->).
  rewrite !bytes_app in Hs. set_solver.
Qed.

Lemma valid_label_chars l :
  valid_label l = true → l ≠ "" ∧ Forall (λ c, host_char c = true) (bytes l).
Proof.
  unfold valid_label. rewrite !andb_true_iff, negb_true_iff, is_empty_false, forallb_Forall. tauto.
Qed.

(** A host name has only host characters and dots. *)
Lemma join_host_chars labels c :
  Forall (λ l, valid_label l = true) labels → c ∈ bytes (join "." labels) →
  host_char c = true ∨ c = "."%char.
Proof.
  induction 1 as [|l labels Hl Hall IH]; [by intros ?%not_elem_of_nil|].
  apply valid_label_chars in Hl as [_ Hl]. rewrite Forall_forall in Hl.
  destruct labels as [|l' labels]; [intros Hc; left; by apply Hl|].
  rewrite join_cons, !bytes_app, !elem_of_app by done. intros [Hc|[Hc|Hc]].
  - left. by apply Hl.
  - right. by apply list_elem_of_singleton in Hc.
  - by apply IH.
Qed.

Lemma host_char_not c : host_char c = true → c ∉ ["/"; ":"; "*"; "."]%char.
Proof.
  intros Hc Hin. rewrite !elem_of_cons in Hin.
  destruct Hin as [->|[->|[->|[->|Hin]]]]; try discriminate Hc. by apply not_elem_of_nil in Hin.
Qed.

(** Labels are read back from a host name. *)
Lemma split_join labels :
  labels ≠ [] → Forall (λ l, valid_label l = true) labels → split "." (join "." labels) = labels.
Proof.
  intros Hne Hall. induction Hall as [|l labels Hl Hall IH]; [done|]. clear Hne.
  assert (split "." l = [l]) as Hone.
  { unfold split. rewrite split_list_no_sep; simpl; [by rewrite of_bytes_bytes|].
    apply valid_label_chars in Hl as [_ Hl]. rewrite Forall_forall in Hl.
    intros Hin%Hl%host_char_not. set_solver. }
  destruct labels as [|l' labels]; [done|].
  rewrite join_cons, split_sep, Hone, IH by done. done.
Qed.

Lemma host_name_no c labels :
  Forall (λ l, valid_label l = true) labels → c ∈ ["/"; ":"; "*"]%char → c ∉ bytes (join "." labels).
Proof.
  intros Hall Hc Hin. destruct (join_host_chars _ _ Hall Hin) as [H%host_char_not| ->]; set_solver.
Qed.

Lemma host_name_has_dot labels : host_labels labels → contains "." (join "." labels) = true.
Proof.
  intros [Hlen _]. destruct labels as [|l [|l' labels]]; simpl in Hlen; [lia|lia|].
  rewrite join_cons by done. apply contains_spec. by eexists _, _.
Qed.

Lemma contains_dot_labels s : contains "." s = true → 2 ≤ length (split "." s).
Proof.
  intros (a & b & ->)%contains_spec. rewrite split_sep, length_app.
  pose proof (split_nonempty "." a). pose proof (split_nonempty "." b).
  destruct (split "." a), (split "." b); simpl; done || lia.
Qed.

(** The checks of [normalize_certificate_identifier]. *)
Definition identifier_checks (value : string) : bool :=
  negb (is_empty value)
  && negb (contains "://" value || contains "/" value || contains ":" value)
  && negb (contains "*" value && negb (starts_with "*." value))
  && contains "." (certificate_dns_domain value)
  && forallb valid_label (split "." (certificate_dns_domain value)).

Lemma normalize_identifier_checks raw v :
  normalize_certificate_identifier raw = Ok v ↔
  v = to_ascii_lowercase (trim_end_matches "." (trim raw)) ∧ identifier_checks v = true.
Proof.
  unfold normalize_certificate_identifier, identifier_checks.
  set (value := to_ascii_lowercase _).
  split.
  - repeat match goal with |- context [if ?b then _ else _] => destruct b eqn:? end;
      try done; intros [= <-]; split; [done|].
    rewrite !andb_true_iff, !negb_true_iff.
    rename select (negb (contains "." _) = false) into Hdot. apply negb_false_iff in Hdot.
    by split_and!.
  - intros [-> H]. rewrite !andb_true_iff, !negb_true_iff in H.
    destruct H as [[[[-> ->] ->] ->] ->]. done.
Qed.

(** What passes the checks are the certificate names. *)
Lemma identifier_checks_spec v : identifier_checks v = true ↔ certificate_name v.
Proof.
  unfold identifier_checks. rewrite !andb_true_iff, !negb_true_iff, forallb_Forall. split.
  - intros [[[[_ _] _] Hdot] Hall]. exists (split "." (certificate_dns_domain v)).
    split; [split; [by apply contains_dot_labels|done]|]. rewrite join_split.
    unfold certificate_dns_domain. destruct (strip_prefix "*." v) as [b|] eqn:Hs; [right|by left].
    by apply strip_prefix_Some in Hs.
  - intros (labels & Hl & Hv). pose proof (host_name_has_dot labels Hl) as Hdot.
    destruct Hl as [Hlen Hall]. set (b := join "." labels) in *.
    assert (∀ c, c ∈ ["/"; ":"; "*"]%char → c ∉ bytes b) as Hno by (intros; by apply host_name_no).
    assert (certificate_dns_domain v = b ∧ v ≠ ""
      ∧ (contains "*" v && negb (starts_with "*." v)) = false
      ∧ (∀ c, c ∈ ["/"; ":"]%char → c ∉ bytes v)) as (Hbase & Hne & Hstar & Hnov).
    { assert (b ≠ "") as Hb by (intros ->; by vm_compute in Hdot).
      destruct Hv as [->| ->].
      - split_and!; [|done| |].
        + unfold certificate_dns_domain. destruct (strip_prefix "*." b) as [r|] eqn:Hs; [|done].
          apply strip_prefix_Some in Hs. destruct (Hno "*"%char); [set_solver|].
          rewrite Hs. set_solver.
        + rewrite (contains_missing "*" b "*"%char); [done|set_solver|apply Hno; set_solver].
        + intros c Hc. apply Hno. set_solver.
      - split_and!; [|done| |].
        + unfold certificate_dns_domain. destruct (strip_prefix "*." ("*." +:+ b)) as [r|] eqn:Hs.
          * apply strip_prefix_Some in Hs. by simplify_eq.
          * exfalso. assert (strip_prefix "*." ("*." +:+ b) = Some b) as Hs' by (by apply strip_prefix_Some).
            congruence.
        + assert (starts_with "*." ("*." +:+ b) = true) as -> by (apply starts_with_spec; by eexists).
          by rewrite andb_false_r.
        + intros c Hc. rewrite bytes_app, not_elem_of_app. split; [set_solver|]. apply Hno. set_solver. }
    rewrite Hbase, Hstar. split_and!; try done.
    + by apply is_empty_false.
    + rewrite (contains_missing "://" v "/"%char), (contains_missing "/" v "/"%char),
        (contains_missing ":" v ":"%char); try done; try set_solver; apply Hnov; set_solver.
    + subst b. rewrite split_join; [done| |done]. intros ->. simpl in Hlen. lia.
Qed.

Lemma trim_no_blanks s :
  (∀ c, c ∈ bytes s → Forall (λ p, c ∉ p) whitespace) → trim s = s.
Proof.
  intros Hall. apply trim_id; apply strip_any_None.
  - intros p r Hp Heq. destruct p as [|c p].
    { pose proof whitespace_nonempty as H. rewrite Forall_forall in H. by apply H in Hp. }
    assert (c ∈ bytes s) as Hc%Hall by (rewrite Heq; set_solver).
    rewrite Forall_forall in Hc. apply Hc in Hp. set_solver.
  - intros p r Hp Heq. destruct p as [|c p].
    { pose proof whitespace_rev_nonempty as H. rewrite Forall_forall in H. by apply H in Hp. }
    assert (c ∈ reverse (bytes s)) as Hc by (rewrite Heq; set_solver).
    rewrite elem_of_reverse in Hc. apply Hall in Hc.
    apply list_elem_of_fmap in Hp as (q & Hq & Hp). rewrite Forall_forall in Hc.
    apply Hc in Hp. apply Hp. rewrite <-(reverse_involutive q), <-Hq, elem_of_reverse. set_solver.
Qed.

(** The characters of a certificate name are not blanks. *)
Lemma name_char_table c :
  implb (host_char c || Ascii.eqb c "." || Ascii.eqb c "*")
    (forallb (λ p, negb (bool_decide (c ∈ p))) whitespace) = true.
Proof. destruct c as [[] [] [] [] [] [] [] []]; vm_compute; reflexivity. Qed.

Lemma name_char_blank c :
  host_char c = true ∨ c = "."%char ∨ c = "*"%char → Forall (λ p, c ∉ p) whitespace.
Proof.
  intros Hc. pose proof (name_char_table c) as H.
  assert (host_char c || Ascii.eqb c "." || Ascii.eqb c "*" = true) as Hb.
  { rewrite !orb_true_iff, !Ascii.eqb_eq. tauto. }
  rewrite Hb in H. apply forallb_Forall in H. eapply Forall_impl; [exact H|].
  intros p Hp. simpl in Hp. by apply negb_true_iff, bool_decide_eq_false in Hp.
Qed.

Lemma certificate_name_chars v c :
  certificate_name v → c ∈ bytes v → host_char c = true ∨ c = "."%char ∨ c = "*"%char.
Proof.
  intros (labels & [_ Hall] & [->| ->]).
  - intros [?|?]%join_host_chars; tauto.
  - rewrite bytes_app, elem_of_app. intros [Hc|[?|?]%join_host_chars]; [|tauto..].
    assert (c = "*"%char ∨ c = "."%char) by set_solver. tauto.
Qed.

(** A certificate name does not end with a dot. *)
Lemma last_host_name labels :
  labels ≠ [] → Forall (λ l, valid_label l = true) labels →
  last (bytes (join "." labels)) ≠ Some "."%char.
Proof.
  intros Hne Hall. destruct labels as [|l labels _] using rev_ind; [done|].
  apply Forall_app in Hall as [_ Hl]. apply Forall_cons in Hl as [Hl _].
  apply valid_label_chars in Hl as [Hl Hchars].
  assert (last (bytes (join "." (labels ++ [l]))) = last (bytes l)) as ->.
  { destruct labels as [|x labels]; [done|]. rewrite join_app, !bytes_app, !last_app by done.
    destruct (last (bytes (join "." [l]))) eqn:Hlast; [done|].
    apply last_None in Hlast. by rewrite bytes_nil in Hlast. }
  intros Hlast. rewrite Forall_forall in Hchars.
  assert ("."%char ∈ bytes l) as Hin by (by eapply last_Some_elem_of).
  by apply Hchars in Hin.
Qed.

Lemma trim_end_dot s : last (bytes s) ≠ Some "."%char → trim_end_matches "." s = s.
Proof.
  intros Hs. unfold trim_end_matches, trim_back_all. change (reverse <$> [["."%char]]) with [["."%char]].
  rewrite trim_front_id, reverse_involutive; [apply of_bytes_bytes|].
  apply strip_any_None. intros p r ->%list_elem_of_singleton Heq.
  apply Hs. by rewrite <-head_reverse, Heq.
Qed.

Lemma certificate_name_stable v :
  certificate_name v → to_ascii_lowercase v = v →
  to_ascii_lowercase (trim_end_matches "." (trim v)) = v.
Proof.
  intros Hv Hlow. rewrite trim_no_blanks.
  2: { intros c Hc. apply name_char_blank. by eapply certificate_name_chars. }
  rewrite trim_end_dot; [done|]. destruct Hv as (labels & [Hlen Hall] & [->| ->]).
  - apply last_host_name; [|done]. intros ->. simpl in Hlen. lia.
  - assert (labels ≠ []) as Hne by (intros ->; simpl in Hlen; lia).
    pose proof (last_host_name labels Hne Hall) as Hl.
    pose proof (host_name_has_dot labels (conj Hlen Hall)) as Hdot.
    rewrite bytes_app, last_app. destruct (last (bytes (join "." labels))) eqn:Hlast; [done|].
    apply last_None, bytes_nil in Hlast. rewrite Hlast in Hdot. discriminate Hdot.
Qed.

Lemma normalize_identifier_stable raw v :
  normalize_certificate_identifier raw = Ok v → normalize_certificate_identifier v = Ok v.
Proof.
  rewrite !normalize_identifier_checks. intros [Hv Hc]. split; [|done].
  rewrite certificate_name_stable; [done|by apply identifier_checks_spec|].
  by rewrite Hv, to_ascii_lowercase_idemp.
Qed.

(** A certificate name is accepted exactly when, trimmed, in lower case and
    without final dots, it is a host name of two or more labels made of letters,
    digits and inner dashes, possibly behind one left-most wildcard label; and an
    accepted name is its own normal form. *)
Theorem normalize_certificate_identifier_iff raw v :
  (normalize_certificate_identifier raw = Ok v
   ↔ v = to_ascii_lowercase (trim_end_matches "." (trim raw)) ∧ certificate_name v)
  ∧ (normalize_certificate_identifier raw = Ok v → normalize_certificate_identifier v = Ok v).
Proof.
  split; [by rewrite normalize_identifier_checks, identifier_checks_spec|].
  apply normalize_identifier_stable.
Qed.

(** ** Orders *)

Section CertTheorems.
Context {T : Type} `{EX : !Extern, NT : !NodeTokenStore T, EL : !ExternLaws, TL : !TokenLaws T}.
Implicit Types w : World T.

Lemma used_ids_save_order o s :
  used_ids (save_certificate_order o s) = {[ order_id o ]} ∪ used_ids s.
Proof. unfold used_ids, save_certificate_order. simpl. rewrite dom_insert_L. set_solver. Qed.

Lemma used_ids_save_certificate c s :
  used_ids (save_certificate c s) = {[ certificate_id c ]} ∪ used_ids s.
Proof. unfold used_ids, save_certificate. simpl. rewrite dom_insert_L. set_solver. Qed.

Lemma save_order_ok o s : repo_ok s → repo_ok (save_certificate_order o s).
Proof. intros Hs. by eapply repo_step_ok, step_save_order. Qed.

Lemma save_certificate_ok c s : repo_ok s → repo_ok (save_certificate c s).
Proof. intros Hs. by eapply repo_step_ok, step_save_certificate. Qed.

(** Filing an order: a new pending order, for the certificate given or a new
    one; nothing else of the orders, sites and zones changes. *)
Lemma issue_order_run sid cid nm sans zid zn acme ty w resp w' :
  world_ok w → issue_certificate_order sid cid nm sans zid zn acme ty w = (Ok resp, w') →
  ∃ o, certificate_orders (repo w') = <[or_order_id resp := o]> (certificate_orders (repo w))
    ∧ certificate_orders (repo w) !! or_order_id resp = None
    ∧ order_id o = or_order_id resp ∧ order_site_id o = sid ∧ order_zone_id o = zid
    ∧ order_certificate_id o = or_certificate_id resp ∧ order_type o = ty
    ∧ order_status o = "pending_dns_challenge" ∧ order_active o
    ∧ (∀ c, cid = Some c → or_certificate_id resp = Some c)
    ∧ sites (repo w') = sites (repo w) ∧ dns_zones (repo w') = dns_zones (repo w)
    ∧ site_certificate_refs (repo w') = site_certificate_refs (repo w)
    ∧ world_ok w'.
Proof.
  intros Hw H. unfold issue_certificate_order in H.
  apply bind_Ok in H as (c & w1 & Hc & H).
  assert (world_ok w1 ∧ certificate_orders (repo w1) = certificate_orders (repo w)
    ∧ sites (repo w1) = sites (repo w) ∧ dns_zones (repo w1) = dns_zones (repo w)
    ∧ site_certificate_refs (repo w1) = site_certificate_refs (repo w)
    ∧ (∀ c', cid = Some c' → c' = c)) as (Hw1 & Ho1 & Hs1 & Hz1 & Hr1 & Hcid).
  { destruct cid as [c0|]; hub_inv; [by split_and!; try congruence|]. simpl.
    split_and!; try done. eapply (world_ok_repo w); simpl; try done; [lia| |].
    - apply save_certificate_ok, world_repo, Hw.
    - intros u. rewrite used_ids_save_certificate.
      intros [->%elem_of_singleton|]%elem_of_union; [|auto]. right. subst c.
      exists (rng_next w). simpl. split; [lia|done]. }
  hub_inv. simplify_eq/=. rewrite Ho1. eexists. split_and!; try done.
  - rewrite <-Ho1. apply not_elem_of_dom. intros Hin.
    apply (world_fresh_ids w1 Hw1 (S (rng_next w1))); [lia|]. unfold used_ids. set_solver.
  - unfold order_active. simpl. set_solver.
  - intros c' Hc'. by rewrite (Hcid c' Hc').
  - eapply (world_ok_repo w1); simpl; try done; [lia| |].
    + apply save_order_ok, world_repo, Hw1.
    + intros u. rewrite used_ids_save_order. simpl.
      intros [->%elem_of_singleton|]%elem_of_union; [|auto]. right.
      exists (S (rng_next w1)). simpl. split; [lia|done].
Qed.

Lemma never_fails_issue sid cid nm sans zid zn acme ty :
  never_fails (issue_certificate_order (T:=T) sid cid nm sans zid zn acme ty).
Proof. unfold issue_certificate_order. solve_atomic. Qed.

(** The statuses in which the DNS worker is done with an order. *)
Definition order_finished (status : string) : Prop :=
  status = "issued" ∨ status = "dns_challenge_failed" ∨ status = "issue_failed".

Lemma order_active_iff o : order_active o ↔ ¬ order_finished (order_status o).
Proof. unfold order_active, order_finished. set_solver. Qed.

(** While an order of the site is in progress, a renewal is refused. *)
Lemma renew_refused sid x u o w :
  site (repo w) sid = Some x → site_tls_enabled x = true → site_protocol x = Https →
  certificate_orders (repo w) !! u = Some o → order_site_id o = Some sid →
  ¬ order_finished (order_status o) →
  ∃ msg, renew_site_certificate sid w = (Err (conflict msg), w).
Proof.
  intros Hx Htls Hp Ho Hsite Hact%order_active_iff.
  unfold renew_site_certificate, bind, read, get_or, lift, require.
  rewrite Hx. simpl. rewrite Htls, Hp. simpl.
  destruct (find_where_is_Some
    (blocks_renewal sid (ref_certificate_id <$> head (site_certificates (repo w) sid)))
    (list_certificate_orders (repo w))) as [o' Ho'].
  - exists o. split; [|by split; [left|]]. apply elem_of_values. by eexists.
  - rewrite Ho'. simpl. by eexists.
Qed.

#[local] Instance order_finished_dec status : Decision (order_finished status).
Proof. unfold order_finished. apply _. Defined.

(** No order of the site is in progress when the search for one finds nothing. *)
Lemma none_in_progress sid cid w u o :
  find_where (blocks_renewal sid cid) (list_certificate_orders (repo w)) = None →
  certificate_orders (repo w) !! u = Some o → order_site_id o = Some sid →
  order_finished (order_status o).
Proof.
  rewrite find_where_None, Forall_forall. intros Hnone Ho Hsite. apply dec_stable.
  intros Hact%order_active_iff. apply (Hnone o); [apply elem_of_values; by eexists|]. by split; [left|].
Qed.

(** C31: Renewing a site's certificate changes nothing when it fails.  When it
    succeeds the site serves HTTPS with TLS, the challenge goes to the active zone
    with the longest name among those that cover the domain, exactly one new
    pending order is filed, for the certificate the site has if it has one, and
    every earlier order of the site is issued or failed; and in whatever state the
    hub is later, as long as that order is on record for the site and neither
    issued nor failed, another renewal of the site, if it serves HTTPS with TLS, is
    refused with a conflict and changes nothing. *)
Theorem renew_certificate_effect sid w :
  atomic_on_error (renew_site_certificate (T:=T) sid)
  ∧ (world_ok w → ∀ resp w', renew_site_certificate sid w = (Ok resp, w') →
      ∃ x z o name,
        site (repo w) sid = Some x ∧ site_tls_enabled x = true ∧ site_protocol x = Https
        ∧ normalize_certificate_identifier (site_domain x) = Ok name
        ∧ dns_zone (repo w) (rn_zone_id resp) = Some z ∧ serving_zone name z
        ∧ (∀ u z', dns_zone (repo w) u = Some z' → serving_zone name z' →
             zone_name_len z' ≤ zone_name_len z)
        ∧ certificate_orders (repo w')
          = <[rn_order_id resp := o]> (certificate_orders (repo w))
        ∧ certificate_orders (repo w) !! rn_order_id resp = None
        ∧ order_site_id o = Some sid ∧ order_zone_id o = rn_zone_id resp
        ∧ order_type o = "renew" ∧ order_status o = "pending_dns_challenge"
        ∧ order_certificate_id o = rn_certificate_id resp
        ∧ (∀ c, head (site_certificates (repo w) sid) = Some c →
             rn_certificate_id resp = Some (ref_certificate_id c))
        ∧ (∀ u o', certificate_orders (repo w) !! u = Some o' → order_site_id o' = Some sid →
             order_finished (order_status o'))
        ∧ (∀ w2 x2 o2, site (repo w2) sid = Some x2 → site_tls_enabled x2 = true →
             site_protocol x2 = Https →
             certificate_orders (repo w2) !! rn_order_id resp = Some o2 →
             order_site_id o2 = Some sid → ¬ order_finished (order_status o2) →
             ∃ msg, renew_site_certificate sid w2 = (Err (conflict msg), w2))
        ∧ world_ok w').
Proof.
  split.
  { unfold renew_site_certificate. pose proof never_fails_issue. solve_atomic. }
  intros Hw resp w' H. unfold renew_site_certificate in H.
  apply bind_Ok in H as (? & ? & [-> ->]%read_Ok & H).
  apply bind_Ok in H as (x & ? & [Hx ->]%get_or_Ok & H).
  apply bind_Ok in H as (? & ? & [[Htls Hp%bool_decide_eq_true]%andb_true_iff ->]%require_Ok & H).
  apply bind_Ok in H as (? & ? & [-> ->]%read_Ok & H).
  apply bind_Ok in H as (? & ? & [-> ->]%read_Ok & H).
  set (cid := ref_certificate_id <$> _) in H.
  apply bind_Ok in H as (? & wf & Hf & H).
  destruct (find_where (blocks_renewal sid cid) _) as [?|] eqn:Hnone; [done|]. apply ret_Ok in Hf as [_ ->].
  apply bind_Ok in H as (name & ? & [Hname ->]%lift_Ok & H).
  apply bind_Ok in H as (? & ? & [-> ->]%read_Ok & H).
  apply bind_Ok in H as (z & ? & [Hz ->]%get_or_Ok & H).
  apply bind_Ok in H as (r & w1 & Hiss & [-> ->]%ret_Ok).
  pose proof (max_by_elem _ _ _ Hz) as [Hserve [u Hu]%elem_of_values]%list_elem_of_filter.
  pose proof (zones_keyed _ (world_repo w Hw) _ _ Hu) as Hzid. simpl in Hzid. subst u.
  apply issue_order_run in Hiss as (o & Ho & Hnew & Hoid & Hosite & Hozone & Hocert & Hotype & Host
    & Hact & Hcid & Hsites & _ & _ & Hw'); [|done].
  pose proof (site_keyed w _ _ Hw Hx) as Hkey.
  exists x, z, o, name. simpl. split_and!; try done.
  - intros u z' Hz' Hs'. assert (z' ∈ filter (serving_zone name) (list_dns_zones (repo w))) as Hin.
    { apply list_elem_of_filter. split; [done|]. apply elem_of_values. by eexists. }
    pose proof (max_by_ge _ _ _ _ Hz Hin) as Hle. unfold cmp_on in Hle.
    by apply Nat.compare_le_iff in Hle.
  - congruence.
  - intros c Hc. apply Hcid. subst cid. by rewrite Hc.
  - intros u o'. by apply (none_in_progress sid cid).
  - intros w2 x2 o2 Hx2 Htls2 Hp2 Ho2 Hs2 Hst2. eapply (renew_refused sid x2 _ o2); eauto.
Qed.

(** What putting an order back in the queue makes of it. *)
Definition requeued (o : CertificateOrderRecord) : CertificateOrderRecord :=
  set_error_message None (set_challenge_payload (VObject [])
    (set_order_status "pending_dns_challenge" o)).

End CertTheorems.

(** ** Examples *)

Definition demo_zone : DnsZoneRecord := mkDnsZone 1005 900 "example.com" "ext" "active" 0.

Definition zone_world : World MemoryTokenState :=
  set_repo (save_dns_zone demo_zone (repo site_world)) (set_rng_next 6 site_world).

Lemma zone_world_ok : world_ok zone_world.
Proof.
  apply (world_ok_repo site_world (save_dns_zone demo_zone (repo site_world)));
    [apply site_world_ok|reflexivity|reflexivity|..].
  - apply Nat.leb_le. vm_compute. reflexivity.
  - apply save_dns_zone_ok, world_repo, site_world_ok.
  - intros u. rewrite used_ids_save_zone.
    intros [->%elem_of_singleton|]%elem_of_union; [|by left].
    right. exists 5. split; [apply Nat.ltb_lt; vm_compute; reflexivity|reflexivity].
Qed.

Definition demo_renewed : RenewSiteCertificateResponse :=
  mkRenewed 1004 "shop.example.com" 1005 1010 (Some 1006%Z) "pending_dns_challenge".

Definition renewed_world : World MemoryTokenState := (renew_site_certificate 1004 zone_world).2.

Lemma renew_certificate_effect_witness :
  (renew_site_certificate 1004 zone_world).1 = Ok demo_renewed
  ∧ ∃ msg, renew_site_certificate 1004 renewed_world = (Err (conflict msg), renewed_world).
Proof.
  split; [vm_compute; reflexivity|].
  destruct (proj2 (renew_certificate_effect 1004 zone_world) zone_world_ok demo_renewed renewed_world)
    as (x & z & o & name & _ & _ & _ & _ & _ & _ & _ & _ & _ & _ & _ & _ & _ & _ & _ & _ & Hagain & _).
  - vm_compute. reflexivity.
  - eapply Hagain; [vm_compute; reflexivity..|]. intros [?|[?|?]]; discriminate.
Defined.

Lemma normalize_certificate_identifier_iff_witness :
  normalize_certificate_identifier " *.Shop.Example.COM. " = Ok "*.shop.example.com"
  ∧ normalize_certificate_identifier "*.shop.example.com" = Ok "*.shop.example.com".
Proof.
  assert (normalize_certificate_identifier " *.Shop.Example.COM. " = Ok "*.shop.example.com") as H
    by (vm_compute; reflexivity).
  split; [exact H|].
  apply (proj2 (normalize_certificate_identifier_iff " *.Shop.Example.COM. " "*.shop.example.com") H).
Defined.

(** The renewal has failed at the worker. *)
Definition failed_order : CertificateOrderRecord :=
  mkOrder 1006 (Some 1004%Z) None 1005 "renew" "letsencrypt-production" "dns-01" VNull
    "issue_failed" (Some "rate limited") None 3.

Definition failed_world : World MemoryTokenState :=
  set_repo (save_certificate_order failed_order (repo zone_world)) (set_rng_next 7 zone_world).

Lemma failed_world_ok : world_ok failed_world.
Proof.
  apply (world_ok_repo zone_world (save_certificate_order failed_order (repo zone_world)));
    [apply zone_world_ok|reflexivity|reflexivity|..].
  - apply Nat.leb_le. vm_compute. reflexivity.
  - apply save_order_ok, world_repo, zone_world_ok.
  - intros u. rewrite used_ids_save_order.
    intros [->%elem_of_singleton|]%elem_of_union; [|by left].
    right. exists 6. split; [apply Nat.ltb_lt; vm_compute; reflexivity|reflexivity].
Qed.

