(* ===== verification/StatusWorker.v ===== *)
(** * The status worker (apps/status-worker/src/main.rs)

    A periodic pass over the nodes: how many heartbeats a node has missed decides
    whether it is online, suspect or offline.  The nodes table of the database is
    a map from ids to rows; a pass reads it once and updates it row by row. *)

From stdpp Require Import prelude strings pretty gmap sorting.
From S2P Require Import Prelude RustStr Json Extern AppError Domain Records Store.

Record NodeSnapshot := mkSnapshot {
  snap_node_id : Uuid;
  snap_node_code : string;
  current_status : string;
  snap_last_seen_at : option DateTime;
}.

Record ReconcileSummary := mkSummary {
  scanned : nat;
  changed : nat;
  unchanged : nat;
  skipped : nat;
  online : nat;
  suspect : nat;
  offline : nat;
}.

#[export] Instance NodeSnapshot_eq_dec : EqDecision NodeSnapshot.
Proof. solve_decision. Defined.

(** ** One node *)

(** [num_seconds] truncates; a time in the future counts as now. *)
Definition missed_heartbeats (now last_seen_at : DateTime) (expected_heartbeat_seconds : Z) : Z :=
  let interval_seconds := Z.max expected_heartbeat_seconds 1 in
  let elapsed_seconds := Z.max (Z.quot (now - last_seen_at) (seconds 1)) 0 in
  Z.min (elapsed_seconds / interval_seconds) u32_max.

Definition desired_status_for_snapshot (snapshot : NodeSnapshot) (now : DateTime)
    (expected_heartbeat_seconds : Z) (policy : HeartbeatPolicy) : option NodeStatus :=
  if decide (current_status snapshot = "maintenance") then None
  else
    last_seen_at ← snap_last_seen_at snapshot;
    let missed := missed_heartbeats now last_seen_at expected_heartbeat_seconds in
    Some (evaluate_status missed policy).

(** ** One pass *)

Definition set_current_status (v : string) (r : NodeSnapshot) : NodeSnapshot :=
  mkSnapshot (snap_node_id r) (snap_node_code r) v (snap_last_seen_at r).

(** [UPDATE nodes SET status = $2 WHERE id = $1]. *)
Definition update_status (u : Uuid) (v : string) (t : gmap Uuid NodeSnapshot) :
    gmap Uuid NodeSnapshot :=
  alter (set_current_status v) u t.

Definition count_status (s : NodeStatus) (m : ReconcileSummary) : ReconcileSummary :=
  let '(mkSummary sc ch un sk on su off) := m in
  match s with
  | Online => mkSummary sc ch un sk (S on) su off
  | Suspect => mkSummary sc ch un sk on (S su) off
  | Offline => mkSummary sc ch un sk on su (S off)
  | Pending | Maintenance => m
  end.

Definition count_changed (m : ReconcileSummary) : ReconcileSummary :=
  let '(mkSummary sc ch un sk on su off) := m in mkSummary sc (S ch) un sk on su off.
Definition count_unchanged (m : ReconcileSummary) : ReconcileSummary :=
  let '(mkSummary sc ch un sk on su off) := m in mkSummary sc ch (S un) sk on su off.
Definition count_skipped (m : ReconcileSummary) : ReconcileSummary :=
  let '(mkSummary sc ch un sk on su off) := m in mkSummary sc ch un (S sk) on su off.

Section Reconcile.
Context (now : DateTime) (expected_heartbeat_seconds : Z) (policy : HeartbeatPolicy).

(** The body of the loop. *)
Definition reconcile_one (st : gmap Uuid NodeSnapshot * ReconcileSummary) (snapshot : NodeSnapshot) :
    gmap Uuid NodeSnapshot * ReconcileSummary :=
  let '(t, summary) := st in
  match desired_status_for_snapshot snapshot now expected_heartbeat_seconds policy with
  | None => (t, count_skipped summary)
  | Some next_status =>
      let summary := count_status next_status summary in
      if decide (current_status snapshot = node_status_name next_status)
      then (t, count_unchanged summary)
      else (update_status (snap_node_id snapshot) (node_status_name next_status) t,
            count_changed summary)
  end.

(** [SELECT ... FROM nodes ORDER BY node_code ASC]. *)
Definition select_nodes `{!Extern} (t : gmap Uuid NodeSnapshot) : list NodeSnapshot :=
  sort_by (cmp_on snap_node_code String.compare) (values t).

Definition reconcile_node_statuses `{!Extern} (t : gmap Uuid NodeSnapshot) :
    gmap Uuid NodeSnapshot * ReconcileSummary :=
  let snapshots := select_nodes t in
  foldl reconcile_one (t, mkSummary (length snapshots) 0 0 0 0 0 0) snapshots.

(** ** What a pass does *)

(** The row a pass leaves for a node. *)
Definition settled (r : NodeSnapshot) : NodeSnapshot :=
  match desired_status_for_snapshot r now expected_heartbeat_seconds policy with
  | Some s => set_current_status (node_status_name s) r
  | None => r
  end.

Definition wants (s : NodeStatus) (r : NodeSnapshot) : Prop :=
  desired_status_for_snapshot r now expected_heartbeat_seconds policy = Some s.
Definition unjudged (r : NodeSnapshot) : Prop :=
  desired_status_for_snapshot r now expected_heartbeat_seconds policy = None.
Definition due (r : NodeSnapshot) : Prop := settled r ≠ r.

#[export] Instance wants_dec s r : Decision (wants s r).
Proof. unfold wants. apply _. Defined.
#[export] Instance unjudged_dec r : Decision (unjudged r).
Proof. unfold unjudged. apply _. Defined.
#[export] Instance due_dec r : Decision (due r).
Proof. unfold due. apply _. Defined.

(** How many of [l] satisfy [P]. *)
Definition tally (P : NodeSnapshot → Prop) `{!∀ r, Decision (P r)} (l : list NodeSnapshot) : nat :=
  length (filter P l).

(** The three judgements are the only ones. *)
Lemma desired_cases r :
  unjudged r ∨ wants Online r ∨ wants Suspect r ∨ wants Offline r.
Proof.
  unfold unjudged, wants, desired_status_for_snapshot. case_decide; [by left|].
  destruct (snap_last_seen_at r); simpl; [|by left]. right. unfold evaluate_status.
  repeat case_match; auto.
Qed.

Lemma due_iff r s :
  wants s r → due r ↔ current_status r ≠ node_status_name s.
Proof.
  unfold wants, due, settled. intros ->. destruct r as [i c st l]. unfold set_current_status. simpl.
  split; [congruence|]. intros H Heq. injection Heq. congruence.
Qed.

Lemma tally_cons (P : NodeSnapshot → Prop) `{!∀ r, Decision (P r)} r l :
  tally P (r :: l) = (if decide (P r) then 1 else 0) + tally P l.
Proof. unfold tally. rewrite filter_cons. by case_decide. Qed.

Lemma settled_id r : snap_node_id (settled r) = snap_node_id r.
Proof. unfold settled. by destruct (desired_status_for_snapshot _ _ _ _). Qed.

(** Judging again at the same time gives the same judgement. *)
Lemma desired_settled r :
  desired_status_for_snapshot (settled r) now expected_heartbeat_seconds policy
  = desired_status_for_snapshot r now expected_heartbeat_seconds policy.
Proof.
  destruct (desired_cases r) as [H|H]; [by unfold settled; rewrite H|].
  assert (∃ s, wants s r ∧ node_status_name s ≠ "maintenance") as (s & Hs & Hne)
    by (destruct H as [?|[?|?]]; eexists; by split).
  unfold settled. rewrite Hs. unfold wants, desired_status_for_snapshot in *. simpl.
  rewrite decide_False by done. case_decide; [done|]. exact Hs.
Qed.

Lemma settled_idemp r : settled (settled r) = settled r.
Proof.
  unfold settled at 1. rewrite desired_settled. unfold settled.
  by destruct (desired_status_for_snapshot r _ _ _).
Qed.

(** One turn files the settled row. *)
Lemma reconcile_one_table t m r :
  t !! snap_node_id r = Some r →
  (reconcile_one (t, m) r).1 = <[snap_node_id r := settled r]> t.
Proof.
  intros Hr. unfold reconcile_one, settled.
  destruct (desired_status_for_snapshot _ _ _ _) as [s|]; [|by rewrite insert_id].
  case_decide as Heq; simpl.
  - rewrite <-Heq. destruct r. unfold set_current_status. simpl in *. by rewrite insert_id.
  - unfold update_status. apply map_eq. intros u. destruct (decide (u = snap_node_id r)) as [->|Hne].
    + by rewrite lookup_alter_eq, lookup_insert_eq, Hr.
    + by rewrite lookup_alter_ne, lookup_insert_ne.
Qed.

Lemma reconcile_fold_table l t m u :
  (∀ r, r ∈ l → t !! snap_node_id r = Some r) → NoDup (snap_node_id <$> l) →
  (foldl reconcile_one (t, m) l).1 !! u
  = if decide (u ∈ snap_node_id <$> l) then settled <$> t !! u else t !! u.
Proof.
  revert t m. induction l as [|r l IH]; intros t m Hl Hnd; cbn [foldl].
  { by rewrite decide_False by apply not_elem_of_nil. }
  rewrite fmap_cons in *. apply NoDup_cons in Hnd as [Hni Hnd].
  pose proof (reconcile_one_table t m r (Hl r (list_elem_of_here _ _))) as Ht.
  destruct (reconcile_one (t, m) r) as [t1 m1]. simpl in Ht. subst t1.
  rewrite IH; [|clear IH|done].
  - destruct (decide (u = snap_node_id r)) as [->|Hne].
    + rewrite decide_False by done. rewrite (decide_True (P := _ ∈ _ :: _)) by left.
      by rewrite lookup_insert_eq, Hl by left.
    + rewrite lookup_insert_ne by done. apply decide_ext. rewrite elem_of_cons. tauto.
  - intros r' Hr'. rewrite lookup_insert_ne; [apply Hl; by right|].
    intros Heq. apply Hni. rewrite Heq. by apply list_elem_of_fmap_2.
Qed.

(** What the counters count. *)
Definition judged_steady (r : NodeSnapshot) : Prop := ¬ unjudged r ∧ ¬ due r.
#[export] Instance judged_steady_dec r : Decision (judged_steady r).
Proof. unfold judged_steady. apply _. Defined.

Lemma unjudged_not_due r : unjudged r → ¬ due r.
Proof. unfold unjudged, due, settled. intros ->. tauto. Qed.

(** A turn on a judged row. *)
Lemma reconcile_one_judged t m r s :
  wants s r →
  (reconcile_one (t, m) r).2
  = if decide (due r) then count_changed (count_status s m) else count_unchanged (count_status s m).
Proof.
  intros Hs. pose proof (due_iff r s Hs) as Hd. unfold reconcile_one. rewrite Hs.
  destruct (decide (current_status r = node_status_name s)) as [Heq|Hne].
  - rewrite decide_False; [done|]. rewrite Hd. tauto.
  - rewrite decide_True; [done|]. by apply Hd.
Qed.

Lemma wants_unique s s' r : wants s r → wants s' r → s = s'.
Proof. unfold wants. congruence. Qed.

(** Evaluates the tests for other judgements than the one made. *)
Ltac resolve_wants Hw :=
  repeat match goal with
  | |- context [decide (wants ?s ?r)] =>
      first [rewrite (decide_True (P := wants s r)) by exact Hw
            |rewrite (decide_False (P := wants s r))
               by (let Hx := fresh in intros Hx; by pose proof (wants_unique _ _ _ Hw Hx))]
  end.

Lemma reconcile_fold_summary l t sc ch un sk on su off :
  (foldl reconcile_one (t, mkSummary sc ch un sk on su off) l).2
  = mkSummary sc (ch + tally due l) (un + tally judged_steady l) (sk + tally unjudged l)
      (on + tally (wants Online) l) (su + tally (wants Suspect) l) (off + tally (wants Offline) l).
Proof.
  revert t ch un sk on su off. induction l as [|r l IH]; intros t ch un sk on su off; cbn [foldl].
  { by rewrite !Nat.add_0_r. }
  destruct (reconcile_one (t, mkSummary sc ch un sk on su off) r) as [t1 m1] eqn:H1.
  assert (m1 = (reconcile_one (t, mkSummary sc ch un sk on su off) r).2) as Hm by (by rewrite H1).
  rewrite !tally_cons. unfold judged_steady at 1.
  destruct (desired_cases r) as [Hu|Hw].
  - pose proof (unjudged_not_due r Hu) as Hnd.
    assert (∀ s, ¬ wants s r) as Hno by (unfold wants, unjudged in *; congruence).
    unfold reconcile_one in Hm. rewrite Hu in Hm. simpl in Hm. subst m1.
    rewrite IH, !(decide_False (P := wants _ r)), (decide_False (P := due r)),
      (decide_True (P := unjudged r)), (decide_False (P := ¬ unjudged r ∧ ¬ due r)) by (done || tauto).
    f_equal; lia.
  - assert (∃ s, wants s r) as [s Hs] by naive_solver.
    assert (¬ unjudged r) as Hnu by (unfold wants, unjudged in *; congruence).
    rewrite (reconcile_one_judged t _ r s Hs) in Hm. rewrite (decide_False (P := unjudged r)) by done.
    destruct (decide (due r)) as [Hd|Hd];
      [rewrite (decide_False (P := ¬ unjudged r ∧ ¬ due r)) by tauto
      |rewrite (decide_True (P := ¬ unjudged r ∧ ¬ due r)) by tauto];
      destruct Hw as [Hw|[Hw|Hw]]; pose proof (wants_unique _ _ _ Hs Hw) as ->; simpl in Hm; subst m1;
      rewrite IH; resolve_wants Hw; f_equal; lia.
Qed.
End Reconcile.

Section Theorems.
Context `{EX : !Extern, EL : !ExternLaws}.
Context (now : DateTime) (expected : Z) (policy : HeartbeatPolicy).
#[local] Notation settle := (settled now expected policy).
#[local] Notation pass := (reconcile_node_statuses now expected policy).

(** Rows are filed under their ids. *)
Definition rows_keyed (t : gmap Uuid NodeSnapshot) : Prop := map_Forall (λ u r, snap_node_id r = u) t.

Lemma select_nodes_rows t r :
  rows_keyed t → r ∈ select_nodes t ↔ t !! snap_node_id r = Some r.
Proof.
  intros Hk. unfold select_nodes. rewrite elem_of_sort_by, elem_of_values. split; [|by eexists].
  intros [u Hu]. by rewrite (Hk u r Hu).
Qed.

Lemma select_nodes_ids t : rows_keyed t → NoDup (snap_node_id <$> select_nodes t).
Proof.
  intros Hk. unfold select_nodes, values. rewrite sort_by_perm, hash_iter_perm, <-list_fmap_compose.
  assert ((snap_node_id ∘ snd) <$> map_to_list t = (map_to_list t).*1) as ->.
  { apply list_fmap_ext. intros i [u r] Hi. simpl. apply Hk.
    apply elem_of_map_to_list. by eapply list_elem_of_lookup_2. }
  apply NoDup_fst_map_to_list.
Qed.

Lemma pass_table t : rows_keyed t → (pass t).1 = settle <$> t.
Proof.
  intros Hk. apply map_eq. intros u. unfold reconcile_node_statuses.
  rewrite reconcile_fold_table, lookup_fmap; [| |by apply select_nodes_ids].
  - case_decide as Hu; [done|]. destruct (t !! u) as [r|] eqn:Hr; [|done]. destruct Hu.
    apply list_elem_of_fmap. exists r. pose proof (Hk u r Hr) as Hid. simpl in Hid.
    split; [done|]. apply select_nodes_rows; [done|]. by rewrite Hid.
  - intros r. by apply select_nodes_rows.
Qed.

Lemma tally_zero (P : NodeSnapshot → Prop) `{!∀ r, Decision (P r)} l :
  tally P l = 0 ↔ Forall (λ r, ¬ P r) l.
Proof.
  induction l as [|r l IH]; [done|]. rewrite tally_cons, Forall_cons, <-IH.
  case_decide; split; try lia; tauto.
Qed.

(** Evaluates the tests for other judgements than the one made. *)
Ltac resolve_judgement Hw :=
  repeat match goal with
  | |- context [decide (wants now expected policy ?s ?r)] =>
      first [rewrite (decide_True (P := wants now expected policy s r)) by exact Hw
            |rewrite (decide_False (P := wants now expected policy s r))
               by (unfold wants in *; congruence)]
  end.

Lemma tally_split l :
  tally (due now expected policy) l + tally (judged_steady now expected policy) l
    + tally (unjudged now expected policy) l = length l
  ∧ tally (wants now expected policy Online) l + tally (wants now expected policy Suspect) l
    + tally (wants now expected policy Offline) l
    = tally (due now expected policy) l + tally (judged_steady now expected policy) l.
Proof.
  induction l as [|r l [IH1 IH2]]; [done|]. rewrite !tally_cons. cbn [length].
  rewrite !(decide_ext (judged_steady now expected policy r)
              (¬ unjudged now expected policy r ∧ ¬ due now expected policy r)) by done.
  destruct (desired_cases now expected policy r) as [Hu|Hw].
  - pose proof (unjudged_not_due now expected policy r Hu).
    assert (∀ s, ¬ wants now expected policy s r) as Hno by (unfold wants, unjudged in *; congruence).
    repeat case_decide; try tauto; try (by destruct (Hno Online)); try (by destruct (Hno Suspect));
      try (by destruct (Hno Offline)); lia.
  - assert (¬ unjudged now expected policy r) as Hnu
      by (unfold wants, unjudged in *; naive_solver congruence).
    assert ((if decide (wants now expected policy Online r) then 1 else 0)
      + (if decide (wants now expected policy Suspect r) then 1 else 0)
      + (if decide (wants now expected policy Offline r) then 1 else 0) = 1) as Hone.
    { destruct Hw as [Hw|[Hw|Hw]]; resolve_judgement Hw; done. }
    rewrite (decide_False (P := unjudged now expected policy r)) by done.
    destruct (decide (due now expected policy r)) as [Hd|Hd];
      [rewrite !(decide_False (P := ¬ unjudged now expected policy r ∧ ¬ due now expected policy r)) by tauto
      |rewrite !(decide_True (P := ¬ unjudged now expected policy r ∧ ¬ due now expected policy r)) by tauto];
      lia.
Qed.

(** A pass gives every node the status its heartbeats call for and leaves the
    nodes in maintenance and those never seen alone, whatever the order of the
    rows; its counters add up; it reports no change exactly when it made none;
    and a second pass at the same time changes nothing. *)
Theorem reconcile_settles t :
  rows_keyed t →
  let '(t', s) := pass t in
  t' = settle <$> t
  ∧ scanned s = size t ∧ changed s + unchanged s + skipped s = size t
  ∧ online s + suspect s + offline s = changed s + unchanged s
  ∧ (changed s = 0 ↔ t' = t)
  ∧ (pass t').1 = t' ∧ changed (pass t').2 = 0.
Proof.
  intros Hk. destruct (pass t) as [t' s] eqn:Hp.
  assert (∀ t0, (pass t0).2 = mkSummary (length (select_nodes t0))
    (tally (due now expected policy) (select_nodes t0))
    (tally (judged_steady now expected policy) (select_nodes t0))
    (tally (unjudged now expected policy) (select_nodes t0))
    (tally (wants now expected policy Online) (select_nodes t0))
    (tally (wants now expected policy Suspect) (select_nodes t0))
    (tally (wants now expected policy Offline) (select_nodes t0))) as Hsum
    by (intros t0; apply reconcile_fold_summary).
  assert (∀ t0, length (select_nodes t0) = size t0) as Hlen
    by (intros; unfold select_nodes; by rewrite sort_by_length, length_values).
  assert (∀ t0, rows_keyed t0 → changed (pass t0).2 = 0 ↔ settle <$> t0 = t0) as Hch.
  { intros t0 Hk0. rewrite Hsum. simpl. rewrite tally_zero, Forall_forall. split.
    - intros Hall. apply map_eq. intros u. rewrite lookup_fmap.
      destruct (t0 !! u) as [r|] eqn:Hr; [|done]. simpl. f_equal. apply dec_stable, Hall.
      apply select_nodes_rows; [done|]. pose proof (Hk0 u r Hr) as Hid. simpl in Hid. by rewrite Hid.
    - intros Heq r Hr%select_nodes_rows Hd; [|done]. apply Hd.
      assert ((settle <$> t0) !! snap_node_id r = Some r) as Hr' by (by rewrite Heq).
      rewrite lookup_fmap, Hr in Hr'. by injection Hr'. }
  pose proof (pass_table t Hk) as Ht. pose proof (Hsum t) as Hs. pose proof (Hch t Hk) as Hct.
  rewrite Hp in Ht, Hs, Hct. simpl in Ht, Hs, Hct.
  assert (rows_keyed t') as Hk'.
  { intros u r. rewrite Ht, lookup_fmap, fmap_Some. intros (r0 & Hr0 & ->).
    rewrite settled_id. by apply Hk. }
  assert (settle <$> t' = t') as Hfix.
  { rewrite Ht, <-map_fmap_compose. apply map_fmap_ext. intros u r _. apply settled_idemp. }
  destruct (tally_split (select_nodes t)) as [H1 H2]. rewrite Hlen in H1.
  rewrite <-Ht in Hct. split_and!; [done|..].
  - rewrite Hs. simpl. apply Hlen.
  - rewrite Hs. simpl. lia.
  - rewrite Hs. simpl. lia.
  - exact Hct.
  - by rewrite pass_table.
  - by apply Hch.
Qed.
End Theorems.

(** ** From silence to status *)

Lemma missed_bounds now seen expected k :
  (seen ≤ now)%Z → (0 ≤ k ≤ u32_max)%Z →
  (k ≤ missed_heartbeats now seen expected)%Z
  ↔ (seconds (k * Z.max expected 1) ≤ now - seen)%Z.
Proof.
  intros Hseen Hk. unfold missed_heartbeats, seconds.
  set (i := Z.max expected 1). assert (1 ≤ i)%Z as Hi by lia.
  rewrite Z.quot_div_nonneg by lia. rewrite Z.max_l by (apply Z.div_pos; lia).
  rewrite Z.min_glb_iff. rewrite Zdiv_Zdiv by lia.
  split.
  - intros [H _]. pose proof (Z.mul_div_le (now - seen) (1 * 1000000000 * i)). nia.
  - intros H. split; [|lia]. apply Z.div_le_lower_bound; nia.
Qed.

Lemma missed_mono now now' seen expected :
  (now ≤ now')%Z → (missed_heartbeats now seen expected ≤ missed_heartbeats now' seen expected)%Z.
Proof.
  intros Hnow. unfold missed_heartbeats. apply Z.min_le_compat_r, Z.div_le_mono; [lia|].
  apply Z.max_le_compat_r, Z.quot_le_mono; [unfold seconds; lia|lia].
Qed.

(** C34: A node that is not in maintenance is offline from the moment it has been
    silent for [offline_after_missed] heartbeat intervals, suspect from
    [suspect_after_missed] intervals on, and online before; and without a new
    heartbeat its status never improves. *)
Theorem status_by_silence r seen now expected policy :
  current_status r ≠ "maintenance" → snap_last_seen_at r = Some seen → (seen ≤ now)%Z →
  (0 ≤ suspect_after_missed policy ≤ u32_max)%Z → (0 ≤ offline_after_missed policy ≤ u32_max)%Z →
  desired_status_for_snapshot r now expected policy
  = Some (if decide (seconds (offline_after_missed policy * Z.max expected 1) ≤ now - seen)%Z
          then Offline
          else if decide (seconds (suspect_after_missed policy * Z.max expected 1) ≤ now - seen)%Z
          then Suspect else Online)
  ∧ ∀ now', (now ≤ now')%Z →
      ∃ s s', desired_status_for_snapshot r now expected policy = Some s
        ∧ desired_status_for_snapshot r now' expected policy = Some s'
        ∧ (status_rank s ≤ status_rank s')%Z.
Proof.
  intros Hm Hseen Hnow Hs Ho.
  assert (∀ t, desired_status_for_snapshot r t expected policy
    = Some (evaluate_status (missed_heartbeats t seen expected) policy)) as Hd.
  { intros t. unfold desired_status_for_snapshot. by rewrite decide_False, Hseen by done. }
  split.
  - rewrite Hd. f_equal. unfold evaluate_status.
    pose proof (missed_bounds now seen expected _ Hnow Ho) as Hmo.
    pose proof (missed_bounds now seen expected _ Hnow Hs) as Hms.
    destruct (Z.leb_spec (offline_after_missed policy) (missed_heartbeats now seen expected)) as [H|H].
    { rewrite decide_True; [done|]. by apply Hmo. }
    rewrite decide_False by (rewrite <-Hmo; lia).
    destruct (Z.leb_spec (suspect_after_missed policy) (missed_heartbeats now seen expected)) as [H'|H'].
    { rewrite decide_True; [done|]. by apply Hms. }
    rewrite decide_False; [done|]. rewrite <-Hms. lia.
  - intros now' Hle. eexists _, _. split_and!; [apply Hd|apply Hd|].
    by apply evaluate_status_mono, missed_mono.
Qed.

(** ** Examples *)

(** Three nodes with 15-second heartbeats: one silent for 59 seconds, one never
    seen, one in maintenance. *)
Definition demo_rows : gmap Uuid NodeSnapshot :=
  <[1%Z := mkSnapshot 1 "a" "online" (Some 0%Z)]>
  (<[2%Z := mkSnapshot 2 "b" "pending" None]>
  (<[3%Z := mkSnapshot 3 "c" "maintenance" (Some 0%Z)]> ∅)).

Lemma demo_rows_keyed : rows_keyed demo_rows.
Proof.
  unfold demo_rows. repeat (apply map_Forall_insert_2; [reflexivity|]). apply map_Forall_empty.
Qed.

Lemma reconcile_settles_witness :
  (reconcile_node_statuses (seconds 59) 15 default_policy demo_rows).2 = mkSummary 3 1 0 2 0 1 0
  ∧ (reconcile_node_statuses (seconds 59) 15 default_policy demo_rows).1
    = settled (seconds 59) 15 default_policy <$> demo_rows.
Proof.
  split; [vm_compute; reflexivity|].
  pose proof (reconcile_settles (seconds 59) 15 default_policy demo_rows demo_rows_keyed) as H.
  destruct (reconcile_node_statuses (seconds 59) 15 default_policy demo_rows) as [t' s]. apply H.
Defined.

Lemma status_by_silence_witness :
  desired_status_for_snapshot (mkSnapshot 1 "a" "online" (Some 0%Z)) (seconds 120) 15 default_policy
  = Some Offline.
Proof.
  destruct (status_by_silence (mkSnapshot 1 "a" "online" (Some 0%Z)) 0 (seconds 120) 15 default_policy)
    as [H _]; [discriminate|reflexivity|vm_compute; discriminate|
               vm_compute; split; discriminate|vm_compute; split; discriminate|].
  rewrite H. vm_compute. reflexivity.
Defined.
