(* ===== verification/Io.v ===== *)
(** * Effects of the workers and of the agent

    The programs that are not the hub run against a database, a network or a
    file system.  An [Io] computation takes their state and returns a value or
    the text of an error ([anyhow::Error::to_string], which shows the outermost
    context) with the state it leaves; [IoE] is the same with errors of any type.  [wp m s Q] says that running [m] in [s]
    ends, with a result and a state that satisfy [Q]. *)

From stdpp Require Import prelude strings.
From S2P Require Import Prelude RustStr Extern.

Definition IoE (E S A : Type) : Type := S → Result A E * S.
Abbreviation Io := (IoE string).

Section Io.
Context {E S : Type}.

Definition ret {A} (a : A) : IoE E S A := λ s, (Ok a, s).
Definition fail {A} (e : E) : IoE E S A := λ s, (Err e, s).
Definition bind {A B} (m : IoE E S A) (k : A → IoE E S B) : IoE E S B := λ s,
  match m s with
  | (Ok a, s') => k a s'
  | (Err e, s') => (Err e, s')
  end.
Definition lift {A} (r : Result A E) : IoE E S A := λ s, (r, s).
Definition require (b : bool) (e : E) : IoE E S unit := λ s, (if b then Ok tt else Err e, s).

(** [match m { Ok(a) => .., Err(error) => .. }]: the error becomes a value. *)
Definition attempt {A} (m : IoE E S A) : IoE E S (Result A E) := λ s, let '(r, s') := m s in (Ok r, s').

(** Reading and writing a part of the state. *)
Definition gets {A} (f : S → A) : IoE E S A := λ s, (Ok (f s), s).
Definition modify (f : S → S) : IoE E S unit := λ s, (Ok tt, f s).
End Io.

Notation "'let!' x := e 'in' k" := (bind e (λ x, k))
  (at level 10, x pattern at level 0, e at level 100, k at level 200,
   format "'let!'  x  :=  e  'in' '//' k") : mesh_scope.
Notation "'do!' e 'in' k" := (bind e (λ _, k))
  (at level 10, e at level 100, k at level 200, format "'do!'  e  'in' '//' k") : mesh_scope.

(** A computation on a part of the state. *)
Definition zoom {E S P A} (get : S → P) (set : P → S → S) (m : IoE E P A) : IoE E S A := λ s,
  let '(r, p) := m (get s) in (r, set p s).

(** ** The environment: a peer on the network, random values and the clock *)

Record Env (N : Type) := mkEnv {
  env_net : N;
  env_rng : nat;
  env_clock : nat;
}.
Arguments mkEnv {_} _ _ _.
Arguments env_net {_} _.
Arguments env_rng {_} _.
Arguments env_clock {_} _.

Section Env.
Context {N : Type} `{!Extern}.

Definition set_env_net (n : N) (e : Env N) : Env N := mkEnv n (env_rng e) (env_clock e).

(** [Uuid::new_v4()] and [Utc::now()]. *)
Definition new_v4 : Io (Env N) Uuid := λ e,
  (Ok (rng (env_rng e)), mkEnv (env_net e) (S (env_rng e)) (env_clock e)).
Definition utc_now : Io (Env N) DateTime := λ e,
  (Ok (clock (env_clock e)), mkEnv (env_net e) (env_rng e) (S (env_clock e))).
End Env.

(** ** Runs *)

Section Wp.
Context {E S : Type}.
Implicit Types s : S.

Definition wp {A} (m : IoE E S A) s (Q : Result A E → S → Prop) : Prop :=
  let '(r, s') := m s in Q r s'.

Lemma wp_run {A} (m : IoE E S A) s Q r s' : wp m s Q → m s = (r, s') → Q r s'.
Proof. unfold wp. intros H Hm. by rewrite Hm in H. Qed.

Lemma run_wp {A} (m : IoE E S A) s (Q : Result A E → S → Prop) :
  (∀ r s', m s = (r, s') → Q r s') → wp m s Q.
Proof. unfold wp. destruct (m s). auto. Qed.

Lemma wp_mono {A} (m : IoE E S A) s (P Q : Result A E → S → Prop) :
  wp m s P → (∀ r s', P r s' → Q r s') → wp m s Q.
Proof. unfold wp. destruct (m s). auto. Qed.

Lemma wp_and {A} (m : IoE E S A) s (P Q : Result A E → S → Prop) :
  wp m s P → wp m s Q → wp m s (λ r s', P r s' ∧ Q r s').
Proof. unfold wp. by destruct (m s). Qed.

Lemma wp_ret {A} (a : A) s Q : Q (Ok a) s → wp (ret a) s Q.
Proof. done. Qed.
Lemma wp_fail {A} e s (Q : Result A E → S → Prop) : Q (Err e) s → wp (fail e) s Q.
Proof. done. Qed.
Lemma wp_bind {A B} (m : IoE E S A) (k : A → IoE E S B) s Q :
  wp m s (λ r s1, match r with Ok a => wp (k a) s1 Q | Err e => Q (Err e) s1 end) →
  wp (bind m k) s Q.
Proof. unfold wp, bind. by destruct (m s) as [[a|e] s1]. Qed.
Lemma wp_lift {A} (x : Result A E) s Q :
  (∀ a, x = Ok a → Q (Ok a) s) → (∀ e, x = Err e → Q (Err e) s) → wp (lift x) s Q.
Proof. unfold wp, lift. destruct x; auto. Qed.
Lemma wp_require b e s Q :
  (b = true → Q (Ok tt) s) → (b = false → Q (Err e) s) → wp (require b e) s Q.
Proof. unfold wp, require. destruct b; auto. Qed.
Lemma wp_attempt {A} (m : IoE E S A) s Q : wp m s (λ r s', Q (Ok r) s') → wp (attempt m) s Q.
Proof. unfold wp, attempt. by destruct (m s). Qed.
Lemma wp_gets {A} (f : S → A) s Q : Q (Ok (f s)) s → wp (gets f) s Q.
Proof. done. Qed.
Lemma wp_modify f s Q : Q (Ok tt) (f s) → wp (modify f) s Q.
Proof. done. Qed.
Lemma wp_zoom {P A} (get : S → P) set (m : IoE E P A) s (Q : Result A E → S → Prop) :
  (let '(r, p) := m (get s) in Q r (set p s)) → wp (zoom get set m) s Q.
Proof. unfold wp, zoom. by destruct (m (get s)). Qed.

(** Inversion of a run that succeeded. *)
Lemma io_bind_Ok {A B} (m : IoE E S A) (k : A → IoE E S B) s b s' :
  bind m k s = (Ok b, s') → ∃ a s1, m s = (Ok a, s1) ∧ k a s1 = (Ok b, s').
Proof. unfold bind. destruct (m s) as [[a|e] s1]; [eauto|done]. Qed.
End Wp.

(** One symbolic step. *)
Ltac wp1 :=
  lazymatch goal with
  | |- wp (bind _ _) _ _ => apply wp_bind
  | |- wp (ret _) _ _ => apply wp_ret
  | |- wp (fail _) _ _ => apply wp_fail
  | |- wp (lift _) _ _ => apply wp_lift; intros
  | |- wp (require _ _) _ _ => apply wp_require; intros
  | |- wp (attempt _) _ _ => apply wp_attempt
  | |- wp (gets _) _ _ => apply wp_gets
  | |- wp (modify _) _ _ => apply wp_modify
  end.

(** Steps up to a branch or an operation with its own lemma. *)
Ltac wps := repeat first [progress cbv beta iota | wp1].
