(* ===== verification/Sql.v ===== *)
(** * Programs on a database

    The workers keep their state in PostgreSQL.  The database is a record [D] of
    tables keyed by primary key; a statement may fail for a reason of the
    database's own, numbered by the statement, or because it would break a
    constraint of the schema; a transaction that fails leaves the tables as they were.
    [dbt d m Q] says that a program run on tables [d] ends, with a result and
    tables that satisfy [Q]. *)

From stdpp Require Import prelude strings gmap.
From S2P Require Import Prelude RustStr Extern Io.

(** The errors of the database by the number of the statement. *)
Class DbExtern := db_error : nat → option string.

(** [ORDER BY] on text follows the collation of the database. *)
Class Collation := collate : string → string → comparison.

(** The text of an error for a change the schema forbids (the name of the index,
    the check or the foreign key is left out). *)
Definition constraint_violation : string := "violates constraint".

(** ** Constraints *)

(** A row exists under the key. *)
Definition present `{Countable K} {R} (t : gmap K R) (u : K) : Prop := is_Some (t !! u).
#[export] Instance present_dec `{Countable K} {R} (t : gmap K R) u : Decision (present t u).
Proof. unfold present. apply _. Defined.

(** A nullable reference. *)
Definition present_opt {R} (t : gmap Uuid R) (u : option Uuid) : Prop :=
  match u with Some u => present t u | None => True end.
#[export] Instance present_opt_dec {R} (t : gmap Uuid R) u : Decision (present_opt t u).
Proof. unfold present_opt. destruct u; apply _. Defined.

(** A unique index. *)
Definition unique_on `{Countable K} {R A} (f : R → A) (t : gmap K R) : Prop :=
  map_Forall (λ u r, map_Forall (λ u' r', f r' = f r → u' = u) t) t.
#[export] Instance unique_on_dec `{Countable K} {R A} `{!EqDecision A} (f : R → A) (t : gmap K R) :
  Decision (unique_on f t).
Proof. unfold unique_on. apply _. Defined.

Lemma unique_on_eq `{Countable K} {R A} (f : R → A) (t : gmap K R) u u' r r' :
  unique_on f t → t !! u = Some r → t !! u' = Some r' → f r = f r' → u = u'.
Proof. intros Hu H1 H2 Hf. exact (Hu u' r' H2 u r H1 Hf). Qed.

(** The unique indexes, checks and foreign keys of the tables. *)
Class Schema (D : Type) := {
  schema_ok : D → Prop;
  schema_ok_dec :: ∀ d, Decision (schema_ok d);
}.

Record Db (D N : Type) := mkDb {
  db : D;
  statement : nat;
  env : Env N;
}.
Arguments mkDb {_ _} _ _ _.
Arguments db {_ _} _.
Arguments statement {_ _} _.
Arguments env {_ _} _.

Section Statements.
Context {D N : Type} `{DBE : !DbExtern, SCH : !Schema D}.

Definition with_env {A} (m : Io (Env N) A) : Io (Db D N) A :=
  zoom env (λ e s, mkDb (db s) (statement s) e) m.

(** A query, and a statement that changes the tables. *)
Definition query {A} (f : D → A) : Io (Db D N) A := λ s,
  let s' := mkDb (db s) (S (statement s)) (env s) in
  match db_error (statement s) with
  | Some e => (Err e, s')
  | None => (Ok (f (db s)), s')
  end.

Definition execute (f : D → D) : Io (Db D N) unit := λ s,
  match db_error (statement s) with
  | Some e => (Err e, mkDb (db s) (S (statement s)) (env s))
  | None =>
      if decide (schema_ok (f (db s)))
      then (Ok tt, mkDb (f (db s)) (S (statement s)) (env s))
      else (Err constraint_violation,
            mkDb (db s) (S (statement s)) (env s))
  end.

(** An [INSERT] under a key that must be new: the primary key, or a unique one. *)
Definition insert_row `{Countable K} {R} (table : D → gmap K R) (put : gmap K R → D → D)
    (u : K) (r : R) : Io (Db D N) unit := λ s,
  if decide (table (db s) !! u = None)
  then execute (λ d, put (<[u := r]> (table d)) d) s
  else (Err (default constraint_violation (db_error (statement s))),
        mkDb (db s) (S (statement s)) (env s)).

(** A statement that may be refused by itself (a cast that fails, a key that is
    taken) and that says what it did, such as the number of rows. *)
Definition execute_returning {A} (f : D → option (A * D)) : Io (Db D N) A := λ s,
  match f (db s) with
  | Some (a, d) => (let! _ := execute (λ _, d) in ret a) s
  | None =>
      (Err (default constraint_violation (db_error (statement s))),
       mkDb (db s) (S (statement s)) (env s))
  end.
Definition try_execute (f : D → option D) : Io (Db D N) unit :=
  execute_returning (λ d, pair tt <$> f d).

(** [pool.begin()] ... [tx.commit()]: on an error the transaction is dropped. *)
Definition transaction {A} (m : Io (Db D N) A) : Io (Db D N) A := λ s,
  match (let! _ := query (λ _, tt) in
         let! a := m in
         let! _ := query (λ _, tt) in ret a) s with
  | (Ok a, s') => (Ok a, s')
  | (Err e, s') => (Err e, mkDb (db s) (statement s') (env s'))
  end.

(** [i64::try_from(limit).unwrap_or(i64::MAX)] bound to [LIMIT]. *)
Definition sql_limit (limit : Z) : nat := Z.to_nat (Z.min limit i64_max).
End Statements.

(** ** Programs on the tables *)

Section Dbt.
Context {D N : Type} `{DBE : !DbExtern, SCH : !Schema D}.
Implicit Types d : D.

Definition dbt {A} d (m : Io (Db D N) A) (Q : Result A string → D → Prop) : Prop :=
  ∀ s, db s = d → let '(r, s') := m s in Q r (db s').

Lemma dbt_run {A} d (m : Io (Db D N) A) Q s : dbt d m Q → db s = d → Q (m s).1 (db (m s).2).
Proof. intros H Hs. specialize (H s Hs). by destruct (m s). Qed.

Lemma dbt_mono {A} d (m : Io (Db D N) A) (P Q : Result A string → D → Prop) :
  dbt d m P → (∀ r d', P r d' → Q r d') → dbt d m Q.
Proof. intros Hm HPQ s Hs. specialize (Hm s Hs). destruct (m s). auto. Qed.

Lemma dbt_and {A} d (m : Io (Db D N) A) (P Q : Result A string → D → Prop) :
  dbt d m P → dbt d m Q → dbt d m (λ r d', P r d' ∧ Q r d').
Proof. intros HP HQ s Hs. specialize (HP s Hs). specialize (HQ s Hs). by destruct (m s). Qed.

Lemma dbt_ret {A} d (a : A) Q : Q (Ok a) d → dbt d (ret a) Q.
Proof. by intros H s <-. Qed.

Lemma dbt_bind {A B} d (m : Io (Db D N) A) (k : A → Io (Db D N) B) Q :
  dbt d m (λ r d1, match r with Ok a => dbt d1 (k a) Q | Err e => Q (Err e) d1 end) →
  dbt d (bind m k) Q.
Proof.
  intros H s Hs. specialize (H s Hs). unfold bind. destruct (m s) as [[a|e] s1]; [|done]. by apply H.
Qed.

Lemma dbt_lift {A} d (x : Result A string) Q :
  (∀ a, x = Ok a → Q (Ok a) d) → (∀ e, x = Err e → Q (Err e) d) → dbt d (lift x) Q.
Proof. intros H1 H2 s <-. unfold lift. destruct x; auto. Qed.

Lemma dbt_require d b e Q :
  (b = true → Q (Ok tt) d) → (b = false → Q (Err e) d) → dbt d (require b e) Q.
Proof. intros H1 H2 s <-. unfold require. destruct b; [by apply H1|by apply H2]. Qed.

Lemma dbt_env {A} d (m : Io (Env N) A) Q : (∀ r e e', m e = (r, e') → Q r d) → dbt d (with_env m) Q.
Proof.
  intros H s <-. unfold with_env, zoom. destruct (m (env s)) as [r e'] eqn:Hm. simpl. by eapply H.
Qed.

Lemma dbt_new_v4 `{!Extern} d Q : (∀ u, Q (Ok u) d) → dbt d (with_env new_v4) Q.
Proof. intros HQ s <-. apply HQ. Qed.
Lemma dbt_utc_now `{!Extern} d Q : (∀ t, Q (Ok t) d) → dbt d (with_env utc_now) Q.
Proof. intros HQ s <-. apply HQ. Qed.
Lemma dbt_attempt {A} d (m : Io (Db D N) A) Q :
  dbt d m (λ r d', Q (Ok r) d') → dbt d (attempt m) Q.
Proof. intros H s Hs. specialize (H s Hs). unfold attempt. by destruct (m s). Qed.
Lemma dbt_attempt_env {A} d (m : Io (Env N) A) Q :
  (∀ r, Q (Ok r) d) → dbt d (with_env (attempt m)) Q.
Proof.
  intros H s <-. unfold with_env, zoom, attempt. destruct (m (env s)). apply H.
Qed.

Lemma dbt_query {A} d (f : D → A) Q :
  (∀ i e, db_error i = Some e → Q (Err e) d) → Q (Ok (f d)) d → dbt d (query f) Q.
Proof.
  intros He Hok s <-. unfold query. destruct (db_error (statement s)) as [e|] eqn:Hi; [by eapply He|done].
Qed.

Lemma dbt_execute d f Q :
  (∀ i e, db_error i = Some e → Q (Err e) d) →
  (¬ schema_ok (f d) → Q (Err constraint_violation) d) →
  (schema_ok (f d) → Q (Ok tt) (f d)) → dbt d (execute f) Q.
Proof.
  intros He Hbad Hok s <-. unfold execute.
  destruct (db_error (statement s)) as [e|] eqn:Hi; [by eapply He|]. case_decide; auto.
Qed.

Lemma dbt_insert_row `{Countable K} {R} d (table : D → gmap K R) put (u : K) r Q :
  (∀ e, Q (Err e) d) →
  (table d !! u = None → schema_ok (put (<[u := r]> (table d)) d) →
   Q (Ok tt) (put (<[u := r]> (table d)) d)) →
  dbt d (insert_row table put u r) Q.
Proof.
  intros He Hok s Hs. unfold insert_row. case_decide as Hn; [|simpl; by subst d].
  subst d. apply (dbt_execute (db s)); [done|auto..].
Qed.

Lemma dbt_execute_returning {A} d (f : D → option (A * D)) Q :
  (∀ e, Q (Err e) d) → (∀ a d', f d = Some (a, d') → schema_ok d' → Q (Ok a) d') →
  dbt d (execute_returning f) Q.
Proof.
  intros He Hok s Hs. unfold execute_returning. rewrite Hs.
  destruct (f d) as [[a d']|] eqn:Hf; [|simpl; by subst d].
  enough (dbt d (let! _ := execute (λ _, d') in ret a) Q) as H by exact (H s Hs).
  apply dbt_bind, dbt_execute; [done..|]. intros ?. apply dbt_ret. by eapply Hok.
Qed.

Lemma dbt_try_execute d f Q :
  (∀ e, Q (Err e) d) → (∀ d', f d = Some d' → schema_ok d' → Q (Ok tt) d') →
  dbt d (try_execute f) Q.
Proof.
  intros He Hok. apply dbt_execute_returning; [done|]. intros [] d'.
  destruct (f d); [|done]. simpl. intros [= <-]. by apply Hok.
Qed.

Lemma dbt_transaction {A} d (m : Io (Db D N) A) Q :
  (∀ i e, db_error i = Some e → Q (Err e) d) →
  dbt d m (λ r d', match r with Ok a => Q (Ok a) d' | Err e => Q (Err e) d end) →
  dbt d (transaction m) Q.
Proof.
  intros He Hm s Hs. unfold transaction.
  assert (dbt d (let! _ := query (λ _, tt) in let! a := m in let! _ := query (λ _, tt) in ret a)
            (λ r d', match r with Ok a => Q (Ok a) d' | Err e => Q (Err e) d end)) as H.
  { apply dbt_bind, dbt_query; [done|]. apply dbt_bind. eapply dbt_mono; [exact Hm|].
    intros [a|e] d1 H1; [|done]. apply dbt_bind, dbt_query; [done|]. by apply dbt_ret. }
  specialize (H s Hs). destruct ((let! _ := query _ in _) s) as [[a|e] s']; [done|]. simpl. by subst d.
Qed.
End Dbt.

(** ** Programs from a state

    The same with the state at hand, for programs whose result depends on the clock. *)

Section DbWp.
Context {D N : Type} `{DBE : !DbExtern, SCH : !Schema D}.
Implicit Types s : Db D N.

Definition next_statement s : Db D N := mkDb (db s) (S (statement s)) (env s).

Lemma wp_query {A} s (f : D → A) Q :
  (∀ e, Q (Err e) (next_statement s)) → Q (Ok (f (db s))) (next_statement s) → wp (query f) s Q.
Proof. intros He Hok. unfold wp, query. by destruct (db_error (statement s)). Qed.

Lemma wp_execute s (f : D → D) Q :
  (∀ e, Q (Err e) (next_statement s)) →
  (schema_ok (f (db s)) → Q (Ok tt) (mkDb (f (db s)) (S (statement s)) (env s))) →
  wp (execute f) s Q.
Proof.
  intros He Hok. unfold wp, execute. destruct (db_error (statement s)); [apply He|].
  case_decide; [auto|apply He].
Qed.

Lemma wp_utc_now `{!Extern} s (Q : Result DateTime string → Db D N → Prop) :
  Q (Ok (clock (env_clock (env s))))
    (mkDb (db s) (statement s)
       (mkEnv (env_net (env s)) (env_rng (env s)) (S (env_clock (env s))))) →
  wp (with_env utc_now) s Q.
Proof. done. Qed.

Lemma wp_transaction {A} s (m : Io (Db D N) A) Q :
  (∀ e s', db s' = db s → Q (Err e) s') →
  wp m (next_statement s) (λ r s', match r with Ok a => Q (Ok a) (next_statement s') | Err _ => True end) →
  wp (transaction m) s Q.
Proof.
  intros He Hm. unfold wp, transaction, bind, query, ret in *.
  destruct (db_error (statement s)); [by apply He|]. fold (next_statement s).
  destruct (m (next_statement s)) as [[a|e] s']; [|by apply He].
  destruct (db_error (statement s')); [by apply He|]. exact Hm.
Qed.
End DbWp.

(** One step of a program, and the steps up to a branch or an operation with its
    own lemma. *)
Ltac sql1 :=
  lazymatch goal with
  | |- dbt _ (bind _ _) _ => apply dbt_bind
  | |- dbt _ (ret _) _ => apply dbt_ret
  | |- dbt _ (lift _) _ => apply dbt_lift; intros
  | |- dbt _ (require _ _) _ => apply dbt_require; intros ?
  | |- dbt _ (with_env new_v4) _ => apply dbt_new_v4; intros ?
  | |- dbt _ (with_env utc_now) _ => apply dbt_utc_now; intros ?
  | |- dbt _ (with_env (attempt _)) _ => apply dbt_attempt_env; intros ?
  | |- dbt _ (with_env _) _ => apply dbt_env; intros
  | |- dbt _ (attempt _) _ => apply dbt_attempt
  | |- dbt _ (query _) _ => apply dbt_query; [intros ? ? ?|]
  | |- dbt _ (execute _) _ => apply dbt_execute; [intros ? ? ?|intros ?|intros ?]
  | |- dbt _ (insert_row _ _ _ _) _ => apply dbt_insert_row; [intros ?|intros ? ?]
  | |- dbt _ (try_execute _) _ => apply dbt_try_execute; [intros ?|intros ? ? ?]
  | |- dbt _ (execute_returning _) _ => apply dbt_execute_returning; [intros ?|intros ? ? ? ?]
  | |- dbt _ (transaction _) _ => apply dbt_transaction; [intros ? ? ?|]
  end.
Ltac sqls := repeat first [progress cbv beta iota | sql1].
