(* ===== verification/DnsProvider.v ===== *)
(** * DNS providers (crates/dns-provider)

    The provider interface, the no-op provider and the Cloudflare provider with
    the calls it makes.  The Cloudflare API is on the other side of the network:
    [DnsNet] answers calls, and [CloudflareLaws] states the documented behaviour
    of the record endpoints that the theorems rely on. *)

From stdpp Require Import prelude strings pretty gmap.
From Stdlib Require Import Ascii.
From S2P Require Import Prelude RustStr Json Extern HubDns Io.

(** ** Data *)

Record ProviderMetadata := mkMetadata {
  meta_provider_type : string;
  supports_dns01 : bool;
}.

Record DnsRecordChange := mkChange {
  change_zone_id : option string;
  change_zone_name : string;
  record_type : string;
  host : string;
  change_value : string;
  ttl : Z;
}.

Record AcmeChallenge := mkChallenge {
  ch_zone_id : option string;
  ch_zone_name : string;
  fqdn : string;
  ch_value : string;
  ch_ttl : Z;
}.

Record CloudflareZone := mkCfZone {
  cf_zone_id : string;
  cf_zone_name : string;
  cf_zone_status : string;
}.

Record CloudflareRecord := mkCfRecord { cf_record_id : string }.

(** ** Calls to the API *)

Inductive Verb := Get | Post | Put | Delete.

(** A request: the URL is the base followed by the segments of the path. *)
Record ApiCall := mkCall {
  call_verb : Verb;
  call_base : string;
  call_path : list string;
  bearer_auth : string;
  call_query : list (string * string);
  call_json : option Value;
}.

(** A response: its status and what its body decodes to ([response.json()]). *)
Record ApiReply := mkReply {
  reply_status : Z;
  reply_zones : option (list CloudflareZone);
  reply_records : option (list CloudflareRecord);
}.

(** The peer; [None] is a request that could not be sent. *)
Class DnsNet (N : Type) := net_send : ApiCall → N → option ApiReply * N.

(** [StatusCode]'s [Display]. *)
Class StatusText := status_to_string : Z → string.

(** ** The Cloudflare provider (cloudflare.rs) *)

Definition normalize_record_name (host zone_name : string) : string :=
  if decide (host = "@") then zone_name
  else if ends_with zone_name host then host
  else host +:+ "." +:+ zone_name.

Definition is_success (status : Z) : bool := (200 <=? status)%Z && (status <? 300)%Z.

Section Cloudflare.
Context {N : Type} `{!StatusText, !DnsNet N}.

Definition ensure_success (status : Z) (action : string) : Io N unit :=
  require (is_success status) (action +:+ " failed with status " +:+ status_to_string status).

(** [send().await.context(message)?]. *)
Definition send (call : ApiCall) (message : string) : Io N ApiReply := λ n,
  let '(r, n') := net_send call n in (ok_or r message, n').

(** [response.json().await.context(message)?]. *)
Definition decode {A} (body : option A) (message : string) : Io N A := lift (ok_or body message).

Definition provider_zone (zone : CloudflareZone) : ProviderZone :=
  mkProviderZone (cf_zone_id zone) (cf_zone_name zone) (cf_zone_status zone).

Section Config.
Context (config : CloudflareConfig).

Definition api (verb : Verb) (path : list string) (query : list (string * string))
    (body : option Value) : ApiCall :=
  mkCall verb (api_base config) path (api_token config) query body.

(** The loop of [list_zones] over the names. *)
Fixpoint cloudflare_zones_of (names : list string) (zones : list ProviderZone) :
    Io N (list ProviderZone) :=
  match names with
  | [] => ret zones
  | name :: names' =>
      let! response := send (api Get ["zones"] [("name", name)] None)
                         ("failed to call cloudflare list zone api for " +:+ name) in
      do! ensure_success (reply_status response) "list cloudflare zone by name" in
      let! payload := decode (reply_zones response)
                        "failed to decode cloudflare zone lookup response" in
      cloudflare_zones_of names' (zones ++ (provider_zone <$> payload))
  end.

Definition cloudflare_list_zones (names : list string) : Io N (list ProviderZone) :=
  if decide (names = []) then
    let! response := send (api Get ["zones"] [] None) "failed to call cloudflare list zones api" in
    do! ensure_success (reply_status response) "list cloudflare zones" in
    let! payload := decode (reply_zones response) "failed to decode cloudflare zones response" in
    ret (provider_zone <$> payload)
  else cloudflare_zones_of names [].

Definition get_zone_id_by_name (zone_name : string) : Io N string :=
  let! zones := cloudflare_list_zones [zone_name] in
  lift (ok_or (pz_zone_id <$> find_where (λ z, pz_zone_name z = zone_name) zones)
          ("cloudflare zone not found: " +:+ zone_name)).

Definition delete_record_internal (zone_id record_id : string) : Io N unit :=
  let! response := send (api Delete ["zones"; zone_id; "dns_records"; record_id] [] None)
                     "failed to call cloudflare delete dns record api" in
  ensure_success (reply_status response) "delete cloudflare dns record".

Definition find_record_id (zone_id record_type name content : string) : Io N (option string) :=
  let! response := send (api Get ["zones"; zone_id; "dns_records"]
                           [("type", record_type); ("name", name); ("content", content)] None)
                     "failed to call cloudflare list dns records api" in
  do! ensure_success (reply_status response) "list cloudflare dns records" in
  let! payload := decode (reply_records response)
                    "failed to decode cloudflare dns record response" in
  ret (cf_record_id <$> head payload).

Definition find_record_id_by_name (zone_id record_type name : string) : Io N (option string) :=
  let! response := send (api Get ["zones"; zone_id; "dns_records"]
                           [("type", record_type); ("name", name)] None)
                     "failed to call cloudflare list dns records api" in
  do! ensure_success (reply_status response) "list cloudflare dns records" in
  let! payload := decode (reply_records response)
                    "failed to decode cloudflare dns record response" in
  ret (cf_record_id <$> head payload).

(** The zone of a change. *)
Definition zone_of (change : DnsRecordChange) : Io N string :=
  match change_zone_id change with
  | Some zone_id => ret zone_id
  | None => get_zone_id_by_name (change_zone_name change)
  end.

Definition record_body (change : DnsRecordChange) (name : string) : Value :=
  jobj [("type", VString (record_type change)); ("name", VString name);
        ("content", VString (change_value change)); ("ttl", jnat (ttl change))].

Definition cloudflare_create_record (change : DnsRecordChange) : Io N unit :=
  let! zone_id := zone_of change in
  let name := normalize_record_name (host change) (change_zone_name change) in
  let! response := send (api Post ["zones"; zone_id; "dns_records"] []
                           (Some (record_body change name)))
                     "failed to call cloudflare create dns record api" in
  ensure_success (reply_status response) "create cloudflare dns record".

Definition cloudflare_update_record (change : DnsRecordChange) : Io N unit :=
  let! zone_id := zone_of change in
  let name := normalize_record_name (host change) (change_zone_name change) in
  let! found := find_record_id_by_name zone_id (record_type change) name in
  let! record_id := lift (ok_or found "cloudflare dns record not found for update") in
  let! response := send (api Put ["zones"; zone_id; "dns_records"; record_id] []
                           (Some (record_body change name)))
                     "failed to call cloudflare update dns record api" in
  ensure_success (reply_status response) "update cloudflare dns record".

Definition cloudflare_delete_record (change : DnsRecordChange) : Io N unit :=
  let! zone_id := zone_of change in
  let name := normalize_record_name (host change) (change_zone_name change) in
  let! found := find_record_id zone_id (record_type change) name (change_value change) in
  match found with
  | Some record_id => delete_record_internal zone_id record_id
  | None => ret tt
  end.

(** The TXT record of a challenge. *)
Definition challenge_change (challenge : AcmeChallenge) : DnsRecordChange :=
  mkChange (ch_zone_id challenge) (ch_zone_name challenge) "TXT" (fqdn challenge)
    (ch_value challenge) (ch_ttl challenge).

Definition cloudflare_present_dns01_challenge (challenge : AcmeChallenge) : Io N unit :=
  cloudflare_create_record (challenge_change challenge).

Definition cloudflare_cleanup_dns01_challenge (challenge : AcmeChallenge) : Io N unit :=
  cloudflare_delete_record (challenge_change challenge).
End Config.

(** ** The provider interface (lib.rs) *)

(** [Box<dyn DnsProvider>]: one of the two providers. *)
Inductive Provider :=
  | CloudflareDnsProvider (config : CloudflareConfig)
  | NoopDnsProvider.

Definition build_provider (config : ProviderConfig) : Result Provider string :=
  if decide (pc_provider_type config = "cloudflare") then
    let? cloudflare := from_provider_config config in Ok (CloudflareDnsProvider cloudflare)
  else if decide (pc_provider_type config = "noop" ∨ pc_provider_type config = "custom")
  then Ok NoopDnsProvider
  else Err ("unsupported dns provider type: " +:+ pc_provider_type config).

Definition metadata (p : Provider) : ProviderMetadata :=
  match p with
  | CloudflareDnsProvider _ => mkMetadata "cloudflare" true
  | NoopDnsProvider => mkMetadata "noop" true
  end.

Definition list_zones (p : Provider) (names : list string) : Io N (list ProviderZone) :=
  match p with
  | CloudflareDnsProvider config => cloudflare_list_zones config names
  | NoopDnsProvider => ret (noop_list_zones names)
  end.

Definition create_record (p : Provider) (change : DnsRecordChange) : Io N unit :=
  match p with
  | CloudflareDnsProvider config => cloudflare_create_record config change
  | NoopDnsProvider => ret tt
  end.

Definition update_record (p : Provider) (change : DnsRecordChange) : Io N unit :=
  match p with
  | CloudflareDnsProvider config => cloudflare_update_record config change
  | NoopDnsProvider => ret tt
  end.

Definition delete_record (p : Provider) (change : DnsRecordChange) : Io N unit :=
  match p with
  | CloudflareDnsProvider config => cloudflare_delete_record config change
  | NoopDnsProvider => ret tt
  end.

Definition present_dns01_challenge (p : Provider) (challenge : AcmeChallenge) : Io N unit :=
  match p with
  | CloudflareDnsProvider config => cloudflare_present_dns01_challenge config challenge
  | NoopDnsProvider => ret tt
  end.

Definition cleanup_dns01_challenge (p : Provider) (challenge : AcmeChallenge) : Io N unit :=
  match p with
  | CloudflareDnsProvider config => cloudflare_cleanup_dns01_challenge config challenge
  | NoopDnsProvider => ret tt
  end.
End Cloudflare.

(** ** Record names *)

Lemma normalize_record_name_ends h z : ends_with z (normalize_record_name h z) = true.
Proof.
  unfold normalize_record_name. case_decide; [apply ends_with_spec; by exists ""|].
  destruct (ends_with z h) eqn:Hz; [done|]. apply ends_with_spec. exists (h +:+ ".").
  by rewrite string_app_assoc.
Qed.

(** A name is normalised once. *)
Lemma normalize_record_name_idemp h z :
  normalize_record_name (normalize_record_name h z) z = normalize_record_name h z.
Proof.
  unfold normalize_record_name at 1. rewrite normalize_record_name_ends.
  case_decide as Hat; [|done]. revert Hat. unfold normalize_record_name.
  case_decide; [done|]. destruct (ends_with z h); [done|]. intros Heq.
  by destruct h as [|c [|c' h]].
Qed.

(** The suffix is compared as text, not label by label: a relative name that
    happens to end in the name of the zone is taken for a full name. *)
Lemma normalize_record_name_unaligned :
  normalize_record_name "my-example.com" "example.com" = "my-example.com".
Proof. reflexivity. Qed.

(** ** The records of an account *)

Record DnsRecord := mkRecord {
  rec_type : string;
  rec_name : string;
  rec_content : string;
  rec_ttl : Z;
}.

#[export] Instance DnsRecord_eq_dec : EqDecision DnsRecord.
Proof. solve_decision. Defined.

(** A record that a listing with these filters returns. *)
Definition filter_ok (r : DnsRecord) (kv : string * string) : bool :=
  let '(k, v) := kv in
  if decide (k = "type") then String.eqb (rec_type r) v
  else if decide (k = "name") then String.eqb (rec_name r) v
  else if decide (k = "content") then String.eqb (rec_content r) v
  else true.
Definition listed (query : list (string * string)) (r : DnsRecord) : Prop :=
  forallb (filter_ok r) query = true.

Definition record_of (change : DnsRecordChange) (name : string) : DnsRecord :=
  mkRecord (record_type change) name (change_value change) (ttl change).

(** The documented behaviour of the record endpoints, for calls that are
    answered with success: a record is added under a new id, rewritten, removed,
    or the records that pass the filters are listed, at least one of them if
    there is one (a page of the listing).  The laws idealise the server in one
    point: it keeps the name and the content of a record byte for byte as they were
    sent, where the real one may store another spelling of the same name or content
    (lower case, quotes around a TXT value) and compares modulo such spellings. *)
Class CloudflareLaws (N : Type) `{!DnsNet N} (config : CloudflareConfig) := {
  records : N → gmap (string * string) DnsRecord;
  post_record n zone change name r n' :
    net_send (api config Post ["zones"; zone; "dns_records"] [] (Some (record_body change name))) n
      = (Some r, n') → is_success (reply_status r) = true →
    ∃ rid, records n !! (zone, rid) = None
      ∧ records n' = <[(zone, rid) := record_of change name]> (records n);
  put_record n zone rid change name r n' :
    net_send (api config Put ["zones"; zone; "dns_records"; rid] []
                (Some (record_body change name))) n = (Some r, n') →
    is_success (reply_status r) = true →
    records n' = <[(zone, rid) := record_of change name]> (records n);
  get_records n zone query r n' l :
    net_send (api config Get ["zones"; zone; "dns_records"] query None) n = (Some r, n') →
    is_success (reply_status r) = true → reply_records r = Some l →
    records n' = records n
    ∧ (∀ x, x ∈ l → ∃ y, records n !! (zone, cf_record_id x) = Some y ∧ listed query y)
    ∧ (l = [] → ∀ rid y, records n !! (zone, rid) = Some y → ¬ listed query y);
  delete_rec n zone rid r n' :
    net_send (api config Delete ["zones"; zone; "dns_records"; rid] [] None) n = (Some r, n') →
    is_success (reply_status r) = true → records n' = delete (zone, rid) (records n);
}.

Section Effects.
Context {N : Type} `{ST : !StatusText, DN : !DnsNet N} (config : CloudflareConfig).
Context `{CL : !CloudflareLaws N config}.
Implicit Types n : N.

Lemma send_Ok call msg n r n' : send call msg n = (Ok r, n') → net_send call n = (Some r, n').
Proof. unfold send. destruct (net_send call n) as [[x|] n1]; intros [= <- <-]; done. Qed.

Lemma ensure_success_Ok status action n u n' :
  ensure_success status action n = (Ok u, n') → is_success status = true ∧ n' = n.
Proof. unfold ensure_success, require. destruct (is_success status); by intros [= _ ->]. Qed.

Lemma create_record_effect change zone n n' :
  change_zone_id change = Some zone → cloudflare_create_record config change n = (Ok tt, n') →
  let name := normalize_record_name (host change) (change_zone_name change) in
  ∃ rid, records n !! (zone, rid) = None
    ∧ records n' = <[(zone, rid) := record_of change name]> (records n).
Proof.
  intros Hz H name. unfold cloudflare_create_record, zone_of in H. rewrite Hz in H.
  apply io_bind_Ok in H as (z & n0 & [= <- <-] & H).
  apply io_bind_Ok in H as (r & n1 & Hr%send_Ok & [Hs ->]%ensure_success_Ok).
  by eapply post_record.
Qed.

Lemma find_Ok zone query n o n' msg1 msg2 msg3 :
  (let! response := send (api config Get ["zones"; zone; "dns_records"] query None) msg1 in
   do! ensure_success (reply_status response) msg2 in
   let! payload := decode (reply_records response) msg3 in
   ret (cf_record_id <$> head payload)) n = (Ok o, n') →
  records n' = records n
  ∧ match o with
    | Some rid => ∃ y, records n !! (zone, rid) = Some y ∧ listed query y
    | None => ∀ rid y, records n !! (zone, rid) = Some y → ¬ listed query y
    end.
Proof.
  intros H. apply io_bind_Ok in H as (r & n1 & Hr%send_Ok & H).
  apply io_bind_Ok in H as ([] & n2 & [Hs ->]%ensure_success_Ok & H).
  apply io_bind_Ok in H as (l & n2 & Hl & [= <- <-]). unfold decode, lift in Hl.
  destruct (reply_records r) as [l'|] eqn:Hrec; [|done]. simpl in Hl. injection Hl as <- <-.
  destruct (get_records n zone query r n1 l' Hr Hs Hrec) as (Hsame & Hall & Hnone).
  split; [done|]. destruct l' as [|x l']; simpl; [by apply Hnone|]. apply Hall. left.
Qed.

Lemma listed_content t nm c y :
  listed [("type", t); ("name", nm); ("content", c)] y ↔
  rec_type y = t ∧ rec_name y = nm ∧ rec_content y = c.
Proof.
  unfold listed. simpl. rewrite !andb_true_iff, !String.eqb_eq. naive_solver.
Qed.

Lemma listed_name t nm y :
  listed [("type", t); ("name", nm)] y ↔ rec_type y = t ∧ rec_name y = nm.
Proof. unfold listed. simpl. rewrite !andb_true_iff, !String.eqb_eq. naive_solver. Qed.

(** A record with the type, the name and the content of a change. *)
Definition has_record n (zone : string) (change : DnsRecordChange) (rid : string) : Prop :=
  ∃ y, records n !! (zone, rid) = Some y
    ∧ rec_type y = record_type change
    ∧ rec_name y = normalize_record_name (host change) (change_zone_name change)
    ∧ rec_content y = change_value change.

Lemma delete_record_effect change zone n n' :
  change_zone_id change = Some zone → cloudflare_delete_record config change n = (Ok tt, n') →
  (∃ rid, has_record n zone change rid ∧ records n' = delete (zone, rid) (records n))
  ∨ ((∀ rid, ¬ has_record n zone change rid) ∧ records n' = records n).
Proof.
  intros Hz H. unfold cloudflare_delete_record, zone_of in H. rewrite Hz in H.
  apply io_bind_Ok in H as (z & n0 & [= <- <-] & H).
  apply io_bind_Ok in H as (o & n1 & [Hsame Hfound]%find_Ok & H). destruct o as [rid|].
  - left. exists rid. destruct Hfound as (y & Hy & Hl%listed_content).
    split; [by exists y; naive_solver|].
    apply io_bind_Ok in H as (r & n2 & Hr%send_Ok & [Hs ->]%ensure_success_Ok).
    rewrite <-Hsame. by eapply delete_rec.
  - injection H as <-. right. split; [|done]. intros rid (y & Hy & Ht & Hn & Hc).
    apply (Hfound rid y Hy). by apply listed_content.
Qed.

Lemma update_record_effect_aux change zone n n' :
  change_zone_id change = Some zone → cloudflare_update_record config change n = (Ok tt, n') →
  let name := normalize_record_name (host change) (change_zone_name change) in
  ∃ rid y, records n !! (zone, rid) = Some y ∧ rec_type y = record_type change ∧ rec_name y = name
    ∧ records n' = <[(zone, rid) := record_of change name]> (records n).
Proof.
  intros Hz H name. unfold cloudflare_update_record, zone_of in H. rewrite Hz in H.
  apply io_bind_Ok in H as (z & n0 & [= <- <-] & H).
  apply io_bind_Ok in H as (o & n1 & [Hsame Hfound]%find_Ok & H).
  apply io_bind_Ok in H as (rid & n2 & Ho & H). unfold lift in Ho. destruct o as [rid'|]; [|done].
  simpl in Ho. injection Ho as <- <-. destruct Hfound as (y & Hy & Hl%listed_name).
  apply io_bind_Ok in H as (r & n3 & Hr%send_Ok & [Hs ->]%ensure_success_Ok).
  exists rid', y. destruct Hl as [Ht Hn]. split_and!; [done..|]. rewrite <-Hsame. by eapply put_record.
Qed.

(** C21: Presenting a DNS challenge through Cloudflare and cleaning it up leaves the
    zone as it was: presenting adds one TXT record with the name and the token of
    the challenge and nothing else, and the cleanup removes that record and nothing
    else, provided the zone had no such record before. *)
Theorem present_cleanup_restores challenge zone n n1 n2 :
  ch_zone_id challenge = Some zone →
  (∀ rid, ¬ has_record n zone (challenge_change challenge) rid) →
  present_dns01_challenge (CloudflareDnsProvider config) challenge n = (Ok tt, n1) →
  cleanup_dns01_challenge (CloudflareDnsProvider config) challenge n1 = (Ok tt, n2) →
  (∃ rid, records n !! (zone, rid) = None
     ∧ records n1 = <[(zone, rid) := mkRecord "TXT"
                        (normalize_record_name (fqdn challenge) (ch_zone_name challenge))
                        (ch_value challenge) (ch_ttl challenge)]> (records n))
  ∧ records n2 = records n.
Proof.
  intros Hz Hnone Hp Hc. simpl in Hp, Hc.
  apply (create_record_effect _ zone) in Hp as (rid & Hnew & H1); [|done].
  split; [by exists rid|]. apply (delete_record_effect _ zone) in Hc; [|done].
  destruct Hc as [(rid' & (y & Hy & Ht & Hn & Hv) & H2)|[Hno _]].
  - rewrite H1 in Hy. apply lookup_insert_Some in Hy as [[[= <-] <-]|[_ Hy]].
    + rewrite H2, H1. by rewrite delete_insert_id.
    + destruct (Hnone rid'). by exists y.
  - destruct (Hno rid). eexists. rewrite H1, lookup_insert_eq. by split.
Qed.
End Effects.

(** ** A concrete peer *)

Record DemoCloud := mkDemoCloud {
  demo_zones : list CloudflareZone;
  demo_records : gmap (string * string) DnsRecord;
}.

Definition body_record (body : option Value) : DnsRecord :=
  match body with
  | Some v => mkRecord (default "" (get_str v "type")) (default "" (get_str v "name"))
                (default "" (get_str v "content")) (default 0%Z (get_u64 v "ttl"))
  | None => mkRecord "" "" "" 0
  end.

(** An id that is in use nowhere. *)
Definition fresh_id (m : gmap (string * string) DnsRecord) : string :=
  fresh (map_to_list m).*1.*2.

Definition demo_listing (zone : string) (query : list (string * string))
    (m : gmap (string * string) DnsRecord) : list CloudflareRecord :=
  (λ kv, mkCfRecord kv.1.2) <$> filter (λ kv, kv.1.1 = zone ∧ forallb (filter_ok kv.2) query = true)
                                  (map_to_list m).

#[export] Instance demo_net : DnsNet DemoCloud := λ call n,
  let m := demo_records n in
  match call_verb call, call_path call with
  | Get, ["zones"] => (Some (mkReply 200 (Some (demo_zones n)) None), n)
  | Get, ["zones"; zone; "dns_records"] =>
      (Some (mkReply 200 None (Some (demo_listing zone (call_query call) m))), n)
  | Post, ["zones"; zone; "dns_records"] =>
      (Some (mkReply 200 None None),
       mkDemoCloud (demo_zones n) (<[(zone, fresh_id m) := body_record (call_json call)]> m))
  | Put, ["zones"; zone; "dns_records"; rid] =>
      (Some (mkReply 200 None None),
       mkDemoCloud (demo_zones n) (<[(zone, rid) := body_record (call_json call)]> m))
  | Delete, ["zones"; zone; "dns_records"; rid] =>
      (Some (mkReply 200 None None), mkDemoCloud (demo_zones n) (delete (zone, rid) m))
  | _, _ => (Some (mkReply 404 None None), n)
  end.

#[export] Instance demo_status_text : StatusText := pretty.

Lemma body_record_of change name :
  body_record (Some (record_body change name)) = record_of change name.
Proof. by destruct change. Qed.

Definition demo_cf : CloudflareConfig := mkCloudflareConfig "token" "https://api.example".

#[export] Instance demo_cloud_laws : CloudflareLaws DemoCloud demo_cf.
Proof.
  refine {| records := demo_records |}.
  - intros n zone change name r n' [= <- <-] _. exists (fresh_id (demo_records n)).
    rewrite <-(body_record_of change name). split; [simpl|done].
    destruct (demo_records n !! (zone, fresh_id (demo_records n))) as [y|] eqn:Hy; [|done].
    destruct (infinite_is_fresh (map_to_list (demo_records n)).*1.*2).
    apply list_elem_of_fmap. exists (zone, fresh_id (demo_records n)). split; [done|].
    apply list_elem_of_fmap. exists (zone, fresh_id (demo_records n), y).
    split; [done|]. by apply elem_of_map_to_list.
  - intros n zone rid change name r n' [= <- <-] _. by rewrite <-(body_record_of change name).
  - intros n zone query r n' l [= <- <-] _ [= <-]. split; [done|]. unfold demo_listing. split.
    + intros x Hx. apply list_elem_of_fmap in Hx as ([[z rid] y] & -> & Hx).
      apply list_elem_of_filter in Hx as [[Hz Hq] Hin%elem_of_map_to_list].
      simpl in *. subst z. by exists y.
    + intros Hnil%fmap_nil_inv rid y Hy Hq.
      assert ((zone, rid, y) ∈ filter (λ kv : string * string * DnsRecord,
        kv.1.1 = zone ∧ forallb (filter_ok kv.2) query = true) (map_to_list (demo_records n))) as Hin
        by (apply list_elem_of_filter; split; [done|by apply elem_of_map_to_list]).
      rewrite Hnil in Hin. by apply not_elem_of_nil in Hin.
  - by intros n zone rid r n' [= <- <-] _.
Defined.

Definition demo_challenge : AcmeChallenge :=
  mkChallenge (Some "z1") "example.com" "_acme-challenge.www.example.com" "token-1" 60.
Definition cloud0 : DemoCloud :=
  mkDemoCloud [mkCfZone "z1" "example.com" "active"]
    {[ ("z1", "r1") := mkRecord "A" "www.example.com" "203.0.113.7" 300 ]}.

Lemma present_cleanup_restores_witness :
  let n1 := (present_dns01_challenge (CloudflareDnsProvider demo_cf) demo_challenge cloud0).2 in
  size (demo_records n1) = 2
  ∧ demo_records (cleanup_dns01_challenge (CloudflareDnsProvider demo_cf) demo_challenge n1).2
    = demo_records cloud0.
Proof.
  intros n1. split; [vm_compute; reflexivity|].
  set (n2 := (cleanup_dns01_challenge (CloudflareDnsProvider demo_cf) demo_challenge n1).2).
  assert (present_dns01_challenge (CloudflareDnsProvider demo_cf) demo_challenge cloud0
          = (Ok tt, n1)) as Hp by (vm_compute; reflexivity).
  assert (cleanup_dns01_challenge (CloudflareDnsProvider demo_cf) demo_challenge n1
          = (Ok tt, n2)) as Hc by (vm_compute; reflexivity).
  clearbody n2. clearbody n1.
  destruct (present_cleanup_restores demo_cf demo_challenge "z1" cloud0 n1 n2) as [_ H];
    [reflexivity| |exact Hp|exact Hc|exact H].
  intros rid (y & Hy & Ht & _).
  change (({[ ("z1", "r1") := mkRecord "A" "www.example.com" "203.0.113.7" 300 ]}
           : gmap (string * string) DnsRecord) !! ("z1", rid) = Some y) in Hy.
  apply lookup_singleton_Some in Hy as [_ <-]. discriminate Ht.
Defined.
