(* ===== verification/Failover.v ===== *)
(** * The failover worker: its decisions (apps/failover-worker/src/main.rs)

    Which policies call for a failover, the bindings a failover writes, the
    standby the policy falls back on next, the DNS change that goes with it and
    the operations queued after it.  The snapshots are what the worker reads from
    the database; the queries and the transaction around them are in [FailoverTx]. *)

From stdpp Require Import prelude strings pretty gmap sorting.
From Stdlib Require Import Ascii.
From S2P Require Import Prelude RustStr Json Extern AppError Domain StatusWorker DnsProvider.

(** ** Snapshots *)

Record PolicySnapshot := mkPolicy {
  policy_id : Uuid;
  policy_scope_type : string;
  policy_scope_id : Uuid;
  primary_node_id : Uuid;
  standby_node_id : Uuid;
  trigger_mode : string;
  failure_threshold : Z;
  precheck_policy : Value;
  primary_node_code : string;
  standby_node_code : string;
  primary_status : string;
  standby_status : string;
  standby_public_ip : option string;
  primary_last_seen_at : option DateTime;
  primary_active_config_version : option string;
  standby_active_config_version : option string;
}.

Record SiteBindingSnapshot := mkBound {
  fb_node_id : Uuid;
  fb_node_code : string;
  fb_node_status : string;
  fb_binding_role : string;
  fb_priority : Z;
}.

Record DnsZoneSnapshot := mkZoneSnapshot {
  zs_zone_id : Uuid;
  zs_provider_id : Uuid;
  zs_provider_type : string;
  zs_api_endpoint : option string;
  zs_credential_encrypted : string;
  zs_zone_name : string;
  zs_external_zone_id : string;
  zs_status : string;
}.

Record DnsFailoverPlan := mkPlan {
  plan_zone : DnsZoneSnapshot;
  change : DnsRecordChange;
}.

Record PostSwitchOperationSpec := mkPostSwitch {
  spec_node_id : Uuid;
  spec_template_id : option Uuid;
  spec_template_name : option string;
  spec_input_params : Value;
}.

(** The parsers of the standard library and of [uuid]. *)
Class FailoverExtern := {
  uuid_parse_str : string → option Uuid;
  parse_ipv4 : string → bool;
  parse_ipv6 : string → bool;
}.

(** ** When to fail over *)

Definition policy_bool (value : Value) (key : string) (default_value : bool) : bool :=
  default default_value (get_bool value key).

Definition evaluate_policy (policy : PolicySnapshot) (now : DateTime)
    (expected_heartbeat_seconds : Z) : option string :=
  if decide (policy_scope_type policy ≠ "site") then None
  else if decide (trigger_mode policy ∉ ["semi_auto"; "auto"]) then None
  else if policy_bool (precheck_policy policy) "require_standby_online" true
          && negb (bool_decide (standby_status policy = "online")) then None
  else if policy_bool (precheck_policy policy) "require_config_prewarm" false
          && negb (bool_decide (is_Some (standby_active_config_version policy)
                                ∧ standby_active_config_version policy
                                  = primary_active_config_version policy)) then None
  else
    let primary_missed :=
      default u32_max
        ((λ seen, missed_heartbeats now seen expected_heartbeat_seconds)
         <$> primary_last_seen_at policy) in
    let failure_threshold := Z.max (failure_threshold policy) 1 in
    if decide (primary_status policy = "offline" ∨ (failure_threshold ≤ primary_missed)%Z)
    then Some ("primary node " +:+ primary_node_code policy +:+ " degraded; status="
               +:+ primary_status policy +:+ " missed_heartbeats=" +:+ pretty primary_missed)
    else None.

(** ** Bindings *)

Definition fb_primary (b : SiteBindingSnapshot) : Prop := fb_binding_role b = "primary".
Definition fb_standby (b : SiteBindingSnapshot) : Prop := fb_binding_role b = "standby".
#[export] Instance fb_primary_dec b : Decision (fb_primary b).
Proof. unfold fb_primary. apply _. Defined.
#[export] Instance fb_standby_dec b : Decision (fb_standby b).
Proof. unfold fb_standby. apply _. Defined.

(** [Iterator::min] on priorities. *)
Definition min_priority (l : list Z) : option Z := min_by Z.compare l.

Definition current_primary_priority (existing : list SiteBindingSnapshot) (primary : Uuid) : Z :=
  default 10%Z
    (or_else (fb_priority <$> find_where (λ b, fb_node_id b = primary ∧ fb_primary b) existing)
             (min_priority (fb_priority <$> filter fb_primary existing))).

Definition binding_cmp : SiteBindingSnapshot → SiteBindingSnapshot → comparison :=
  cmp_then (cmp_on fb_priority Z.compare) (cmp_on fb_node_code String.compare).

Definition build_switched_bindings `{!Extern} (existing : list SiteBindingSnapshot)
    (primary standby : Uuid) : list SiteBindingSnapshot :=
  let current := current_primary_priority existing primary in
  let standby_previous :=
    default (wrap_i32 (current + 10))
      (fb_priority <$> find_where (λ b, fb_node_id b = standby) existing) in
  let old_primary_new := Z.max standby_previous (wrap_i32 (current + 10)) in
  let others := filter (λ b, fb_node_id b ≠ primary ∧ fb_node_id b ≠ standby) existing in
  let standby_node :=
    default (mkBound standby (uuid_to_string standby) "online" "standby" standby_previous)
      (find_where (λ b, fb_node_id b = standby) existing) in
  let old_primary :=
    default (mkBound primary (uuid_to_string primary) "offline" "primary" current)
      (find_where (λ b, fb_node_id b = primary) existing) in
  sort_by binding_cmp
    (others
     ++ [mkBound (fb_node_id standby_node) (fb_node_code standby_node) (fb_node_status standby_node)
           "primary" current]
     ++ [mkBound (fb_node_id old_primary) (fb_node_code old_primary) (fb_node_status old_primary)
           "standby" old_primary_new]).

Definition standby_status_rank (status : string) : Z :=
  if eq_ignore_ascii_case status "online" then 0 else 1.

Definition standby_cmp : SiteBindingSnapshot → SiteBindingSnapshot → comparison :=
  cmp_then (cmp_on (λ b, standby_status_rank (fb_node_status b)) Z.compare) binding_cmp.

Definition select_next_policy_standby (bindings : list SiteBindingSnapshot) (primary : Uuid) :
    option Uuid :=
  fb_node_id <$>
    min_by standby_cmp (filter (λ b, fb_node_id b ≠ primary ∧ fb_standby b) bindings).

Definition current_primary_node_id (bindings : list SiteBindingSnapshot) : option Uuid :=
  fb_node_id <$> min_by (cmp_on fb_priority Z.compare) (filter fb_primary bindings).

(** The policy [advance_failover_policy] leaves: unchanged without a standby. *)
Definition advanced_targets (policy : PolicySnapshot) (switched : list SiteBindingSnapshot) :
    Uuid * Uuid :=
  match select_next_policy_standby switched (standby_node_id policy) with
  | Some next => (standby_node_id policy, next)
  | None => (primary_node_id policy, standby_node_id policy)
  end.

(** The checks of [trigger_policy_failover] before the switch is executed. *)
Definition should_switch (open_event : bool) (policy : PolicySnapshot)
    (bindings : list SiteBindingSnapshot) : bool :=
  negb open_event
  && negb (bool_decide (current_primary_node_id bindings = Some (standby_node_id policy))).

(** ** The DNS change *)

Definition dns_failover_config (policy : Value) : option Map :=
  get policy "dns_failover" ≫= as_object.

(** A string setting: trimmed, the blank ones left out. *)
Definition text_setting (config : Map) (key : string) : option string :=
  match trim <$> (map_get config key ≫= as_str) with
  | Some v => if is_empty v then None else Some v
  | None => None
  end.

Definition domain_belongs_to_zone (domain zone_name : string) : bool :=
  String.eqb domain zone_name || ends_with ("." +:+ zone_name) domain.

Definition select_dns_failover_zone `{!Extern, !FailoverExtern} (site_domain : string)
    (config : Map) (zones : list DnsZoneSnapshot) : Result DnsZoneSnapshot string :=
  match (map_get config "zone_id" ≫= as_str) ≫= uuid_parse_str with
  | Some zid =>
      ok_or (find_where (λ z, zs_zone_id z = zid ∧ zs_status z = "active") zones)
        ("dns failover zone_id " +:+ uuid_to_string zid +:+ " is not active or not found")
  | None =>
      match text_setting config "zone_name" with
      | Some name =>
          ok_or (find_where (λ z, zs_zone_name z = name ∧ zs_status z = "active") zones)
            ("dns failover zone_name " +:+ name +:+ " is not active or not found")
      | None =>
          ok_or
            (max_by (cmp_on (λ z, String.length (zs_zone_name z)) Nat.compare)
               (filter (λ z, zs_status z = "active"
                             ∧ domain_belongs_to_zone site_domain (zs_zone_name z) = true) zones))
            ("no active dns zone matches site domain " +:+ site_domain)
      end
  end.

Definition validate_dns_failover_target `{!FailoverExtern} (record_type value : string) :
    Result unit string :=
  if decide (record_type = "A") then
    if parse_ipv4 value then Ok tt else Err "dns failover A record requires standby public IPv4"
  else if decide (record_type = "AAAA") then
    if parse_ipv6 value then Ok tt else Err "dns failover AAAA record requires standby public IPv6"
  else Err "dns failover record_type must be A or AAAA".

Definition build_dns_failover_plan `{!Extern, !FailoverExtern} (site_domain : string)
    (policy : PolicySnapshot) (zones : list DnsZoneSnapshot) :
    Result (option DnsFailoverPlan) string :=
  match dns_failover_config (precheck_policy policy) with
  | None => Ok None
  | Some config =>
      if negb (default false (map_get config "enabled" ≫= as_bool)) then Ok None
      else
        let? standby_ip :=
          match trim <$> standby_public_ip policy with
          | Some v => if is_empty v
                      then Err ("dns failover is enabled but standby node "
                                +:+ standby_node_code policy +:+ " has no public_ip")
                      else Ok v
          | None => Err ("dns failover is enabled but standby node "
                         +:+ standby_node_code policy +:+ " has no public_ip")
          end in
        let record_type := to_ascii_uppercase (default "A" (text_setting config "record_type")) in
        let? _ := validate_dns_failover_target record_type standby_ip in
        let? zone := select_dns_failover_zone site_domain config zones in
        let host := default site_domain (text_setting config "host") in
        let ttl := clamp 1 86400
          (default 60%Z ((map_get config "ttl" ≫= as_u64) ≫= try_from 0 u32_max)) in
        Ok (Some (mkPlan zone
          (mkChange (Some (zs_external_zone_id zone)) (zs_zone_name zone) record_type host
             standby_ip ttl)))
  end.

(** ** Operations after the switch *)

Definition parse_post_switch_operation `{!FailoverExtern} (value : Value) (policy : PolicySnapshot) :
    option PostSwitchOperationSpec :=
  object ← as_object value;
  let template_id := (map_get object "template_id" ≫= as_str) ≫= uuid_parse_str in
  let template_name := text_setting object "template_name" in
  if decide (template_id = None ∧ template_name = None) then None
  else
    let target := default "standby" (map_get object "target" ≫= as_str) in
    let node_id :=
      if decide (target ∈ ["standby"; "target"; "new_primary"]) then standby_node_id policy
      else if decide (target ∈ ["primary"; "source"; "old_primary"]) then primary_node_id policy
      else standby_node_id policy in
    let input_params :=
      match map_get object "input_params" with Some (VObject m) => VObject m | _ => VObject [] end in
    Some (mkPostSwitch node_id template_id template_name input_params).

(** ** What a failover leaves *)

(** Bindings in order: a node at most once, the roles known, one primary. *)
Record fb_ok (bs : list SiteBindingSnapshot) : Prop := {
  fb_nodup : NoDup (fb_node_id <$> bs);
  fb_roles : Forall (λ b, fb_primary b ∨ fb_standby b) bs;
  fb_one_primary : length (filter fb_primary bs) = 1;
}.

#[export] Instance fb_ok_perm : Proper ((≡ₚ) ==> iff) fb_ok.
Proof.
  assert (∀ l k, l ≡ₚ k → fb_ok l → fb_ok k) as Hone.
  { intros l k Hp [H1 H2 H3]. split; by rewrite <-Hp. }
  intros l k Hp. split; by apply Hone.
Qed.

(** A node looked up by id, or made up, has that id. *)
Lemma looked_up_id (u : Uuid) c st ro pr bs :
  fb_node_id (default (mkBound u c st ro pr) (find_where (λ b, fb_node_id b = u) bs)) = u.
Proof.
  destruct (find_where _ bs) as [b|] eqn:Hb; [|done]. by apply find_where_Some in Hb as [_ Hid].
Qed.

Lemma fb_primary_unique bs p b :
  fb_ok bs → p ∈ bs → fb_primary p → b ∈ bs → fb_primary b → b = p.
Proof.
  intros [_ _ Hone] Hp Hpp Hb Hbp.
  assert (p ∈ filter fb_primary bs) as H1 by (by apply list_elem_of_filter).
  assert (b ∈ filter fb_primary bs) as H2 by (by apply list_elem_of_filter).
  destruct (filter fb_primary bs) as [|x [|y l]]; simpl in Hone; [lia| |lia].
  apply list_elem_of_singleton in H1, H2. congruence.
Qed.

(** The bindings other than those of the two nodes. *)
Definition bystanders (primary standby : Uuid) (bs : list SiteBindingSnapshot) :
    list SiteBindingSnapshot :=
  filter (λ b, fb_node_id b ≠ primary ∧ fb_node_id b ≠ standby) bs.

Lemma elem_of_bystanders primary standby bs b :
  b ∈ bystanders primary standby bs ↔ b ∈ bs ∧ fb_node_id b ≠ primary ∧ fb_node_id b ≠ standby.
Proof. unfold bystanders. rewrite list_elem_of_filter. tauto. Qed.

(** Two promoted and demoted nodes beside standbys are in order. *)
Lemma fb_ok_pair others s o :
  NoDup (fb_node_id <$> others) → Forall fb_standby others →
  fb_primary s → fb_standby o → fb_node_id s ≠ fb_node_id o →
  fb_node_id s ∉ fb_node_id <$> others → fb_node_id o ∉ fb_node_id <$> others →
  fb_ok (others ++ [s] ++ [o]).
Proof.
  intros Hnd Hst Hs Ho Hne Hs' Ho'.
  assert (others ++ [s] ++ [o] ≡ₚ s :: o :: others) as -> by (simpl; by rewrite <-!Permutation_middle, app_nil_r).
  assert (¬ fb_primary o) as Hop by (unfold fb_primary, fb_standby in *; congruence).
  split.
  - rewrite !fmap_cons. apply NoDup_cons. split; [set_solver|]. by apply NoDup_cons.
  - constructor; [by left|]. constructor; [by right|]. eapply Forall_impl; [done|]. by right.
  - rewrite filter_cons_True, filter_cons_False by done. simpl. f_equal.
    assert (filter fb_primary others = []) as ->; [|done].
    induction Hst as [|b l Hb _ IH]; [done|]. rewrite filter_cons_False; [|unfold fb_primary, fb_standby in *; congruence].
    apply IH; [|set_solver..]. rewrite fmap_cons in Hnd. by apply NoDup_cons in Hnd as [_ ?].
Qed.

Lemma current_primary_of_ok bs p :
  fb_ok bs → p ∈ bs → fb_primary p → current_primary_node_id bs = Some (fb_node_id p).
Proof.
  intros Hok Hp Hpp. unfold current_primary_node_id.
  destruct (min_by _ (filter fb_primary bs)) as [b|] eqn:Hb.
  - apply min_by_elem, list_elem_of_filter in Hb as [Hbp Hb]. simpl. f_equal.
    by rewrite (fb_primary_unique bs p b).
  - apply min_by_None in Hb. assert (p ∈ filter fb_primary bs) as Hin by (by apply list_elem_of_filter).
    rewrite Hb in Hin. by apply not_elem_of_nil in Hin.
Qed.

(** What the new bindings are made of. *)
Lemma switched_shape `{!Extern} existing p standby :
  fb_ok existing → p ∈ existing → fb_primary p → fb_node_id p ≠ standby →
  (i32_min ≤ fb_priority p)%Z → (fb_priority p + 10 ≤ i32_max)%Z →
  let bs := build_switched_bindings existing (fb_node_id p) standby in
  fb_ok bs
  ∧ ∃ s o, bs ≡ₚ bystanders (fb_node_id p) standby existing ++ [s] ++ [o]
      ∧ fb_node_id s = standby ∧ fb_primary s ∧ fb_priority s = fb_priority p
      ∧ fb_node_id o = fb_node_id p ∧ fb_standby o ∧ (fb_priority p < fb_priority o)%Z.
Proof.
  intros Hok Hp Hpp Hne Hlo Hhi bs.
  assert (current_primary_priority existing (fb_node_id p) = fb_priority p) as Hcur.
  { unfold current_primary_priority.
    rewrite (find_where_unique _ existing p); [done|done|done|].
    intros b Hb [_ Hbp]. by apply (fb_primary_unique existing p b). }
  assert (∃ s o, bs ≡ₚ bystanders (fb_node_id p) standby existing ++ [s] ++ [o]
            ∧ fb_node_id s = standby ∧ fb_primary s ∧ fb_priority s = fb_priority p
            ∧ fb_node_id o = fb_node_id p ∧ fb_standby o ∧ (fb_priority p < fb_priority o)%Z)
    as (s & o & Hperm & Hsid & Hsp & Hspr & Hoid & Hos & Hopr).
  { unfold bs, build_switched_bindings. rewrite Hcur, !looked_up_id.
    rewrite wrap_i32_id by (unfold i32_min, i32_max in *; lia).
    eexists _, _. split_and!; [apply sort_by_perm|done..|simpl; lia]. }
  split; [|by exists s, o].
  rewrite Hperm. apply fb_ok_pair; try done.
  - eapply sublist_NoDup; [by apply fb_nodup|]. apply fmap_sublist, sublist_filter.
  - apply Forall_forall. intros b [Hb [Hbp _]]%elem_of_bystanders.
    pose proof (fb_roles _ Hok) as Hr. rewrite Forall_forall in Hr.
    destruct (Hr b Hb) as [Hprim|]; [|done]. by rewrite (fb_primary_unique existing p b) in Hbp.
  - rewrite Hsid, Hoid. congruence.
  - rewrite Hsid, list_elem_of_fmap. by intros (b & Hb & [_ [_ ?]]%elem_of_bystanders).
  - rewrite Hoid, list_elem_of_fmap. by intros (b & Hb & [_ [? _]]%elem_of_bystanders).
Qed.

(** A failover of a site whose bindings are in order, from its primary to
    another node, leaves them in order and sorted: the standby is the only primary
    and takes over the priority, the old primary is a standby behind it, every
    other binding is kept as it was, no node is lost.  The worker then sees the
    standby as the primary, and the same policy does not switch again. *)
Theorem failover_promotes_standby `{!Extern} existing p standby :
  fb_ok existing → p ∈ existing → fb_primary p → fb_node_id p ≠ standby →
  (i32_min ≤ fb_priority p)%Z → (fb_priority p + 10 ≤ i32_max)%Z →
  let bs := build_switched_bindings existing (fb_node_id p) standby in
  fb_ok bs ∧ sorted_by binding_cmp bs
  ∧ (∃ s, s ∈ bs ∧ fb_primary s ∧ fb_node_id s = standby ∧ fb_priority s = fb_priority p)
  ∧ (∃ o, o ∈ bs ∧ fb_standby o ∧ fb_node_id o = fb_node_id p ∧ (fb_priority p < fb_priority o)%Z)
  ∧ (∀ b, b ∈ existing → fb_node_id b ≠ fb_node_id p → fb_node_id b ≠ standby → b ∈ bs)
  ∧ (∀ n, n ∈ fb_node_id <$> bs ↔ n = standby ∨ n ∈ fb_node_id <$> existing)
  ∧ current_primary_node_id bs = Some standby
  ∧ (∀ open policy, standby_node_id policy = standby → should_switch open policy bs = false).
Proof.
  intros Hok Hp Hpp Hne Hlo Hhi bs.
  destruct (switched_shape existing p standby)
    as (Hbs & s & o & Hperm & Hsid & Hsp & Hspr & Hoid & Hos & Hopr); [done..|]. fold bs in Hbs, Hperm.
  assert (s ∈ bs) as Hs by (rewrite Hperm; set_solver).
  assert (o ∈ bs) as Ho by (rewrite Hperm; set_solver).
  pose proof (current_primary_of_ok bs s Hbs Hs Hsp) as Hcp. rewrite Hsid in Hcp.
  split_and!; [done|apply sort_by_sorted; apply _|by exists s|by exists o| | |done|].
  - intros b Hb H1 H2. rewrite Hperm. apply elem_of_app. left. by apply elem_of_bystanders.
  - intros n. rewrite Hperm, fmap_app, elem_of_app. simpl. rewrite Hsid, Hoid, list_elem_of_fmap. split.
    + intros [(b & -> & [Hb _]%elem_of_bystanders)|Hn]; [right; by apply list_elem_of_fmap_2|].
      assert (n = standby ∨ n = fb_node_id p) as [->| ->] by set_solver; [by left|].
      right. by apply list_elem_of_fmap_2.
    + intros [->|Hn]; [right; set_solver|]. apply list_elem_of_fmap in Hn as (b & -> & Hb).
      destruct (decide (fb_node_id b = fb_node_id p)) as [->|H1]; [right; set_solver|].
      destruct (decide (fb_node_id b = standby)) as [->|H2]; [right; set_solver|].
      left. exists b. split; [done|]. by apply elem_of_bystanders.
  - intros open policy Hpol. unfold should_switch. rewrite Hcp, Hpol, bool_decide_true by done.
    apply andb_false_r.
Qed.

(** ** Examples *)

Definition three_bindings : list SiteBindingSnapshot :=
  [mkBound 1 "a" "online" "primary" 10; mkBound 2 "b" "offline" "standby" 20;
   mkBound 3 "c" "online" "standby" 30].

Lemma three_bindings_ok : fb_ok three_bindings.
Proof.
  split; [by apply (bool_decide_unpack _); vm_compute| |done].
  repeat constructor; vm_compute; tauto.
Qed.

Lemma failover_promotes_standby_witness :
  current_primary_node_id (build_switched_bindings three_bindings 1 3) = Some 3%Z
  ∧ fb_ok (build_switched_bindings three_bindings 1 3).
Proof.
  destruct (failover_promotes_standby three_bindings (mkBound 1 "a" "online" "primary" 10) 3)
    as (Hok & _ & _ & _ & _ & _ & Hcp & _);
    [apply three_bindings_ok|left|reflexivity|discriminate|vm_compute; discriminate..|].
  split; [exact Hcp|exact Hok].
Defined.

(** A policy from before the site was bound anew: its primary is the node [b],
    which serves the site as a standby only, and is offline. *)
Definition stale_policy : PolicySnapshot :=
  mkPolicy 9 "site" 50 2 3 "auto" 3 VNull "b" "c" "offline" "online" None (Some 0%Z) None None.

(** The worker trusts the primary its policy names.  When the site has been
    bound anew and that node is now an offline standby, the policy still fires
    although the site's primary is up, and the failover leaves the site with two
    primaries of the same priority. *)
Theorem stale_policy_two_primaries :
  fb_ok three_bindings
  ∧ current_primary_node_id three_bindings = Some 1%Z
  ∧ is_Some (evaluate_policy stale_policy (seconds 60) 15)
  ∧ should_switch false stale_policy three_bindings = true
  ∧ (λ b, (fb_node_id b, fb_priority b)) <$>
      filter fb_primary
        (build_switched_bindings three_bindings (primary_node_id stale_policy)
           (standby_node_id stale_policy))
    = [(1, 10); (3, 10)]%Z.
Proof.
  split_and!; [apply three_bindings_ok|vm_compute; reflexivity|by eexists; vm_compute|
    vm_compute; reflexivity|vm_compute; reflexivity].
Qed.

(** ** The policy and the DNS change of a failover *)

(** The rank puts the online standbys first. *)
Lemma standby_status_rank_bound s : (0 ≤ standby_status_rank s ≤ 1)%Z.
Proof. unfold standby_status_rank. case_match; lia. Qed.

(** The standby a policy falls back on is bound as a standby, is not the primary,
    and is online when any of the candidates is. *)
Lemma next_standby_spec bindings primary n :
  select_next_policy_standby bindings primary = Some n →
  ∃ b, b ∈ bindings ∧ fb_node_id b = n ∧ fb_standby b ∧ n ≠ primary
    ∧ ∀ c, c ∈ bindings → fb_node_id c ≠ primary → fb_standby c →
        (standby_status_rank (fb_node_status b) ≤ standby_status_rank (fb_node_status c))%Z.
Proof.
  unfold select_next_policy_standby. intros (b & Hb & ->)%fmap_Some.
  pose proof Hb as [[Hne Hst] Hin]%min_by_elem%list_elem_of_filter.
  exists b. split_and!; [done..|]. intros c Hc Hcne Hcst.
  assert (standby_cmp b c ≠ Gt) as Hle.
  { eapply min_by_le; [apply _|done|]. by apply list_elem_of_filter. }
  unfold standby_cmp, cmp_then, cmp_on in Hle.
  destruct (Z.compare_spec (standby_status_rank (fb_node_status b)) (standby_status_rank (fb_node_status c)));
    [lia|lia|done].
Qed.

(** After a failover between two nodes the policy always moves on, whatever
    the bindings were: its primary is the node that was promoted and its standby is another
    node bound as a standby, an online one when there is one. *)
Theorem failover_advances_policy `{!Extern} existing policy :
  primary_node_id policy ≠ standby_node_id policy →
  let bs := build_switched_bindings existing (primary_node_id policy) (standby_node_id policy) in
  ∃ b, b ∈ bs ∧ fb_standby b ∧ fb_node_id b ≠ standby_node_id policy
    ∧ advanced_targets policy bs = (standby_node_id policy, fb_node_id b)
    ∧ ∀ c, c ∈ bs → fb_node_id c ≠ standby_node_id policy → fb_standby c →
        (standby_status_rank (fb_node_status b) ≤ standby_status_rank (fb_node_status c))%Z.
Proof.
  intros Hne bs.
  assert (∃ o, o ∈ bs ∧ fb_node_id o = primary_node_id policy ∧ fb_standby o) as (o & Ho & Hoid & Hos).
  { unfold bs, build_switched_bindings. eexists. split_and!.
    - rewrite sort_by_perm, !elem_of_app. right; right. by apply list_elem_of_singleton.
    - simpl. apply looked_up_id.
    - done. }
  unfold advanced_targets.
  destruct (select_next_policy_standby bs (standby_node_id policy)) as [n|] eqn:Hn.
  - apply next_standby_spec in Hn as (b & Hb & <- & Hst & Hbne & Hmin). by exists b.
  - unfold select_next_policy_standby in Hn. apply fmap_None, min_by_None in Hn.
    assert (o ∈ filter (λ b, fb_node_id b ≠ standby_node_id policy ∧ fb_standby b) bs) as Hin.
    { apply list_elem_of_filter. split; [split; [congruence|done]|done]. }
    rewrite Hn in Hin. by apply not_elem_of_nil in Hin.
Qed.

Lemma select_dns_failover_zone_Ok `{!Extern, !FailoverExtern} domain config zones z :
  select_dns_failover_zone domain config zones = Ok z →
  z ∈ zones ∧ zs_status z = "active"
  ∧ ((map_get config "zone_id" ≫= as_str) ≫= uuid_parse_str = None →
     text_setting config "zone_name" = None →
     domain_belongs_to_zone domain (zs_zone_name z) = true
     ∧ ∀ y, y ∈ zones → zs_status y = "active" → domain_belongs_to_zone domain (zs_zone_name y) = true →
         String.length (zs_zone_name y) ≤ String.length (zs_zone_name z)).
Proof.
  unfold select_dns_failover_zone.
  destruct (_ ≫= uuid_parse_str); [|destruct (text_setting config "zone_name")]; intros Hz%ok_or_Ok.
  - apply find_where_Some in Hz as (Hin & _ & Hact). split_and!; [done|done|done].
  - apply find_where_Some in Hz as (Hin & _ & Hact). split_and!; [done|done|done].
  - pose proof Hz as [[Hact Hbel] Hin]%max_by_elem%list_elem_of_filter.
    split_and!; [done..|]. intros _ _. split; [done|]. intros y Hy Hyact Hybel.
    assert (cmp_on (λ z, String.length (zs_zone_name z)) Nat.compare y z ≠ Gt) as Hle.
    { eapply max_by_ge; [apply _|done|]. by apply list_elem_of_filter. }
    unfold cmp_on in Hle. by apply Nat.compare_le_iff.
Qed.

(** A DNS change planned for a failover writes an A record with an IPv4 address
    or an AAAA record with an IPv6 address, the trimmed public address of the
    standby, for at least a second and at most a day, into an active zone known to
    the worker: when the policy names none, the longest that covers the domain. *)
Theorem dns_failover_plan_sound `{!Extern, !FailoverExtern} domain policy zones plan :
  build_dns_failover_plan domain policy zones = Ok (Some plan) →
  ∃ config ip,
    dns_failover_config (precheck_policy policy) = Some config
    ∧ standby_public_ip policy = Some ip ∧ trim ip = change_value (change plan)
    ∧ ((record_type (change plan) = "A" ∧ parse_ipv4 (trim ip) = true)
       ∨ (record_type (change plan) = "AAAA" ∧ parse_ipv6 (trim ip) = true))
    ∧ (1 ≤ ttl (change plan) ≤ 86400)%Z
    ∧ plan_zone plan ∈ zones ∧ zs_status (plan_zone plan) = "active"
    ∧ change_zone_id (change plan) = Some (zs_external_zone_id (plan_zone plan))
    ∧ ((map_get config "zone_id" ≫= as_str) ≫= uuid_parse_str = None →
       text_setting config "zone_name" = None →
       domain_belongs_to_zone domain (zs_zone_name (plan_zone plan)) = true
       ∧ ∀ y, y ∈ zones → zs_status y = "active" →
           domain_belongs_to_zone domain (zs_zone_name y) = true →
           String.length (zs_zone_name y) ≤ String.length (zs_zone_name (plan_zone plan))).
Proof.
  unfold build_dns_failover_plan. destruct (dns_failover_config _) as [config|]; [|done].
  destruct (negb _); [done|].
  intros (v & Hip & (u & Hv & (z & Hz & [= <-])%result_bind_Ok)%result_bind_Ok)%result_bind_Ok.
  destruct (standby_public_ip policy) as [ip|]; simpl in Hip; [|done].
  destruct (is_empty (trim ip)); [done|]. injection Hip as <-.
  apply select_dns_failover_zone_Ok in Hz as (Hin & Hact & Hlong).
  exists config, ip. simpl. split_and!; [done..| | | | | |done|].
  - unfold validate_dns_failover_target in Hv. repeat case_decide; repeat case_match; try done; auto.
  - unfold clamp. lia.
  - unfold clamp. lia.
  - done.
  - done.
  - done.
Qed.

(** Parsers that know one address and no uuid. *)
#[local] Instance demo_failover_extern : FailoverExtern := {|
  uuid_parse_str := λ _, None;
  parse_ipv4 := String.eqb "203.0.113.9";
  parse_ipv6 := λ _, false;
|}.

Definition dns_policy : PolicySnapshot :=
  mkPolicy 9 "site" 50 1 3 "auto" 3
    (VObject [("dns_failover", VObject [("enabled", VBool true)])])
    "a" "c" "offline" "online" (Some " 203.0.113.9 ") None None None.

Definition demo_zones : list DnsZoneSnapshot :=
  [mkZoneSnapshot 70 7 "cloudflare" None "" "example.com" "z1" "active";
   mkZoneSnapshot 71 7 "cloudflare" None "" "eu.example.com" "z2" "active"].

Definition demo_plan : DnsFailoverPlan :=
  mkPlan (mkZoneSnapshot 71 7 "cloudflare" None "" "eu.example.com" "z2" "active")
    (mkChange (Some "z2") "eu.example.com" "A" "www.eu.example.com" "203.0.113.9" 60).

Lemma dns_failover_plan_sound_witness :
  build_dns_failover_plan "www.eu.example.com" dns_policy demo_zones = Ok (Some demo_plan)
  ∧ plan_zone demo_plan ∈ demo_zones ∧ (1 ≤ ttl (change demo_plan) ≤ 86400)%Z.
Proof.
  assert (build_dns_failover_plan "www.eu.example.com" dns_policy demo_zones = Ok (Some demo_plan)) as H
    by (vm_compute; reflexivity).
  destruct (dns_failover_plan_sound "www.eu.example.com" dns_policy demo_zones demo_plan H)
    as (config & ip & _ & _ & _ & _ & Httl & Hin & _).
  split; [exact H|]. split; [exact Hin|exact Httl].
Defined.
