(* ===== verification/Http.v ===== *)
(** * The HTTP interface of the hub (apps/hub-api/src/main.rs, console.rs)

    The routes, the extraction of a request's parts, the checks of session
    cookies and bearer tokens, and the answers.  An axum handler is a definition
    [api_f] on what its extractors yield; [serve] runs the handler of an endpoint
    on a request and answers every error.  Bodies are kept as the values they
    decode to: text that does not decode is [Rejected].  *)

From stdpp Require Import prelude strings pretty gmap sorting.
From Stdlib Require Import Ascii.
From S2P Require Import Prelude RustStr Json Extern AppError Domain Records Store TokenStore Hub HubAdmin HubNodes HubOps HubReleases HubSites HubDns HubCerts.

(** ** Requests and responses *)

Inductive Method := GET | POST | PUT | DELETE.

#[export] Instance Method_eq_dec : EqDecision Method.
Proof. solve_decision. Defined.

(** The headers the code reads. *)
Record HeaderMap := mkHeaders {
  authorization : option string;
  cookie : option string;
}.

(** [Json<T>]: the value of the body, or the status axum refuses it with. *)
Inductive RequestBody :=
  | Rejected (status : Z)
  | JCreateNodeRequest (request : CreateNodeRequest)
  | JCreateNodeOperationRequest (request : CreateNodeOperationRequest)
  | JCreateOperationTemplateRequest (request : CreateOperationTemplateRequest)
  | JCreateSiteRequest (request : CreateSiteRequest)
  | JUpdateSiteRequest (request : UpdateSiteRequest)
  | JCreateSiteBindingsRequest (request : list SiteBindingItem)
  | JSwitchSitePrimaryRequest (request : SwitchSitePrimaryRequest)
  | JCreateReleaseRequest (request : CreateReleaseRequest)
  | JCreateDnsProviderRequest (request : CreateDnsProviderRequest)
  | JSyncDnsZonesRequest (request : SyncDnsZonesRequest)
  | JCreateCertificateOrderRequest (request : CreateCertificateOrderRequest)
  | JNodeHeartbeatRequest (request : NodeHeartbeatRequest)
  | JReleaseAckRequest (request : ReleaseAckRequest)
  | JOperationResultRequest (request : OperationResultRequest)
  | JAdminLoginRequest (request : AdminLoginRequest)
  | JChangeAdminPasswordRequest (request : ChangeAdminPasswordRequest)
  | JNodeRegisterRequest (request : NodeRegisterRequest)
  | JNodeRefreshRequest (request : NodeRefreshRequest).

(** The data of an answer. *)
Inductive Payload :=
  | PCreateNodeResponse (data : CreateNodeResponse)
  | PNodeOverviews (data : list NodeOverview)
  | PNodeDetail (data : NodeDetail)
  | PDeleteNodeResponse (data : DeleteNodeResponse)
  | PNodeOperationOverview (data : NodeOperationOverview)
  | PNodeOperationOverviews (data : list NodeOperationOverview)
  | POperationTemplateOverview (data : OperationTemplateOverview)
  | PDeleteOperationTemplateResponse (data : DeleteOperationTemplateResponse)
  | POperationTemplateOverviews (data : list OperationTemplateOverview)
  | PSiteResponse (data : SiteResponse)
  | PSiteOverviews (data : list SiteOverview)
  | PSiteDetail (data : SiteDetail)
  | PDeleteSiteResponse (data : DeleteSiteResponse)
  | PCreateSiteBindingsResponse (data : (Uuid * nat))
  | PRenewSiteCertificateResponse (data : RenewSiteCertificateResponse)
  | PSwitchSitePrimaryResponse (data : SwitchSitePrimaryResponse)
  | PSavedRelease (data : SavedRelease)
  | PReleaseOverviews (data : list ReleaseOverview)
  | PCreateDnsProviderResponse (data : CreateDnsProviderResponse)
  | PDeleteDnsProviderResponse (data : DeleteDnsProviderResponse)
  | PDnsProviderOverviews (data : list DnsProviderOverview)
  | PSyncDnsZonesResponse (data : SyncDnsZonesResponse)
  | PDnsZoneOverviews (data : list DnsZoneOverview)
  | PUpdateDnsZoneStatusResponse (data : UpdateDnsZoneStatusResponse)
  | PDeleteDnsZoneResponse (data : DeleteDnsZoneResponse)
  | PCreateCertificateOrderResponse (data : CreateCertificateOrderResponse)
  | PCertificateOrderOverviews (data : list CertificateOrderOverview)
  | PCertificateOrderOverview (data : CertificateOrderOverview)
  | PNodeHeartbeatResponse (data : NodeHeartbeatResponse)
  | PLatestReleaseResponse (data : LatestReleaseResponse)
  | PConfigPackageResponse (data : ConfigPackageResponse)
  | PReleaseAckResponse (data : ReleaseAckResponse)
  | PPendingOperationResponse (data : PendingOperationResponse)
  | POperationResultResponse (data : OperationResultResponse)
  | PAdminLoginResponse (data : AdminLoginResponse)
  | PAdminMeResponse (data : AdminMeResponse)
  | PChangeAdminPasswordResponse (data : ChangeAdminPasswordResponse)
  | PNodeTokensResponse (data : NodeTokensResponse)
  | PHealth (service status : string)
  | PAdminMeta (service bind etcd_prefix : string) (components : list string)
  | PLoggedOut (logged_out : bool).

Record ApiResponse (A : Type) := mkApiResponse {
  api_request_id : Uuid;
  api_data : A;
  api_meta : Value;
}.
Arguments mkApiResponse {A}.
Arguments api_request_id {A}.
Arguments api_data {A}.
Arguments api_meta {A}.

(** The static files of the console, by the names of their constants. *)
Inductive Asset :=
  | INDEX_HTML | STYLES_CSS | APP_JS | ICONFONT_WOFF2 | LOGIN_HTML | LOGIN_STYLES_CSS | LOGIN_APP_JS.

Inductive ResponseBody :=
  | BJson (response : ApiResponse Payload)
  | BError (envelope : ErrorEnvelope)
  | BAsset (asset : Asset)
  | BEmpty.

Record Response := mkResponse {
  resp_status : Z;
  resp_headers : list (string * string);
  resp_body : ResponseBody;
}.

(** What axum and the crate [http] do for the code: the text of a header value,
    a header value from a text, a uuid from a path or a query. *)
Class HttpExtern := {
  header_to_str : string → option string;
  header_from_str : string → Result string string;
  parse_uuid : string → option Uuid;
}.

(** A request with the captures of its path and the [node_id] of its query. *)
Record Request := mkRequest {
  req_headers : HeaderMap;
  req_path : list string;
  req_query : option string;
  req_body : RequestBody;
}.

(** ** Extraction *)

(** The Json extractor answers 422 when the body has another shape. *)
Class FromBody (A : Type) := from_body : RequestBody → Result A Z.

#[export] Instance from_body_CreateNodeRequest : FromBody (CreateNodeRequest) := λ b,
  match b with JCreateNodeRequest r => Ok r | Rejected s => Err s | _ => Err 422%Z end.
#[export] Instance from_body_CreateNodeOperationRequest : FromBody (CreateNodeOperationRequest) := λ b,
  match b with JCreateNodeOperationRequest r => Ok r | Rejected s => Err s | _ => Err 422%Z end.
#[export] Instance from_body_CreateOperationTemplateRequest : FromBody (CreateOperationTemplateRequest) := λ b,
  match b with JCreateOperationTemplateRequest r => Ok r | Rejected s => Err s | _ => Err 422%Z end.
#[export] Instance from_body_CreateSiteRequest : FromBody (CreateSiteRequest) := λ b,
  match b with JCreateSiteRequest r => Ok r | Rejected s => Err s | _ => Err 422%Z end.
#[export] Instance from_body_UpdateSiteRequest : FromBody (UpdateSiteRequest) := λ b,
  match b with JUpdateSiteRequest r => Ok r | Rejected s => Err s | _ => Err 422%Z end.
#[export] Instance from_body_CreateSiteBindingsRequest : FromBody (list SiteBindingItem) := λ b,
  match b with JCreateSiteBindingsRequest r => Ok r | Rejected s => Err s | _ => Err 422%Z end.
#[export] Instance from_body_SwitchSitePrimaryRequest : FromBody (SwitchSitePrimaryRequest) := λ b,
  match b with JSwitchSitePrimaryRequest r => Ok r | Rejected s => Err s | _ => Err 422%Z end.
#[export] Instance from_body_CreateReleaseRequest : FromBody (CreateReleaseRequest) := λ b,
  match b with JCreateReleaseRequest r => Ok r | Rejected s => Err s | _ => Err 422%Z end.
#[export] Instance from_body_CreateDnsProviderRequest : FromBody (CreateDnsProviderRequest) := λ b,
  match b with JCreateDnsProviderRequest r => Ok r | Rejected s => Err s | _ => Err 422%Z end.
#[export] Instance from_body_SyncDnsZonesRequest : FromBody (SyncDnsZonesRequest) := λ b,
  match b with JSyncDnsZonesRequest r => Ok r | Rejected s => Err s | _ => Err 422%Z end.
#[export] Instance from_body_CreateCertificateOrderRequest : FromBody (CreateCertificateOrderRequest) := λ b,
  match b with JCreateCertificateOrderRequest r => Ok r | Rejected s => Err s | _ => Err 422%Z end.
#[export] Instance from_body_NodeHeartbeatRequest : FromBody (NodeHeartbeatRequest) := λ b,
  match b with JNodeHeartbeatRequest r => Ok r | Rejected s => Err s | _ => Err 422%Z end.
#[export] Instance from_body_ReleaseAckRequest : FromBody (ReleaseAckRequest) := λ b,
  match b with JReleaseAckRequest r => Ok r | Rejected s => Err s | _ => Err 422%Z end.
#[export] Instance from_body_OperationResultRequest : FromBody (OperationResultRequest) := λ b,
  match b with JOperationResultRequest r => Ok r | Rejected s => Err s | _ => Err 422%Z end.
#[export] Instance from_body_AdminLoginRequest : FromBody (AdminLoginRequest) := λ b,
  match b with JAdminLoginRequest r => Ok r | Rejected s => Err s | _ => Err 422%Z end.
#[export] Instance from_body_ChangeAdminPasswordRequest : FromBody (ChangeAdminPasswordRequest) := λ b,
  match b with JChangeAdminPasswordRequest r => Ok r | Rejected s => Err s | _ => Err 422%Z end.
#[export] Instance from_body_NodeRegisterRequest : FromBody (NodeRegisterRequest) := λ b,
  match b with JNodeRegisterRequest r => Ok r | Rejected s => Err s | _ => Err 422%Z end.
#[export] Instance from_body_NodeRefreshRequest : FromBody (NodeRefreshRequest) := λ b,
  match b with JNodeRefreshRequest r => Ok r | Rejected s => Err s | _ => Err 422%Z end.

(** [split_once]: around the first separator. *)
Fixpoint split_once_list (c : ascii) (l : list ascii) : option (list ascii * list ascii) :=
  match l with
  | [] => None
  | x :: l' => if decide (x = c) then Some ([], l') else prod_map (cons x) (λ k, k) <$> split_once_list c l'
  end.

Definition split_once (c : ascii) (s : string) : option (string * string) :=
  prod_map of_bytes of_bytes <$> split_once_list c (bytes s).

Section Handlers.
Context {T : Type} `{EX : !Extern, DX : !DnsExtern, HX : !HttpExtern, NT : !NodeTokenStore T}.

Definition ADMIN_SESSION_COOKIE : string := "pingorahub_admin_session".

(** One item of the [Cookie] header. *)
Definition cookie_item (cookie_name item : string) : option string :=
  match split_once "=" (trim item) with
  | Some (name, value) => if decide (name = cookie_name) then Some value else None
  | None => None
  end.

Definition extract_cookie_value (headers : HeaderMap) (cookie_name : string) : option string :=
  match cookie headers ≫= header_to_str with
  | Some raw => head (filter_map (cookie_item cookie_name) (split ";" raw))
  | None => None
  end.

Definition extract_admin_session_cookie (headers : HeaderMap) : Fallible string :=
  ok_or (extract_cookie_value headers ADMIN_SESSION_COOKIE) (unauthorized "missing admin session").

Definition extract_bearer_token (headers : HeaderMap) : Fallible string :=
  match authorization headers with
  | None => Err (unauthorized "missing Authorization header")
  | Some value =>
      match header_to_str value with
      | None => Err (unauthorized "invalid Authorization header")
      | Some value =>
          match strip_prefix "Bearer " value with
          | None => Err (unauthorized "Authorization header must use Bearer token")
          | Some token =>
              if is_empty (trim token) then Err (unauthorized "Bearer token must not be empty")
              else Ok token
          end
      end
  end.

Definition require_admin_session (headers : HeaderMap) : Hub T AdminMeResponse :=
  let! session_token := lift (extract_admin_session_cookie headers) in
  current_admin session_token.

(** [Json(ApiResponse::ok(Uuid::new_v4(), response))]. *)
Definition api_ok {A} (response : A) : Hub T (ApiResponse A) :=
  let! rid := new_v4 in ret (mkApiResponse rid response (VObject [])).

Definition build_session_cookie (value : string) (max_age_seconds : Z) : Fallible string :=
  map_err internal (header_from_str
    (ADMIN_SESSION_COOKIE +:+ "=" +:+ value +:+ "; Path=/; HttpOnly; SameSite=Lax; Max-Age="
     +:+ pretty max_age_seconds)).

Definition clear_session_cookie : Fallible string :=
  map_err internal (header_from_str
    "pingorahub_admin_session=; Path=/; HttpOnly; SameSite=Lax; Max-Age=0").

Definition json_with_session_cookie (payload : Payload) (session_token : string)
    (expires_at : DateTime) : Hub T Response :=
  let! now := utc_now in
  let max_age_seconds := Z.max (Z.quot (expires_at - now) (seconds 1)) 0 in
  let! set_cookie := lift (build_session_cookie session_token max_age_seconds) in
  let! response := api_ok payload in
  ret (mkResponse 200 [("set-cookie", set_cookie)] (BJson response)).

Definition json_with_clear_session_cookie (payload : Payload) : Hub T Response :=
  let! set_cookie := lift clear_session_cookie in
  let! response := api_ok payload in
  ret (mkResponse 200 [("set-cookie", set_cookie)] (BJson response)).

(** [Redirect::to]. *)
Definition redirect_to (location : string) : Response :=
  mkResponse 303 [("location", location)] BEmpty.

(** ** The console (console.rs) *)

Definition text_response (content_type : string) (body : Asset) : Response :=
  mkResponse 200 [("content-type", content_type);
                  ("cache-control", "no-store, no-cache, must-revalidate")] (BAsset body).

Definition bytes_response (content_type : string) (body : Asset) : Response :=
  mkResponse 200 [("content-type", content_type);
                  ("cache-control", "public, max-age=31536000, immutable")] (BAsset body).

(** [Html(...)]. *)
Definition html_response (body : Asset) : Response :=
  mkResponse 200 [("content-type", "text/html; charset=utf-8")] (BAsset body).

Definition console_index : Response := html_response INDEX_HTML.
Definition console_styles : Response := text_response "text/css; charset=utf-8" STYLES_CSS.
Definition console_script : Response :=
  text_response "application/javascript; charset=utf-8" APP_JS.
Definition console_iconfont : Response := bytes_response "font/woff2" ICONFONT_WOFF2.
Definition login_index : Response := html_response LOGIN_HTML.
Definition login_styles : Response := text_response "text/css; charset=utf-8" LOGIN_STYLES_CSS.
Definition login_script : Response :=
  text_response "application/javascript; charset=utf-8" LOGIN_APP_JS.

(** [authorize_admin_session(..).await.is_ok()]. *)
Definition session_is_ok (session_token : string) : Hub T bool := λ w,
  match authorize_admin_session session_token w with
  | (Ok _, w') => (Ok true, w')
  | (Err _, w') => (Ok false, w')
  end.

Definition signed_in (headers : HeaderMap) : Hub T bool :=
  match extract_cookie_value headers ADMIN_SESSION_COOKIE with
  | Some session_token => session_is_ok session_token
  | None => ret false
  end.

Definition console_entry (headers : HeaderMap) : Hub T Response :=
  let! ok := signed_in headers in
  ret (if ok : bool then console_index else redirect_to "/login").

Definition login_page (headers : HeaderMap) : Hub T Response :=
  let! ok := signed_in headers in
  ret (if ok : bool then redirect_to "/" else login_index).

(** ** Handlers *)

Definition healthz : Hub T (ApiResponse Payload) := api_ok (PHealth "hub-api" "ok").

Definition admin_login (request : AdminLoginRequest) : Hub T Response :=
  let! result := login_admin request in
  let '(response, session_token) := result in
  json_with_session_cookie (PAdminLoginResponse response) session_token
    (info_expires_at (login_session response)).

Definition admin_me (headers : HeaderMap) : Hub T (ApiResponse AdminMeResponse) :=
  let! session_token := lift (extract_admin_session_cookie headers) in
  let! response := current_admin session_token in
  api_ok response.

Definition api_change_admin_password (headers : HeaderMap) (request : ChangeAdminPasswordRequest) :
    Hub T (ApiResponse ChangeAdminPasswordResponse) :=
  let! session_token := lift (extract_admin_session_cookie headers) in
  let! response := change_admin_password session_token request in
  api_ok response.

Definition admin_logout (headers : HeaderMap) : Hub T Response :=
  do! match extract_cookie_value headers ADMIN_SESSION_COOKIE with
      | Some session_token => logout_admin session_token
      | None => ret tt
      end in
  json_with_clear_session_cookie (PLoggedOut true).

Definition admin_meta (config : HubConfig) (headers : HeaderMap) : Hub T (ApiResponse Payload) :=
  do! require_admin_session headers in
  api_ok (PAdminMeta "hub-api" (bind_address config) (etcd_prefix config)
            ["node-management"; "release-management"; "dns-integration"; "failover-orchestration"]).

Definition api_create_node (headers : HeaderMap) (request : CreateNodeRequest) :
    Hub T (ApiResponse CreateNodeResponse) :=
  do! require_admin_session headers in
  let! response := create_node request in
  api_ok response.

Definition api_list_nodes (headers : HeaderMap) :
    Hub T (ApiResponse (list NodeOverview)) :=
  do! require_admin_session headers in
  let! response := list_node_overviews in
  api_ok response.

Definition api_get_node_detail (headers : HeaderMap) (node_id : Uuid) :
    Hub T (ApiResponse NodeDetail) :=
  do! require_admin_session headers in
  let! response := node_detail node_id in
  api_ok response.

Definition api_delete_node (headers : HeaderMap) (node_id : Uuid) :
    Hub T (ApiResponse DeleteNodeResponse) :=
  do! require_admin_session headers in
  let! response := hub_delete_node node_id in
  api_ok response.

Definition api_create_node_operation (headers : HeaderMap) (node_id : Uuid) (request : CreateNodeOperationRequest) :
    Hub T (ApiResponse NodeOperationOverview) :=
  let! admin := require_admin_session headers in
  let! response := create_node_operation node_id request
                     ("admin:" +:+ info_username (me_session admin)) in
  api_ok response.

Definition api_list_node_operations (headers : HeaderMap) (node_id : Uuid) :
    Hub T (ApiResponse (list NodeOperationOverview)) :=
  do! require_admin_session headers in
  let! response := hub_list_node_operations node_id in
  api_ok response.

Definition api_create_operation_template (headers : HeaderMap) (request : CreateOperationTemplateRequest) :
    Hub T (ApiResponse OperationTemplateOverview) :=
  do! require_admin_session headers in
  let! response := create_operation_template request in
  api_ok response.

Definition api_update_operation_template (headers : HeaderMap) (template_id : Uuid) (request : CreateOperationTemplateRequest) :
    Hub T (ApiResponse OperationTemplateOverview) :=
  do! require_admin_session headers in
  let! response := update_operation_template template_id request in
  api_ok response.

Definition api_delete_operation_template (headers : HeaderMap) (template_id : Uuid) :
    Hub T (ApiResponse DeleteOperationTemplateResponse) :=
  do! require_admin_session headers in
  let! response := hub_delete_operation_template template_id in
  api_ok response.

Definition api_list_operation_templates (headers : HeaderMap) :
    Hub T (ApiResponse (list OperationTemplateOverview)) :=
  do! require_admin_session headers in
  let! response := list_template_overviews in
  api_ok response.

Definition api_create_site (headers : HeaderMap) (request : CreateSiteRequest) :
    Hub T (ApiResponse SiteResponse) :=
  do! require_admin_session headers in
  let! response := create_site request in
  api_ok response.

Definition api_list_sites (headers : HeaderMap) :
    Hub T (ApiResponse (list SiteOverview)) :=
  do! require_admin_session headers in
  let! response := list_site_overviews in
  api_ok response.

Definition api_get_site (headers : HeaderMap) (site_id : Uuid) :
    Hub T (ApiResponse SiteDetail) :=
  do! require_admin_session headers in
  let! response := site_detail site_id in
  api_ok response.

Definition api_update_site (headers : HeaderMap) (site_id : Uuid) (request : UpdateSiteRequest) :
    Hub T (ApiResponse SiteResponse) :=
  do! require_admin_session headers in
  let! response := update_site site_id request in
  api_ok response.

Definition api_delete_site (headers : HeaderMap) (site_id : Uuid) :
    Hub T (ApiResponse DeleteSiteResponse) :=
  do! require_admin_session headers in
  let! response := hub_delete_site site_id in
  api_ok response.

Definition api_enable_site (headers : HeaderMap) (site_id : Uuid) :
    Hub T (ApiResponse SiteResponse) :=
  do! require_admin_session headers in
  let! response := update_site_status site_id true in
  api_ok response.

Definition api_disable_site (headers : HeaderMap) (site_id : Uuid) :
    Hub T (ApiResponse SiteResponse) :=
  do! require_admin_session headers in
  let! response := update_site_status site_id false in
  api_ok response.

Definition api_bind_site_nodes (headers : HeaderMap) (site_id : Uuid) (request : list SiteBindingItem) :
    Hub T (ApiResponse (Uuid * nat)) :=
  do! require_admin_session headers in
  let! response := bind_site_nodes site_id request in
  api_ok response.

Definition api_renew_site_certificate (headers : HeaderMap) (site_id : Uuid) :
    Hub T (ApiResponse RenewSiteCertificateResponse) :=
  do! require_admin_session headers in
  let! response := renew_site_certificate site_id in
  api_ok response.

Definition api_switch_site_primary (headers : HeaderMap) (site_id : Uuid) (request : SwitchSitePrimaryRequest) :
    Hub T (ApiResponse SwitchSitePrimaryResponse) :=
  do! require_admin_session headers in
  let! response := switch_site_primary site_id request in
  api_ok response.

Definition api_create_release (headers : HeaderMap) (request : CreateReleaseRequest) :
    Hub T (ApiResponse SavedRelease) :=
  do! require_admin_session headers in
  let! response := create_release request in
  api_ok response.

Definition api_list_releases (headers : HeaderMap) :
    Hub T (ApiResponse (list ReleaseOverview)) :=
  do! require_admin_session headers in
  let! response := list_release_overviews in
  api_ok response.

Definition api_create_dns_provider (headers : HeaderMap) (request : CreateDnsProviderRequest) :
    Hub T (ApiResponse CreateDnsProviderResponse) :=
  do! require_admin_session headers in
  let! response := create_dns_provider request in
  api_ok response.

Definition api_update_dns_provider (headers : HeaderMap) (provider_id : Uuid) (request : CreateDnsProviderRequest) :
    Hub T (ApiResponse CreateDnsProviderResponse) :=
  do! require_admin_session headers in
  let! response := update_dns_provider provider_id request in
  api_ok response.

Definition api_delete_dns_provider (headers : HeaderMap) (provider_id : Uuid) :
    Hub T (ApiResponse DeleteDnsProviderResponse) :=
  do! require_admin_session headers in
  let! response := hub_delete_dns_provider provider_id in
  api_ok response.

Definition api_list_dns_providers (headers : HeaderMap) :
    Hub T (ApiResponse (list DnsProviderOverview)) :=
  do! require_admin_session headers in
  let! response := list_provider_overviews in
  api_ok response.

Definition api_sync_dns_zones (headers : HeaderMap) (request : SyncDnsZonesRequest) :
    Hub T (ApiResponse SyncDnsZonesResponse) :=
  do! require_admin_session headers in
  let! response := sync_dns_zones request in
  api_ok response.

Definition api_list_dns_zones (headers : HeaderMap) :
    Hub T (ApiResponse (list DnsZoneOverview)) :=
  do! require_admin_session headers in
  let! response := list_zone_overviews in
  api_ok response.

Definition api_enable_dns_zone (headers : HeaderMap) (zone_id : Uuid) :
    Hub T (ApiResponse UpdateDnsZoneStatusResponse) :=
  do! require_admin_session headers in
  let! response := update_dns_zone_status zone_id true in
  api_ok response.

Definition api_disable_dns_zone (headers : HeaderMap) (zone_id : Uuid) :
    Hub T (ApiResponse UpdateDnsZoneStatusResponse) :=
  do! require_admin_session headers in
  let! response := update_dns_zone_status zone_id false in
  api_ok response.

Definition api_delete_dns_zone (headers : HeaderMap) (zone_id : Uuid) :
    Hub T (ApiResponse DeleteDnsZoneResponse) :=
  do! require_admin_session headers in
  let! response := hub_delete_dns_zone zone_id in
  api_ok response.

Definition api_create_certificate_order (headers : HeaderMap) (request : CreateCertificateOrderRequest) :
    Hub T (ApiResponse CreateCertificateOrderResponse) :=
  do! require_admin_session headers in
  let! response := create_certificate_order request in
  api_ok response.

Definition api_list_certificate_orders (headers : HeaderMap) :
    Hub T (ApiResponse (list CertificateOrderOverview)) :=
  do! require_admin_session headers in
  let! response := list_order_overviews in
  api_ok response.

Definition api_retry_certificate_order (headers : HeaderMap) (order_id : Uuid) :
    Hub T (ApiResponse CertificateOrderOverview) :=
  do! require_admin_session headers in
  let! response := retry_certificate_order order_id in
  api_ok response.

Definition api_reset_certificate_order (headers : HeaderMap) (order_id : Uuid) :
    Hub T (ApiResponse CertificateOrderOverview) :=
  do! require_admin_session headers in
  let! response := reset_certificate_order order_id in
  api_ok response.

Definition api_register_node (request : NodeRegisterRequest) : Hub T (ApiResponse NodeTokensResponse) :=
  let! response := register_node request in
  api_ok response.

Definition refresh_node_auth (request : NodeRefreshRequest) : Hub T (ApiResponse NodeTokensResponse) :=
  let! response := refresh_node_token request in
  api_ok response.

Definition api_node_heartbeat (headers : HeaderMap) (request : NodeHeartbeatRequest) :
    Hub T (ApiResponse NodeHeartbeatResponse) :=
  let! access_token := lift (extract_bearer_token headers) in
  do! authorize_node (beat_node_id request) access_token in
  let! response := node_heartbeat request in
  api_ok response.

Definition api_latest_release (headers : HeaderMap) (node_id : Uuid) :
    Hub T (ApiResponse LatestReleaseResponse) :=
  let! access_token := lift (extract_bearer_token headers) in
  do! authorize_node node_id access_token in
  let! response := latest_release_for_node node_id in
  api_ok response.

Definition api_config_package (headers : HeaderMap) (version : string) (node_id : Uuid) :
    Hub T (ApiResponse ConfigPackageResponse) :=
  let! access_token := lift (extract_bearer_token headers) in
  do! authorize_node node_id access_token in
  let! response := config_package_for_node node_id version in
  api_ok response.

Definition api_ack_release (headers : HeaderMap) (release_id : Uuid) (request : ReleaseAckRequest) :
    Hub T (ApiResponse ReleaseAckResponse) :=
  let! access_token := lift (extract_bearer_token headers) in
  do! authorize_node (ack_node_id request) access_token in
  let! response := ack_release release_id request in
  api_ok response.

Definition api_next_node_operation (headers : HeaderMap) (node_id : Uuid) : Hub T (ApiResponse PendingOperationResponse) :=
  let! access_token := lift (extract_bearer_token headers) in
  do! authorize_node node_id access_token in
  let! claimed := hub_claim_next_node_operation node_id in
  let! response := get_or claimed (not_found "no pending operations") in
  api_ok response.

Definition api_report_node_operation_result (headers : HeaderMap) (operation_id : Uuid) (request : OperationResultRequest) :
    Hub T (ApiResponse OperationResultResponse) :=
  let! access_token := lift (extract_bearer_token headers) in
  do! authorize_node (rr_node_id request) access_token in
  let! response := report_node_operation_result operation_id request in
  api_ok response.

End Handlers.

(** ** The router *)

(** The handlers by name. *)
Inductive Endpoint :=
  | EpConsoleEntry | EpConsoleStyles | EpConsoleScript | EpConsoleIconfont | EpLoginPage
  | EpLoginStyles | EpLoginScript | EpHealthz | EpAdminLogin | EpAdminMe | EpChangeAdminPassword
  | EpAdminLogout | EpAdminMeta | EpCreateNode | EpListNodes | EpGetNodeDetail | EpDeleteNode
  | EpCreateNodeOperation | EpListNodeOperations | EpCreateOperationTemplate
  | EpUpdateOperationTemplate | EpDeleteOperationTemplate | EpListOperationTemplates | EpCreateSite
  | EpListSites | EpGetSite | EpUpdateSite | EpDeleteSite | EpEnableSite | EpDisableSite
  | EpBindSiteNodes | EpRenewSiteCertificate | EpSwitchSitePrimary | EpCreateRelease
  | EpListReleases | EpCreateDnsProvider | EpUpdateDnsProvider | EpDeleteDnsProvider
  | EpListDnsProviders | EpSyncDnsZones | EpListDnsZones | EpEnableDnsZone | EpDisableDnsZone
  | EpDeleteDnsZone | EpCreateCertificateOrder | EpListCertificateOrders | EpRetryCertificateOrder
  | EpResetCertificateOrder | EpRegisterNode | EpRefreshNodeAuth | EpNodeHeartbeat
  | EpLatestRelease | EpConfigPackage | EpAckRelease | EpNextNodeOperation
  | EpReportNodeOperationResult.

#[export] Instance Endpoint_eq_dec : EqDecision Endpoint.
Proof. solve_decision. Defined.

Definition build_router : list (string * list (Method * Endpoint)) :=
  [("/", [(GET, EpConsoleEntry)]);
   ("/console", [(GET, EpConsoleEntry)]);
   ("/console/", [(GET, EpConsoleEntry)]);
   ("/console/assets/styles.css", [(GET, EpConsoleStyles)]);
   ("/console/assets/app.js", [(GET, EpConsoleScript)]);
   ("/console/assets/iconfont.woff2", [(GET, EpConsoleIconfont)]);
   ("/login", [(GET, EpLoginPage)]);
   ("/login/", [(GET, EpLoginPage)]);
   ("/login/assets/styles.css", [(GET, EpLoginStyles)]);
   ("/login/assets/app.js", [(GET, EpLoginScript)]);
   ("/healthz", [(GET, EpHealthz)]);
   ("/api/admin/auth/login", [(POST, EpAdminLogin)]);
   ("/api/admin/auth/me", [(GET, EpAdminMe)]);
   ("/api/admin/auth/change-password", [(POST, EpChangeAdminPassword)]);
   ("/api/admin/auth/logout", [(POST, EpAdminLogout)]);
   ("/api/admin/meta", [(GET, EpAdminMeta)]);
   ("/api/admin/nodes", [(POST, EpCreateNode); (GET, EpListNodes)]);
   ("/api/admin/nodes/{node_id}", [(GET, EpGetNodeDetail); (DELETE, EpDeleteNode)]);
   ("/api/admin/nodes/{node_id}/operations", [(POST, EpCreateNodeOperation); (GET, EpListNodeOperations)]);
   ("/api/admin/operations/templates", [(POST, EpCreateOperationTemplate); (GET, EpListOperationTemplates)]);
   ("/api/admin/operations/templates/{template_id}", [(PUT, EpUpdateOperationTemplate); (DELETE, EpDeleteOperationTemplate)]);
   ("/api/admin/sites", [(POST, EpCreateSite); (GET, EpListSites)]);
   ("/api/admin/sites/{site_id}", [(GET, EpGetSite); (PUT, EpUpdateSite); (DELETE, EpDeleteSite)]);
   ("/api/admin/sites/{site_id}/bindings", [(POST, EpBindSiteNodes)]);
   ("/api/admin/sites/{site_id}/enable", [(POST, EpEnableSite)]);
   ("/api/admin/sites/{site_id}/disable", [(POST, EpDisableSite)]);
   ("/api/admin/sites/{site_id}/renew-certificate", [(POST, EpRenewSiteCertificate)]);
   ("/api/admin/sites/{site_id}/switch-primary", [(POST, EpSwitchSitePrimary)]);
   ("/api/admin/releases", [(POST, EpCreateRelease); (GET, EpListReleases)]);
   ("/api/admin/dns/providers", [(POST, EpCreateDnsProvider); (GET, EpListDnsProviders)]);
   ("/api/admin/dns/providers/{provider_id}", [(PUT, EpUpdateDnsProvider); (DELETE, EpDeleteDnsProvider)]);
   ("/api/admin/dns/zones/sync", [(POST, EpSyncDnsZones)]);
   ("/api/admin/dns/zones", [(GET, EpListDnsZones)]);
   ("/api/admin/dns/zones/{zone_id}/enable", [(POST, EpEnableDnsZone)]);
   ("/api/admin/dns/zones/{zone_id}/disable", [(POST, EpDisableDnsZone)]);
   ("/api/admin/dns/zones/{zone_id}", [(DELETE, EpDeleteDnsZone)]);
   ("/api/admin/certificates/orders", [(POST, EpCreateCertificateOrder); (GET, EpListCertificateOrders)]);
   ("/api/admin/certificates/orders/{order_id}/retry", [(POST, EpRetryCertificateOrder)]);
   ("/api/admin/certificates/orders/{order_id}/reset", [(POST, EpResetCertificateOrder)]);
   ("/api/node/register", [(POST, EpRegisterNode)]);
   ("/api/node/auth/refresh", [(POST, EpRefreshNodeAuth)]);
   ("/api/node/heartbeat", [(POST, EpNodeHeartbeat)]);
   ("/api/node/config/releases/latest", [(GET, EpLatestRelease)]);
   ("/api/node/config/package/{version}", [(GET, EpConfigPackage)]);
   ("/api/node/releases/{release_id}/ack", [(POST, EpAckRelease)]);
   ("/api/node/operations/pending", [(GET, EpNextNodeOperation)]);
   ("/api/node/operations/{operation_id}/result", [(POST, EpReportNodeOperationResult)])].

(** ** Serving a request *)

Section Serve.
Context {T : Type} `{EX : !Extern, DX : !DnsExtern, HX : !HttpExtern, NT : !NodeTokenStore T}.
Context (config : HubConfig).

Definition Server : Type := World T → Response * World T.

(** [AppError::into_response] draws the id of the answer. *)
Definition answer (m : Hub T Response) : Server := λ w,
  match m w with
  | (Ok r, w') => (r, w')
  | (Err e, w') =>
      let '(st, envelope) := into_response e (rng (rng_next w')) in
      (mkResponse st [] (BError envelope), set_rng_next (S (rng_next w')) w')
  end.

(** [Json(...)] of a handler's value. *)
Definition json {A} (inject : A → Payload) (m : Hub T (ApiResponse A)) : Server :=
  answer (let! r := m in
          ret (mkResponse 200 [] (BJson (mkApiResponse (api_request_id r) (inject (api_data r))
                                           (api_meta r))))).

Definition page (r : Response) : Server := λ w, (r, w).

(** A refused extraction: the handler does not run. *)
Definition reject (status : Z) : Server := page (mkResponse status [] BEmpty).

Definition with_path (req : Request) (k : string → Server) : Server :=
  match req_path req with
  | [segment] => k segment
  | _ => reject 500
  end.

Definition with_uuid (req : Request) (k : Uuid → Server) : Server :=
  with_path req (λ segment,
    match parse_uuid segment with Some u => k u | None => reject 400 end).

Definition with_query (req : Request) (k : Uuid → Server) : Server :=
  match req_query req ≫= parse_uuid with Some u => k u | None => reject 400 end.

Definition with_json `{!FromBody A} (req : Request) (k : A → Server) : Server :=
  match from_body (req_body req) with Ok a => k a | Err status => reject status end.

Definition serve (endpoint : Endpoint) (req : Request) : Server :=
  let headers := req_headers req in
  match endpoint with
  | EpConsoleEntry => answer (console_entry headers)
  | EpConsoleStyles => page console_styles
  | EpConsoleScript => page console_script
  | EpConsoleIconfont => page console_iconfont
  | EpLoginPage => answer (login_page headers)
  | EpLoginStyles => page login_styles
  | EpLoginScript => page login_script
  | EpHealthz => json (λ p, p) healthz
  | EpAdminLogin => with_json req (λ r, answer (admin_login r))
  | EpAdminMe => json PAdminMeResponse (admin_me headers)
  | EpChangeAdminPassword =>
      with_json req (λ r, json PChangeAdminPasswordResponse (api_change_admin_password headers r))
  | EpAdminLogout => answer (admin_logout headers)
  | EpAdminMeta => json (λ p, p) (admin_meta config headers)
  | EpCreateNode => with_json req (λ r, json PCreateNodeResponse (api_create_node headers r))
  | EpListNodes => json PNodeOverviews (api_list_nodes headers)
  | EpGetNodeDetail => with_uuid req (λ u, json PNodeDetail (api_get_node_detail headers u))
  | EpDeleteNode => with_uuid req (λ u, json PDeleteNodeResponse (api_delete_node headers u))
  | EpCreateNodeOperation =>
      with_uuid req (λ u, with_json req (λ r, json PNodeOperationOverview (api_create_node_operation headers u r)))
  | EpListNodeOperations =>
      with_uuid req (λ u, json PNodeOperationOverviews (api_list_node_operations headers u))
  | EpCreateOperationTemplate =>
      with_json req (λ r, json POperationTemplateOverview (api_create_operation_template headers r))
  | EpUpdateOperationTemplate =>
      with_uuid req (λ u, with_json req (λ r, json POperationTemplateOverview (api_update_operation_template headers u r)))
  | EpDeleteOperationTemplate =>
      with_uuid req (λ u, json PDeleteOperationTemplateResponse (api_delete_operation_template headers u))
  | EpListOperationTemplates =>
      json POperationTemplateOverviews (api_list_operation_templates headers)
  | EpCreateSite => with_json req (λ r, json PSiteResponse (api_create_site headers r))
  | EpListSites => json PSiteOverviews (api_list_sites headers)
  | EpGetSite => with_uuid req (λ u, json PSiteDetail (api_get_site headers u))
  | EpUpdateSite =>
      with_uuid req (λ u, with_json req (λ r, json PSiteResponse (api_update_site headers u r)))
  | EpDeleteSite => with_uuid req (λ u, json PDeleteSiteResponse (api_delete_site headers u))
  | EpEnableSite => with_uuid req (λ u, json PSiteResponse (api_enable_site headers u))
  | EpDisableSite => with_uuid req (λ u, json PSiteResponse (api_disable_site headers u))
  | EpBindSiteNodes =>
      with_uuid req (λ u, with_json req (λ r, json PCreateSiteBindingsResponse (api_bind_site_nodes headers u r)))
  | EpRenewSiteCertificate =>
      with_uuid req (λ u, json PRenewSiteCertificateResponse (api_renew_site_certificate headers u))
  | EpSwitchSitePrimary =>
      with_uuid req (λ u, with_json req (λ r, json PSwitchSitePrimaryResponse (api_switch_site_primary headers u r)))
  | EpCreateRelease => with_json req (λ r, json PSavedRelease (api_create_release headers r))
  | EpListReleases => json PReleaseOverviews (api_list_releases headers)
  | EpCreateDnsProvider =>
      with_json req (λ r, json PCreateDnsProviderResponse (api_create_dns_provider headers r))
  | EpUpdateDnsProvider =>
      with_uuid req (λ u, with_json req (λ r, json PCreateDnsProviderResponse (api_update_dns_provider headers u r)))
  | EpDeleteDnsProvider =>
      with_uuid req (λ u, json PDeleteDnsProviderResponse (api_delete_dns_provider headers u))
  | EpListDnsProviders => json PDnsProviderOverviews (api_list_dns_providers headers)
  | EpSyncDnsZones => with_json req (λ r, json PSyncDnsZonesResponse (api_sync_dns_zones headers r))
  | EpListDnsZones => json PDnsZoneOverviews (api_list_dns_zones headers)
  | EpEnableDnsZone =>
      with_uuid req (λ u, json PUpdateDnsZoneStatusResponse (api_enable_dns_zone headers u))
  | EpDisableDnsZone =>
      with_uuid req (λ u, json PUpdateDnsZoneStatusResponse (api_disable_dns_zone headers u))
  | EpDeleteDnsZone =>
      with_uuid req (λ u, json PDeleteDnsZoneResponse (api_delete_dns_zone headers u))
  | EpCreateCertificateOrder =>
      with_json req (λ r, json PCreateCertificateOrderResponse (api_create_certificate_order headers r))
  | EpListCertificateOrders => json PCertificateOrderOverviews (api_list_certificate_orders headers)
  | EpRetryCertificateOrder =>
      with_uuid req (λ u, json PCertificateOrderOverview (api_retry_certificate_order headers u))
  | EpResetCertificateOrder =>
      with_uuid req (λ u, json PCertificateOrderOverview (api_reset_certificate_order headers u))
  | EpRegisterNode => with_json req (λ r, json PNodeTokensResponse (api_register_node r))
  | EpRefreshNodeAuth => with_json req (λ r, json PNodeTokensResponse (refresh_node_auth r))
  | EpNodeHeartbeat =>
      with_json req (λ r, json PNodeHeartbeatResponse (api_node_heartbeat headers r))
  | EpLatestRelease =>
      with_query req (λ n, json PLatestReleaseResponse (api_latest_release headers n))
  | EpConfigPackage =>
      with_path req (λ v, with_query req (λ n, json PConfigPackageResponse (api_config_package headers v n)))
  | EpAckRelease =>
      with_uuid req (λ u, with_json req (λ r, json PReleaseAckResponse (api_ack_release headers u r)))
  | EpNextNodeOperation =>
      with_query req (λ n, json PPendingOperationResponse (api_next_node_operation headers n))
  | EpReportNodeOperationResult =>
      with_uuid req (λ u, with_json req (λ r, json POperationResultResponse (api_report_node_operation_result headers u r)))
  end.
End Serve.

(** ** Who may call what *)

Inductive Guard := Open | AdminSession | NodeToken.

#[export] Instance Guard_eq_dec : EqDecision Guard.
Proof. solve_decision. Defined.

Definition guard_of (endpoint : Endpoint) : Guard :=
  match endpoint with
  | EpConsoleEntry | EpConsoleStyles | EpConsoleScript | EpConsoleIconfont | EpLoginPage
  | EpLoginStyles | EpLoginScript | EpHealthz | EpAdminLogin | EpAdminLogout
  | EpRegisterNode | EpRefreshNodeAuth => Open
  | EpNodeHeartbeat | EpLatestRelease | EpConfigPackage | EpAckRelease | EpNextNodeOperation
  | EpReportNodeOperationResult => NodeToken
  | _ => AdminSession
  end.

(** A fact checked over the whole table. *)
Lemma router_all (P : string → Endpoint → bool) path endpoints method endpoint :
  forallb (λ r, forallb (λ e, P r.1 e.2) r.2) build_router = true →
  (path, endpoints) ∈ build_router → (method, endpoint) ∈ endpoints → P path endpoint = true.
Proof.
  intros Hall Hr He. rewrite forallb_forall in Hall.
  specialize (Hall _ (proj1 (list_elem_of_In _ _) Hr)). rewrite forallb_forall in Hall.
  exact (Hall _ (proj1 (list_elem_of_In _ _) He)).
Qed.

(** Is the endpoint behind the guard, or one of the exceptions? *)
Definition behind (prefix : string) (g : Guard) (except : list Endpoint) (path : string)
    (endpoint : Endpoint) : bool :=
  negb (starts_with prefix path) || bool_decide (guard_of endpoint = g)
  || bool_decide (endpoint ∈ except).

Lemma behind_guard prefix g except path endpoints method endpoint :
  forallb (λ r, forallb (λ e, behind prefix g except r.1 e.2) r.2) build_router = true →
  (path, endpoints) ∈ build_router → (method, endpoint) ∈ endpoints →
  starts_with prefix path = true → endpoint ∉ except → guard_of endpoint = g.
Proof.
  intros Hall Hr He Hp Hx. pose proof (router_all _ _ _ _ _ Hall Hr He) as H. unfold behind in H.
  rewrite Hp, (bool_decide_false (endpoint ∈ except)) in H by done. simpl in H.
  rewrite orb_false_r in H. by apply bool_decide_eq_true in H.
Qed.

Section Guards.
Context {T : Type} `{EX : !Extern, DX : !DnsExtern, HX : !HttpExtern, NT : !NodeTokenStore T}.
Context (config : HubConfig).
Implicit Types w : World T.

Definition has_session w (headers : HeaderMap) : Prop :=
  ∃ token info, extract_cookie_value headers ADMIN_SESSION_COOKIE = Some token
    ∧ session_live (repo w) (clock (clock_next w)) token info.

(** The node a request speaks for. *)
Definition acting_node (endpoint : Endpoint) (req : Request) : option Uuid :=
  match endpoint, req_body req with
  | EpNodeHeartbeat, JNodeHeartbeatRequest r => Some (beat_node_id r)
  | EpAckRelease, JReleaseAckRequest r => Some (ack_node_id r)
  | EpReportNodeOperationResult, JOperationResultRequest r => Some (rr_node_id r)
  | (EpLatestRelease | EpConfigPackage | EpNextNodeOperation), _ => req_query req ≫= parse_uuid
  | _, _ => None
  end.

Definition has_token w (endpoint : Endpoint) (req : Request) : Prop :=
  ∃ n token, acting_node endpoint req = Some n
    ∧ extract_bearer_token (req_headers req) = Ok token ∧ token_accepted w n token.

(** A handler that stops with an error of one of the given statuses and has
    changed nothing. *)
Definition stops {A} (statuses : list Z) (m : Hub T A) w : Prop :=
  ∃ e w', m w = (Err e, w') ∧ AppError.status e ∈ statuses ∧ repo w' = repo w ∧ tokens w' = tokens w.

(** A request refused without an effect: an error of one of the statuses, or
    an extractor's rejection. *)
Definition refused (statuses : list Z) (s : Server) w : Prop :=
  let '(r, w') := s w in
  ((resp_status r ∈ statuses ∧ ∃ env, resp_body r = BError env) ∨ resp_body r = BEmpty)
  ∧ repo w' = repo w ∧ tokens w' = tokens w.

Lemma stops_bind {A B} sts (m : Hub T A) (k : A → Hub T B) w :
  stops sts m w → stops sts (bind m k) w.
Proof. intros (e & w' & Hm & Hrest). exists e, w'. unfold bind. by rewrite Hm. Qed.

Lemma stops_after {A B} sts (m : Hub T A) (k : A → Hub T B) w a w1 :
  m w = (Ok a, w1) → repo w1 = repo w → tokens w1 = tokens w → stops sts (k a) w1 →
  stops sts (bind m k) w.
Proof.
  intros Hm Hr Ht (e & w' & Hk & Hst & Hr' & Ht'). exists e, w'. unfold bind. rewrite Hm.
  split_and!; congruence.
Qed.

Lemma refused_answer sts m w : stops sts m w → refused sts (answer m) w.
Proof.
  intros (e & w' & Hm & Hst & Hr & Ht). unfold refused, answer. rewrite Hm. simpl.
  split; [left; eauto|done].
Qed.

Lemma refused_json {A} sts (inject : A → Payload) m w : stops sts m w → refused sts (json inject m) w.
Proof. intros H. by apply refused_answer, stops_bind. Qed.

Lemma refused_reject sts s w : refused sts (reject s) w.
Proof. split; [by right|done]. Qed.

Lemma refused_with_uuid sts req k w : (∀ u, refused sts (k u) w) → refused sts (with_uuid req k) w.
Proof.
  intros Hk. unfold with_uuid, with_path. destruct (req_path req) as [|seg [|]]; try apply refused_reject.
  destruct (parse_uuid seg); [done|apply refused_reject].
Qed.

Lemma refused_with_json `{!FromBody A} sts req (k : A → Server) w :
  (∀ a, from_body (req_body req) = Ok a → refused sts (k a) w) → refused sts (with_json req k) w.
Proof. intros Hk. unfold with_json. destruct (from_body _); [auto|apply refused_reject]. Qed.

Lemma refused_with_query sts req k w :
  (∀ u, req_query req ≫= parse_uuid = Some u → refused sts (k u) w) →
  refused sts (with_query req k) w.
Proof. intros Hk. unfold with_query. destruct (_ ≫= _); [auto|apply refused_reject]. Qed.

Lemma refused_with_path sts req k w : (∀ s, refused sts (k s) w) → refused sts (with_path req k) w.
Proof.
  intros Hk. unfold with_path. destruct (req_path req) as [|seg [|]]; [apply refused_reject|done|].
  apply refused_reject.
Qed.

Lemma authorize_admin_pure_error token w e w' :
  authorize_admin_session token w = (Err e, w') →
  AppError.status e = 401%Z ∧ repo w' = repo w ∧ tokens w' = tokens w.
Proof.
  unfold authorize_admin_session, validate_admin_session, bind, require, read, get_or, lift, utc_now.
  simpl. destruct (negb (is_empty (trim token))); [|by intros [= <- <-]].
  destruct (admin_session_by_token_hash _ _) as [ctx|]; simpl; [|by intros [= <- <-]].
  destruct (bool_decide (ctx_status ctx = "active")); simpl; [|by intros [= <- <-]].
  destruct (negb _); simpl; [done|]. by intros [= <- <-].
Qed.

Lemma no_session_stops headers w :
  ¬ has_session w headers →
  stops [401%Z] (require_admin_session headers) w ∧ stops [401%Z] (admin_me headers) w
  ∧ ∀ request, stops [401%Z] (api_change_admin_password headers request) w.
Proof.
  intros Hno. unfold require_admin_session, admin_me, api_change_admin_password,
    extract_admin_session_cookie, has_session in *.
  destruct (extract_cookie_value headers ADMIN_SESSION_COOKIE) as [token|].
  2: { split_and!; intros; apply stops_bind; eexists _, _; split_and!; done || set_solver. }
  assert (stops [401%Z] (authorize_admin_session token) w) as Hs.
  { destruct (authorize_admin_session token w) as [[info|e] w'] eqn:Ha.
    - destruct Hno. exists token, info. split; [done|]. apply authorize_admin_session_iff. eauto.
    - apply authorize_admin_pure_error in Ha as Hst. exists e, w'. destruct Hst as (-> & ? & ?).
      split_and!; done || set_solver. }
  split_and!; intros; (eapply stops_after; [reflexivity|done|done|]).
  - by apply stops_bind.
  - by apply stops_bind, stops_bind.
  - by apply stops_bind, stops_bind.
Qed.

Lemma no_token_stops {A} n headers (k : Hub T A) w :
  (∀ token, extract_bearer_token headers = Ok token → ¬ token_accepted w n token) →
  stops [401%Z; 404%Z]
    (let! token := lift (extract_bearer_token headers) in do! authorize_node n token in k) w.
Proof.
  intros Hno. destruct (extract_bearer_token headers) as [token|e] eqn:Htok.
  - eapply stops_after; [reflexivity|done|done|]. apply stops_bind.
    destruct (authorize_node n token w) as [[[]|e] w'] eqn:Ha.
    + destruct (Hno token); [done|]. apply authorize_node_iff. eauto.
    + exists e, w'. split; [done|]. revert Ha. clear.
      unfold authorize_node, bind, require, read, read_tokens, get_or, lift, utc_now. simpl.
      destruct (access_lease _ _) as [l|]; simpl; [|intros [= <- <-]; split_and!; done || set_solver].
      destruct (bool_decide _); simpl; [|intros [= <- <-]; split_and!; done || set_solver].
      destruct (negb (_ <? _)%Z); simpl; [|intros [= <- <-]; split_and!; done || set_solver].
      destruct (negb _); simpl; [done|]. intros [= <- <-]; split_and!; done || set_solver.
  - exists e, w. split; [done|]. split; [|done]. revert Htok. unfold extract_bearer_token.
    destruct (authorization headers) as [v|]; [|intros [= <-]; set_solver].
    destruct (header_to_str v) as [v'|]; [|intros [= <-]; set_solver].
    destruct (strip_prefix _ _) as [t|]; [|intros [= <-]; set_solver].
    destruct (is_empty _); [intros [= <-]; set_solver|done].
Qed.

(** Walks the extractors of an endpoint to its handler. *)
Ltac refuse :=
  repeat first
    [ apply refused_with_uuid; intros ? | apply refused_with_json; intros ? ?
    | apply refused_with_query; intros ? ? | apply refused_with_path; intros ? ].

(** C3: No endpoint of the administrators' interface answers or changes anything
    without a live session: apart from login and logout, a request to a path under
    /api/admin/ whose cookie is not a session in force gets 401 or is rejected by
    an extractor, and neither the repository nor the tokens change. *)
Theorem admin_endpoints_guarded path endpoints method endpoint req w :
  (path, endpoints) ∈ build_router → (method, endpoint) ∈ endpoints →
  starts_with "/api/admin/" path = true → endpoint ∉ [EpAdminLogin; EpAdminLogout] →
  ¬ has_session w (req_headers req) →
  refused [401%Z] (serve config endpoint req) w.
Proof.
  intros Hr He Hpath Hnot Hno. destruct (no_session_stops _ w Hno) as (Hadm & Hme & Hpw).
  assert (guard_of endpoint = AdminSession) as Hadmin.
  { eapply (behind_guard "/api/admin/" _ [EpAdminLogin; EpAdminLogout]);
      [vm_compute; reflexivity|done..]. }
  clear Hr He Hpath Hnot. destruct endpoint; try discriminate Hadmin; simpl; refuse;
    apply refused_json; auto; apply stops_bind; exact Hadm.
Qed.

(** C7: A request to an endpoint of the nodes' interface that does not carry an
    access token in force of the very node it speaks for is refused with 401 or 404,
    or rejected by an extractor before the handler runs (an answer without a body, such
    as 400, 415 or 422), and neither the repository nor the tokens change; only registration and token refresh, which check a
    bootstrap or a refresh token, are open. *)
Theorem node_endpoints_guarded path endpoints method endpoint req w :
  (path, endpoints) ∈ build_router → (method, endpoint) ∈ endpoints →
  starts_with "/api/node/" path = true → endpoint ∉ [EpRegisterNode; EpRefreshNodeAuth] →
  ¬ has_token w endpoint req →
  refused [401%Z; 404%Z] (serve config endpoint req) w.
Proof.
  intros Hr He Hpath Hnot Hno.
  assert (guard_of endpoint = NodeToken) as Hnode.
  { eapply (behind_guard "/api/node/" _ [EpRegisterNode; EpRefreshNodeAuth]);
      [vm_compute; reflexivity|done..]. }
  clear Hr He Hpath Hnot. unfold has_token in Hno.
  destruct endpoint; try discriminate Hnode; simpl; refuse; apply refused_json;
    apply no_token_stops; intros token Htok Hacc; apply Hno; eexists _, token; split_and!; try done.
  all: simpl; try done.
  all: unfold from_body in *; destruct (req_body req); simplify_eq/=; done.
Qed.
End Guards.

(** ** Cookies *)

(** The documented behaviour of the crates behind [HttpExtern]: a header value of
    printable ASCII is its text, and such a text is a header value; the printed
    forms of a uuid have only letters, digits and hyphens, and the hyphenated one
    is read back. *)
Definition printable (s : string) : Prop :=
  Forall (λ c, in_range 32 126 c = true) (bytes s).

Definition word_char (c : ascii) : bool := is_ascii_alphanumeric c || Ascii.eqb c "-".
Definition word (s : string) : Prop := Forall (λ c, word_char c = true) (bytes s).

Class HttpLaws `{!Extern, !HttpExtern} : Prop := {
  header_to_str_printable : ∀ s, printable s → header_to_str s = Some s;
  header_from_str_printable : ∀ s, printable s → header_from_str s = Ok s;
  header_from_str_id : ∀ s h, header_from_str s = Ok h → h = s;
  uuid_simple_word : ∀ u, word (uuid_simple u);
  uuid_to_string_word : ∀ u, word (uuid_to_string u);
  parse_uuid_to_string : ∀ u, parse_uuid (uuid_to_string u) = Some u;
}.

Lemma split_once_list_app c a b : c ∉ a → split_once_list c (a ++ c :: b) = Some (a, b).
Proof.
  induction a as [|x a IH]; simpl; [by rewrite decide_True|].
  intros Hx. rewrite decide_False by set_solver. by rewrite IH by set_solver.
Qed.

Lemma split_once_app c a b : c ∉ bytes a → split_once c (a +:+ String c "" +:+ b) = Some (a, b).
Proof.
  intros Hc. unfold split_once. rewrite !bytes_app. simpl. rewrite split_once_list_app by done.
  simpl. by rewrite !of_bytes_bytes.
Qed.

(** A cookie as a browser sends it back. *)
Record cookie_ok (p : string * string) : Prop := {
  cookie_name_plain : ";"%char ∉ bytes p.1 ∧ "="%char ∉ bytes p.1;
  cookie_value_plain : ";"%char ∉ bytes p.2;
  cookie_trimmed : trim (p.1 +:+ "=" +:+ p.2) = p.1 +:+ "=" +:+ p.2;
}.

Definition cookie_text (p : string * string) : string := p.1 +:+ "=" +:+ p.2.

Definition find_cookie (name : string) (l : list (string * string)) : option string :=
  snd <$> find_where (λ p, p.1 = name) l.

Lemma trim_space s : trim (" " +:+ s) = trim s.
Proof.
  unfold trim, trim_front_all. rewrite bytes_app. cbn [bytes app length trim_front].
  assert (strip_any whitespace (" "%char :: bytes s) = Some (bytes s)) as Hs by reflexivity.
  change (bytes " " ++ bytes s) with (" "%char :: bytes s). cbn [length trim_front]. by rewrite Hs.
Qed.

Lemma cookie_item_text name p :
  cookie_ok p → cookie_item name (cookie_text p) = if decide (p.1 = name) then Some p.2 else None.
Proof.
  intros [[_ Heq] _ Htrim]. unfold cookie_item, cookie_text. rewrite Htrim.
  by rewrite (split_once_app "=" p.1 p.2) by done.
Qed.

Lemma cookie_item_space name s : cookie_item name (" " +:+ s) = cookie_item name s.
Proof. unfold cookie_item. by rewrite trim_space. Qed.

Lemma split_plain c s : c ∉ bytes s → split c s = [s].
Proof.
  intros Hc. unfold split. rewrite split_list_no_sep by done. simpl. by rewrite of_bytes_bytes.
Qed.

Lemma cookie_plain p : cookie_ok p → ";"%char ∉ bytes (cookie_text p).
Proof.
  intros [[H1 _] H2 _]. unfold cookie_text. rewrite !bytes_app. simpl. set_solver.
Qed.

(** A list separated by a semicolon and a blank. *)
Lemma split_join_semicolon x l :
  Forall (λ s, ";"%char ∉ bytes s) (x :: l) →
  split ";" (join "; " (x :: l)) = x :: ((λ s, " " +:+ s) <$> l).
Proof.
  revert x. induction l as [|y l IH]; intros x Hall; apply Forall_cons in Hall as [Hx Hl].
  - simpl. by apply split_plain.
  - rewrite join_cons by done. change "; " with (String ";" "" +:+ " ") at 1.
    rewrite <-string_app_assoc, split_sep, split_plain by done.
    assert (" " +:+ join "; " (y :: l) = join "; " ((" " +:+ y) :: l)) as -> by (by destruct l).
    rewrite IH; [done|]. apply Forall_cons in Hl as [Hy Hl]. apply Forall_cons. split; [|done].
    rewrite bytes_app. simpl. set_solver.
Qed.

(** What a [Cookie] header of well-formed cookies yields. *)
Lemma cookie_roundtrip_aux `{!Extern, !HttpExtern, !HttpLaws} auth l name :
  Forall cookie_ok l → printable (join "; " (cookie_text <$> l)) →
  extract_cookie_value (mkHeaders auth (Some (join "; " (cookie_text <$> l)))) name
  = find_cookie name l.
Proof.
  intros Hok Hp. unfold extract_cookie_value. simpl. rewrite header_to_str_printable by done.
  destruct l as [|p l]; [reflexivity|]. rewrite fmap_cons, split_join_semicolon.
  2: { rewrite <-fmap_cons, Forall_fmap. eapply Forall_impl; [done|]. apply cookie_plain. }
  rewrite <-list_fmap_compose. unfold find_cookie. rewrite find_where_cons. simpl.
  apply Forall_cons in Hok as [Hokp Hok]. rewrite cookie_item_text by done.
  case_decide; [done|]. clear Hp. induction Hok as [|q l Hq Hok IH]; [done|].
  rewrite find_where_cons. simpl. rewrite cookie_item_space, cookie_item_text by done.
  by case_decide.
Qed.

(** A cookie sent back by a browser among others, in whatever order, is read
    back: the header [k1=v1; k2=v2; ...] yields the value of the first cookie of
    that name, and nothing when there is none. *)
Theorem cookie_roundtrip `{!Extern, !HttpExtern, !HttpLaws} auth l name :
  Forall cookie_ok l → printable (join "; " (cookie_text <$> l)) →
  extract_cookie_value (mkHeaders auth (Some (join "; " (cookie_text <$> l)))) name
  = find_cookie name l.
Proof. apply cookie_roundtrip_aux. Qed.

(** Text without blanks is not trimmed. *)
Lemma strip_any_visible (seqs : list (list ascii)) l :
  forallb (λ p, match p with c :: _ => negb (in_range 33 126 c) | [] => false end) seqs = true →
  Forall (λ c, in_range 33 126 c = true) l → strip_any seqs l = None.
Proof.
  intros Hseqs Hl. apply strip_any_None. intros p r Hp ->. rewrite forallb_forall in Hseqs.
  specialize (Hseqs p (proj1 (list_elem_of_In _ _) Hp)). destruct p as [|c p]; [done|].
  apply Forall_cons in Hl as [Hc _]. by rewrite Hc in Hseqs.
Qed.

Lemma trim_visible s : Forall (λ c, in_range 33 126 c = true) (bytes s) → trim s = s.
Proof.
  intros Hs. apply trim_id; (apply strip_any_visible; [vm_compute; reflexivity|]); [done|].
  by apply Forall_reverse.
Qed.

Lemma word_char_visible c : word_char c = true → in_range 33 126 c = true ∧ c ≠ ";"%char.
Proof. destruct c as [[] [] [] [] [] [] [] []]; vm_compute; done. Qed.

Lemma word_visible s : word s → Forall (λ c, in_range 33 126 c = true) (bytes s) ∧ ";"%char ∉ bytes s.
Proof.
  unfold word. intros Hs. split.
  - eapply Forall_impl; [done|]. intros c Hc. by apply word_char_visible in Hc as [? _].
  - intros Hin. rewrite Forall_forall in Hs. by apply Hs, word_char_visible in Hin as [_ ?].
Qed.

Lemma visible_printable s : Forall (λ c, in_range 33 126 c = true) (bytes s) → printable s.
Proof.
  intros Hs. eapply Forall_impl; [done|]. unfold in_range. intros c [H1 H2]%andb_true_iff. apply andb_true_iff.
  split; [|done]. apply N.leb_le in H1. apply N.leb_le. lia.
Qed.

Section Login.
Context {T : Type} `{EX : !Extern, DX : !DnsExtern, HX : !HttpExtern, NT : !NodeTokenStore T}.
Context `{EL : !ExternLaws, HL : !HttpLaws}.
Context (config : HubConfig).
Implicit Types w : World T.

Lemma session_token_cookie a b :
  let p := (ADMIN_SESSION_COOKIE, "adm_" +:+ uuid_simple a +:+ uuid_simple b) in
  cookie_ok p ∧ printable (cookie_text p).
Proof.
  intros p. destruct (word_visible _ (uuid_simple_word a)) as [Ha Ha'].
  destruct (word_visible _ (uuid_simple_word b)) as [Hb Hb'].
  assert (Forall (λ c, in_range 33 126 c = true) (bytes (cookie_text p))) as Hv.
  { unfold cookie_text, p, ADMIN_SESSION_COOKIE. simpl fst. simpl snd. rewrite !bytes_app.
    rewrite !Forall_app. split_and!; [|..|done|done]; apply (bool_decide_unpack _); vm_compute; done. }
  split; [|by apply visible_printable]. split; unfold p in *; cbn [fst snd].
  - split; apply (bool_decide_unpack _); vm_compute; done.
  - rewrite !bytes_app. intros Hin. rewrite !elem_of_app in Hin.
    destruct Hin as [Hin|[Hin|Hin]]; [|done..]. revert Hin. apply (bool_decide_unpack _). vm_compute. done.
  - by apply trim_visible.
Qed.

(** C8: A login over HTTP that is answered with data sets the session cookie, and
    a request that sends this cookie back has a live session, and so passes the
    guard of the administrators' endpoints, until the session expires eight hours
    after the login. *)
Theorem login_cookie_accepted request req w r w' data :
  req_body req = JAdminLoginRequest request → repo_ok (repo w) →
  serve config EpAdminLogin req w = (r, w') → resp_body r = BJson data →
  ∃ token info attributes,
    resp_headers r
    = [("set-cookie", cookie_text (ADMIN_SESSION_COOKIE, token) +:+ "; " +:+ attributes)]
    ∧ api_data data = PAdminLoginResponse (mkLoginResponse info)
    ∧ info_expires_at info = (clock (clock_next w) + hours 8)%Z
    ∧ ((clock (clock_next w') ≤ info_expires_at info)%Z →
       ∀ auth, has_session w' (mkHeaders auth (Some (cookie_text (ADMIN_SESSION_COOKIE, token))))).
Proof.
  intros Hbody Hok Hs Hdata. unfold serve, with_json, from_body in Hs. rewrite Hbody in Hs.
  simpl in Hs. unfold answer in Hs.
  destruct (admin_login request w) as [[r'|e] w1] eqn:Hl; [|injection Hs as <- <-; done].
  injection Hs as -> ->. unfold admin_login in Hl. hub_inv. destruct x as [[info] token].
  rename select (login_admin _ _ = _) into Hlogin.
  apply login_admin_run in Hlogin as (Hexp & (a & b & ->) & Hlive); [|done]. simpl in *.
  unfold json_with_session_cookie, api_ok in *. hub_inv. subst r. simpl in *. simplify_eq/=.
  rename select (build_session_cookie _ _ = _) into Hc. unfold build_session_cookie in Hc.
  destruct (header_from_str _) as [h|] eqn:Hh; simplify_eq/=. apply header_from_str_id in Hh as ->.
  eexists _, info, ("Path=/; HttpOnly; SameSite=Lax; Max-Age=" +:+ _). split_and!; [|done|done|].
  { unfold cookie_text. cbn [fst snd].
    by rewrite <-(string_app_assoc ADMIN_SESSION_COOKIE), <-(string_app_assoc "="). }
  intros Hnow auth. eexists _, info. split; [|by apply Hlive].
  destruct (session_token_cookie a b) as [Hcok Hp].
  etransitivity; [apply (cookie_roundtrip_aux auth [(ADMIN_SESSION_COOKIE, _)])|];
    [by apply Forall_singleton|done|].
  unfold find_cookie. by rewrite find_where_cons.
Qed.
End Login.

(** ** A concrete environment *)

Lemma pretty_word (z : Z) : word (pretty z).
Proof.
  assert (∀ x s, word s → word (pretty_N_go x s)) as Hgo.
  { intros x. induction (N.lt_wf_0 x) as [x _ IH]; intros s Hs.
    destruct (decide (x = 0%N)) as [->|Hx]; [done|].
    rewrite pretty_N_go_step by lia. apply IH; [apply N.div_lt; lia|].
    apply Forall_cons. split; [|done]. unfold pretty_N_char. by repeat case_match. }
  assert (∀ p, word (pretty (N.pos p))) as Hp.
  { intros p. unfold pretty, pretty_N. rewrite decide_False by done. apply Hgo. constructor. }
  destruct z as [|p|p]; [by repeat constructor|apply Hp|].
  change (word ("-" +:+ pretty (N.pos p))). unfold word. rewrite bytes_app. apply Forall_app.
  split; [by repeat constructor|apply Hp].
Qed.

#[export] Instance demo_http : HttpExtern := {|
  header_to_str := Some;
  header_from_str := Ok;
  parse_uuid := decimal_number;
|}.

#[export] Instance demo_http_laws : @HttpLaws demo_extern demo_http.
Proof.
  split; try done; simpl.
  - by intros s h [= ->].
  - apply pretty_word.
  - apply pretty_word.
  - apply decimal_number_pretty.
Qed.

(** ** Witnesses *)

Definition anonymous : HeaderMap := mkHeaders None None.
Definition create_request : Request :=
  mkRequest anonymous [] None (JCreateNodeRequest demo_create).

Lemma admin_endpoints_guarded_witness :
  refused [401%Z] (serve default_hub_config EpCreateNode create_request) world0
  ∧ resp_status (serve default_hub_config EpCreateNode create_request world0).1 = 401%Z.
Proof.
  split; [|vm_compute; reflexivity].
  apply (admin_endpoints_guarded default_hub_config "/api/admin/nodes"
           [(POST, EpCreateNode); (GET, EpListNodes)] POST).
  - apply (bool_decide_unpack _). vm_compute. exact I.
  - apply (bool_decide_unpack _). vm_compute. exact I.
  - reflexivity.
  - apply (bool_decide_unpack _). vm_compute. exact I.
  - intros (token & info & Hc & _). vm_compute in Hc. discriminate Hc.
Defined.

(** The heartbeat of one node with the access token of no node. *)
Definition stray_beat : Request :=
  mkRequest (mkHeaders (Some "Bearer node-at-7") None) [] None (JNodeHeartbeatRequest demo_beat).

Lemma node_endpoints_guarded_witness :
  refused [401%Z; 404%Z] (serve default_hub_config EpNodeHeartbeat stray_beat) world2
  ∧ resp_status (serve default_hub_config EpNodeHeartbeat stray_beat world2).1 = 401%Z.
Proof.
  split; [|vm_compute; reflexivity].
  apply (node_endpoints_guarded default_hub_config "/api/node/heartbeat" [(POST, EpNodeHeartbeat)] POST).
  - apply (bool_decide_unpack _). vm_compute. exact I.
  - apply (bool_decide_unpack _). vm_compute. exact I.
  - reflexivity.
  - apply (bool_decide_unpack _). vm_compute. exact I.
  - intros (n & token & _ & Htok & (e & Hl & _)). vm_compute in Htok. injection Htok as <-.
    vm_compute in Hl. discriminate Hl.
Defined.

Lemma cookie_roundtrip_witness :
  extract_cookie_value (mkHeaders None (Some "theme=dark; pingorahub_admin_session=adm_1"))
    ADMIN_SESSION_COOKIE = Some "adm_1".
Proof.
  apply (cookie_roundtrip None [("theme", "dark"); (ADMIN_SESSION_COOKIE, "adm_1")]
           ADMIN_SESSION_COOKIE).
  - repeat constructor; simpl; try (apply (bool_decide_unpack _); vm_compute; exact I); vm_compute; reflexivity.
  - apply (bool_decide_unpack _). vm_compute. exact I.
Defined.

Definition login_request : Request :=
  mkRequest anonymous [] None (JAdminLoginRequest (mkLogin "Admin" "secret1")).

Definition logged_in : Response * World MemoryTokenState :=
  serve default_hub_config EpAdminLogin login_request created_world.

Lemma login_cookie_accepted_witness :
  ∃ token, has_session logged_in.2
             (mkHeaders None (Some (cookie_text (ADMIN_SESSION_COOKIE, token)))).
Proof.
  edestruct (login_cookie_accepted default_hub_config (mkLogin "Admin" "secret1") login_request
    created_world logged_in.1 logged_in.2) as (token & info & attributes & _ & _ & Hexp & Hlive).
  - reflexivity.
  - apply created_world_ok.
  - apply surjective_pairing.
  - vm_compute. reflexivity.
  - exists token. apply Hlive. rewrite Hexp. vm_compute. discriminate.
Defined.
