(* ===== verification/HubInv.v ===== *)
(** * The invariant of the service over HTTP

    Every request the hub serves leaves its state in order: the repository and
    the tokens satisfy [world_ok], every release version in use was built with a
    serial already given out, and the serials only grow.  The handlers are run
    symbolically: [after m w Q] says that running [m] in [w] ends with [Q]. *)

From stdpp Require Import prelude strings pretty gmap sorting.
From Stdlib Require Import Ascii.
From S2P Require Import Prelude RustStr Json Extern AppError Domain SiteConfig ConfigCompiler Records Store TokenStore Hub HubAdmin HubNodes HubOps HubReleases HubSites HubDns HubCerts Http.

(** ** Versions *)

Lemma version_bytes `{!Extern} sc t k :
  ∃ p, bytes (build_release_version sc t k) = p ++ "-"%char :: bytes (format_padded 3 k).
Proof.
  exists (bytes ("rel-" +:+ sc +:+ "-" +:+ format_ymdhms t)). unfold build_release_version.
  rewrite !bytes_app, <-!app_assoc. done.
Qed.

(** The serial can be read off a version. *)
Lemma build_release_version_serial `{!Extern} sc t k sc' t' k' :
  (0 ≤ k)%Z → (0 ≤ k')%Z →
  build_release_version sc t k = build_release_version sc' t' k' → k = k'.
Proof.
  intros Hk Hk' Heq. apply (f_equal bytes) in Heq.
  destruct (version_bytes sc t k) as [p Hp]. destruct (version_bytes sc' t' k') as [p' Hp'].
  rewrite Hp, Hp' in Heq. apply (f_equal reverse) in Heq. rewrite !reverse_app, !reverse_cons in Heq.
  rewrite <-!app_assoc in Heq.
  assert (∀ j, (0 ≤ j)%Z → "-"%char ∉ reverse (bytes (format_padded 3 j))) as Hdash.
  { intros j Hj. rewrite elem_of_reverse. intros Hin.
    pose proof (decimal_digits _ _ _ (decimal_format_padded 3 j Hj)) as Hd.
    rewrite Forall_forall in Hd. by apply Hd in Hin. }
  apply app_sep_inj in Heq as [Heq _]; [|by apply Hdash..]. apply (inj reverse) in Heq.
  apply (f_equal (decimal 0)) in Heq. rewrite !decimal_format_padded in Heq by done. by simplify_eq.
Qed.

(** ** Runs *)

Section After.
Context {T : Type} `{EX : !Extern, NT : !NodeTokenStore T}.
Implicit Types w : World T.

Definition after {A} (m : Hub T A) w (Q : Fallible A → World T → Prop) : Prop :=
  let '(r, w') := m w in Q r w'.

Lemma after_run {A} (m : Hub T A) w Q r w' : after m w Q → m w = (r, w') → Q r w'.
Proof. unfold after. intros H Hm. by rewrite Hm in H. Qed.

Lemma after_bind {A B} (m : Hub T A) (k : A → Hub T B) w Q :
  after m w (λ r w1, match r with Ok a => after (k a) w1 Q | Err e => Q (Err e) w1 end) →
  after (bind m k) w Q.
Proof. unfold after, bind. by destruct (m w) as [[a|e] w1]. Qed.

Lemma after_ret {A} (a : A) w Q : Q (Ok a) w → after (ret a) w Q.
Proof. done. Qed.
Lemma after_fail {A} e w (Q : Fallible A → _) : Q (Err e) w → after (fail e) w Q.
Proof. done. Qed.
Lemma after_require b e w Q :
  (b = true → Q (Ok tt) w) → (b = false → Q (Err e) w) → after (require b e) w Q.
Proof. unfold after, require. destruct b; auto. Qed.
Lemma after_read {A} (f : MemoryState → A) w Q : Q (Ok (f (repo w))) w → after (read f) w Q.
Proof. done. Qed.
Lemma after_read_tokens {A} (f : T → A) w Q : Q (Ok (f (tokens w))) w → after (read_tokens f) w Q.
Proof. done. Qed.
Lemma after_lift {A} (x : Fallible A) w Q :
  (∀ a, x = Ok a → Q (Ok a) w) → (∀ e, x = Err e → Q (Err e) w) → after (lift x) w Q.
Proof. unfold after, lift. destruct x; auto. Qed.
Lemma after_get_or {A} (o : option A) e w Q :
  (∀ a, o = Some a → Q (Ok a) w) → (o = None → Q (Err e) w) → after (get_or o e) w Q.
Proof. unfold after, get_or, lift. destruct o; simpl; auto. Qed.
Lemma after_write f w Q : Q (Ok tt) (set_repo (f (repo w)) w) → after (write f) w Q.
Proof. done. Qed.
Lemma after_utc_now w Q :
  Q (Ok (clock (clock_next w))) (set_clock_next (S (clock_next w)) w) → after utc_now w Q.
Proof. done. Qed.
Lemma after_new_v4 w Q :
  Q (Ok (rng (rng_next w))) (set_rng_next (S (rng_next w)) w) → after new_v4 w Q.
Proof. done. Qed.

(** A consequence of what a step is known to establish. *)
Lemma after_mono {A} (m : Hub T A) w (P Q : Fallible A → World T → Prop) :
  after m w P → (∀ r w', P r w' → Q r w') → after m w Q.
Proof. unfold after. destruct (m w). auto. Qed.
End After.

(** One symbolic step of a handler. *)
Ltac sym1 :=
  lazymatch goal with
  | |- after (bind _ _) _ _ => apply after_bind
  | |- after (ret _) _ _ => apply after_ret
  | |- after (fail _) _ _ => apply after_fail
  | |- after (read _) _ _ => apply after_read
  | |- after (read_tokens _) _ _ => apply after_read_tokens
  | |- after (require _ _) _ _ => apply after_require; intros
  | |- after (get_or _ _) _ _ => apply after_get_or; intros
  | |- after (lift _) _ _ => apply after_lift; intros
  | |- after utc_now _ _ => apply after_utc_now
  | |- after new_v4 _ _ => apply after_new_v4
  end.

(** ** The invariant *)

Section Invariant.
Context {T : Type} `{EX : !Extern, DX : !DnsExtern, HX : !HttpExtern, NT : !NodeTokenStore T}.
Context `{EL : !ExternLaws, TL : !TokenLaws T}.
Implicit Types w : World T.

(** Every version in use carries a serial that was given out. *)
Definition versions_past w : Prop :=
  ∀ v u, release_ids_by_version (repo w) !! v = Some u →
    ∃ sc t k, v = build_release_version sc t k ∧ (0 ≤ k < release_counter w)%Z.

Record service_ok w : Prop := {
  service_world : world_ok w;
  service_versions : versions_past w;
  service_counter : (0 ≤ release_counter w)%Z;
}.

Lemma service_ok_new d : service_ok (new_memory d).
Proof. split; [apply world_ok_new| |done]. intros v u Hv. simpl in Hv. by rewrite lookup_empty in Hv. Qed.

(** The serials to come make fresh versions. *)
Lemma service_versions_fresh w : service_ok w → versions_fresh w.
Proof.
  intros [_ Hv Hc] sc t k Hk. apply eq_None_not_Some. intros [u Hu].
  apply Hv in Hu as (sc' & t' & k' & Heq & Hk'). apply build_release_version_serial in Heq; lia.
Qed.

Definition drawn w (u : Uuid) : Prop := ∃ i, i < rng_next w ∧ u = rng i.

(** What a handler may write: a step of the repository that files records under
    drawn uuids only and takes no new version. *)
Record admissible w (s' : MemoryState) : Prop := {
  adm_step : repo_step (repo w) s';
  adm_ids : ∀ u, u ∈ used_ids s' → u ∈ used_ids (repo w) ∨ drawn w u;
  adm_versions : ∀ v u, release_ids_by_version s' !! v = Some u →
    release_ids_by_version (repo w) !! v = Some u;
}.

Lemma service_ok_write w s' : service_ok w → admissible w s' → service_ok (set_repo s' w).
Proof.
  intros [Hw Hv Hc] [Hstep Hids Hvs]. split; [|by intros v u Hu; apply (Hv v u), Hvs|done].
  eapply (world_ok_repo w); simpl; try done. by eapply repo_step_ok; [apply world_repo|].
Qed.

Lemma service_ok_clock w i : service_ok w → service_ok (set_clock_next i w).
Proof. intros [Hw Hv Hc]. split; [|done..]. by eapply (world_ok_same w). Qed.

Lemma service_ok_rng w i : rng_next w ≤ i → service_ok w → service_ok (set_rng_next i w).
Proof. intros Hi [Hw Hv Hc]. split; [|done..]. by eapply (world_ok_same w). Qed.

Lemma drawn_now w : drawn (set_rng_next (S (rng_next w)) w) (rng (rng_next w)).
Proof. exists (rng_next w). simpl. split; [lia|done]. Qed.

Lemma drawn_mono w w' u : rng_next w ≤ rng_next w' → drawn w u → drawn w' u.
Proof. intros Hle (i & Hi & ->). exists i. split; [lia|done]. Qed.

Lemma fresh_now w : service_ok w → rng (rng_next w) ∉ used_ids (repo w).
Proof. intros [Hw _ _]. by apply (world_fresh_ids w Hw). Qed.

(** ** What a handler may write *)

Lemma admissible_same w s' :
  repo_step (repo w) s' → used_ids s' ⊆ used_ids (repo w) →
  (∀ v u, release_ids_by_version s' !! v = Some u → release_ids_by_version (repo w) !! v = Some u) →
  admissible w s'.
Proof. intros Hs Hu Hv. split; [done| |done]. intros u Hin. left. set_solver. Qed.

Lemma admissible_new w s' u :
  repo_step (repo w) s' → used_ids s' = {[ u ]} ∪ used_ids (repo w) →
  u ∈ used_ids (repo w) ∨ drawn w u →
  release_ids_by_version s' = release_ids_by_version (repo w) → admissible w s'.
Proof.
  intros Hs Hu Hd Hv. split; [done| |by rewrite Hv]. intros x. rewrite Hu.
  intros [->%elem_of_singleton|]%elem_of_union; auto.
Qed.
End Invariant.

Section Writes.
Context {T : Type} `{EX : !Extern, DX : !DnsExtern, HX : !HttpExtern, NT : !NodeTokenStore T}.
Context `{EL : !ExternLaws, TL : !TokenLaws T}.
Implicit Types w : World T.

(** A record of an indexed table saved under its old id and name, or under a
    drawn id and a name not in use. *)
Definition replaces `{!Indexed R} (table : gmap Uuid R) (r : R) : Prop :=
  ∃ r', table !! rid r = Some r' ∧ rkey r' = rkey r.
Definition adds `{!Indexed R} w (table : gmap Uuid R) (index : gmap string Uuid) (r : R) : Prop :=
  drawn w (rid r) ∧ table !! rid r = None ∧ index !! rkey r = None.

Lemma savable_saveable `{!Indexed R} w (table : gmap Uuid R) index r :
  index_ok table index → replaces table r ∨ adds w table index r → saveable table index r.
Proof.
  intros Hok [(r' & Hr & Hk)|(_ & Ht & Hi)]; [by eapply saveable_update|by apply saveable_fresh].
Qed.

Lemma savable_used `{!Indexed R} w (table : gmap Uuid R) index r (ids : gset Uuid) :
  dom table ⊆ ids → replaces table r ∨ adds w table index r → rid r ∈ ids ∨ drawn w (rid r).
Proof.
  intros Hsub [(r' & Hr & _)|(Hd & _)]; [|by right]. left. apply Hsub. by eapply elem_of_dom_2.
Qed.

Ltac sub_used := unfold used_ids; set_solver.

Lemma admissible_save_node w n :
  service_ok w → replaces (nodes (repo w)) n ∨ adds w (nodes (repo w)) (node_ids_by_code (repo w)) n →
  admissible w (save_node n (repo w)).
Proof.
  intros [Hw _ _] Hn. eapply (admissible_new w _ (rid n)); [|apply used_ids_save_node| |done].
  - apply step_save_node. eapply savable_saveable; [apply nodes_ok, world_repo, Hw|done].
  - eapply savable_used; [|done]. sub_used.
Qed.

Lemma admissible_save_site w x :
  service_ok w → replaces (sites (repo w)) x ∨ adds w (sites (repo w)) (site_ids_by_code (repo w)) x →
  admissible w (save_site x (repo w)).
Proof.
  intros [Hw _ _] Hx. eapply (admissible_new w _ (rid x)); [|apply used_ids_save_site| |done].
  - apply step_save_site. eapply savable_saveable; [apply sites_ok, world_repo, Hw|done].
  - eapply savable_used; [|done]. sub_used.
Qed.

Lemma admissible_save_provider w p :
  service_ok w →
  replaces (dns_providers (repo w)) p ∨ adds w (dns_providers (repo w)) (dns_provider_ids_by_name (repo w)) p →
  admissible w (save_dns_provider p (repo w)).
Proof.
  intros [Hw _ _] Hx. eapply (admissible_new w _ (rid p)); [|apply used_ids_save_provider| |done].
  - apply step_save_provider. eapply savable_saveable; [apply providers_ok, world_repo, Hw|done].
  - eapply savable_used; [|done]. sub_used.
Qed.

Lemma admissible_save_template w t :
  service_ok w →
  replaces (operation_templates (repo w)) t
  ∨ adds w (operation_templates (repo w)) (operation_template_ids_by_name (repo w)) t →
  admissible w (save_operation_template t (repo w)).
Proof.
  intros [Hw _ _] Hx. eapply (admissible_new w _ (rid t)); [|apply used_ids_save_template| |done].
  - apply step_save_template. eapply savable_saveable; [apply templates_ok, world_repo, Hw|done].
  - eapply savable_used; [|done]. sub_used.
Qed.

Lemma used_ids_save_user u s : used_ids (save_admin_user u s) = {[ user_id u ]} ∪ used_ids s.
Proof. unfold used_ids, save_admin_user. simpl. rewrite dom_insert_L. set_solver. Qed.

Lemma admissible_save_user w u :
  service_ok w →
  replaces (admin_users (repo w)) u
  ∨ adds w (admin_users (repo w)) (admin_user_ids_by_username (repo w)) u →
  admissible w (save_admin_user u (repo w)).
Proof.
  intros [Hw _ _] Hx. eapply (admissible_new w _ (rid u)); [|apply used_ids_save_user| |done].
  - apply step_save_user. eapply savable_saveable; [apply users_ok, world_repo, Hw|done].
  - eapply savable_used; [|done]. sub_used.
Qed.

(** A record filed under an id that is known or drawn. *)
Lemma admissible_save_zone w z :
  is_Some (dns_zones (repo w) !! zone_id z) ∨ drawn w (zone_id z) →
  admissible w (save_dns_zone z (repo w)).
Proof.
  intros Hz. eapply admissible_new; [apply step_save_zone|apply used_ids_save_zone| |done].
  destruct Hz as [Hz|]; [|by right]. left. apply elem_of_dom in Hz. sub_used.
Qed.

Lemma admissible_save_order w o :
  is_Some (certificate_orders (repo w) !! order_id o) ∨ drawn w (order_id o) →
  admissible w (save_certificate_order o (repo w)).
Proof.
  intros Hz. eapply admissible_new; [apply step_save_order|apply used_ids_save_order| |done].
  destruct Hz as [Hz|]; [|by right]. left. apply elem_of_dom in Hz. sub_used.
Qed.

Lemma admissible_save_certificate w c :
  drawn w (certificate_id c) → admissible w (save_certificate c (repo w)).
Proof.
  intros Hz. eapply admissible_new; [apply step_save_certificate|apply used_ids_save_certificate| |done].
  by right.
Qed.

Lemma admissible_save_operation w o :
  is_Some (operation_templates (repo w) !! op_template_id o) →
  is_Some (node_operations (repo w) !! operation_id o) ∨ drawn w (operation_id o) →
  admissible w (save_node_operation o (repo w)).
Proof.
  intros Ht Hz. eapply admissible_new; [by apply step_save_operation|apply used_ids_save_operation| |done].
  destruct Hz as [Hz|]; [|by right]. left. apply elem_of_dom in Hz. sub_used.
Qed.

(** The writes that file nothing new. *)
Lemma admissible_heartbeat w h : admissible w (record_heartbeat h (repo w)).
Proof.
  apply admissible_same; [apply step_heartbeat| |done].
  unfold used_ids, record_heartbeat. simpl. rewrite dom_alter_L. done.
Qed.

Lemma admissible_touch_user w u t : admissible w (touch_admin_user_login u t (repo w)).
Proof.
  apply admissible_same; [apply step_touch_user| |done].
  unfold used_ids, touch_admin_user_login. simpl. rewrite dom_alter_L. done.
Qed.

Lemma admissible_save_session w x : admissible w (save_admin_session x (repo w)).
Proof. by apply admissible_same; [apply step_save_session|..]. Qed.
Lemma admissible_touch_session w h t : admissible w (touch_admin_session h t (repo w)).
Proof. by apply admissible_same; [apply step_touch_session|..]. Qed.
Lemma admissible_delete_session w h : admissible w (delete_admin_session h (repo w)).
Proof. by apply admissible_same; [apply step_delete_session|..]. Qed.
Lemma admissible_delete_sessions w u e : admissible w (delete_admin_sessions_for_user u e (repo w)).
Proof. by apply admissible_same; [apply step_delete_sessions|..]. Qed.

Lemma admissible_delete_zone w u : admissible w (delete_dns_zone u (repo w)).
Proof.
  apply admissible_same; [apply step_delete_zone| |done].
  unfold used_ids, delete_dns_zone. simpl. set_solver.
Qed.

Lemma dom_foldl_delete {A} (l : list Uuid) (m : gmap Uuid A) :
  dom (foldl (λ m k, delete k m) m l) ⊆ dom m.
Proof. revert m. induction l as [|k l IH]; intros m; simpl; [done|]. rewrite IH. set_solver. Qed.

Lemma admissible_delete_provider w u : admissible w (delete_dns_provider u (repo w)).
Proof.
  apply admissible_same; [apply step_delete_provider| |].
  - unfold used_ids, delete_dns_provider. destruct (dns_providers (repo w) !! u); [|done]. simpl.
    pose proof (dom_foldl_delete (zone_id <$> filter (λ z, zone_provider_id z = u)
                                    (values (dns_zones (repo w)))) (dns_zones (repo w))). set_solver.
  - intros v x. unfold delete_dns_provider. by destruct (dns_providers (repo w) !! u).
Qed.

Lemma admissible_delete_template w u : admissible w (delete_operation_template u (repo w)).
Proof.
  apply admissible_same; [apply step_delete_template| |].
  - unfold used_ids, delete_operation_template. destruct (operation_templates (repo w) !! u); [|done].
    simpl. pose proof (dom_filter_subseteq (λ kv : Uuid * NodeOperationRecord, op_template_id kv.2 ≠ u)
                         (node_operations (repo w))). set_solver.
  - intros v x. unfold delete_operation_template. by destruct (operation_templates (repo w) !! u).
Qed.

Lemma admissible_delete_node w u : admissible w (delete_node u (repo w)).
Proof.
  apply admissible_same; [apply step_delete_node|apply used_ids_delete_node|].
  intros v x. unfold delete_node. by destruct (nodes (repo w) !! u).
Qed.

Lemma admissible_delete_site w u : admissible w (delete_site u (repo w)).
Proof.
  apply admissible_same; [apply step_delete_site| |].
  - unfold used_ids, delete_site. destruct (sites (repo w) !! u); [|done]. simpl.
    rewrite dom_fmap_L. set_solver.
  - intros v x. unfold delete_site. by destruct (sites (repo w) !! u).
Qed.

Lemma admissible_ack w r n a :
  (∀ rel, releases (repo w) !! r = Some rel → n ∈ target_node_ids rel) →
  admissible w (update_release_ack r n a (repo w)).
Proof.
  intros Hn. apply admissible_same; [by apply step_ack|by rewrite used_ids_update_ack|].
  intros v x. unfold update_release_ack. by destruct (releases (repo w) !! r).
Qed.

Lemma admissible_claim w n t : admissible w (claim_next_node_operation n t (repo w)).2.
Proof.
  apply admissible_same; [apply step_claim| |]; unfold claim_next_node_operation;
    destruct (operation_id <$> _) as [oid|]; try done;
    destruct (node_operations (repo w) !! oid) as [op|] eqn:Hop; try done; simpl;
    destruct (operation_templates (repo w) !! _); try done; unfold used_ids; simpl;
    apply elem_of_dom_2 in Hop; set_solver.
Qed.
End Writes.

#[export] Hint Resolve admissible_heartbeat admissible_touch_user admissible_save_session
  admissible_touch_session admissible_delete_session admissible_delete_sessions
  admissible_delete_zone admissible_delete_provider admissible_delete_template
  admissible_delete_node admissible_delete_site admissible_claim : hub.

Section WriteOk.
Context {T : Type} `{EX : !Extern, NT : !NodeTokenStore T, EL : !ExternLaws, TL : !TokenLaws T}.
Implicit Types w : World T.

Lemma after_write_ok f w (Q : Fallible unit → World T → Prop) :
  service_ok w → admissible w (f (repo w)) →
  (∀ w', w' = set_repo (f (repo w)) w → service_ok w' → Q (Ok tt) w') → after (write f) w Q.
Proof. intros Hw Ha HQ. apply after_write, HQ; [done|]. by apply service_ok_write. Qed.

End WriteOk.

(** The state reached is in order: clock and random draws, then known writes. *)
Ltac solve_ok :=
  repeat first [assumption | apply service_ok_clock | apply service_ok_rng; [simpl; lia|]].

(** Steps that neither branch nor write. *)
Ltac sym0 := repeat first [progress cbv beta iota | sym1].

(** One step of a handler, its writes included; what may be written is proved by
    the hints or left. *)
Ltac sym :=
  repeat first
    [ progress cbv beta iota
    | sym1
    | match goal with
      | |- after (match ?x with _ => _ end) _ _ => destruct x eqn:?
      end
    | match goal with
      | |- after (write _) _ _ => eapply after_write_ok; [solve_ok|solve [eauto with hub]|intros ? ? ?]
      end ].

(** The end of a run. *)
Ltac done_ok :=
  match goal with |- service_ok _ ∧ _ => split; [solve_ok|subst; simpl in *; lia] end.
Tactic Notation "walk" := sym; try done_ok.

(** An id drawn during the run. *)
Ltac solve_drawn := eexists; split; [|reflexivity]; subst; simpl; lia.

Section Keeps.
Context {T : Type} `{EX : !Extern, DX : !DnsExtern, HX : !HttpExtern, NT : !NodeTokenStore T}.
Context `{EL : !ExternLaws, TL : !TokenLaws T}.
Implicit Types w : World T.

(** [m] keeps the service in order and draws at most [n] serials. *)
Definition keeps {A} (n : Z) (m : Hub T A) : Prop :=
  ∀ w, service_ok w → (release_counter w + n ≤ u64_max)%Z →
    after m w (λ _ w', service_ok w' ∧ (release_counter w' ≤ release_counter w + n)%Z).

Lemma keeps_mono {A} n n' (m : Hub T A) : (n ≤ n')%Z → keeps n m → keeps n' m.
Proof.
  intros Hle Hm w Hw Hc. eapply after_mono; [apply Hm; [done|lia]|]. intros r w' [? ?]. split; [done|lia].
Qed.

Lemma keeps_bind {A B} n k (m : Hub T A) (f : A → Hub T B) :
  (0 ≤ k)%Z → keeps n m → (∀ a, keeps k (f a)) → keeps (n + k) (bind m f).
Proof.
  intros Hk Hm Hf w Hw Hc. apply after_bind. eapply after_mono; [apply Hm; [done|lia]|].
  intros [a|e] w1 [Hw1 Hc1]; [|split; [done|lia]].
  eapply after_mono; [apply Hf; [done|lia]|]. intros r w2 [? ?]. split; [done|lia].
Qed.

Lemma keeps_bind0 {A B} k (m : Hub T A) (f : A → Hub T B) :
  (0 ≤ k)%Z → keeps 0 m → (∀ a, keeps k (f a)) → keeps k (bind m f).
Proof. intros Hk Hm Hf. by apply (keeps_bind 0 k). Qed.

(** Anything that changes only the clock and draws. *)
Lemma fresh_from w i : service_ok w → rng_next w ≤ i → rng i ∉ used_ids (repo w).
Proof. intros [Hw _ _]. by apply (world_fresh_ids w Hw). Qed.

(** ** Administrators *)

Lemma authorize_admin_session_keeps token : keeps 0 (authorize_admin_session token).
Proof.
  intros w Hw Hc. unfold authorize_admin_session, validate_admin_session. sym; done_ok.
Qed.

Lemma current_admin_keeps token : keeps 0 (current_admin token).
Proof. apply (keeps_bind0 0); [done|apply authorize_admin_session_keeps|]. intros a w Hw Hc. sym; done_ok. Qed.

Lemma login_admin_keeps request : keeps 0 (login_admin request).
Proof.
  intros w Hw Hc. unfold login_admin, generate_admin_session_token. sym; done_ok.
Qed.

Lemma logout_admin_keeps token : keeps 0 (logout_admin token).
Proof. intros w Hw Hc. unfold logout_admin. sym; done_ok. Qed.

Lemma change_admin_password_keeps token request : keeps 0 (change_admin_password token request).
Proof.
  unfold change_admin_password. apply (keeps_bind0 0); [done|apply authorize_admin_session_keeps|].
  intros session w Hw Hc. unfold hash_password. walk.
  rename select (admin_user_by_username _ _ = _) into Hu.
  apply admin_user_by_username_Some in Hu as [_ Hu]; [|apply world_repo, service_world, Hw].
  eapply after_write_ok; [solve_ok| |intros; walk].
  apply admissible_save_user; [solve_ok|]. left. by eexists.
Qed.

(** An id drawn in the run is in none of the tables. *)
Ltac solve_fresh w :=
  let Hin := fresh in
  apply not_elem_of_dom; intros Hin; simpl in Hin;
  lazymatch type of Hin with
  | rng ?i ∈ _ => apply (fresh_from w i); [assumption|simpl; lia|unfold used_ids; set_solver]
  end.

Lemma ensure_admin_user_keeps name display pw : keeps 0 (ensure_admin_user name display pw).
Proof.
  intros w Hw Hc. unfold ensure_admin_user, hash_password. walk.
  rename select (admin_user_by_username _ _ = None) into Hn.
  eapply after_write_ok; [solve_ok| |intros; walk].
  apply admissible_save_user; [solve_ok|]. right. split_and!; [solve_drawn|solve_fresh w|].
  unfold admin_user_by_username in Hn. simpl.
  destruct (admin_user_ids_by_username (repo w) !! _) as [u|] eqn:Hu; [|done].
  pose proof (users_ok _ (world_repo _ (service_world _ Hw))) as Hok.
  destruct (index_sound _ _ Hok _ _ Hu) as (x & Hx & _). simpl in Hn. congruence.
Qed.

(** ** Nodes *)

Lemma create_node_keeps request : keeps 0 (create_node request).
Proof.
  intros w Hw Hc. unfold create_node. walk. guard_norm.
  eapply after_write_ok; [solve_ok| |intros; walk].
  apply admissible_save_node; [solve_ok|]. right. split_and!; [solve_drawn|solve_fresh w|done].
Qed.

(** Rewriting the record of a known node. *)
Lemma admissible_node_update w u n n' :
  service_ok w → node (repo w) u = Some n → id (identity n') = id (identity n) →
  node_code (identity n') = node_code (identity n) → admissible w (save_node n' (repo w)).
Proof.
  intros Hw Hn Hid Hcode. apply admissible_save_node; [done|]. left. exists n. simpl.
  rewrite Hid, Hcode. split; [|done].
  destruct (index_complete _ _ (nodes_ok _ (world_repo _ (service_world _ Hw))) u n Hn) as [Hr _].
  simpl in Hr. by rewrite Hr.
Qed.

Lemma after_issue n w (Q : Fallible IssuedTokens → World T → Prop) :
  service_ok w →
  (∀ i w', service_ok w' → repo w' = repo w → release_counter w' = release_counter w → Q (Ok i) w') →
  after (issue_node_tokens n) w Q.
Proof.
  intros [Hw Hv Hcnt] HQ. unfold after, issue_node_tokens, bind, new_v4, utc_now, write_tokens. simpl.
  destruct (issue_tokens _ _ _ _ _) as [i t] eqn:Ei. apply HQ; [|done..]. split; [|done..].
  eapply (world_ok_issue w n); [done|reflexivity|reflexivity|]. simpl. by rewrite Ei.
Qed.

Lemma refresh_node_token_keeps request : keeps 0 (refresh_node_token request).
Proof.
  intros w Hw Hc. unfold refresh_node_token. walk. apply after_issue; [done|]. intros. walk.
Qed.

Lemma register_node_keeps request : keeps 0 (register_node request).
Proof.
  intros w Hw Hc. unfold register_node. walk.
  match goal with H : node _ _ = Some _ |- _ => rename H into Hn end.
  apply after_issue; [done|]. intros i w' Hw' Hr Hc'. walk.
  eapply after_write_ok; [solve_ok| |intros; walk].
  eapply admissible_node_update; [solve_ok|simpl; rewrite Hr; exact Hn|done|done].
Qed.

Lemma authorize_node_keeps n tok : keeps 0 (authorize_node n tok).
Proof. intros w Hw Hc. unfold authorize_node. walk. Qed.

Lemma node_heartbeat_keeps request : keeps 0 (node_heartbeat request).
Proof. intros w Hw Hc. unfold node_heartbeat. walk. Qed.

Lemma hub_delete_node_keeps u : keeps 0 (hub_delete_node u).
Proof.
  intros w Hw Hc. unfold hub_delete_node. walk.
  assert (service_ok (set_tokens (revoke_tokens u (tokens w)) w)) as Hw'.
  { destruct Hw as [Hw Hv Hcnt]. split; [|done..]. by eapply (world_ok_revoke w u). }
  unfold after at 1, write_tokens. walk.
Qed.

(** ** Operations *)

Lemma template_by_name_Some s name t :
  repo_ok s → operation_template_by_name s name = Some t →
  template_name t = name ∧ operation_templates s !! template_id t = Some t.
Proof.
  intros Hok H. apply (index_ok_by_name _ _ name t (templates_ok s Hok)).
  unfold operation_template_by_name in H. by destruct (operation_template_ids_by_name s !! name).
Qed.

Lemma template_by_name_None s name :
  repo_ok s → operation_template_by_name s name = None → operation_template_ids_by_name s !! name = None.
Proof.
  intros Hok H. unfold operation_template_by_name in H.
  destruct (operation_template_ids_by_name s !! name) as [u|] eqn:Hu; [|done].
  destruct (index_sound _ _ (templates_ok s Hok) _ _ Hu) as (t & Ht & _). simpl in H. congruence.
Qed.

Lemma create_operation_template_keeps request : keeps 0 (create_operation_template request).
Proof.
  intros w Hw Hc. unfold create_operation_template, keep_or.
  assert (repo_ok (repo w)) as Hok by apply world_repo, service_world, Hw. walk.
  - eapply after_write_ok; [solve_ok| |intros; walk].
    rename select (operation_template_by_name _ _ = Some _) into Ht.
    apply template_by_name_Some in Ht as [Hname Ht]; [|done].
    apply admissible_save_template; [solve_ok|]. left. by eexists.
  - eapply after_write_ok; [solve_ok| |intros; walk].
    rename select (operation_template_by_name _ _ = None) into Ht.
    apply template_by_name_None in Ht; [|done].
    apply admissible_save_template; [solve_ok|]. right. split_and!; [solve_drawn|solve_fresh w|done].
Qed.

(** An update that does not rename the template. *)
Lemma update_operation_template_keeps tid request w :
  service_ok w → (release_counter w ≤ u64_max)%Z →
  (∀ t name, operation_template (repo w) tid = Some t →
     normalize_operation_template_name (rq_name request) = Ok name → name = template_name t) →
  after (update_operation_template tid request) w
    (λ _ w', service_ok w' ∧ (release_counter w' ≤ release_counter w + 0)%Z).
Proof.
  intros Hw Hc Hname. unfold update_operation_template.
  assert (repo_ok (repo w)) as Hok by apply world_repo, service_world, Hw. walk.
  rename select (operation_template _ tid = Some _) into Ht.
  rename select (normalize_operation_template_name _ = _) into Hn.
  eapply after_write_ok; [solve_ok| |intros; walk].
  apply admissible_save_template; [solve_ok|]. left. eexists. simpl.
  split; [exact Ht|]. symmetry. by apply (Hname _ _ Ht).
Qed.

Lemma hub_delete_operation_template_keeps tid : keeps 0 (hub_delete_operation_template tid).
Proof. intros w Hw Hc. unfold hub_delete_operation_template. walk. Qed.

Lemma template_keyed w tid t :
  service_ok w → operation_template (repo w) tid = Some t → template_id t = tid.
Proof.
  intros Hw Ht. by destruct (index_complete _ _ (templates_ok _ (world_repo _ (service_world _ Hw))) tid t Ht).
Qed.

Lemma create_node_operation_keeps n request who : keeps 0 (create_node_operation n request who).
Proof.
  intros w Hw Hc. unfold create_node_operation. walk.
  rename select (operation_template _ _ = Some _) into Ht.
  eapply after_write_ok; [solve_ok| |intros; walk].
  apply admissible_save_operation; [|right; solve_drawn]. simpl. eexists.
  by rewrite (template_keyed w _ _ Hw Ht).
Qed.

Lemma hub_claim_keeps n : keeps 0 (hub_claim_next_node_operation n).
Proof.
  intros w Hw Hc. unfold hub_claim_next_node_operation. apply after_bind. unfold after at 1, repo_claim.
  pose proof (admissible_claim w n (clock (clock_next w))) as Ha.
  destruct (claim_next_node_operation _ _ _) as [c s']. simpl in Ha.
  set (w1 := if decide _ then w else _).
  assert (service_ok (set_repo s' w1) ∧ release_counter w1 = release_counter w) as [Hw' Hc1].
  { subst w1. case_decide; (split; [|done]); (apply service_ok_write; [solve_ok|by destruct Ha]). }
  clearbody w1. destruct c; walk.
Qed.

Lemma report_node_operation_result_keeps oid request : keeps 0 (report_node_operation_result oid request).
Proof.
  intros w Hw Hc. unfold report_node_operation_result.
  pose proof (world_repo _ (service_world _ Hw)) as Hok. walk.
  all: rename select (node_operation _ oid = Some _) into Ho.
  all: pose proof (operations_keyed _ Hok _ _ Ho) as Hkey.
  all: pose proof (operations_templates _ Hok _ _ Ho) as Htpl.
  all: eapply after_write_ok; [solve_ok| |intros; walk].
  all: apply admissible_save_operation; [exact Htpl|left; simpl; rewrite Hkey; by eexists].
Qed.

(** ** Releases *)

Lemma service_ok_serial w :
  service_ok w → (release_counter w + 1 ≤ u64_max)%Z →
  service_ok (set_release_counter (wrap_u64 (release_counter w + 1)) w).
Proof.
  intros [Hw Hv Hcnt] Hc. rewrite wrap_u64_id by lia. split; simpl; [|..|lia].
  - by eapply (world_ok_same w).
  - intros v u Hu. destruct (Hv v u Hu) as (sc & t & k & -> & Hk). exists sc, t, k. simpl. split; [done|lia].
Qed.

(** Filing a release under a drawn id and a version of a past serial. *)
Lemma service_ok_release w r sc t k :
  service_ok w → drawn w (release_id r) → releases (repo w) !! release_id r = None →
  release_version r = build_release_version sc t k → (0 ≤ k < release_counter w)%Z →
  release_ids_by_version (repo w) !! release_version r = None → release_ok r →
  service_ok (set_repo (save_release r (repo w)) w).
Proof.
  intros [Hw Hv Hcnt] Hd Hnew Hver Hk Hfree Hok. split; [|..|done].
  - eapply (world_ok_repo w); simpl; try done; [by apply save_release_ok; [..|apply world_repo]|].
    intros u. rewrite used_ids_save_release. intros [->%elem_of_singleton|]%elem_of_union; auto.
  - intros v u. simpl. rewrite lookup_insert_Some. intros [[<- <-]|[_ Hu]]; [eauto|by apply (Hv v u)].
Qed.

Lemma after_save_compiled w sc sid ty why b ids (Q : Fallible SavedRelease → World T → Prop) sc' t k :
  service_ok w → drawn w (manifest_release_id (manifest b)) →
  releases (repo w) !! manifest_release_id (manifest b) = None →
  manifest_release_version (manifest b) = build_release_version sc' t k →
  (0 ≤ k < release_counter w)%Z →
  release_ids_by_version (repo w) !! manifest_release_version (manifest b) = None →
  (∀ r w', service_ok w' → release_counter w' = release_counter w → sites (repo w') = sites (repo w) →
     Q (Ok r) w') →
  after (save_compiled_release sc sid ty why b ids) w Q.
Proof.
  intros Hw Hd Hnew Hver Hk Hfree HQ. unfold save_compiled_release. sym.
  apply after_write. sym. apply HQ; [|done..].
  eapply service_ok_release; [by apply service_ok_clock|done|done|exact Hver|done|done|].
  split; [apply dom_build_acks|done].
Qed.

Lemma after_next_serial w (Q : Fallible Z → World T → Prop) :
  Q (Ok (release_counter w)) (set_release_counter (wrap_u64 (release_counter w + 1)) w) →
  after next_serial w Q.
Proof. done. Qed.

(** A release of a site: one serial, the sites untouched. *)
Definition releases_once {A} (m : Hub T A) : Prop :=
  ∀ w, service_ok w → (release_counter w + 1 ≤ u64_max)%Z →
    after m w (λ _ w', service_ok w' ∧ (release_counter w' ≤ release_counter w + 1)%Z
                       ∧ sites (repo w') = sites (repo w)).

Lemma releases_once_keeps {A} (m : Hub T A) : releases_once m → keeps 1 m.
Proof.
  intros Hm w Hw Hc. eapply after_mono; [by apply Hm|]. intros r w' (? & ? & _). done.
Qed.

(** The end of such a release, once its bundle is compiled. *)
Ltac release_tail w Hw Hpos :=
  eapply after_save_compiled; simpl;
  [ solve_ok | solve_drawn | solve_fresh w | reflexivity | rewrite wrap_u64_id by lia; lia
  | apply (service_versions_fresh w Hw); lia
  | let r := fresh in let w' := fresh in let Hc := fresh in
    intros r w' ? Hc ?; simpl in *; rewrite Hc, wrap_u64_id by lia; split_and!; [done|lia|done] ].

Lemma save_site_release_once x ty why : releases_once (save_site_release x ty why).
Proof.
  intros w Hw Hc. pose proof (service_counter w Hw) as Hpos. unfold save_site_release.
  apply after_bind, after_lift; [intros u Hval|intros e He; split; [done|split; [lia|done]]].
  apply after_bind. apply after_next_serial.
  pose proof (service_ok_serial w Hw Hc) as Hw1. sym.
  - rename select (map_err _ _ = _) into Hb. unfold compile_site_bundle in Hb.
    destruct (is_empty _); simplify_eq/=.
    release_tail w Hw Hpos.
  - split; [solve_ok|].
    simpl. rewrite wrap_u64_id by lia. split; [lia|done].
Qed.

Lemma save_site_cleanup_release_once x ids why : releases_once (save_site_cleanup_release x ids why).
Proof.
  intros w Hw Hc. pose proof (service_counter w Hw) as Hpos. unfold save_site_cleanup_release.
  apply after_bind. apply after_next_serial.
  pose proof (service_ok_serial w Hw Hc) as Hw1. sym.
  - rename select (map_err _ _ = _) into Hb. unfold compile_site_cleanup_bundle in Hb.
    destruct (is_empty _); simplify_eq/=.
    release_tail w Hw Hpos.
  - split; [solve_ok|].
    simpl. rewrite wrap_u64_id by lia. split; [lia|done].
Qed.

(** Rewriting the record of a known site. *)
Lemma admissible_site_update w u x x' :
  service_ok w → sites (repo w) !! u = Some x → site_id x' = site_id x → site_code x' = site_code x →
  admissible w (save_site x' (repo w)).
Proof.
  intros Hw Hx Hid Hcode. apply admissible_save_site; [done|]. left. exists x. simpl.
  rewrite Hid, Hcode. split; [|done]. by rewrite (site_keyed w u x (service_world _ Hw) Hx).
Qed.

(** An optional release. *)
Lemma after_opt {A} (P : Prop) `{!Decision P} (m : Hub T A) w (Q : Fallible (option A) → World T → Prop) :
  releases_once m → service_ok w → (release_counter w + 1 ≤ u64_max)%Z →
  (∀ r w', service_ok w' → (release_counter w' ≤ release_counter w + 1)%Z →
     sites (repo w') = sites (repo w) → Q r w') →
  after (if decide P then ret None else let! r := m in ret (Some r)) w Q.
Proof.
  intros Hm Hw Hc HQ. case_decide; [apply after_ret, HQ; done || lia|].
  apply after_bind. eapply after_mono; [by apply Hm|]. intros [r|e] w' (? & ? & ?); [|by apply HQ].
  apply after_ret. by apply HQ.
Qed.

Lemma create_release_keeps request : keeps 2 (create_release request).
Proof.
  intros w Hw Hc. unfold create_release, detached_node_ids_for_site. sym0; try (split; [done|lia]).
  rename a into x. rename select (site _ _ = Some _) into Hx.
  apply after_opt; [apply save_site_release_once|done|lia|]. intros r1 w1 Hw1 Hc1 Hs1.
  destruct r1 as [primary|e]; [|split; [done|lia]]. sym0.
  apply after_opt; [apply save_site_cleanup_release_once|done|lia|]. intros r2 w2 Hw2 Hc2 Hs2.
  destruct r2 as [cleanup|e]; [|split; [done|lia]]. sym0.
  eapply after_write_ok; [done| |intros w3 Heq Hw3; sym0; (split; [done|subst w3; simpl; lia])].
  eapply (admissible_site_update w2 (cr_scope_id request) x); [done| |done|done].
  by rewrite Hs2, Hs1.
Qed.

Lemma ack_release_keeps rid request : keeps 0 (ack_release rid request).
Proof.
  intros w Hw Hc. unfold ack_release. sym0; try done_ok. guard_norm.
  rename select (release _ rid = Some _) into Hr.
  eapply after_write_ok; [solve_ok| |].
  { apply admissible_ack. intros rel Hrel. unfold release in Hr. simpl in Hrel. by simplify_eq. }
  intros w1 Heq1 Hw1. sym0. destruct (node (repo w1) (ack_node_id request)) as [n|] eqn:Hn; sym0.
  2: { split; [done|subst w1; simpl; lia]. }
  eapply after_write_ok; [solve_ok| |intros w2 Heq2 Hw2; sym0; (split; [done|subst; simpl; lia])].
  by eapply (admissible_node_update _ (ack_node_id request) n); [solve_ok|..].
Qed.

(** ** Sites *)

(** A site under a fresh code: the numbers after a code must not run out. *)
Lemma create_site_keeps request w :
  service_ok w → (release_counter w ≤ u64_max)%Z →
  (Z.of_nat (size (site_ids_by_code (repo w))) < u32_max)%Z →
  after (create_site request) w
    (λ _ w', service_ok w' ∧ (release_counter w' ≤ release_counter w + 0)%Z).
Proof.
  intros Hw Hc Hsize. unfold create_site. sym0; try done_ok.
  destruct (generate_code_run (cs_site_code request) (cs_name request) (cs_domain request) w)
    as (base & n & Hrun). unfold after at 1. rewrite Hrun.
  destruct (unique_code_free (site_ids_by_code (repo w)) base Hsize) as (_ & _ & Hfree & _).
  sym0. eapply after_write_ok; [solve_ok| |intros; walk].
  apply admissible_save_site; [solve_ok|]. right. split_and!; [solve_drawn|solve_fresh w|done].
Qed.

Lemma update_site_keeps sid request : keeps 0 (update_site sid request).
Proof.
  intros w Hw Hc. unfold update_site. walk. rename select (site _ sid = Some _) into Hx.
  eapply after_write_ok; [solve_ok| |intros; walk]. by eapply (admissible_site_update w sid).
Qed.

(** A release whose answer is dropped. *)
Lemma releases_once_unit {A} (P : Prop) `{!Decision P} (m : Hub T A) :
  releases_once m → releases_once (if decide P then ret tt else let! _ := m in ret tt).
Proof.
  intros Hm w Hw Hc. case_decide; [apply after_ret; split_and!; [done|lia|done]|].
  apply after_bind. eapply after_mono; [by apply Hm|]. by intros [r|e] w' Hw'.
Qed.

Lemma update_site_status_keeps sid enabled : keeps 1 (update_site_status sid enabled).
Proof.
  intros w Hw Hc. unfold update_site_status. sym0; try done_ok.
  rename select (site _ sid = Some _) into Hx.
  eapply after_write_ok; [solve_ok|by eapply (admissible_site_update w sid)|]. intros w1 Heq Hw1.
  assert (release_counter w1 = release_counter w) as Hc1 by by subst.
  sym0. eapply after_mono; [apply releases_once_unit; [apply save_site_release_once|done|lia]|].
  intros [r|e] w2 (Hw2 & Hc2 & _); sym0; (split; [done|lia]).
Qed.

Lemma hub_delete_site_keeps sid : keeps 1 (hub_delete_site sid).
Proof.
  intros w Hw Hc. unfold hub_delete_site. sym0; try done_ok.
  eapply after_mono; [apply releases_once_unit; [apply save_site_cleanup_release_once|done|lia]|].
  intros [r|e] w2 (Hw2 & Hc2 & _); walk.
Qed.

Lemma check_nodes_exist_run bs w : ∃ r, check_nodes_exist bs w = (r, w).
Proof.
  induction bs as [|b bs IH]; simpl; [by eexists|]. unfold bind, read, require.
  destruct (negb _); [exact IH|by eexists].
Qed.

Lemma bind_site_nodes_keeps sid raw : keeps 0 (bind_site_nodes sid raw).
Proof.
  intros w Hw Hc. unfold bind_site_nodes. sym0; try done_ok.
  rename a into bs. destruct (check_nodes_exist_run bs w) as [r Hr]. unfold after at 1. rewrite Hr.
  destruct r; [|done_ok]. sym0; try done_ok. rename select (site _ sid = Some _) into Hx.
  eapply after_write_ok; [solve_ok| |intros; walk]. by eapply (admissible_site_update w sid).
Qed.

Lemma switch_target_run request current bs w : ∃ r, switch_target request current bs w = (r, w).
Proof.
  unfold switch_target. destruct (sw_target_node_id request); unfold bind, read, require, ret.
  - destruct (negb _); by eexists.
  - unfold get_or, lift. by eexists.
Qed.

Lemma switch_site_primary_keeps sid request : keeps 2 (switch_site_primary sid request).
Proof.
  intros w Hw Hc. unfold switch_site_primary. sym0; try done_ok.
  rename select (site _ sid = Some _) into Hx. rename a into x.
  destruct (switch_target_run request (binding_node_id <$> primary_site_binding x) (bindings x) w)
    as [r Hr]. unfold after at 1. rewrite Hr.
  destruct r; [|done_ok]. sym0; try done_ok.
  eapply after_write_ok; [solve_ok|by eapply (admissible_site_update w sid)|]. intros w1 Heq Hw1.
  assert (release_counter w1 = release_counter w) as Hc1 by by subst. sym0.
  eapply after_mono; [apply create_release_keeps; [done|lia]|].
  intros [r|e] w2 (Hw2 & Hc2); sym0; (split; [done|lia]).
Qed.

(** ** DNS *)

Lemma provider_by_name_None s name :
  repo_ok s → dns_provider_by_name s name = None → dns_provider_ids_by_name s !! name = None.
Proof.
  intros Hok H. unfold dns_provider_by_name in H.
  destruct (dns_provider_ids_by_name s !! name) as [u|] eqn:Hu; [|done].
  destruct (index_sound _ _ (providers_ok s Hok) _ _ Hu) as (t & Ht & _). simpl in H. congruence.
Qed.

Lemma create_dns_provider_keeps request : keeps 0 (create_dns_provider request).
Proof.
  intros w Hw Hc. unfold create_dns_provider. walk. guard_norm.
  rename select (dns_provider_by_name _ _ = None) into Hn.
  apply provider_by_name_None in Hn; [|apply world_repo, service_world, Hw].
  eapply after_write_ok; [solve_ok| |intros; walk].
  apply admissible_save_provider; [solve_ok|]. right. split_and!; [solve_drawn|solve_fresh w|done].
Qed.

(** An update that does not rename the provider. *)
Lemma update_dns_provider_keeps pid request w :
  service_ok w → (release_counter w ≤ u64_max)%Z →
  (∀ p, dns_provider (repo w) pid = Some p → cp_name request = provider_name p) →
  after (update_dns_provider pid request) w
    (λ _ w', service_ok w' ∧ (release_counter w' ≤ release_counter w + 0)%Z).
Proof.
  intros Hw Hc Hname. unfold update_dns_provider. walk.
  all: rename select (dns_provider _ pid = Some _) into Hp.
  all: eapply after_write_ok; [solve_ok| |intros; walk].
  all: apply admissible_save_provider; [solve_ok|]; left; eexists; simpl; split; [exact Hp|].
  all: symmetry; by apply Hname.
Qed.

Lemma hub_delete_dns_provider_keeps pid : keeps 0 (hub_delete_dns_provider pid).
Proof. intros w Hw Hc. unfold hub_delete_dns_provider. walk. Qed.

Lemma zone_by_provider_name_known w pid name z :
  service_ok w → dns_zone_by_provider_name (repo w) pid name = Some z →
  is_Some (dns_zones (repo w) !! zone_id z).
Proof.
  intros Hw Hz. pose proof (zone_lookup (repo w) pid name) as H. rewrite Hz in H.
  destruct H as (u & Hu & _ & _). rewrite (zones_keyed _ (world_repo _ (service_world _ Hw)) u z Hu).
  by eexists.
Qed.

Lemma sync_zones_keeps pid infos ids : keeps 0 (sync_zones pid infos ids).
Proof.
  revert ids. induction infos as [|info infos IH]; intros ids w Hw Hc; simpl; [sym0; done_ok|].
  sym0. destruct (dns_zone_by_provider_name _ _ _) as [z|] eqn:Hz; sym0.
  all: eapply after_write_ok; [solve_ok| |].
  - apply admissible_save_zone. left. exact (zone_by_provider_name_known w _ _ _ Hw Hz).
  - intros w1 Heq Hw1. sym0.
    eapply after_mono; [apply IH; [done|subst; simpl; lia]|]. intros r w2 [? ?]. split; [done|subst; simpl in *; lia].
  - apply admissible_save_zone. right. solve_drawn.
  - intros w1 Heq Hw1. sym0.
    eapply after_mono; [apply IH; [done|subst; simpl; lia]|]. intros r w2 [? ?]. split; [done|subst; simpl in *; lia].
Qed.

Lemma sync_dns_zones_keeps request : keeps 0 (sync_dns_zones request).
Proof.
  intros w Hw Hc. unfold sync_dns_zones. sym0; try done_ok. unfold after at 1, ask_provider.
  destruct (map_err _ _); [|done_ok]. sym0; try done_ok.
  eapply after_mono; [by apply sync_zones_keeps|]. intros [r|e] w1 [? ?]; sym0; done.
Qed.

Lemma update_dns_zone_status_keeps zid enabled : keeps 0 (update_dns_zone_status zid enabled).
Proof.
  intros w Hw Hc. unfold update_dns_zone_status. walk. rename select (dns_zone _ zid = Some _) into Hz.
  eapply after_write_ok; [solve_ok| |intros; walk]. apply admissible_save_zone. left. simpl.
  rewrite (zones_keyed _ (world_repo _ (service_world _ Hw)) zid _ Hz). by eexists.
Qed.

Lemma hub_delete_dns_zone_keeps zid : keeps 0 (hub_delete_dns_zone zid).
Proof. intros w Hw Hc. unfold hub_delete_dns_zone. walk. Qed.

(** ** Certificate orders *)

Lemma issue_certificate_order_keeps sid cid cn sans z zn ap ot :
  keeps 0 (issue_certificate_order sid cid cn sans z zn ap ot).
Proof.
  intros w Hw Hc. unfold issue_certificate_order. sym0. destruct cid as [cid|]; sym0.
  - eapply after_write_ok; [solve_ok| |intros; walk]. apply admissible_save_order. right. solve_drawn.
  - eapply after_write_ok; [solve_ok| |].
    { apply admissible_save_certificate. solve_drawn. }
    intros w1 Heq Hw1. sym0.
    eapply after_write_ok; [solve_ok| |intros; walk]. apply admissible_save_order. right. solve_drawn.
Qed.

Lemma create_certificate_order_keeps request : keeps 0 (create_certificate_order request).
Proof.
  intros w Hw Hc. unfold create_certificate_order. sym; try done_ok; by apply issue_certificate_order_keeps.
Qed.

Lemma renew_site_certificate_keeps sid : keeps 0 (renew_site_certificate sid).
Proof.
  intros w Hw Hc. unfold renew_site_certificate. walk.
  eapply after_mono; [by apply issue_certificate_order_keeps|].
  intros [r|e] w1 [? ?]; sym0; done.
Qed.

Lemma requeue_keeps oid o action w :
  service_ok w → certificate_order (repo w) oid = Some o →
  after (requeue_certificate_order o action) w
    (λ _ w', service_ok w' ∧ (release_counter w' ≤ release_counter w + 0)%Z).
Proof.
  intros Hw Ho. unfold requeue_certificate_order, certificate_order_overview. walk.
  eapply after_write_ok; [solve_ok| |intros; unfold after; done_ok].
  apply admissible_save_order. left. simpl.
  rewrite (orders_keyed _ (world_repo _ (service_world _ Hw)) oid o Ho). by eexists.
Qed.

Lemma retry_certificate_order_keeps oid : keeps 0 (retry_certificate_order oid).
Proof.
  intros w Hw Hc. unfold retry_certificate_order. walk. by eapply requeue_keeps.
Qed.

Lemma reset_certificate_order_keeps oid : keeps 0 (reset_certificate_order oid).
Proof.
  intros w Hw Hc. unfold reset_certificate_order. walk. by eapply requeue_keeps.
Qed.
End Keeps.

(** ** Requests *)

Section Requests.
Context {T : Type} `{EX : !Extern, DX : !DnsExtern, HX : !HttpExtern, NT : !NodeTokenStore T}.
Context `{EL : !ExternLaws, TL : !TokenLaws T}.
Context (config : HubConfig).
Implicit Types w : World T.

(** A request that keeps the service in order from [w], with at most [n] serials. *)
Definition serves (n : Z) w (s : Server) : Prop :=
  let '(_, w') := s w in service_ok w' ∧ (release_counter w' ≤ release_counter w + n)%Z.

Definition stays {A} (n : Z) w (m : Hub T A) : Prop :=
  after m w (λ _ w', service_ok w' ∧ (release_counter w' ≤ release_counter w + n)%Z).

Lemma serves_answer n w m : stays n w m → serves n w (answer m).
Proof.
  unfold stays, after, serves, answer. destruct (m w) as [[r|e] w'].
  - done.
  - intros [Hw Hc]. simpl. split; [by apply service_ok_rng; [lia|]|done].
Qed.

Lemma stays_bind_last {A B} n w (m : Hub T A) (k : A → Hub T B) :
  stays n w m → (∀ a, keeps 0 (k a)) → (0 ≤ n)%Z → (release_counter w + n ≤ u64_max)%Z →
  stays n w (bind m k).
Proof.
  intros Hm Hk Hn Hc. apply after_bind. eapply after_mono; [exact Hm|].
  intros [a|e] w1 [Hw1 Hc1]; [|done].
  eapply after_mono; [apply Hk; [done|lia]|]. intros r w2 [? ?]. split; [done|lia].
Qed.

Lemma ret_keeps {A} (a : A) : keeps 0 (ret a).
Proof. intros w Hw Hc. sym0. done_ok. Qed.
Lemma lift_keeps {A} (x : Fallible A) : keeps 0 (lift x).
Proof. intros w Hw Hc. sym0; done_ok. Qed.
Lemma get_or_keeps {A} (o : option A) e : keeps 0 (get_or o e).
Proof. apply lift_keeps. Qed.
Lemma api_ok_keeps {A} (a : A) : keeps 0 (api_ok a).
Proof. intros w Hw Hc. unfold api_ok. walk. Qed.

Lemma serves_json {A} (inject : A → Payload) n w m :
  stays n w m → (0 ≤ n)%Z → (release_counter w + n ≤ u64_max)%Z → serves n w (json inject m).
Proof.
  intros Hm Hn Hc. apply serves_answer. apply stays_bind_last; [done| |done..].
  intros a. apply ret_keeps.
Qed.

Lemma serves_page n r w : service_ok w → (0 ≤ n)%Z → serves n w (page r).
Proof. intros Hw Hn. split; [done|lia]. Qed.

Lemma serves_with_path n req k w :
  service_ok w → (0 ≤ n)%Z → (∀ s, req_path req = [s] → serves n w (k s)) → serves n w (with_path req k).
Proof.
  intros Hw Hn Hk. unfold with_path, reject.
  destruct (req_path req) as [|seg [|]]; [by apply serves_page|auto|by apply serves_page].
Qed.

Lemma serves_with_uuid n req k w :
  service_ok w → (0 ≤ n)%Z →
  (∀ s u, req_path req = [s] → parse_uuid s = Some u → serves n w (k u)) → serves n w (with_uuid req k).
Proof.
  intros Hw Hn Hk. apply serves_with_path; [done..|]. intros s Hs.
  destruct (parse_uuid s) as [u|] eqn:Hu; [by eapply Hk|by apply serves_page].
Qed.

Lemma serves_with_query n req k w :
  service_ok w → (0 ≤ n)%Z → (∀ u, serves n w (k u)) → serves n w (with_query req k).
Proof. intros Hw Hn Hk. unfold with_query. destruct (_ ≫= _); [done|by apply serves_page]. Qed.

Lemma serves_with_json `{!FromBody A} n req (k : A → Server) w :
  service_ok w → (0 ≤ n)%Z → (∀ a, from_body (req_body req) = Ok a → serves n w (k a)) →
  serves n w (with_json req k).
Proof. intros Hw Hn Hk. unfold with_json. destruct (from_body _); [auto|by apply serves_page]. Qed.

(** The check of the session touches the session and nothing else. *)
Definition same_tables w w' : Prop :=
  release_counter w' = release_counter w
  ∧ site_ids_by_code (repo w') = site_ids_by_code (repo w)
  ∧ operation_templates (repo w') = operation_templates (repo w)
  ∧ dns_providers (repo w') = dns_providers (repo w).

Lemma after_session headers w (Q : Fallible AdminMeResponse → World T → Prop) :
  service_ok w → (∀ r w', service_ok w' → same_tables w w' → Q r w') →
  after (require_admin_session headers) w Q.
Proof.
  intros Hw HQ. unfold require_admin_session, current_admin, authorize_admin_session,
    validate_admin_session, touch_admin_session. sym; apply HQ; try solve_ok; subst; done.
Qed.

Lemma stays_session {A} headers n w (k : AdminMeResponse → Hub T A) :
  service_ok w → (0 ≤ n)%Z →
  (∀ a w', service_ok w' → same_tables w w' → stays n w' (k a)) →
  stays n w (bind (require_admin_session headers) k).
Proof.
  intros Hw Hn Hk. apply after_bind, after_session; [done|].
  intros [a|e] w1 Hw1 Hsame; [|split; [done|]; destruct Hsame as [-> _]; lia].
  destruct (Hsame) as [Hc _]. unfold stays in Hk. rewrite <-Hc. by apply Hk.
Qed.

Lemma stays_node {A} headers n w node_id (k : Hub T A) :
  keeps n k → service_ok w → (0 ≤ n)%Z → (release_counter w + n ≤ u64_max)%Z →
  stays n w (let! token := lift (extract_bearer_token headers) in
             do! authorize_node node_id token in k).
Proof.
  intros Hk Hw Hn Hc. revert w Hw Hc. apply (keeps_bind0 n); [done|apply lift_keeps|]. intros token.
  apply (keeps_bind0 n); [done|apply authorize_node_keeps|]. done.
Qed.

(** Handlers that only read. *)
Lemma operation_overviews_keeps ops : keeps 0 (operation_overviews ops).
Proof.
  induction ops as [|o ops IH]; simpl; [apply ret_keeps|]. intros w Hw Hc. sym0; try done_ok.
  eapply after_mono; [by apply IH|]. intros [r|e] w1 [? ?]; sym0; done.
Qed.

Lemma list_node_overviews_keeps : keeps 0 list_node_overviews.
Proof. intros w Hw Hc. unfold list_node_overviews. walk. Qed.
Lemma node_detail_keeps u : keeps 0 (node_detail u).
Proof. intros w Hw Hc. unfold node_detail. walk. Qed.
Lemma hub_list_node_operations_keeps u : keeps 0 (hub_list_node_operations u).
Proof.
  intros w Hw Hc. unfold hub_list_node_operations. walk. by apply operation_overviews_keeps.
Qed.
Lemma list_template_overviews_keeps : keeps 0 list_template_overviews.
Proof. intros w Hw Hc. unfold list_template_overviews. walk. Qed.
Lemma list_site_overviews_keeps : keeps 0 list_site_overviews.
Proof. intros w Hw Hc. unfold list_site_overviews. walk. Qed.
Lemma site_detail_keeps u : keeps 0 (site_detail u).
Proof. intros w Hw Hc. unfold site_detail. walk. Qed.
Lemma list_release_overviews_keeps : keeps 0 list_release_overviews.
Proof. intros w Hw Hc. unfold list_release_overviews. walk. Qed.
Lemma latest_release_for_node_keeps u : keeps 0 (latest_release_for_node u).
Proof. intros w Hw Hc. unfold latest_release_for_node. walk. Qed.
Lemma config_package_for_node_keeps u v : keeps 0 (config_package_for_node u v).
Proof. intros w Hw Hc. unfold config_package_for_node. walk. Qed.
Lemma list_provider_overviews_keeps : keeps 0 list_provider_overviews.
Proof. intros w Hw Hc. unfold list_provider_overviews. walk. Qed.
Lemma list_zone_overviews_keeps : keeps 0 list_zone_overviews.
Proof. intros w Hw Hc. unfold list_zone_overviews. walk. Qed.
Lemma list_order_overviews_keeps : keeps 0 list_order_overviews.
Proof. intros w Hw Hc. unfold list_order_overviews, after. done_ok. Qed.

Lemma require_admin_session_keeps headers : keeps 0 (require_admin_session headers).
Proof. apply (keeps_bind0 0); [done|apply lift_keeps|]. intros tok. apply current_admin_keeps. Qed.

Lemma signed_in_keeps headers : keeps 0 (signed_in headers).
Proof.
  unfold signed_in. destruct (extract_cookie_value _ _) as [tok|]; [|apply ret_keeps].
  intros w Hw Hc. pose proof (authorize_admin_session_keeps tok w Hw Hc) as H.
  unfold session_is_ok, after in *. by destruct (authorize_admin_session tok w) as [[]].
Qed.

Lemma json_with_session_cookie_keeps p tok t : keeps 0 (json_with_session_cookie p tok t).
Proof. intros w Hw Hc. unfold json_with_session_cookie, api_ok. walk. Qed.
Lemma json_with_clear_session_cookie_keeps p : keeps 0 (json_with_clear_session_cookie p).
Proof. intros w Hw Hc. unfold json_with_clear_session_cookie, api_ok. walk. Qed.
End Requests.

Create HintDb keeps discriminated.
#[export] Hint Resolve ret_keeps lift_keeps get_or_keeps api_ok_keeps authorize_admin_session_keeps
  current_admin_keeps login_admin_keeps logout_admin_keeps change_admin_password_keeps create_node_keeps
  refresh_node_token_keeps register_node_keeps authorize_node_keeps node_heartbeat_keeps
  hub_delete_node_keeps create_operation_template_keeps hub_delete_operation_template_keeps
  create_node_operation_keeps hub_claim_keeps report_node_operation_result_keeps create_release_keeps
  ack_release_keeps update_site_keeps update_site_status_keeps hub_delete_site_keeps
  bind_site_nodes_keeps switch_site_primary_keeps create_dns_provider_keeps
  hub_delete_dns_provider_keeps sync_dns_zones_keeps update_dns_zone_status_keeps
  hub_delete_dns_zone_keeps create_certificate_order_keeps renew_site_certificate_keeps
  retry_certificate_order_keeps reset_certificate_order_keeps list_node_overviews_keeps
  node_detail_keeps hub_list_node_operations_keeps list_template_overviews_keeps
  list_site_overviews_keeps site_detail_keeps list_release_overviews_keeps
  latest_release_for_node_keeps config_package_for_node_keeps list_provider_overviews_keeps
  list_zone_overviews_keeps list_order_overviews_keeps require_admin_session_keeps signed_in_keeps
  json_with_session_cookie_keeps json_with_clear_session_cookie_keeps : keeps.

(** The handlers of [main.rs], which chain those of the service. *)
Create HintDb api discriminated.
#[export] Hint Unfold healthz console_entry login_page admin_login admin_logout admin_meta
  admin_me api_change_admin_password api_create_node api_list_nodes api_get_node_detail
  api_delete_node api_create_node_operation api_list_node_operations
  api_create_operation_template api_delete_operation_template api_list_operation_templates
  api_list_sites api_get_site api_update_site api_delete_site api_enable_site api_disable_site
  api_bind_site_nodes api_renew_site_certificate api_switch_site_primary api_create_release
  api_list_releases api_create_dns_provider api_delete_dns_provider api_list_dns_providers
  api_sync_dns_zones api_list_dns_zones api_enable_dns_zone api_disable_dns_zone
  api_delete_dns_zone api_create_certificate_order api_list_certificate_orders
  api_retry_certificate_order api_reset_certificate_order api_register_node refresh_node_auth
  api_node_heartbeat api_latest_release api_config_package api_ack_release
  api_next_node_operation api_report_node_operation_result : api.

(** A handler of the hint base, which may draw fewer than two serials. *)
Ltac keeps_hint :=
  first [ by eauto with keeps
        | eapply (keeps_mono 0); [done|by eauto with keeps]
        | eapply (keeps_mono 1); [done|by eauto with keeps] ].

(** A handler that is a chain of handlers, of which the last but one may draw. *)
Ltac keeps_chain :=
  repeat first
    [ keeps_hint
    | apply (keeps_bind0 2); [done|by eauto with keeps|intros ?]
    | apply (keeps_bind 2 0); [done|keeps_hint|intros ?] ].

Section Served.
Context {T : Type} `{EX : !Extern, DX : !DnsExtern, HX : !HttpExtern, NT : !NodeTokenStore T}.
Context `{EL : !ExternLaws, TL : !TokenLaws T}.
Context (config : HubConfig).
Implicit Types w : World T.

(** What a request must respect: serials are left, a new site finds a free code,
    and templates and providers keep their names (the name index of the memory
    store does not follow a rename). *)
Definition settled w (endpoint : Endpoint) (req : Request) : Prop :=
  (release_counter w + 2 ≤ u64_max)%Z
  ∧ match endpoint with
    | EpCreateSite => (Z.of_nat (size (site_ids_by_code (repo w))) < u32_max)%Z
    | EpUpdateOperationTemplate => ∀ s u r t name, req_path req = [s] → parse_uuid s = Some u →
        from_body (req_body req) = Ok r → operation_templates (repo w) !! u = Some t →
        normalize_operation_template_name (rq_name r) = Ok name → name = template_name t
    | EpUpdateDnsProvider => ∀ s u r p, req_path req = [s] → parse_uuid s = Some u →
        from_body (req_body req) = Ok r → dns_providers (repo w) !! u = Some p →
        cp_name r = provider_name p
    | _ => True
    end.

(** Walks the extractors of an endpoint to its handler. *)
Ltac serving :=
  repeat first
    [ apply serves_with_uuid; [done..|intros ? ? ? ?] | apply serves_with_json; [done..|intros ? ?]
    | apply serves_with_query; [done..|intros ?] | apply serves_with_path; [done..|intros ? ?] ];
  try (apply serves_page; done); try (apply serves_json; [|done..]); try apply serves_answer.

Lemma serve_keeps endpoint req w :
  service_ok w → settled w endpoint req → serves 2 w (serve config endpoint req).
Proof.
  intros Hw [Hc Hset].
  assert (∀ A (m : Hub T A), keeps 2 m → stays 2 w m) as Hk by (intros A m Hm; by apply Hm).
  destruct endpoint; unfold serve; serving; try done.
  all: try (apply Hk; autounfold with api; by keeps_chain).
  - apply Hk. apply (keeps_bind0 2); [done|apply login_admin_keeps|]. intros [response tok].
    keeps_hint.
  - apply Hk. apply (keeps_bind0 2); [done|destruct (extract_cookie_value _ _); keeps_hint|].
    intros _. keeps_hint.
  - apply stays_session; [done..|]. intros admin w1 Hw1 (Hc1 & _ & Ht1 & _).
    apply stays_bind_last; [|intros; apply api_ok_keeps|done|lia].
    eapply after_mono; [apply update_operation_template_keeps; [done|lia|]|].
    + intros t nm. unfold operation_template. rewrite Ht1. by eapply Hset.
    + intros r w2 [? ?]. split; [done|lia].
  - apply stays_session; [done..|]. intros admin w1 Hw1 (Hc1 & Hs1 & _).
    apply stays_bind_last; [|intros; apply api_ok_keeps|done|lia].
    eapply after_mono; [apply create_site_keeps; [done|lia|by rewrite Hs1]|].
    intros r w2 [? ?]. split; [done|lia].
  - apply stays_session; [done..|]. intros admin w1 Hw1 (Hc1 & _ & _ & Hp1).
    apply stays_bind_last; [|intros; apply api_ok_keeps|done|lia].
    eapply after_mono; [apply update_dns_provider_keeps; [done|lia|]|].
    + intros p. unfold dns_provider. rewrite Hp1. by eapply Hset.
    + intros r w2 [? ?]. split; [done|lia].
Qed.

(** A hub in order that has not run out of serials. *)
Definition steady w : Prop := service_ok w ∧ (release_counter w ≤ u64_max)%Z.

Definition routed (method : Method) (endpoint : Endpoint) : bool :=
  existsb (λ r, existsb (λ e, bool_decide (e = (method, endpoint))) r.2) build_router.

(** A read keeps it so. *)
Lemma serve_get_keeps endpoint req w :
  routed GET endpoint = true → steady w → steady (serve config endpoint req w).2.
Proof.
  intros Hget [Hw Hc].
  assert (serves 0 w (serve config endpoint req)) as Hs.
  { assert (∀ A (m : Hub T A), keeps 0 m → stays 0 w m) as Hk by (intros A m Hm; by apply Hm; [|lia]).
    assert (release_counter w + 0 ≤ u64_max)%Z by lia.
    destruct endpoint; first [discriminate Hget | clear Hget]; unfold serve; serving; try done.
    all: apply Hk; autounfold with api;
      repeat first [by eauto with keeps | apply (keeps_bind0 0); [done|by eauto with keeps|intros ?]]. }
  unfold serves in Hs. destruct (serve config endpoint req w) as [r w']. simpl. split; [apply Hs|lia].
Qed.

(** The states of a hub that starts with empty stores: the administrator may be
    seeded, and requests are served one after the other. *)
Inductive hub_reachable : World T → Prop :=
  | hub_boot days : hub_reachable (new_memory days)
  | hub_seed name display pw w :
      hub_reachable w → (release_counter w + 2 ≤ u64_max)%Z →
      hub_reachable (ensure_admin_user name display pw w).2
  | hub_serve endpoint req w :
      hub_reachable w → settled w endpoint req → hub_reachable (serve config endpoint req w).2.

Lemma hub_reachable_service w : hub_reachable w → service_ok w.
Proof.
  induction 1 as [days|name display pw w _ IH Hc|endpoint req w _ IH Hset].
  - apply service_ok_new.
  - pose proof (ensure_admin_user_keeps name display pw w IH) as H. unfold after in H.
    destruct (ensure_admin_user name display pw w) as [r w']. apply H. lia.
  - pose proof (serve_keeps endpoint req w IH Hset) as H. unfold serves in H.
    destruct (serve config endpoint req w) as [r w']. apply H.
Qed.

Lemma hub_reachable_steady w : hub_reachable w → steady w.
Proof.
  intros Hw. split; [by apply hub_reachable_service|].
  induction Hw as [days|name display pw w Hw IH Hc|endpoint req w Hw IH Hset]; [done|..].
  - pose proof (ensure_admin_user_keeps name display pw w (hub_reachable_service w Hw)) as H.
    unfold after in H. destruct (ensure_admin_user name display pw w) as [r w']. simpl. lia.
  - pose proof (serve_keeps endpoint req w (hub_reachable_service w Hw) Hset) as H. unfold serves in H.
    destruct (serve config endpoint req w) as [r w']. destruct Hset as [Hc _]. simpl. lia.
Qed.

(** C2: In every state the hub reaches by seeding the administrator and serving
    requests, in whatever order and with whatever answers, as long as serials and
    site codes are left and no template or DNS provider is renamed, the stores are
    in order: every name index agrees with its table, every record is filed under its
    id, releases list an acknowledgement for exactly their targets, a node's token
    leases are those of that node, no id in use will be drawn again, and the
    version of the next release is not in use. *)
Theorem hub_reachable_ok w :
  hub_reachable w → repo_ok (repo w) ∧ world_ok w ∧ versions_fresh w.
Proof.
  intros Hw%hub_reachable_service. split_and!; [apply world_repo, service_world, Hw|apply Hw|].
  by apply service_versions_fresh.
Qed.
End Served.

(** ** Witness *)

Lemma hub_reachable_ok_witness :
  (∃ data, resp_body logged_in.1 = BJson data)
  ∧ repo_ok (repo logged_in.2) ∧ world_ok logged_in.2 ∧ versions_fresh logged_in.2.
Proof.
  split; [eexists; vm_compute; reflexivity|]. apply (hub_reachable_ok default_hub_config).
  apply (hub_serve default_hub_config EpAdminLogin login_request created_world).
  - apply (hub_seed default_hub_config " Admin" "" "secret1" admin_world); [|done].
    apply (hub_boot default_hub_config 30).
  - split; done.
Defined.
