(* ===== verification/TokenLife.v ===== *)
(** * Refresh tokens that are spent

    A refresh token that is not on file and that no later draw of a uuid can make is
    spent: whatever requests the hub serves afterwards, of whomever and with whatever
    answers, it does not come on file again.  The property is closed under the
    combinators of [Hub], so it is shown by a walk over all the handlers; unlike the
    invariant of [HubInv] it needs no condition on the requests. *)

From stdpp Require Import prelude strings gmap.
From S2P Require Import Prelude Extern AppError Domain Records Store TokenStore Hub HubAdmin HubNodes HubOps HubReleases SiteConfig HubSites HubDns HubCerts Http.

Section Spent.
Context {T : Type} `{EX : !Extern, DX : !DnsExtern, HX : !HttpExtern, NT : !NodeTokenStore T}.
Context `{EL : !ExternLaws, TL : !TokenLaws T}.
Context (tok : string).
Implicit Types w : World T.

Record spent w : Prop := {
  spent_tokens : tokens_ok (tokens w);
  spent_off : refresh_lease (tokens w) tok = None;
  spent_access : ∀ i, rng_next w ≤ i → access_lease (tokens w) (access_token_of (rng i)) = None;
  spent_refresh : ∀ i, rng_next w ≤ i → refresh_lease (tokens w) (refresh_token_of (rng i)) = None;
  spent_fresh : ∀ i, rng_next w ≤ i → refresh_token_of (rng i) ≠ tok;
}.

(** A step after which a spent token is still spent, also when it fails. *)
Definition keeps_spent {A} (m : Hub T A) : Prop := ∀ w, spent w → spent (m w).2.

Lemma spent_same w w' : tokens w' = tokens w → rng_next w ≤ rng_next w' → spent w → spent w'.
Proof.
  intros Ht Hn [Hok Ho Ha Hr Hf].
  split; rewrite ?Ht; [done|done|intros i Hi; apply Ha|intros i Hi; apply Hr|intros i Hi; apply Hf]; lia.
Qed.

Lemma spent_bind {A B} (m : Hub T A) (k : A → Hub T B) :
  keeps_spent m → (∀ a, keeps_spent (k a)) → keeps_spent (bind m k).
Proof.
  intros Hm Hk w Hw. specialize (Hm w Hw). unfold bind. destruct (m w) as [[a|e] w1]; [|done].
  by apply Hk.
Qed.

(** A step that leaves the tokens alone. *)
Lemma spent_plain {A} (m : Hub T A) :
  (∀ w, tokens (m w).2 = tokens w ∧ rng_next w ≤ rng_next (m w).2) → keeps_spent m.
Proof. intros H w. destruct (H w). by apply spent_same. Qed.

Lemma spent_ret {A} (a : A) : keeps_spent (ret a).
Proof. by apply spent_plain. Qed.
Lemma spent_fail {A} e : keeps_spent (fail (A := A) e).
Proof. by apply spent_plain. Qed.
Lemma spent_lift {A} (x : Fallible A) : keeps_spent (lift x).
Proof. by apply spent_plain. Qed.
Lemma spent_get_or {A} (o : option A) e : keeps_spent (get_or o e).
Proof. by apply spent_plain. Qed.
Lemma spent_require b e : keeps_spent (require b e).
Proof. apply spent_plain. by destruct b. Qed.
Lemma spent_read {A} (f : MemoryState → A) : keeps_spent (read f).
Proof. by apply spent_plain. Qed.
Lemma spent_read_tokens {A} (f : T → A) : keeps_spent (read_tokens f).
Proof. by apply spent_plain. Qed.
Lemma spent_write f : keeps_spent (write f).
Proof. by apply spent_plain. Qed.
Lemma spent_utc_now : keeps_spent utc_now.
Proof. by apply spent_plain. Qed.
Lemma spent_new_v4 : keeps_spent new_v4.
Proof. apply spent_plain. intros w. split; [done|]. simpl. lia. Qed.
Lemma spent_next_serial : keeps_spent next_serial.
Proof. by apply spent_plain. Qed.
Lemma spent_ask_provider config names : keeps_spent (ask_provider config names).
Proof. by apply spent_plain. Qed.
Lemma spent_claim n : keeps_spent (repo_claim n).
Proof.
  apply spent_plain. intros w. unfold repo_claim. destruct (claim_next_node_operation _ _ _).
  simpl. by case_decide.
Qed.

(** The two steps that change the tokens. *)
Lemma spent_issue n : keeps_spent (issue_node_tokens n).
Proof.
  intros w [Hok Ho Ha Hr Hf].
  unfold issue_node_tokens, bind, new_v4, utc_now, write_tokens. simpl.
  set (a := access_token_of (rng (rng_next w))). set (r := refresh_token_of (rng (S (rng_next w)))).
  set (e := (_ + hours 24)%Z). rewrite (surjective_pairing (issue_tokens n a r e (tokens w))). simpl.
  assert (access_lease (tokens w) a = None) as Hna by (apply Ha; lia).
  assert (refresh_lease (tokens w) r = None) as Hnr by (apply Hr; lia).
  split; simpl.
  - by apply issue_ok.
  - rewrite issue_refresh by done. rewrite decide_False; [by apply drop_node_fresh|].
    intros Heq. apply (Hf (S (rng_next w))); [lia|done].
  - intros i Hi. rewrite issue_access by done.
    rewrite decide_False; [apply drop_node_fresh, Ha; lia|]. intros Heq%access_token_of_inj%rng_inj. lia.
  - intros i Hi. rewrite issue_refresh by done.
    rewrite decide_False; [apply drop_node_fresh, Hr; lia|]. intros Heq%refresh_token_of_inj%rng_inj. lia.
  - intros i Hi. apply Hf. lia.
Qed.

Lemma spent_revoke n : keeps_spent (write_tokens (λ t, (tt, revoke_tokens n t))).
Proof.
  intros w [Hok Ho Ha Hr Hf]. split; simpl.
  - by apply revoke_ok.
  - rewrite revoke_refresh by done. by apply drop_node_fresh.
  - intros i Hi. rewrite revoke_access by done. by apply drop_node_fresh, Ha.
  - intros i Hi. rewrite revoke_refresh by done. by apply drop_node_fresh, Hr.
  - done.
Qed.
End Spent.

Create HintDb spent discriminated.
#[export] Hint Resolve spent_ret spent_fail spent_lift spent_get_or spent_require spent_read
  spent_read_tokens spent_write spent_utc_now spent_new_v4 spent_next_serial spent_ask_provider
  spent_claim spent_revoke : spent.

(** Walks a handler: binds and branches are split, a call is a known step or is
    opened. *)
Ltac head_of t := lazymatch t with ?f _ => head_of f | _ => t end.
Ltac spent_step :=
  lazymatch goal with
  | |- ∀ _, _ => intros ?
  | |- keeps_spent _ (bind _ _) => apply spent_bind
  | |- keeps_spent _ (match ?x with _ => _ end) => destruct x
  | |- keeps_spent _ ?m =>
      first [solve [auto 1 with spent] | apply spent_issue | by apply spent_plain | let h := head_of m in unfold h; cbv beta zeta]
  end.
Ltac spent_walk := repeat spent_step.

Section Loops.
Context {T : Type} `{EX : !Extern, DX : !DnsExtern, HX : !HttpExtern, NT : !NodeTokenStore T}.
Context `{EL : !ExternLaws, TL : !TokenLaws T}.
Context (tok : string).

Lemma spent_sync_zones pid infos zids : keeps_spent (T := T) tok (sync_zones pid infos zids).
Proof.
  revert zids. induction infos as [|info infos IH]; intros zids; simpl; [apply spent_ret|].
  repeat first [apply IH | spent_step].
Qed.

Lemma spent_operation_overviews ops : keeps_spent (T := T) tok (operation_overviews ops).
Proof.
  induction ops as [|o ops IH]; simpl; [apply spent_ret|]. repeat first [apply IH | spent_step].
Qed.

Lemma spent_check_nodes bs : keeps_spent (T := T) tok (check_nodes_exist bs).
Proof.
  induction bs as [|b bs IH]; simpl; [apply spent_ret|]. repeat first [apply IH | spent_step].
Qed.

Lemma spent_session_is_ok token : keeps_spent (T := T) tok (session_is_ok token).
Proof.
  assert (keeps_spent (T := T) tok (authorize_admin_session token)) as H by spent_walk.
  intros w Hw. specialize (H w Hw). unfold session_is_ok.
  by destruct (authorize_admin_session token w) as [[]].
Qed.
End Loops.

#[export] Hint Resolve spent_session_is_ok spent_sync_zones spent_operation_overviews spent_check_nodes : spent.

(** ** Requests *)

Section Later.
Context {T : Type} `{EX : !Extern, DX : !DnsExtern, HX : !HttpExtern, NT : !NodeTokenStore T}.
Context `{EL : !ExternLaws, TL : !TokenLaws T}.
Context (config : HubConfig).
Implicit Types w : World T.

Lemma spent_answer tok m w : keeps_spent tok m → spent tok w → spent tok (answer m w).2.
Proof.
  intros Hm Hw. specialize (Hm w Hw). unfold answer. destruct (m w) as [[r|e] w']; [done|].
  destruct (into_response _ _) as [st env]. simpl. eapply (spent_same tok w'); [done|simpl; lia|done].
Qed.

Lemma spent_json {A} tok (inject : A → Payload) m w :
  keeps_spent tok m → spent tok w → spent tok (json inject m w).2.
Proof. intros Hm. apply spent_answer, spent_bind; [done|]. intros a. apply spent_ret. Qed.

Lemma serve_keeps_spent tok endpoint req w :
  spent tok w → spent tok (serve config endpoint req w).2.
Proof.
  intros Hw. destruct endpoint; unfold serve, with_uuid, with_path, with_query, with_json, reject, page;
    repeat case_match; try exact Hw;
    (first [apply spent_json | apply spent_answer]); try exact Hw.
  all: spent_walk.
Qed.

Lemma ensure_admin_user_keeps_spent tok name display pw :
  keeps_spent (T := T) tok (ensure_admin_user name display pw).
Proof. spent_walk. Qed.

(** The states of a hub after any number of further requests. *)
Inductive hub_later w : World T → Prop :=
  | later_now : hub_later w w
  | later_seed name display pw w' :
      hub_later w w' → hub_later w (ensure_admin_user name display pw w').2
  | later_serve endpoint req w' :
      hub_later w w' → hub_later w (serve config endpoint req w').2.

Lemma later_spent tok w w' : hub_later w w' → spent tok w → spent tok w'.
Proof.
  intros H Hw. induction H as [|name display pw w' _ IH|endpoint req w' _ IH]; [done|..].
  - by apply ensure_admin_user_keeps_spent.
  - by apply serve_keeps_spent.
Qed.
End Later.
