(* ===== verification/DnsWorker.v ===== *)
(** * The DNS worker (apps/dns-worker)

    The worker that carries certificate orders from the DNS challenge to the
    issued certificate, on the tables of the schema ([Sql]; columns that nothing
    reads, such as [updated_at], are left out).  Of the constraints of the schema
    the tables keep the primary keys and the unique indexes; the foreign keys of the
    migrations are left out, so the theorems also speak of tables a foreign key
    would not allow, and a statement refused for one is a statement that fails (any
    statement may).  The functions on names ([certificate_dns_domain], [dns01_record_name],
    [domain_matches_zone]) are line for line those of the hub, in [HubCerts]. *)

From stdpp Require Import prelude strings pretty gmap sorting.
From Stdlib Require Import Ascii.
From S2P Require Import Prelude RustStr Json Extern HubDns HubCerts DnsProvider Io Sql.

(** ** Data *)

Definition ACTIVE_RENEWAL_ORDER_STATUSES : list string :=
  ["pending_dns_challenge"; "dns_challenge_presenting"; "dns_challenge_presented"; "issuing"].

Definition is_active_renewal_order_status (status : string) : bool :=
  bool_decide (status ∈ ACTIVE_RENEWAL_ORDER_STATUSES).

Record QueuedDnsChallengeOrder := mkJob {
  job_order_id : Uuid;
  job_site_id : option Uuid;
  job_certificate_id : Uuid;
  job_order_type : string;
  job_acme_provider : string;
  job_provider_type : string;
  job_api_endpoint : option string;
  job_credentials : string;
  job_zone_name : string;
  job_external_zone_id : string;
  job_challenge_payload : Value;
  job_common_name : string;
  job_sans : list string;
}.

(** A struct of the same fields. *)
Definition QueuedCertificateIssuanceOrder : Type := QueuedDnsChallengeOrder.

Record PreparedDns01Challenge := mkPrepared { prepared_payload : Value }.

Record IssuedCertificateMaterial := mkMaterial {
  issuer : string;
  not_before : DateTime;
  not_after : DateTime;
  cert_pem : string;
  key_pem_encrypted : string;
  chain_pem : option string;
  fingerprint_sha256 : string;
}.

Record PersistIssuedCertificateRequest := mkPersist {
  ps_order_id : Uuid;
  ps_site_id : option Uuid;
  ps_certificate_id : Uuid;
  ps_order_type : string;
  warning_message : option string;
  material : IssuedCertificateMaterial;
}.

(** ** Tables *)

Record OrderRow := mkOrderRow {
  o_site_id : option Uuid;
  o_certificate_id : option Uuid;
  o_zone_id : option Uuid;
  o_order_type : string;
  o_acme_provider : string;
  o_challenge_type : string;
  o_challenge_payload : Value;
  o_status : string;
  o_error : option string;
  o_created_at : DateTime;
}.

Definition set_o_status (status : string) (error : option string) (o : OrderRow) : OrderRow :=
  mkOrderRow (o_site_id o) (o_certificate_id o) (o_zone_id o) (o_order_type o) (o_acme_provider o)
    (o_challenge_type o) (o_challenge_payload o) status error (o_created_at o).
Definition set_o_payload (payload : Value) (o : OrderRow) : OrderRow :=
  mkOrderRow (o_site_id o) (o_certificate_id o) (o_zone_id o) (o_order_type o) (o_acme_provider o)
    (o_challenge_type o) payload (o_status o) (o_error o) (o_created_at o).

Record CertificateRow := mkCertRow {
  c_common_name : string;
  c_sans : Value;
  c_issuer : option string;
  c_not_before : option DateTime;
  c_not_after : option DateTime;
  c_fingerprint : string;
  c_status : string;
}.

Record VersionRow := mkVersionRow {
  v_certificate_id : Uuid;
  v_version : Z;
  v_cert_pem : string;
  v_key_pem_encrypted : string;
  v_chain_pem : option string;
}.

Record BindingRow := mkBindingRow {
  b_site_id : Uuid;
  b_certificate_id : Uuid;
  b_version : Z;
  b_is_default : bool;
}.

Definition set_b_default (v : bool) (b : BindingRow) : BindingRow :=
  mkBindingRow (b_site_id b) (b_certificate_id b) (b_version b) v.

Record ZoneRow := mkZoneRow {
  z_provider_id : Uuid;
  z_zone_name : string;
  z_external_zone_id : string;
  z_status : string;
}.

Record ProviderRow := mkProviderRow {
  p_provider_type : string;
  p_api_endpoint : option string;
  p_credential_encrypted : string;
}.

Record Tables := mkTables {
  certificate_orders : gmap Uuid OrderRow;
  certificates : gmap Uuid CertificateRow;
  certificate_versions : gmap Uuid VersionRow;
  site_cert_bindings : gmap Uuid BindingRow;
  dns_zones : gmap Uuid ZoneRow;
  dns_providers : gmap Uuid ProviderRow;
}.

Definition set_orders (t : gmap Uuid OrderRow) (d : Tables) : Tables :=
  mkTables t (certificates d) (certificate_versions d) (site_cert_bindings d) (dns_zones d)
    (dns_providers d).
Definition set_certificates (t : gmap Uuid CertificateRow) (d : Tables) : Tables :=
  mkTables (certificate_orders d) t (certificate_versions d) (site_cert_bindings d) (dns_zones d)
    (dns_providers d).
Definition set_versions (t : gmap Uuid VersionRow) (d : Tables) : Tables :=
  mkTables (certificate_orders d) (certificates d) t (site_cert_bindings d) (dns_zones d)
    (dns_providers d).
Definition set_bindings (t : gmap Uuid BindingRow) (d : Tables) : Tables :=
  mkTables (certificate_orders d) (certificates d) (certificate_versions d) t (dns_zones d)
    (dns_providers d).

(** ** The unique indexes (migrations 0001 and 0005) *)

(** An order the index [idx_certificate_orders_one_active_renew] covers. *)
Definition active_renewal (o : OrderRow) : Prop :=
  is_Some (o_certificate_id o) ∧ o_order_type o = "renew"
  ∧ o_status o ∈ ACTIVE_RENEWAL_ORDER_STATUSES.
#[export] Instance active_renewal_dec o : Decision (active_renewal o).
Proof. unfold active_renewal. apply _. Defined.

Definition one_active_renewal (t : gmap Uuid OrderRow) : Prop :=
  map_Forall (λ u o, active_renewal o →
    map_Forall (λ u' o', active_renewal o' → o_certificate_id o' = o_certificate_id o → u' = u) t) t.

(** [UNIQUE (certificate_id, version)]. *)
Definition versions_distinct (t : gmap Uuid VersionRow) : Prop :=
  map_Forall (λ u v, map_Forall (λ u' v',
    v_certificate_id v' = v_certificate_id v → v_version v' = v_version v → u' = u) t) t.

(** [fingerprint_sha256 ... UNIQUE]. *)
Definition fingerprints_distinct (t : gmap Uuid CertificateRow) : Prop :=
  map_Forall (λ u c, map_Forall (λ u' c', c_fingerprint c' = c_fingerprint c → u' = u) t) t.

Record indexes_ok (d : Tables) : Prop := {
  index_renewals : one_active_renewal (certificate_orders d);
  index_versions : versions_distinct (certificate_versions d);
  index_fingerprints : fingerprints_distinct (certificates d);
}.

#[export] Instance one_active_renewal_dec t : Decision (one_active_renewal t).
Proof. unfold one_active_renewal. apply _. Defined.
#[export] Instance versions_distinct_dec t : Decision (versions_distinct t).
Proof. unfold versions_distinct. apply _. Defined.
#[export] Instance fingerprints_distinct_dec t : Decision (fingerprints_distinct t).
Proof. unfold fingerprints_distinct. apply _. Defined.
#[export] Instance indexes_ok_dec d : Decision (indexes_ok d).
Proof.
  refine (cast_if (decide (one_active_renewal (certificate_orders d)
    ∧ versions_distinct (certificate_versions d) ∧ fingerprints_distinct (certificates d))));
    [by destruct a as (? & ? & ?)|abstract (intros []; tauto)].
Defined.

#[export] Instance tables_schema : Schema Tables := {| schema_ok := indexes_ok |}.

(** ** Statements *)

(** The environment of the worker: the database, the [base64] crate and [chrono]'s
    [to_rfc3339]. *)
Class WorkerExtern := {
  worker_db :: DbExtern;
  base64_standard : string → string;
  to_rfc3339 : DateTime → string;
}.

Abbreviation WorkerState N := (Db Tables N).

Section Statements.
Context {N : Type} `{EX : !Extern, WX : !WorkerExtern}.

(** ** Claiming orders *)

Record ClaimRow := mkClaimRow {
  row_order_id : Uuid;
  row_order : OrderRow;
  row_certificate_id : Uuid;
  row_zone : ZoneRow;
  row_provider : ProviderRow;
  row_certificate : CertificateRow;
}.

(** The inner joins and the conditions of the [SELECT]. *)
Definition claim_row (d : Tables) (status : string) (entry : Uuid * OrderRow) : option ClaimRow :=
  let '(u, o) := entry in
  if decide (o_status o = status ∧ o_challenge_type o = "dns-01") then
    zone_id ← o_zone_id o;
    z ← dns_zones d !! zone_id;
    p ← dns_providers d !! z_provider_id z;
    certificate_id ← o_certificate_id o;
    c ← certificates d !! certificate_id;
    Some (mkClaimRow u o certificate_id z p c)
  else None.

Definition select_orders (status : string) (limit : Z) (d : Tables) : list ClaimRow :=
  take (sql_limit limit)
    (sort_by (cmp_on (λ r, o_created_at (row_order r)) Z.compare)
       (filter_map (claim_row d status) (entries (certificate_orders d)))).

(** [serde_json::from_value::<Vec<String>>]. *)
Definition value_strings (v : Value) : option (list string) :=
  l ← as_array v; mapM as_str l.

Definition update_order (u : Uuid) (f : OrderRow → OrderRow) : Io (WorkerState N) unit :=
  execute (λ d, set_orders (alter f u (certificate_orders d)) d).

Definition job_of (r : ClaimRow) (sans : list string) : QueuedDnsChallengeOrder :=
  mkJob (row_order_id r) (o_site_id (row_order r)) (row_certificate_id r)
    (o_order_type (row_order r)) (o_acme_provider (row_order r))
    (p_provider_type (row_provider r)) (p_api_endpoint (row_provider r))
    (p_credential_encrypted (row_provider r)) (z_zone_name (row_zone r))
    (z_external_zone_id (row_zone r)) (o_challenge_payload (row_order r))
    (c_common_name (row_certificate r)) sans.

Fixpoint claim_rows (status : string) (rows : list ClaimRow) (jobs : list QueuedDnsChallengeOrder) :
    Io (WorkerState N) (list QueuedDnsChallengeOrder) :=
  match rows with
  | [] => ret jobs
  | row :: rows' =>
      do! update_order (row_order_id row) (set_o_status status None) in
      let! sans := lift (ok_or (value_strings (c_sans (row_certificate row)))
                           "failed to decode certificate sans json") in
      claim_rows status rows' (jobs ++ [job_of row sans])
  end.

Definition claim_orders (from to : string) (limit : Z) :
    Io (WorkerState N) (list QueuedDnsChallengeOrder) :=
  transaction (let! rows := query (select_orders from limit) in claim_rows to rows []).

Definition claim_pending_dns_orders (limit : Z) :
    Io (WorkerState N) (list QueuedDnsChallengeOrder) :=
  claim_orders "pending_dns_challenge" "dns_challenge_presenting" limit.

Definition claim_ready_issuance_orders (limit : Z) :
    Io (WorkerState N) (list QueuedCertificateIssuanceOrder) :=
  claim_orders "dns_challenge_presented" "issuing" limit.

(** ** Updates *)

Definition update_order_challenge_payload (u : Uuid) (payload : Value) : Io (WorkerState N) unit :=
  update_order u (set_o_payload payload).

Definition update_order_status (u : Uuid) (status : string) (error_message : option string) :
    Io (WorkerState N) unit :=
  update_order u (set_o_status status error_message).

(** [SELECT COALESCE(MAX(version), 0) + 1], and the error of the addition beyond
    the 32 bits of the column. *)
Definition coalesce_max (l : list Z) : Z :=
  match l with [] => 0 | v :: l' => foldr Z.max v l' end.

Definition next_version (u : Uuid) (d : Tables) : Z :=
  (coalesce_max (v_version <$> filter (λ v, v_certificate_id v = u)
                                 (values (certificate_versions d))) + 1)%Z.

Definition query_next_version (u : Uuid) : Io (WorkerState N) Z :=
  let! version := query (next_version u) in
  do! require (version <=? i32_max)%Z "integer out of range" in
  ret version.

Definition issue_row (m : IssuedCertificateMaterial) (c : CertificateRow) : CertificateRow :=
  mkCertRow (c_common_name c) (c_sans c) (Some (issuer m)) (Some (not_before m)) (Some (not_after m))
    (fingerprint_sha256 m) "active".

(** [SELECT DISTINCT site_id ... WHERE certificate_id = $1 AND is_default]. *)
Definition default_sites (u : Uuid) (d : Tables) : list Uuid :=
  set_values (list_to_set (b_site_id <$> filter (λ b, b_certificate_id b = u ∧ b_is_default b = true)
                                          (values (site_cert_bindings d))) : gset Uuid).

Fixpoint bind_sites (certificate_id : Uuid) (version : Z) (site_ids : list Uuid) :
    Io (WorkerState N) unit :=
  match site_ids with
  | [] => ret tt
  | site_id :: site_ids' =>
      do! execute (λ d, set_bindings
            ((λ b, if decide (b_site_id b = site_id) then set_b_default false b else b)
             <$> site_cert_bindings d) d) in
      let! binding_id := with_env new_v4 in
      do! insert_row site_cert_bindings set_bindings binding_id
            (mkBindingRow site_id certificate_id version true) in
      bind_sites certificate_id version site_ids'
  end.

Definition persist_issued_certificate (request : PersistIssuedCertificateRequest) :
    Io (WorkerState N) unit :=
  let cid := ps_certificate_id request in
  let m := material request in
  transaction (
    let! version := query_next_version cid in
    do! execute (λ d, set_certificates (alter (issue_row m) cid (certificates d)) d) in
    let! version_id := with_env new_v4 in
    do! insert_row certificate_versions set_versions version_id
          (mkVersionRow cid version (cert_pem m) (key_pem_encrypted m) (chain_pem m)) in
    let! target_site_ids :=
      match ps_site_id request with
      | Some site_id => ret [site_id]
      | None =>
          if decide (ps_order_type request = "renew") then query (default_sites cid) else ret []
      end in
    do! bind_sites cid version target_site_ids in
    update_order (ps_order_id request) (set_o_status "issued" (warning_message request))).

(** ** Renewals that are due *)

Definition renewal_of (u : Uuid) (o : OrderRow) : Prop :=
  o_certificate_id o = Some u ∧ o_order_type o = "renew"
  ∧ o_status o ∈ ACTIVE_RENEWAL_ORDER_STATUSES.
#[export] Instance renewal_of_dec u o : Decision (renewal_of u o).
Proof. unfold renewal_of. apply _. Defined.

Definition renewal_due (d : Tables) (threshold : DateTime) (entry : Uuid * CertificateRow) : Prop :=
  c_status entry.2 = "active"
  ∧ (∃ t, c_not_after entry.2 = Some t ∧ (t ≤ threshold)%Z)
  ∧ map_Forall (λ _ o, ¬ renewal_of entry.1 o) (certificate_orders d).
#[export] Instance renewal_due_dec d t e : Decision (renewal_due d t e).
Proof.
  unfold renewal_due. apply and_dec; [apply _|]. apply and_dec; [|apply _].
  destruct (c_not_after e.2) as [x|]; [|right; abstract (by intros (? & ? & _))].
  refine (cast_if (decide (x ≤ t)%Z)); [by exists x|abstract (naive_solver lia)].
Defined.

(** [ORDER BY not_after]; the rows selected have one. *)
Definition select_due (threshold : DateTime) (limit : Z) (d : Tables) : list (Uuid * CertificateRow) :=
  take (sql_limit limit)
    (sort_by (cmp_on (λ e, default 0%Z (c_not_after e.2)) Z.compare)
       (filter (renewal_due d threshold) (entries (certificates d)))).

Definition active_zones (d : Tables) : list (Uuid * ZoneRow) :=
  filter (λ e, z_status e.2 = "active") (entries (dns_zones d)).

Definition serving_zone (common_name : string) (zones : list (Uuid * ZoneRow)) :
    option (Uuid * ZoneRow) :=
  max_by (cmp_on (λ e, String.length (z_zone_name e.2)) Nat.compare)
    (filter (λ e, domain_matches_zone common_name (z_zone_name e.2) = true) zones).

(** [INSERT ... ON CONFLICT DO NOTHING]: the number of rows inserted. *)
Definition insert_order (u : Uuid) (o : OrderRow) : Io (WorkerState N) nat := λ s,
  let s' d := mkDb d (S (statement s)) (env s) in
  let d := set_orders (<[u := o]> (certificate_orders (db s))) (db s) in
  match db_error (statement s) with
  | Some e => (Err e, s' (db s))
  | None =>
      if decide (certificate_orders (db s) !! u = None ∧ indexes_ok d)
      then (Ok 1, s' d) else (Ok 0, s' (db s))
  end.

Definition renewal_payload (z : ZoneRow) (common_name : string) (sans : list string) (token : Uuid) :
    Value :=
  jobj [("zone_name", VString (z_zone_name z)); ("identifier", VString common_name);
        ("sans", VArray (VString <$> sans));
        ("record_name", VString (dns01_record_name common_name)); ("record_type", VString "TXT");
        ("record_value", VString ("token-" +:+ uuid_to_string token)); ("ttl", jint 60);
        ("auto_renew", VBool true)].

Fixpoint enqueue_renewals (zones : list (Uuid * ZoneRow)) (acme_provider : string)
    (certs : list (Uuid * CertificateRow)) (created : nat) : Io (WorkerState N) nat :=
  match certs with
  | [] => ret created
  | (certificate_id, c) :: certs' =>
      let! sans := lift (ok_or (value_strings (c_sans c)) "failed to decode certificate sans json") in
      match serving_zone (c_common_name c) zones with
      | None => enqueue_renewals zones acme_provider certs' created
      | Some (zone_id, z) =>
          let! token := with_env new_v4 in
          let! order_id := with_env new_v4 in
          let! now := with_env utc_now in
          let! inserted := insert_order order_id
            (mkOrderRow None (Some certificate_id) (Some zone_id) "renew" acme_provider "dns-01"
               (renewal_payload z (c_common_name c) sans token) "pending_dns_challenge" None now) in
          enqueue_renewals zones acme_provider certs' (created + inserted)
      end
  end.

Definition enqueue_due_renewal_orders (now renew_before : DateTime) (limit : Z)
    (acme_provider : string) : Io (WorkerState N) nat :=
  let threshold := (now + renew_before)%Z in
  let! certs := query (select_due threshold limit) in
  if decide (certs = []) then ret 0
  else
    let! zones := query active_zones in
    enqueue_renewals zones acme_provider certs 0.
End Statements.

(** ** Challenges *)

Definition payload_str (payload : Value) (key : string) : Result string string :=
  match get_str payload key with
  | Some value => if is_empty (trim value) then Err ("challenge payload missing " +:+ key) else Ok value
  | None => Err ("challenge payload missing " +:+ key)
  end.

Definition has_prepared_dns_payload (payload : Value) : bool :=
  forallb (λ key, bool_decide (is_Some (get_str payload key)))
    ["record_name"; "record_value"; "challenge_url"; "authorization_url"; "order_url"; "finalize_url"].

(** The loop of [unique_identifiers]. *)
Fixpoint unique_identifiers_loop (values : list string) (seen : gset string)
    (identifiers : list string) : list string :=
  match values with
  | [] => identifiers
  | value :: values' =>
      if is_empty (trim value) then unique_identifiers_loop values' seen identifiers
      else if decide (value ∈ seen) then unique_identifiers_loop values' seen identifiers
      else unique_identifiers_loop values' ({[ value ]} ∪ seen) (identifiers ++ [value])
  end.

Definition unique_identifiers (common_name : string) (sans : list string) : list string :=
  unique_identifiers_loop (common_name :: sans) ∅ [].

Record CertificateChallengePayload := mkChallengePayload {
  cc_zone_name : option string;
  cc_record_name : option string;
  cc_record_type : option string;
  cc_record_value : option string;
  cc_ttl : option Z;
}.

(** The [Deserialize] of the struct: an [Option] field may be absent or null;
    an array of the five fields is read too. *)
Definition opt_str (v : Value) : option (option string) :=
  match v with VNull => Some None | VString s => Some (Some s) | _ => None end.
Definition opt_u32 (v : Value) : option (option Z) :=
  match v with
  | VNull => Some None
  | VNumber (PosInt n) => if (n <=? u32_max)%Z then Some (Some n) else None
  | _ => None
  end.
Definition field {A} (dec : Value → option (option A)) (m : Map) (key : string) : option (option A) :=
  match map_get m key with None => Some None | Some v => dec v end.

Definition decode_challenge_payload (v : Value) : option CertificateChallengePayload :=
  match v with
  | VObject m =>
      zone_name ← field opt_str m "zone_name";
      record_name ← field opt_str m "record_name";
      record_type ← field opt_str m "record_type";
      record_value ← field opt_str m "record_value";
      ttl ← field opt_u32 m "ttl";
      Some (mkChallengePayload zone_name record_name record_type record_value ttl)
  | VArray [v1; v2; v3; v4; v5] =>
      zone_name ← opt_str v1;
      record_name ← opt_str v2;
      record_type ← opt_str v3;
      record_value ← opt_str v4;
      ttl ← opt_u32 v5;
      Some (mkChallengePayload zone_name record_name record_type record_value ttl)
  | _ => None
  end.

(** [.filter(|value| !value.trim().is_empty())]. *)
Definition nonblank (o : option string) : option string :=
  v ← o; if is_empty (trim v) then None else Some v.

Definition challenge_from_payload `{!Extern} (order_id : Uuid) (zone_name external_zone_id : string)
    (payload : Value) : Result AcmeChallenge string :=
  let? payload := ok_or (decode_challenge_payload payload)
    ("invalid challenge payload for order " +:+ uuid_to_string order_id) in
  let record_type := to_ascii_uppercase (default "TXT" (cc_record_type payload)) in
  if decide (record_type ≠ "TXT")
  then Err ("unsupported dns challenge record type: " +:+ record_type)
  else
    let? name := ok_or (nonblank (cc_record_name payload))
      "challenge payload record_name is required" in
    let? value := ok_or (nonblank (cc_record_value payload))
      "challenge payload record_value is required" in
    Ok (mkChallenge (Some external_zone_id) (default zone_name (cc_zone_name payload)) name value
          (default 60%Z (cc_ttl payload))).

Definition provider_from_config `{!Extern, !DnsExtern} (provider_type : string)
    (api_endpoint : option string) (credentials : string) (order_id : Uuid) : Result Provider string :=
  let? credentials := map_err
    (λ _, "invalid dns provider credentials for order " +:+ uuid_to_string order_id)
    (json_from_str credentials) in
  build_provider (mkProviderConfig provider_type api_endpoint credentials).

(** ** The ACME client *)

Class AcmeClient (N : Type) := {
  prepare_dns01_challenge : QueuedDnsChallengeOrder → Io (Env N) PreparedDns01Challenge;
  acknowledge_dns01_challenge : Value → Io (Env N) unit;
  finalize_dns01_order : QueuedCertificateIssuanceOrder → Io (Env N) IssuedCertificateMaterial;
}.

(** [encoded.as_bytes().chunks(64)], each chunk on a line; the encoded text is
    ASCII, so that the chunks are UTF-8. *)
Fixpoint pem_lines (fuel : nat) (encoded : list ascii) : string :=
  match fuel, encoded with
  | S fuel, _ :: _ =>
      of_bytes (take 64 encoded) +:+ String "010" "" +:+ pem_lines fuel (drop 64 encoded)
  | _, _ => ""
  end.

Section Mock.
Context {N : Type} `{EX : !Extern, WX : !WorkerExtern}.

Definition to_mock_pem_block (label payload : string) : string :=
  let encoded := bytes (base64_standard payload) in
  let newline := String "010" "" in
  "-----BEGIN " +:+ label +:+ "-----" +:+ newline +:+ pem_lines (length encoded) encoded
  +:+ "-----END " +:+ label +:+ "-----" +:+ newline.

Definition mock_prepare (order : QueuedDnsChallengeOrder) : Io (Env N) PreparedDns01Challenge :=
  if has_prepared_dns_payload (job_challenge_payload order)
  then ret (mkPrepared (job_challenge_payload order))
  else
    let! token := new_v4 in
    ret (mkPrepared (jobj
      [("zone_name", VString (job_zone_name order)); ("identifier", VString (job_common_name order));
       ("record_name", VString (dns01_record_name (job_common_name order)));
       ("record_type", VString "TXT");
       ("record_value", VString ("token-" +:+ uuid_to_string token)); ("ttl", jint 60)])).

Definition mock_finalize (order : QueuedCertificateIssuanceOrder) :
    Io (Env N) IssuedCertificateMaterial :=
  let! issued_at := utc_now in
  let newline := String "010" "" in
  let sans := if decide (job_sans order = []) then [job_common_name order] else job_sans order in
  let issuer := "PingoraHub Mock ACME (" +:+ job_acme_provider order +:+ ")" in
  let certificate_payload :=
    "mock-certificate" +:+ newline +:+ "order_id=" +:+ uuid_to_string (job_order_id order)
    +:+ newline +:+ "site_id="
    +:+ match job_site_id order with Some u => uuid_to_string u | None => "standalone" end
    +:+ newline +:+ "common_name=" +:+ job_common_name order
    +:+ newline +:+ "sans=" +:+ join "," sans +:+ newline +:+ "issuer=" +:+ issuer
    +:+ newline +:+ "issued_at=" +:+ to_rfc3339 issued_at in
  let private_key_payload :=
    "mock-private-key" +:+ newline +:+ "order_id=" +:+ uuid_to_string (job_order_id order)
    +:+ newline +:+ "issued_at=" +:+ to_rfc3339 issued_at in
  let chain_payload :=
    "mock-chain" +:+ newline +:+ "provider=" +:+ job_acme_provider order
    +:+ newline +:+ "common_name=" +:+ job_common_name order in
  let cert := to_mock_pem_block "CERTIFICATE" certificate_payload in
  ret (mkMaterial issuer (issued_at - minutes 5)%Z (issued_at + days 90)%Z cert
         (to_mock_pem_block "ENCRYPTED PRIVATE KEY" private_key_payload)
         (Some (to_mock_pem_block "CERTIFICATE" chain_payload)) (sha256_hex cert)).

Definition MockAcmeClient : AcmeClient N := {|
  prepare_dns01_challenge := mock_prepare;
  acknowledge_dns01_challenge _ := ret tt;
  finalize_dns01_order := mock_finalize;
|}.
End Mock.

(** ** The store of certificate orders *)

(** The trait [CertificateOrderStore], for a program whose state holds the store and the
    environment the rest of the pass runs in. *)
Class CertificateOrderStore (N S : Type) := {
  beside_store : ∀ {A}, Io (Env N) A → Io S A;
  store_claim_pending : Z → Io S (list QueuedDnsChallengeOrder);
  store_update_challenge_payload : Uuid → Value → Io S unit;
  store_claim_ready : Z → Io S (list QueuedCertificateIssuanceOrder);
  store_update_status : Uuid → string → option string → Io S unit;
  store_persist_issued : PersistIssuedCertificateRequest → Io S unit;
}.

(** [impl CertificateOrderStore for PostgresCertificateOrderStore]. *)
Definition PostgresCertificateOrderStore {N} `{EX : !Extern, WX : !WorkerExtern} :
    CertificateOrderStore N (WorkerState N) := {|
  beside_store A m := with_env m;
  store_claim_pending := claim_pending_dns_orders;
  store_update_challenge_payload := update_order_challenge_payload;
  store_claim_ready := claim_ready_issuance_orders;
  store_update_status := update_order_status;
  store_persist_issued := persist_issued_certificate;
|}.
#[export] Existing Instance PostgresCertificateOrderStore.

(** ** Passes *)

Section Passes.
Context {N : Type} `{EX : !Extern, DX : !DnsExtern, WX : !WorkerExtern}.
Context `{ST : !StatusText, DN : !DnsNet N, AC : !AcmeClient N}.

Definition on_net {A} (m : Io N A) : Io (Env N) A := zoom env_net set_env_net m.

Definition process_dns_challenge (job : QueuedDnsChallengeOrder) : Io (Env N) PreparedDns01Challenge :=
  let! prepared := prepare_dns01_challenge job in
  let! provider := lift (provider_from_config (job_provider_type job) (job_api_endpoint job)
                           (job_credentials job) (job_order_id job)) in
  let! challenge := lift (challenge_from_payload (job_order_id job) (job_zone_name job)
                            (job_external_zone_id job) (prepared_payload prepared)) in
  do! on_net (present_dns01_challenge provider challenge) in
  do! acknowledge_dns01_challenge (prepared_payload prepared) in
  ret prepared.

Definition finalize_certificate_order (job : QueuedCertificateIssuanceOrder) :
    Io (Env N) PersistIssuedCertificateRequest :=
  let! provider := lift (provider_from_config (job_provider_type job) (job_api_endpoint job)
                           (job_credentials job) (job_order_id job)) in
  let! challenge := lift (challenge_from_payload (job_order_id job) (job_zone_name job)
                            (job_external_zone_id job) (job_challenge_payload job)) in
  let! m := finalize_dns01_order job in
  let! cleaned := attempt (on_net (cleanup_dns01_challenge provider challenge)) in
  let warning := match cleaned with
    | Ok _ => None
    | Err error => Some ("certificate issued but dns challenge cleanup failed: " +:+ error)
    end in
  ret (mkPersist (job_order_id job) (job_site_id job) (job_certificate_id job) (job_order_type job)
         warning m).

(** The passes are written against the store's interface. *)
Section OnStore.
Context {S : Type} `{CS : !CertificateOrderStore N S}.

(** The bodies of the two loops. *)
Definition present_job (job : QueuedDnsChallengeOrder) : Io S unit :=
  let! result := beside_store (attempt (process_dns_challenge job)) in
  match result with
  | Ok prepared =>
      do! store_update_challenge_payload (job_order_id job) (prepared_payload prepared) in
      store_update_status (job_order_id job) "dns_challenge_presented" None
  | Err error => store_update_status (job_order_id job) "dns_challenge_failed" (Some error)
  end.

Definition issue_job (job : QueuedCertificateIssuanceOrder) : Io S unit :=
  let! result := beside_store (attempt (finalize_certificate_order job)) in
  match result with
  | Ok request => store_persist_issued request
  | Err error => store_update_status (job_order_id job) "issue_failed" (Some error)
  end.

Fixpoint for_each {A} (f : A → Io S unit) (l : list A) : Io S unit :=
  match l with [] => ret tt | x :: l' => do! f x in for_each f l' end.

Definition process_pending_certificate_orders (limit : Z) : Io S nat :=
  let! jobs := store_claim_pending limit in
  do! for_each present_job jobs in
  ret (length jobs).

Definition process_presented_certificate_orders (limit : Z) : Io S nat :=
  let! jobs := store_claim_ready limit in
  do! for_each issue_job jobs in
  ret (length jobs).
End OnStore.

(** The body of the loop of [main]. *)
Definition worker_cycle (batch_size renew_before_days : Z) (renew_acme_provider : string) :
    Io (WorkerState N) (nat * nat * nat) :=
  let! now := with_env utc_now in
  let! renewal_orders := enqueue_due_renewal_orders now (days (Z.max renew_before_days 1)) batch_size
                           renew_acme_provider in
  let! dns_presented := process_pending_certificate_orders batch_size in
  let! issued := process_presented_certificate_orders batch_size in
  ret (renewal_orders, dns_presented, issued).
End Passes.
