(* ===== verification/DnsOrders.v ===== *)
(** * The life of a certificate order

    What a pass of the DNS worker does to the orders: the transitions of their
    status, whatever fails on the way; the orders a pass claims, presents and
    issues; what an issued certificate leaves in the tables.  Programs are run on
    the tables alone: [dbt d m Q] says that from tables [d] the program [m] ends
    with a result and tables that satisfy [Q], whatever the network does. *)

From stdpp Require Import prelude strings pretty gmap sorting.
From Stdlib Require Import Ascii.
From S2P Require Import Prelude RustStr Json Extern HubDns HubCerts DnsProvider Io Sql DnsWorker.

(** The store's interface on the tables. *)
Ltac on_postgres := cbn [beside_store store_claim_pending store_update_challenge_payload
  store_claim_ready store_update_status store_persist_issued PostgresCertificateOrderStore].

(** ** Transitions *)

Inductive order_move : string → string → Prop :=
  | move_presenting : order_move "pending_dns_challenge" "dns_challenge_presenting"
  | move_presented : order_move "dns_challenge_presenting" "dns_challenge_presented"
  | move_challenge_failed : order_move "dns_challenge_presenting" "dns_challenge_failed"
  | move_issuing : order_move "dns_challenge_presented" "issuing"
  | move_issued : order_move "issuing" "issued"
  | move_issue_failed : order_move "issuing" "issue_failed".
#[export] Hint Constructors order_move : core.

(** The columns of an order that never change. *)
Definition same_order (o o' : OrderRow) : Prop :=
  o_site_id o' = o_site_id o ∧ o_certificate_id o' = o_certificate_id o
  ∧ o_zone_id o' = o_zone_id o ∧ o_order_type o' = o_order_type o
  ∧ o_acme_provider o' = o_acme_provider o ∧ o_challenge_type o' = o_challenge_type o
  ∧ o_created_at o' = o_created_at o.

#[export] Instance same_order_preorder : PreOrder same_order.
Proof.
  split; [by intros o; repeat split|]. intros o1 o2 o3. unfold same_order. intuition congruence.
Qed.

(** Orders only move on, and new ones are renewals that start at the beginning;
    zones and providers are not touched. *)
Record evolves (d d' : Tables) : Prop := {
  evolves_kept : ∀ u o, certificate_orders d !! u = Some o →
    ∃ o', certificate_orders d' !! u = Some o' ∧ same_order o o'
      ∧ rtc order_move (o_status o) (o_status o');
  evolves_new : ∀ u o', certificate_orders d !! u = None → certificate_orders d' !! u = Some o' →
    o_order_type o' = "renew" ∧ rtc order_move "pending_dns_challenge" (o_status o');
  evolves_zones : dns_zones d' = dns_zones d ∧ dns_providers d' = dns_providers d;
}.

#[export] Instance evolves_preorder : PreOrder evolves.
Proof.
  split.
  - intros d. split; [|naive_solver|done]. intros u o Ho. exists o.
    split_and!; [done|reflexivity|apply rtc_refl].
  - intros d1 d2 d3 [K12 N12 [Z12 P12]] [K23 N23 [Z23 P23]]. split; [| |split; congruence].
    + intros u o Ho. destruct (K12 u o Ho) as (o2 & Ho2 & Hs2 & Hm2).
      destruct (K23 u o2 Ho2) as (o3 & Ho3 & Hs3 & Hm3). exists o3.
      split_and!; [done|by etrans|by etrans].
    + intros u o3 Hnone Ho3. destruct (certificate_orders d2 !! u) as [o2|] eqn:Ho2; [|by eapply N23].
      destruct (N12 u o2 Hnone Ho2) as [Ht Hm]. destruct (K23 u o2 Ho2) as (o3' & Ho3' & Hs & Hm').
      simplify_eq. destruct Hs as (_ & _ & _ & -> & _). split; [done|]. by etrans.
Qed.

(** Changes to the other tables. *)
Lemma evolves_same d d' :
  certificate_orders d' = certificate_orders d → dns_zones d' = dns_zones d →
  dns_providers d' = dns_providers d → evolves d d'.
Proof.
  intros Ho Hz Hp. split; [| |done]; rewrite Ho; [|naive_solver]. intros u o Hu. exists o.
  split_and!; [done|reflexivity|apply rtc_refl].
Qed.

(** A change to one order. *)
Lemma evolves_alter d u o f :
  certificate_orders d !! u = Some o → same_order o (f o) →
  rtc order_move (o_status o) (o_status (f o)) →
  evolves d (set_orders (alter f u (certificate_orders d)) d).
Proof.
  intros Hu Hsame Hmove. split; [| |done]; simpl.
  - intros u' o' Hu'. destruct (decide (u' = u)) as [->|Hne].
    + rewrite lookup_alter_eq, Hu. simplify_eq. by exists (f o).
    + rewrite lookup_alter_ne by done. exists o'. split_and!; [done|reflexivity|apply rtc_refl].
  - intros u' o' Hnone. destruct (decide (u' = u)) as [->|Hne]; [congruence|].
    rewrite lookup_alter_ne by done. congruence.
Qed.

Lemma same_order_status o st e : same_order o (set_o_status st e o).
Proof. by repeat split. Qed.
Lemma same_order_payload o v : same_order o (set_o_payload v o).
Proof. by repeat split. Qed.

(** ** Statements of the worker *)

Section Dbt.
Context {N : Type} `{EX : !Extern, WX : !WorkerExtern}.
Implicit Types d : Tables.

Lemma dbt_update d f Q :
  (∀ i e, db_error i = Some e → Q (Err e) d) →
  (¬ indexes_ok (f d) → Q (Err constraint_violation) d) →
  (indexes_ok (f d) → Q (Ok tt) (f d)) → dbt d (execute (N := N) f) Q.
Proof. exact (dbt_execute d f Q). Qed.

Lemma dbt_insert {R} d (table : Tables → gmap Uuid R) put u r Q :
  (∀ e, Q (Err e) d) →
  (table d !! u = None → indexes_ok (put (<[u := r]> (table d)) d) →
   Q (Ok tt) (put (<[u := r]> (table d)) d)) →
  dbt d (insert_row (N := N) table put u r) Q.
Proof. exact (dbt_insert_row d table put u r Q). Qed.

Lemma dbt_insert_order d u o Q :
  (∀ i e, db_error i = Some e → Q (Err e) d) →
  (certificate_orders d !! u = None →
   let d' := set_orders (<[u := o]> (certificate_orders d)) d in indexes_ok d' → Q (Ok 1) d') →
  (¬ (certificate_orders d !! u = None
      ∧ indexes_ok (set_orders (<[u := o]> (certificate_orders d)) d)) → Q (Ok 0) d) →
  dbt d (insert_order (N := N) u o) Q.
Proof.
  intros He Hok Hno s <-. unfold insert_order.
  destruct (db_error (statement s)) as [e|] eqn:Hi; [by eapply He|]. case_decide as H; simpl.
  - apply Hok; tauto.
  - by apply Hno.
Qed.
End Dbt.

(** One step of a program. *)
Ltac dbt1 :=
  lazymatch goal with
  | |- dbt _ (bind _ _) _ => apply dbt_bind
  | |- dbt _ (ret _) _ => apply dbt_ret
  | |- dbt _ (lift _) _ => apply dbt_lift; intros
  | |- dbt _ (require _ _) _ => apply dbt_require; intros ?
  | |- dbt _ (with_env _) _ => apply dbt_env; intros
  | |- dbt _ (query _) _ => apply dbt_query; [intros ? ? ?|]
  | |- dbt _ (execute _) _ => apply dbt_update; [intros ? ? ?|intros ?|intros ?]
  | |- dbt _ (insert_row _ _ _ _) _ => apply dbt_insert; [intros ?|intros ? ?]
  | |- dbt _ (transaction _) _ => apply dbt_transaction; [intros ? ? ?|]
  end.
Ltac dbts := repeat first [progress cbv beta iota | dbt1].

(** ** Claims *)

Section Claims.
Context {N : Type} `{EX : !Extern, EL : !ExternLaws, WX : !WorkerExtern}.
Implicit Types d : Tables.

(** The tables after the rows were given a status. *)
Definition mark (to : string) (ids : list Uuid) d : Tables :=
  set_orders (foldl (λ t u, alter (set_o_status to None) u t) (certificate_orders d) ids) d.

Lemma mark_cons to u ids d :
  mark to (u :: ids) d
  = mark to ids (set_orders (alter (set_o_status to None) u (certificate_orders d)) d).
Proof. done. Qed.

Lemma mark_lookup to ids d u :
  NoDup ids →
  certificate_orders (mark to ids d) !! u
  = if decide (u ∈ ids) then set_o_status to None <$> certificate_orders d !! u
    else certificate_orders d !! u.
Proof.
  revert d. induction ids as [|i ids IH]; intros d Hnd; [done|].
  apply NoDup_cons in Hnd as [Hi Hnd]. rewrite mark_cons, IH by done. simpl.
  destruct (decide (u = i)) as [->|Hne].
  - rewrite decide_False by done. rewrite decide_True by left. by rewrite lookup_alter_eq.
  - rewrite lookup_alter_ne by done. apply decide_ext. rewrite elem_of_cons. tauto.
Qed.

(** A job made from a row. *)
Definition job_for (r : ClaimRow) (job : QueuedDnsChallengeOrder) : Prop :=
  ∃ sans, value_strings (c_sans (row_certificate r)) = Some sans ∧ job = job_of r sans.

Lemma job_for_id rows jobs :
  Forall2 job_for rows jobs → job_order_id <$> jobs = row_order_id <$> rows.
Proof. induction 1 as [|r j rs js (sans & _ & ->) _ IH]; [done|]. by rewrite !fmap_cons, IH. Qed.

Lemma claim_rows_dbt d to rows jobs Q :
  (∀ e d', Q (Err e) d') →
  (∀ jobs', Forall2 job_for rows jobs' → indexes_ok (mark to (row_order_id <$> rows) d) ∨ rows = [] →
     Q (Ok (jobs ++ jobs')) (mark to (row_order_id <$> rows) d)) →
  dbt d (claim_rows (N := N) to rows jobs) Q.
Proof.
  revert d jobs. induction rows as [|r rows IH]; intros d jobs He HQ; simpl.
  - apply dbt_ret. rewrite <-(app_nil_r jobs).
    assert (mark to [] d = d) as Hd by (by destruct d). rewrite <-Hd. apply HQ; [constructor|by right].
  - apply dbt_bind. unfold update_order. dbts; try by apply He.
    rename select (indexes_ok _) into Hix.
    apply IH; [done|]. intros jobs' Hjobs Hor. rewrite <-app_assoc. apply HQ.
    + constructor; [|done]. rename select (ok_or _ _ = Ok _) into Hs. apply ok_or_Ok in Hs.
      by eexists.
    + left. rewrite fmap_cons, mark_cons. destruct Hor as [|Hnil]; [done|]. subst rows. exact Hix.
Qed.

(** What a [SELECT] finds: distinct orders with that status, as they are. *)
Lemma claim_row_Some d status u o r :
  claim_row d status (u, o) = Some r →
  row_order_id r = u ∧ row_order r = o ∧ o_status o = status ∧ o_challenge_type o = "dns-01"
  ∧ o_certificate_id o = Some (row_certificate_id r)
  ∧ certificates d !! row_certificate_id r = Some (row_certificate r).
Proof.
  unfold claim_row. case_decide as H; [|done]. intros Hr.
  destruct (o_zone_id o) as [zid|]; [|done]. simpl in Hr.
  destruct (dns_zones d !! zid) as [z|]; [|done]. simpl in Hr.
  destruct (dns_providers d !! _) as [p|]; [|done]. simpl in Hr.
  destruct (o_certificate_id o) as [cid|]; [|done]. simpl in Hr.
  destruct (certificates d !! cid) as [c|] eqn:Hc; [|done]. simpl in Hr. injection Hr as <-. naive_solver.
Qed.

Lemma select_orders_elem d status limit r :
  r ∈ select_orders status limit d →
  certificate_orders d !! row_order_id r = Some (row_order r) ∧ o_status (row_order r) = status
  ∧ o_certificate_id (row_order r) = Some (row_certificate_id r)
  ∧ certificates d !! row_certificate_id r = Some (row_certificate r).
Proof.
  unfold select_orders. intros Hr%elem_of_take. destruct Hr as (i & Hr%list_elem_of_lookup_2 & _).
  rewrite elem_of_sort_by in Hr. apply elem_of_filter_map in Hr as ([u o] & Hu & Hr).
  apply claim_row_Some in Hr as (<- & <- & ? & ? & ? & ?). apply elem_of_entries in Hu. done.
Qed.

Lemma select_orders_NoDup d status limit : NoDup (row_order_id <$> select_orders status limit d).
Proof.
  unfold select_orders. rewrite fmap_take.
  eapply sublist_NoDup; [|apply sublist_take]. rewrite sort_by_perm.
  eapply sublist_NoDup; [|apply (filter_map_sublist _ _ fst)].
  - unfold entries. rewrite hash_iter_perm. apply NoDup_fst_map_to_list.
  - intros [u o] r Hr. by apply claim_row_Some in Hr as (-> & _).
Qed.

Lemma select_orders_length d status limit :
  length (select_orders status limit d) ≤ sql_limit limit.
Proof. unfold select_orders. rewrite length_take. lia. Qed.

(** Marking rows moves their orders on. *)
Lemma evolves_mark d from to ids :
  order_move from to → NoDup ids →
  (∀ u, u ∈ ids → ∃ o, certificate_orders d !! u = Some o ∧ o_status o = from) →
  evolves d (mark to ids d).
Proof.
  intros Hmove Hnd Hids. split; [| |done].
  - intros u o Ho. rewrite mark_lookup, Ho by done. case_decide as Hu; simpl.
    + eexists. split; [done|]. split; [apply same_order_status|]. simpl.
      destruct (Hids u Hu) as (o' & Ho' & Hst). simplify_eq. by apply rtc_once.
    + exists o. split_and!; [done|reflexivity|apply rtc_refl].
  - intros u o Hnone. rewrite mark_lookup, Hnone by done. by case_decide.
Qed.

(** The claim of a pass: the oldest orders of the status, at most [limit] of
    them, each with its job; an error claims nothing. *)
Lemma claim_orders_dbt d from to limit Q :
  let rows := select_orders from limit d in
  (∀ e, Q (Err e) d) →
  (∀ jobs, Forall2 job_for rows jobs →
     Q (Ok jobs) (mark to (row_order_id <$> rows) d)) →
  dbt d (claim_orders (N := N) from to limit) Q.
Proof.
  intros rows He HQ. unfold claim_orders. dbts; [done..|].
  apply claim_rows_dbt; [done|]. intros jobs Hjobs _. by apply HQ.
Qed.

(** Jobs whose orders have a status. *)
Definition holding d (status : string) (jobs : list QueuedDnsChallengeOrder) : Prop :=
  NoDup (job_order_id <$> jobs)
  ∧ ∀ job, job ∈ jobs → ∃ o, certificate_orders d !! job_order_id job = Some o ∧ o_status o = status.

Lemma holding_mark d from to limit jobs :
  Forall2 job_for (select_orders from limit d) jobs →
  holding (mark to (row_order_id <$> select_orders from limit d) d) to jobs.
Proof.
  intros Hjobs. pose proof (job_for_id _ _ Hjobs) as Hids. split; [rewrite Hids; apply select_orders_NoDup|].
  intros job Hjob. assert (job_order_id job ∈ row_order_id <$> select_orders from limit d) as Hin
    by (rewrite <-Hids; by apply list_elem_of_fmap_2).
  rewrite mark_lookup, decide_True by (done || apply select_orders_NoDup).
  apply list_elem_of_fmap in Hin as (r & -> & Hr).
  apply select_orders_elem in Hr as (-> & _). eexists. by split.
Qed.

Lemma evolves_claim d from to limit :
  order_move from to → evolves d (mark to (row_order_id <$> select_orders from limit d) d).
Proof.
  intros Hmove. apply (evolves_mark d from); [done|apply select_orders_NoDup|].
  intros u (r & -> & Hr)%list_elem_of_fmap. apply select_orders_elem in Hr as (? & ? & _). eauto.
Qed.
End Claims.

(** ** Passes move orders on *)

(** The orders other than these are as they were. *)
Definition untouched (ids : list Uuid) (d d' : Tables) : Prop :=
  ∀ u, u ∉ ids → certificate_orders d' !! u = certificate_orders d !! u.

Lemma untouched_trans ids d1 d2 d3 : untouched ids d1 d2 → untouched ids d2 d3 → untouched ids d1 d3.
Proof. intros H12 H23 u Hu. rewrite H23 by done. by apply H12. Qed.

Lemma untouched_sub ids ids' d d' : ids ⊆ ids' → untouched ids d d' → untouched ids' d d'.
Proof. intros Hsub H u Hu. apply H. set_solver. Qed.

Lemma untouched_same ids d d' : certificate_orders d' = certificate_orders d → untouched ids d d'.
Proof. by intros H u _; rewrite H. Qed.

Lemma untouched_alter u f d : untouched [u] d (set_orders (alter f u (certificate_orders d)) d).
Proof. intros u' Hu'. simpl. apply lookup_alter_ne. set_solver. Qed.

Section Moves.
Context {N : Type} `{EX : !Extern, EL : !ExternLaws, DX : !DnsExtern, WX : !WorkerExtern}.
Context `{ST : !StatusText, DN : !DnsNet N, AC : !AcmeClient N}.
Implicit Types d : Tables.

(** What a step on one order may do. *)
Definition steps_order (u : Uuid) d d' : Prop := evolves d d' ∧ untouched [u] d d'.

Lemma steps_order_refl u d : steps_order u d d.
Proof. split; [reflexivity|by apply untouched_same]. Qed.

Lemma steps_order_trans u d1 d2 d3 : steps_order u d1 d2 → steps_order u d2 d3 → steps_order u d1 d3.
Proof. intros [E1 U1] [E2 U2]. split; [by etrans|by eapply untouched_trans]. Qed.

Lemma steps_alter u o f d :
  certificate_orders d !! u = Some o → same_order o (f o) →
  rtc order_move (o_status o) (o_status (f o)) →
  steps_order u d (set_orders (alter f u (certificate_orders d)) d).
Proof. intros. split; [by eapply evolves_alter|apply untouched_alter]. Qed.

Lemma steps_other u d d' :
  certificate_orders d' = certificate_orders d → dns_zones d' = dns_zones d →
  dns_providers d' = dns_providers d → steps_order u d d'.
Proof. intros. split; [by apply evolves_same|by apply untouched_same]. Qed.

Lemma update_order_steps d u o f :
  certificate_orders d !! u = Some o → same_order o (f o) →
  rtc order_move (o_status o) (o_status (f o)) →
  dbt d (update_order (N := N) u f) (λ _ d', steps_order u d d').
Proof.
  intros Ho Hs Hm. unfold update_order. dbts; [apply steps_order_refl..|]. by eapply steps_alter.
Qed.

Lemma present_job_steps d job o :
  certificate_orders d !! job_order_id job = Some o → o_status o = "dns_challenge_presenting" →
  dbt d (present_job (N := N) job) (λ _ d', steps_order (job_order_id job) d d').
Proof.
  intros Ho Hst. unfold present_job. on_postgres. dbts. destruct r as [[prepared|error]|err]; [| |apply steps_order_refl].
  - apply dbt_bind. unfold update_order_challenge_payload, update_order.
    dbts; [apply steps_order_refl..|].
    eapply dbt_mono.
    { eapply (update_order_steps _ _ (set_o_payload (prepared_payload prepared) o)); simpl.
      - by rewrite lookup_alter_eq, Ho.
      - apply same_order_status.
      - simpl. rewrite Hst. by apply rtc_once. }
    intros ? d2 H2. eapply steps_order_trans; [|exact H2].
    eapply steps_alter; [done|apply same_order_payload|apply rtc_refl].
  - eapply update_order_steps; [done|apply same_order_status|]. simpl. rewrite Hst. by apply rtc_once.
Qed.

(** Binding sites changes the bindings only. *)
Definition same_but_bindings d d' : Prop := d' = set_bindings (site_cert_bindings d') d.

Lemma bind_sites_others cid v sites d :
  dbt d (bind_sites (N := N) cid v sites) (λ _ d', same_but_bindings d d').
Proof.
  revert d. induction sites as [|x sites IH]; intros d; simpl; [apply dbt_ret; by destruct d|].
  dbts; [by destruct d..|]. destruct r as [bid|err]; [|by destruct d].
  dbts; [by destruct d..|]. eapply dbt_mono; [apply IH|]. intros ? d2 Hd2. unfold same_but_bindings in *.
  rewrite Hd2. by destruct d.
Qed.

(** The sites whose binding is renewed. *)
Definition target_sites (request : PersistIssuedCertificateRequest) d : list Uuid :=
  match ps_site_id request with
  | Some site_id => [site_id]
  | None => if decide (ps_order_type request = "renew")
            then default_sites (ps_certificate_id request) d else []
  end.

Lemma target_sites_dbt d request Q :
  (∀ i e, db_error i = Some e → Q (Err e) d) → Q (Ok (target_sites request d)) d →
  dbt d (match ps_site_id request with
         | Some site_id => ret [site_id]
         | None => if decide (ps_order_type request = "renew")
                   then query (default_sites (ps_certificate_id request)) else ret []
         end : Io (WorkerState N) _) Q.
Proof.
  unfold target_sites. destruct (ps_site_id request); [by intros; apply dbt_ret|].
  case_decide; intros; [by apply dbt_query|by apply dbt_ret].
Qed.

Lemma persist_steps d request o :
  certificate_orders d !! ps_order_id request = Some o → o_status o = "issuing" →
  dbt d (persist_issued_certificate (N := N) request)
    (λ _ d', steps_order (ps_order_id request) d d').
Proof.
  intros Ho Hst. unfold persist_issued_certificate, query_next_version. dbts; try apply steps_order_refl.
  destruct r as [vid|err]; [|apply steps_order_refl]. dbts; try apply steps_order_refl.
  apply target_sites_dbt; [intros; apply steps_order_refl|]. apply dbt_bind.
  eapply dbt_mono; [apply bind_sites_others|].
  intros [[]|err] d3 Hd3; [|apply steps_order_refl]. rewrite Hd3. clear Hd3.
  eapply dbt_mono; [eapply (update_order_steps _ _ o)|]; [exact Ho|apply same_order_status|..].
  { simpl. rewrite Hst. by apply rtc_once. }
  intros [[]|err] d4 Hd4; [|apply steps_order_refl]. eapply steps_order_trans; [|exact Hd4].
  by apply steps_other.
Qed.

Lemma finalize_request job e r e' :
  finalize_certificate_order (N := N) job e = (Ok r, e') → ps_order_id r = job_order_id job.
Proof.
  unfold finalize_certificate_order. intros H.
  apply io_bind_Ok in H as (p & e1 & _ & H). apply io_bind_Ok in H as (c & e2 & _ & H).
  apply io_bind_Ok in H as (m & e3 & _ & H). apply io_bind_Ok in H as (x & e4 & _ & H).
  by injection H as <- <-.
Qed.

Lemma issue_job_steps d job o :
  certificate_orders d !! job_order_id job = Some o → o_status o = "issuing" →
  dbt d (issue_job (N := N) job) (λ _ d', steps_order (job_order_id job) d d').
Proof.
  intros Ho Hst. unfold issue_job. on_postgres. dbts. rename select (attempt _ _ = _) into Hrun.
  unfold attempt in Hrun. destruct (finalize_certificate_order job e) as [[request|err] e1] eqn:Hf;
    injection Hrun as <- <-.
  - apply finalize_request in Hf as Hid. rewrite <-Hid in *. by eapply persist_steps.
  - eapply update_order_steps; [done|apply same_order_status|]. simpl. rewrite Hst. by apply rtc_once.
Qed.

(** A loop over claimed jobs. *)
Lemma for_each_steps (f : QueuedDnsChallengeOrder → Io (WorkerState N) unit) status jobs d :
  (∀ d job o, certificate_orders d !! job_order_id job = Some o → o_status o = status →
     dbt d (f job) (λ _ d', steps_order (job_order_id job) d d')) →
  holding d status jobs →
  dbt d (for_each f jobs) (λ _ d', evolves d d' ∧ untouched (job_order_id <$> jobs) d d').
Proof.
  intros Hf. revert d. induction jobs as [|job jobs IH]; intros d [Hnd Hall]; simpl.
  - apply dbt_ret. split; [reflexivity|by apply untouched_same].
  - apply NoDup_cons in Hnd as [Hni Hnd].
    destruct (Hall job) as (o & Ho & Hst); [left|].
    apply dbt_bind. eapply dbt_mono; [by eapply Hf|]. intros r d1 [E1 U1].
    assert (untouched (job_order_id <$> job :: jobs) d d1) as U1'
      by (eapply untouched_sub; [|exact U1]; csimpl; set_solver).
    destruct r as [[]|err]; [|done].
    eapply dbt_mono; [apply IH|].
    + split; [done|]. intros job' Hjob'. destruct (Hall job') as (o' & Ho' & Hst'); [by right|].
      exists o'. split; [|done]. rewrite U1; [done|].
      intros Heq%list_elem_of_singleton. apply Hni. rewrite <-Heq. by apply list_elem_of_fmap_2.
    + intros r2 d2 [E2 U2]. split; [by etrans|]. eapply untouched_trans; [exact U1'|].
      eapply untouched_sub; [|exact U2]. csimpl; set_solver.
Qed.

(** A pass: a claim and a loop over the jobs. *)
Definition idle (statuses : list string) d d' : Prop :=
  ∀ u o, certificate_orders d !! u = Some o → o_status o ∉ statuses →
    certificate_orders d' !! u = Some o.

Lemma idle_trans sts d1 d2 d3 : idle sts d1 d2 → idle sts d2 d3 → idle sts d1 d3.
Proof. intros H12 H23 u o Ho Hst. eauto. Qed.

Lemma pass_steps (f : QueuedDnsChallengeOrder → Io (WorkerState N) unit) from to limit d :
  order_move from to →
  (∀ d job o, certificate_orders d !! job_order_id job = Some o → o_status o = to →
     dbt d (f job) (λ _ d', steps_order (job_order_id job) d d')) →
  dbt d (let! jobs := claim_orders from to limit in
         do! for_each f jobs in ret (length jobs))
    (λ _ d', evolves d d' ∧ idle [from] d d').
Proof.
  intros Hmove Hf. apply dbt_bind, claim_orders_dbt; [split; [reflexivity|by intros u o Ho _]|].
  intros jobs Hjobs. set (d1 := mark _ _ d).
  pose proof (evolves_claim d from to limit Hmove) as E1.
  apply dbt_bind. eapply dbt_mono; [apply (for_each_steps f to); [done|by apply holding_mark]|].
  intros r d2 [E2 U2].
  assert (evolves d d2 ∧ idle [from] d d2) as H.
  { split; [by etrans|]. intros u o Ho Hst.
    assert (u ∉ row_order_id <$> select_orders from limit d) as Hu.
    { intros (row & -> & Hrow)%list_elem_of_fmap. apply select_orders_elem in Hrow as (Hr & Hs & _).
      apply Hst. simplify_eq. by left. }
    rewrite U2 by (by rewrite (job_for_id _ _ Hjobs)). unfold d1.
    rewrite mark_lookup, decide_False by (done || apply select_orders_NoDup). done. }
  destruct r as [[]|err]; [|done]. by apply dbt_ret.
Qed.

Lemma insert_order_steps d u o :
  o_order_type o = "renew" → o_status o = "pending_dns_challenge" →
  dbt d (insert_order (N := N) u o) (λ _ d', evolves d d' ∧ idle [] d d').
Proof.
  intros Ht Hst.
  assert (evolves d d ∧ idle [] d d) as Hrefl by (split; [reflexivity|by intros ? ? ? _]).
  apply dbt_insert_order; [by intros; apply Hrefl| |by intros; apply Hrefl].
  intros Hnone d' _. unfold d'. split.
  - split; [| |done]; simpl.
    + intros u' o' Ho'. exists o'. rewrite lookup_insert_ne by congruence.
      split_and!; [done|reflexivity|apply rtc_refl].
    + intros u' o' Hn'. rewrite lookup_insert_Some. intros [[<- <-]|[_ ?]]; [|congruence].
      rewrite Hst. split; [done|apply rtc_refl].
  - intros u' o' Ho' _. simpl. rewrite lookup_insert_ne by congruence. done.
Qed.

Lemma enqueue_renewals_steps zones ap certs n d :
  dbt d (enqueue_renewals (N := N) zones ap certs n) (λ _ d', evolves d d' ∧ idle [] d d').
Proof.
  revert n d. induction certs as [|[cid c] certs IH]; intros n d; simpl.
  { apply dbt_ret. split; [reflexivity|by intros ? ? ? _]. }
  assert (evolves d d ∧ idle [] d d) as Hrefl by (split; [reflexivity|by intros ? ? ? _]).
  apply dbt_bind, dbt_lift; intros; [|done]. destruct (serving_zone _ _) as [[zid z]|]; [|apply IH].
  apply dbt_bind, dbt_env. intros [token|err] ? ? _; [|done].
  apply dbt_bind, dbt_env. intros [oid|err] ? ? _; [|done].
  apply dbt_bind, dbt_env. intros [now|err] ? ? _; [|done].
  apply dbt_bind. eapply dbt_mono; [by apply insert_order_steps|].
  intros [k|err] d1 [E1 I1]; [|done]. eapply dbt_mono; [apply IH|]. intros r d2 [E2 I2].
  split; [by etrans|by eapply idle_trans].
Qed.

Lemma enqueue_steps now before limit ap d :
  dbt d (enqueue_due_renewal_orders (N := N) now before limit ap) (λ _ d', evolves d d' ∧ idle [] d d').
Proof.
  assert (evolves d d ∧ idle [] d d) as Hrefl by (split; [reflexivity|by intros ? ? ? _]).
  unfold enqueue_due_renewal_orders. dbts; [done|]. case_decide; [by apply dbt_ret|].
  dbts; [done|]. apply enqueue_renewals_steps.
Qed.

Lemma idle_mono sts sts' d d' : sts ⊆ sts' → idle sts d d' → idle sts' d d'.
Proof. intros Hsub H u o Ho Hst. apply H; [done|]. set_solver. Qed.

Lemma cycle_steps batch before ap d :
  dbt d (worker_cycle (N := N) batch before ap)
    (λ _ d', evolves d d' ∧ idle ["pending_dns_challenge"; "dns_challenge_presented"] d d').
Proof.
  unfold worker_cycle. apply dbt_bind, dbt_env. intros [now|err] ? ? _;
    [|split; [reflexivity|by intros ? ? ? _]].
  apply dbt_bind. eapply dbt_mono; [apply enqueue_steps|]. intros r1 d1 [E1 I1].
  eapply (idle_mono _ ["pending_dns_challenge"; "dns_challenge_presented"]) in I1; [|set_solver].
  destruct r1 as [n1|err]; [|done].
  apply dbt_bind. eapply dbt_mono; [apply pass_steps; [apply move_presenting|apply present_job_steps]|].
  intros r2 d2 [E2 I2].
  eapply (idle_mono _ ["pending_dns_challenge"; "dns_challenge_presented"]) in I2; [|set_solver].
  assert (evolves d d2) as E02 by (by etrans). pose proof (idle_trans _ _ _ _ I1 I2) as I02.
  destruct r2 as [n2|err]; [|done].
  apply dbt_bind. eapply dbt_mono; [apply pass_steps; [apply move_issuing|apply issue_job_steps]|].
  intros r3 d3 [E3 I3].
  eapply (idle_mono _ ["pending_dns_challenge"; "dns_challenge_presented"]) in I3; [|set_solver].
  assert (evolves d d3) as E03 by (by etrans). pose proof (idle_trans _ _ _ _ I02 I3) as I03.
  destruct r3 as [n3|err]; [|done]. by apply dbt_ret.
Qed.

(** C18: Whatever the database, the network and the certificate authority do, a
    cycle of the worker only moves orders along: from pending to presenting, from
    there to presented or failed, from presented to issuing and from there to
    issued or failed; it deletes no order and changes none of its other columns but
    the challenge payload and the error text, and the orders it adds are renewals
    that start as pending. *)
Theorem worker_moves_orders batch before ap (s : WorkerState N) :
  evolves (db s) (db (worker_cycle batch before ap s).2).
Proof. by destruct (dbt_run _ _ _ s (cycle_steps batch before ap (db s)) eq_refl). Qed.

(** The turns of the worker one after the other, also over restarts: a turn that
    fails ends the process, and the next one starts from the tables it left. *)
Fixpoint turns (n : nat) (batch before : Z) (ap : string) (s : WorkerState N) : WorkerState N :=
  match n with O => s | S n => turns n batch before ap (worker_cycle batch before ap s).2 end.

(** An order that a failed pass left claimed, as presenting or as issuing, is
    not taken up again: no later turn of the worker changes it. *)
Theorem claimed_order_strands n batch before ap (s : WorkerState N) u o :
  certificate_orders (db s) !! u = Some o →
  o_status o ∈ ["dns_challenge_presenting"; "issuing"] →
  certificate_orders (db (turns n batch before ap s)) !! u = Some o.
Proof.
  revert s. induction n as [|n IH]; intros s Ho Hst; [done|]. simpl. apply IH; [|done].
  destruct (dbt_run _ _ _ s (cycle_steps batch before ap (db s)) eq_refl) as [_ Hidle].
  apply Hidle; [done|]. rewrite !elem_of_cons in *. intros Hin.
  destruct Hst as [Hst|[Hst|Hst%elem_of_nil]]; [..|done]; rewrite Hst in Hin;
    destruct Hin as [Hin|[Hin|Hin%elem_of_nil]]; done.
Qed.
End Moves.

(** ** What an issued certificate leaves *)

Section Persist.
Context {N : Type} `{EX : !Extern, EL : !ExternLaws, DX : !DnsExtern, WX : !WorkerExtern}.
Implicit Types d : Tables.

(** The site's default binding is [u] and no other. *)
Definition default_binding d (site : Uuid) (b : BindingRow) : Prop :=
  ∃ u, site_cert_bindings d !! u = Some b ∧ b_site_id b = site
    ∧ ∀ u' b', site_cert_bindings d !! u' = Some b' → b_site_id b' = site →
        b_is_default b' = true ↔ u' = u.

(** The bindings of the other sites are as they were. *)
Definition other_bindings (sites : list Uuid) d d' : Prop :=
  ∀ u b, b_site_id b ∉ sites →
    site_cert_bindings d' !! u = Some b ↔ site_cert_bindings d !! u = Some b.

(** One turn of the loop. *)
Lemma rebind_site d site cid v bid :
  let t := (λ b, if decide (b_site_id b = site) then set_b_default false b else b)
             <$> site_cert_bindings d in
  let d' := set_bindings (<[bid := mkBindingRow site cid v true]> t) d in
  t !! bid = None →
  default_binding d' site (mkBindingRow site cid v true) ∧ other_bindings [site] d d'.
Proof.
  intros t d' Hnew. split.
  - exists bid. simpl. rewrite lookup_insert_eq. split_and!; [done..|].
    intros u' b'. rewrite lookup_insert_Some. intros [[<- <-]|[Hne Hb]] Hs; [done|].
    unfold t in Hb. rewrite lookup_fmap in Hb.
    destruct (site_cert_bindings d !! u') as [b0|]; [|done]. simpl in Hb. injection Hb as <-.
    case_decide as H0; [|done]. simpl. split; [done|congruence].
  - intros u b Hb. simpl. rewrite lookup_insert_Some. unfold t in *. rewrite lookup_fmap in *.
    destruct (decide (u = bid)) as [->|Hne].
    + destruct (site_cert_bindings d !! bid) as [b0|]; [done|]. split; [|done].
      intros [[_ <-]|[? _]]; [set_solver|done].
    + split.
      * intros [[? _]|[_ H]]; [congruence|]. destruct (site_cert_bindings d !! u) as [b0|]; [|done].
        simpl in H. injection H as <-. case_decide; [set_solver|done].
      * intros H. right. rewrite H. simpl. split; [done|]. rewrite decide_False; [done|set_solver].
Qed.

Lemma other_bindings_trans l1 l2 d1 d2 d3 :
  other_bindings l1 d1 d2 → other_bindings l2 d2 d3 → other_bindings (l1 ++ l2) d1 d3.
Proof.
  intros H12 H23 u b Hb. rewrite not_elem_of_app in Hb.
  transitivity (site_cert_bindings d2 !! u = Some b); [apply H23|apply H12]; tauto.
Qed.

Lemma default_binding_other d d' l site b :
  other_bindings l d d' → site ∉ l → default_binding d site b → default_binding d' site b.
Proof.
  intros H Hs (u & Hu & Hb & Hd). exists u. split_and!; [by apply H; [rewrite Hb|]|done|].
  intros u' b' Hu' Hb'. apply Hd; [|done]. by apply H in Hu'; [|rewrite Hb'].
Qed.

Lemma bind_sites_effect cid v sites d :
  dbt d (bind_sites (N := N) cid v sites) (λ r d', r = Ok tt →
    other_bindings sites d d'
    ∧ ∀ site, site ∈ sites → default_binding d' site (mkBindingRow site cid v true)).
Proof.
  revert d. induction sites as [|x sites IH]; intros d; simpl.
  - apply dbt_ret. intros _. split; [done|]. intros site Hin. by apply not_elem_of_nil in Hin.
  - dbts; try (intros Herr; discriminate Herr). destruct r as [bid|err]; [|done].
    dbts; [done|]. rename select (_ !! bid = None) into Hnew.
    pose proof (rebind_site d x cid v bid Hnew) as [Hdef Hother].
    eapply dbt_mono; [apply IH|]. intros r2 d2 Hind Hr2. destruct (Hind Hr2) as [Hother2 Hdef2]. split.
    + by eapply (other_bindings_trans [x] sites).
    + intros site. rewrite elem_of_cons. intros Hin. destruct (decide (site ∈ sites)); [auto|].
      destruct Hin as [->|]; [|done]. by eapply default_binding_other.
Qed.

Lemma coalesce_max_ge (l : list Z) x : x ∈ l → (x ≤ coalesce_max l)%Z.
Proof.
  assert (∀ l' (v y : Z), y ∈ v :: l' → (y ≤ foldr Z.max v l')%Z) as Hmax.
  { induction l' as [|z l' IH]; intros v y; rewrite !elem_of_cons; simpl.
    - intros [->|?%elem_of_nil]; [lia|done].
    - intros [->|[->|Hy]]; [specialize (IH v v)|lia|specialize (IH v y)];
        rewrite elem_of_cons in IH; lia || (specialize (IH (or_introl eq_refl)); lia)
        || (specialize (IH (or_intror Hy)); lia). }
  destruct l; [by intros ?%elem_of_nil|]. apply Hmax.
Qed.

Lemma next_version_gt cid d u row :
  certificate_versions d !! u = Some row → v_certificate_id row = cid →
  (v_version row < next_version cid d)%Z.
Proof.
  intros Hu Hc. unfold next_version. apply Z.lt_succ_r, coalesce_max_ge.
  apply list_elem_of_fmap_2, list_elem_of_filter. split; [done|]. apply elem_of_values. by exists u.
Qed.

(** What [persist_issued_certificate] leaves when it succeeds. *)
Record issued (request : PersistIssuedCertificateRequest) d d' : Prop := {
  issued_certificate :
    certificates d' = alter (issue_row (material request)) (ps_certificate_id request) (certificates d);
  issued_version : ∃ vid, certificate_versions d !! vid = None
    ∧ certificate_versions d'
      = <[vid := mkVersionRow (ps_certificate_id request) (next_version (ps_certificate_id request) d)
                   (cert_pem (material request)) (key_pem_encrypted (material request))
                   (chain_pem (material request))]> (certificate_versions d);
  issued_bindings : ∀ site, site ∈ target_sites request d →
    default_binding d' site (mkBindingRow site (ps_certificate_id request)
                               (next_version (ps_certificate_id request) d) true);
  issued_others : other_bindings (target_sites request d) d d';
  issued_order : certificate_orders d'
    = alter (set_o_status "issued" (warning_message request)) (ps_order_id request)
        (certificate_orders d);
}.

Lemma persist_effect request d :
  dbt d (persist_issued_certificate (N := N) request)
    (λ r d', match r with Ok _ => issued request d d' | Err _ => d' = d end).
Proof.
  unfold persist_issued_certificate, query_next_version. dbts; try done. destruct r as [vid|err]; [|done]. dbts; [done|].
  rename select (_ !! vid = None) into Hnew.
  apply target_sites_dbt; [done|]. set (d2 := set_versions _ _).
  assert (target_sites request d2 = target_sites request d) as -> by done.
  apply dbt_bind.
  eapply dbt_mono; [apply dbt_and; [apply bind_sites_others|apply bind_sites_effect]|].
  intros [[]|err] d3 [Hsame Heff]; [|done]. destruct (Heff eq_refl) as [Hother Hdef].
  unfold update_order. dbts; try done. split; simpl;
    [by rewrite Hsame|rewrite Hsame; by exists vid|exact Hdef|exact Hother|by rewrite Hsame].
Qed.

(** C19: Storing an issued certificate is all or nothing.  If it fails, the tables
    are as they were.  If it succeeds, the certificate is active with the new
    dates and fingerprint; a version numbered above all its earlier ones holds the
    key and the chain; each target site (the site of the order or, for a renewal
    without a site, the sites the certificate served by default) has exactly one
    default binding, to that version; the bindings of other sites and all other
    orders are as they were, and the order is issued, with the cleanup warning if
    there was one. *)
Theorem persist_issued_effect request (s : WorkerState N) :
  let '(r, s') := persist_issued_certificate request s in
  match r with
  | Ok _ => issued request (db s) (db s')
      ∧ ∀ u row, certificate_versions (db s) !! u = Some row →
          v_certificate_id row = ps_certificate_id request →
          (v_version row < next_version (ps_certificate_id request) (db s))%Z
  | Err _ => db s' = db s
  end.
Proof.
  pose proof (persist_effect request (db s) s eq_refl) as H.
  destruct (persist_issued_certificate request s) as [[u|e] s']; [|done]. split; [done|].
  apply next_version_gt.
Qed.
End Persist.

(** ** A pass without database errors *)

(** Changes of orders that keep the unique index. *)
Lemma one_active_weaken t t' :
  (∀ u o', t' !! u = Some o' → active_renewal o' →
     ∃ o, t !! u = Some o ∧ active_renewal o ∧ o_certificate_id o = o_certificate_id o') →
  one_active_renewal t → one_active_renewal t'.
Proof.
  intros Hw Ht u o Hu Ha u' o' Hu' Ha' Heq.
  destruct (Hw u o Hu Ha) as (o1 & H1 & Ha1 & Hc1). destruct (Hw u' o' Hu' Ha') as (o2 & H2 & Ha2 & Hc2).
  apply (Ht u o1 H1 Ha1 u' o2 H2 Ha2). congruence.
Qed.

Lemma indexes_alter d u f :
  (∀ o, certificate_orders d !! u = Some o →
     o_certificate_id (f o) = o_certificate_id o ∧ (active_renewal (f o) → active_renewal o)) →
  indexes_ok d → indexes_ok (set_orders (alter f u (certificate_orders d)) d).
Proof.
  intros Hf [Ho Hv Hc]. split; [|done..]. simpl. eapply one_active_weaken; [|exact Ho].
  intros u' o'. destruct (decide (u' = u)) as [->|Hne].
  - rewrite lookup_alter_eq. destruct (certificate_orders d !! u) as [o|] eqn:Hu; [|done].
    simpl. intros [= <-] Ha. destruct (Hf o eq_refl) as [Hcert Hact]. exists o. naive_solver.
  - rewrite lookup_alter_ne by done. intros Hu' Ha. by exists o'.
Qed.

Lemma active_status st e o :
  (st ∈ ACTIVE_RENEWAL_ORDER_STATUSES → o_status o ∈ ACTIVE_RENEWAL_ORDER_STATUSES) →
  active_renewal (set_o_status st e o) → active_renewal o.
Proof. intros Hst (H1 & H2 & H3). split_and!; [done..|]. by apply Hst. Qed.

Lemma move_active from to :
  order_move from to → from ∈ ACTIVE_RENEWAL_ORDER_STATUSES.
Proof. intros H. apply (bool_decide_unpack _). by destruct H. Qed.

Lemma indexes_status d u st e :
  (∀ o, certificate_orders d !! u = Some o → order_move (o_status o) st) →
  indexes_ok d → indexes_ok (set_orders (alter (set_o_status st e) u (certificate_orders d)) d).
Proof.
  intros Hm. apply indexes_alter. intros o Ho. split; [done|]. apply active_status.
  intros _. eapply move_active, Hm, Ho.
Qed.

Lemma alter_insert_known {A} (f : A → A) (t : gmap Uuid A) u a :
  t !! u = Some a → alter f u t = <[u := f a]> t.
Proof.
  intros Ha. apply map_eq. intros u'. destruct (decide (u' = u)) as [->|Hne].
  - by rewrite lookup_alter_eq, Ha, lookup_insert_eq.
  - by rewrite lookup_alter_ne, lookup_insert_ne.
Qed.

Section Reliable.
Context {N : Type} `{EX : !Extern, EL : !ExternLaws, DX : !DnsExtern, WX : !WorkerExtern}.
Context `{ST : !StatusText, DN : !DnsNet N, AC : !AcmeClient N}.
Context (no_error : ∀ i, db_error i = None).
Implicit Types d : Tables.

Lemma execute_ok d f (Q : Result unit string → Tables → Prop) :
  indexes_ok (f d) → Q (Ok tt) (f d) → dbt d (execute (N := N) f) Q.
Proof. intros Hix HQ. apply dbt_update; [by intros i e; rewrite no_error|done|done]. Qed.

Lemma query_ok {A} d (f : Tables → A) (Q : Result A string → Tables → Prop) :
  Q (Ok (f d)) d → dbt d (query (N := N) f) Q.
Proof. intros HQ. apply dbt_query; [by intros i e; rewrite no_error|done]. Qed.

(** The rows can be turned into jobs. *)
Definition readable (rows : list ClaimRow) : Prop :=
  Forall (λ r, is_Some (value_strings (c_sans (row_certificate r)))) rows.

Lemma claim_rows_ok d from to rows jobs :
  order_move from to → NoDup (row_order_id <$> rows) → readable rows → indexes_ok d →
  (∀ r, r ∈ rows → ∃ o, certificate_orders d !! row_order_id r = Some o ∧ o_status o = from) →
  dbt d (claim_rows (N := N) to rows jobs) (λ r d', ∃ jobs', r = Ok (jobs ++ jobs')
    ∧ Forall2 job_for rows jobs' ∧ d' = mark to (row_order_id <$> rows) d ∧ indexes_ok d').
Proof.
  intros Hm. revert d jobs. induction rows as [|r rows IH]; intros d jobs Hnd Hread Hix Hrows; simpl.
  - apply dbt_ret. exists []. rewrite app_nil_r. split_and!; [done|constructor|by destruct d|done].
  - apply NoDup_cons in Hnd as [Hni Hnd]. apply Forall_cons in Hread as [[sans Hsans] Hread].
    destruct (Hrows r) as (o & Ho & Hst); [left|].
    assert (indexes_ok (set_orders (alter (set_o_status to None) (row_order_id r)
              (certificate_orders d)) d)) as Hix1.
    { apply indexes_status; [|done]. intros o' Ho'. simplify_eq. done. }
    apply dbt_bind. apply execute_ok; [done|]. apply dbt_bind, dbt_lift; [|by rewrite Hsans].
    intros a Ha. rewrite Hsans in Ha. injection Ha as <-.
    eapply dbt_mono; [apply IH; [done..|]|].
    + intros r' Hr'. destruct (Hrows r') as (o' & Ho' & Hst'); [by right|]. exists o'. simpl.
      rewrite lookup_alter_ne; [done|]. intros Heq. apply Hni. rewrite Heq. by apply list_elem_of_fmap_2.
    + intros x d' (jobs' & -> & Hf & -> & Hix'). exists (job_of r sans :: jobs').
      rewrite <-app_assoc. split_and!; [done| |done|done]. constructor; [|done]. by exists sans.
Qed.

(** The order of a job that was dealt with. *)
Definition dealt_with (o o' : OrderRow) : Prop :=
  same_order o o'
  ∧ (o_status o' = "dns_challenge_presented" ∧ o_error o' = None
     ∨ o_status o' = "dns_challenge_failed" ∧ is_Some (o_error o')
       ∧ o_challenge_payload o' = o_challenge_payload o).

Lemma update_order_ok d u f (Q : Result unit string → Tables → Prop) :
  indexes_ok (set_orders (alter f u (certificate_orders d)) d) →
  Q (Ok tt) (set_orders (alter f u (certificate_orders d)) d) → dbt d (update_order (N := N) u f) Q.
Proof. intros Hix HQ. by apply (execute_ok d (λ d, set_orders (alter f u (certificate_orders d)) d)). Qed.

Lemma present_job_ok d job o :
  indexes_ok d → certificate_orders d !! job_order_id job = Some o →
  o_status o = "dns_challenge_presenting" →
  dbt d (present_job (N := N) job) (λ r d', r = Ok tt ∧ indexes_ok d'
    ∧ ∃ o', dealt_with o o' ∧ d' = set_orders (<[job_order_id job := o']> (certificate_orders d)) d).
Proof.
  intros Hix Ho Hst. unfold present_job. on_postgres. apply dbt_bind, dbt_env. intros r e e' Hrun.
  unfold attempt in Hrun.
  destruct (process_dns_challenge job e) as [[prepared|error] e1]; injection Hrun as <- <-.
  - set (p := prepared_payload prepared).
    assert (indexes_ok (set_orders (alter (set_o_payload p) (job_order_id job)
              (certificate_orders d)) d)) as Hix1 by (by apply indexes_alter).
    apply dbt_bind, update_order_ok; [done|]. set (d1 := set_orders _ d) in *.
    assert (certificate_orders d1 !! job_order_id job = Some (set_o_payload p o)) as Ho1
      by (simpl; by rewrite lookup_alter_eq, Ho).
    assert (indexes_ok (set_orders (alter (set_o_status "dns_challenge_presented" None)
              (job_order_id job) (certificate_orders d1)) d1)) as Hix2.
    { apply indexes_status; [|done]. rewrite Ho1. intros o1 [= <-]. simpl. rewrite Hst. constructor. }
    apply update_order_ok; [done|]. split_and!; [done..|].
    exists (set_o_status "dns_challenge_presented" None (set_o_payload p o)).
    split; [split; [by repeat split|by left]|]. unfold d1, set_orders. simpl. f_equal.
    rewrite (alter_insert_known (set_o_payload p) _ _ o Ho).
    rewrite (alter_insert_known _ _ _ (set_o_payload p o)) by apply lookup_insert_eq.
    by rewrite insert_insert_eq.
  - assert (indexes_ok (set_orders (alter (set_o_status "dns_challenge_failed" (Some error))
              (job_order_id job) (certificate_orders d)) d)) as Hix1.
    { apply indexes_status; [|done]. rewrite Ho. intros o1 [= <-]. rewrite Hst. constructor. }
    apply update_order_ok; [done|]. split_and!; [done..|].
    exists (set_o_status "dns_challenge_failed" (Some error) o).
    split; [split; [apply same_order_status|right; split_and!; [done|by eexists|done]]|].
    unfold set_orders. f_equal. by apply alter_insert_known.
Qed.

(** Every order of the jobs was dealt with, and nothing else changed. *)
Record dealt (ids : list Uuid) d d' : Prop := {
  dealt_orders : ∀ u o, u ∈ ids → certificate_orders d !! u = Some o →
    ∃ o', certificate_orders d' !! u = Some o' ∧ dealt_with o o';
  dealt_untouched : untouched ids d d';
  dealt_tables : d' = set_orders (certificate_orders d') d;
}.

Lemma present_jobs_ok jobs d :
  indexes_ok d → holding d "dns_challenge_presenting" jobs →
  dbt d (for_each (present_job (N := N)) jobs)
    (λ r d', r = Ok tt ∧ indexes_ok d' ∧ dealt (job_order_id <$> jobs) d d').
Proof.
  revert d. induction jobs as [|job jobs IH]; intros d Hix [Hnd Hall]; simpl.
  - apply dbt_ret. split_and!; [done..|]. split; [by intros u o ?%not_elem_of_nil|done|by destruct d].
  - apply NoDup_cons in Hnd as [Hni Hnd]. destruct (Hall job) as (o & Ho & Hst); [left|].
    apply dbt_bind. eapply dbt_mono; [by apply (present_job_ok d job o)|].
    intros r d1 (-> & Hix1 & o1 & Hdealt & ->).
    assert (∀ job', job' ∈ jobs → job_order_id job' ≠ job_order_id job) as Hne.
    { intros job' Hjob' Heq. apply Hni. rewrite <-Heq. by apply list_elem_of_fmap_2. }
    eapply dbt_mono; [apply IH; [done|split; [done|]]|].
    + intros job' Hjob'. destruct (Hall job') as (o' & Ho' & Hst'); [by right|]. exists o'. simpl.
      rewrite lookup_insert_ne by (by apply not_eq_sym, Hne). done.
    + intros r d2 (-> & Hix2 & [Hd Hu Ht]). split_and!; [done..|]. split.
      * intros u o'. csimpl. rewrite elem_of_cons. intros [->|Hin] Ho'.
        -- exists o1. rewrite (Hu _ Hni). simpl. rewrite lookup_insert_eq. by simplify_eq.
        -- apply Hd; [done|]. simpl. rewrite lookup_insert_ne; [done|]. intros <-. done.
      * intros u. csimpl. rewrite not_elem_of_cons. intros [Hne' Hin]. rewrite Hu by done. simpl.
        by rewrite lookup_insert_ne by done.
      * rewrite Ht. by destruct d.
Qed.

(** When the database does not fail and the names of the certificates can be
    read, a pass over the pending orders returns the number of orders it claimed,
    the oldest ones and at most the batch size, and leaves none of them half done:
    each is presented without an error, or failed with the error text and its
    payload as it was; no other order and no other table changes, and the unique
    indexes hold. *)
Theorem pending_pass_effect limit (s : WorkerState N) :
  let rows := select_orders "pending_dns_challenge" limit (db s) in
  indexes_ok (db s) → readable rows →
  let '(r, s') := process_pending_certificate_orders limit s in
  r = Ok (length rows) ∧ length rows ≤ sql_limit limit
  ∧ dealt (row_order_id <$> rows) (db s) (db s') ∧ indexes_ok (db s').
Proof.
  intros rows Hix Hread.
  assert (dbt (db s) (process_pending_certificate_orders (N := N) limit) (λ r d', r = Ok (length rows)
    ∧ dealt (row_order_id <$> rows) (db s) d' ∧ indexes_ok d')) as H.
  { unfold process_pending_certificate_orders. on_postgres. unfold claim_pending_dns_orders, claim_orders.
    apply dbt_bind, dbt_transaction; [by intros i e; rewrite no_error|].
    apply dbt_bind, query_ok. fold rows. eapply dbt_mono.
    { apply (claim_rows_ok _ "pending_dns_challenge"); [constructor|apply select_orders_NoDup|done..|].
      intros r Hr. apply select_orders_elem in Hr as (? & ? & _). eauto. }
    intros r d1 (jobs & -> & Hjobs & -> & Hix1). simpl.
    pose proof (job_for_id _ _ Hjobs) as Hids.
    apply dbt_bind. eapply dbt_mono; [apply present_jobs_ok; [done|by apply holding_mark]|].
    intros r d2 (-> & Hix2 & [Hd Hu Ht]). apply dbt_ret.
    split; [by rewrite (Forall2_length _ _ _ Hjobs)|]. split; [|done]. rewrite Hids in *. split.
    - intros u o Hin Ho. destruct (Hd u (set_o_status "dns_challenge_presenting" None o) Hin)
        as (o' & Ho' & Hsame & Hdone).
      { rewrite mark_lookup, decide_True, Ho by (done || apply select_orders_NoDup). done. }
      exists o'. split; [done|]. split; [|done]. etrans; [|exact Hsame]. apply same_order_status.
    - intros u Hin. rewrite Hu by done.
      by rewrite mark_lookup, decide_False by (done || apply select_orders_NoDup).
    - rewrite Ht. by destruct (db s). }
  specialize (H s eq_refl). destruct (process_pending_certificate_orders limit s) as [r s'].
  destruct H as (-> & Hd & Hix'). split_and!; [done|apply select_orders_length|done|done].
Qed.
End Reliable.

(** ** Examples *)

(** A database without errors, and one whose sixth statement fails. *)
Definition steady_db : WorkerExtern := {|
  worker_db _ := None;
  base64_standard := λ s, s;
  to_rfc3339 := pretty;
|}.
Definition failing_db : WorkerExtern := {|
  worker_db := λ i, if decide (i = 5) then Some "connection reset" else None;
  base64_standard := λ s, s;
  to_rfc3339 := pretty;
|}.

Definition demo_order : OrderRow :=
  mkOrderRow (Some 9%Z) (Some 2%Z) (Some 3%Z) "issue" "mock" "dns-01" (VObject [])
    "pending_dns_challenge" None 0.
Definition demo_certificate : CertificateRow :=
  mkCertRow "www.example.com" (VArray [VString "www.example.com"]) None None None "stub" "staging".
Definition demo_tables : Tables := {|
  certificate_orders := {[ 1%Z := demo_order ]};
  certificates := {[ 2%Z := demo_certificate ]};
  certificate_versions := ∅;
  site_cert_bindings := ∅;
  dns_zones := {[ 3%Z := mkZoneRow 4 "example.com" "z1" "active" ]};
  dns_providers := {[ 4%Z := mkProviderRow "noop" None "{}" ]};
|}.
Definition worker0 : WorkerState DemoCloud := mkDb demo_tables 0 (mkEnv cloud0 0 0).

(** One cycle carries the order from pending to issued. *)
Definition steady_cycle : Io (WorkerState DemoCloud) (nat * nat * nat) :=
  worker_cycle (WX := steady_db) (AC := MockAcmeClient (WX := steady_db)) 10 30 "mock".

Example steady_cycle_issues :
  (steady_cycle worker0).1 = Ok (0, 1, 1)
  ∧ o_status <$> certificate_orders (db (steady_cycle worker0).2) !! 1%Z = Some "issued".
Proof. split; vm_compute; reflexivity. Qed.

(** The write after the challenge was presented fails: the order stays claimed. *)
Definition stranded : WorkerState DemoCloud :=
  (worker_cycle (WX := failing_db) (AC := MockAcmeClient (WX := failing_db)) 10 30 "mock" worker0).2.

Lemma claimed_order_strands_witness :
  (o_status <$> certificate_orders (db stranded) !! 1%Z = Some "dns_challenge_presenting")
  ∧ (o_status <$> certificate_orders (db (turns (WX := steady_db) (AC := MockAcmeClient (WX := steady_db))
                                            5 10 30 "mock" stranded)) !! 1%Z
     = Some "dns_challenge_presenting").
Proof.
  split; [vm_compute; reflexivity|].
  set (o := set_o_status "dns_challenge_presenting" None demo_order).
  rewrite (claimed_order_strands (WX := steady_db) (AC := MockAcmeClient (WX := steady_db)) 5 10 30 "mock"
             stranded 1 o).
  - reflexivity.
  - vm_compute. reflexivity.
  - left.
Defined.

Lemma demo_indexes : indexes_ok demo_tables.
Proof. apply (bool_decide_unpack _). vm_compute. exact I. Qed.

Lemma pending_pass_effect_witness :
  let s := (process_pending_certificate_orders (CS := PostgresCertificateOrderStore (WX := steady_db))
              (AC := MockAcmeClient (WX := steady_db)) 10 worker0).2 in
  dealt [1%Z] demo_tables (db s) ∧ indexes_ok (db s)
  ∧ (o_status <$> certificate_orders (db s) !! 1%Z = Some "dns_challenge_presented").
Proof.
  intros s.
  assert (s = (process_pending_certificate_orders (CS := PostgresCertificateOrderStore (WX := steady_db))
                 (AC := MockAcmeClient (WX := steady_db)) 10 worker0).2) as Hs by done.
  clearbody s.
  pose proof (pending_pass_effect (WX := steady_db) (AC := MockAcmeClient (WX := steady_db))
    (λ _, eq_refl) 10 worker0 demo_indexes) as H.
  assert (o_status <$> certificate_orders (db s) !! 1%Z = Some "dns_challenge_presented") as Hst
    by (rewrite Hs; vm_compute; reflexivity).
  destruct (process_pending_certificate_orders 10 worker0) as [r s'].
  simpl in Hs. subst s'. destruct H as (_ & _ & Hd & Hix).
  - repeat constructor. eexists. vm_compute. reflexivity.
  - split_and!; [exact Hd|exact Hix|exact Hst].
Defined.

Lemma worker_moves_orders_witness :
  evolves demo_tables (db (steady_cycle worker0).2)
  ∧ o_status <$> certificate_orders (db (steady_cycle worker0).2) !! 1%Z = Some "issued".
Proof.
  split; [|vm_compute; reflexivity].
  exact (worker_moves_orders (WX := steady_db) (AC := MockAcmeClient (WX := steady_db)) 10 30 "mock" worker0).
Defined.

(** A renewal for a site whose default certificate it is. *)
Definition renewed_tables : Tables := {|
  certificate_orders := {[ 1%Z := set_o_status "issuing" None demo_order ]};
  certificates := {[ 2%Z := demo_certificate ]};
  certificate_versions := {[ 5%Z := mkVersionRow 2 7 "cert" "key" None ]};
  site_cert_bindings := {[ 6%Z := mkBindingRow 9 2 7 true ]};
  dns_zones := ∅;
  dns_providers := ∅;
|}.
Definition demo_request : PersistIssuedCertificateRequest :=
  mkPersist 1 None 2 "renew" None (mkMaterial "issuer" 0 100 "cert2" "key2" None "print").

Lemma persist_issued_effect_witness :
  let s := mkDb renewed_tables 0 (mkEnv cloud0 20 0) in
  let s' := (persist_issued_certificate (WX := steady_db) demo_request s).2 in
  issued demo_request renewed_tables (db s')
  ∧ target_sites demo_request renewed_tables = [9%Z] ∧ next_version 2 renewed_tables = 8%Z.
Proof.
  intros s s'. split; [|split; vm_compute; reflexivity].
  pose proof (persist_issued_effect (WX := steady_db) demo_request s) as H.
  assert ((persist_issued_certificate (WX := steady_db) demo_request s).1 = Ok tt) as Hok
    by (vm_compute; reflexivity).
  subst s'. destruct (persist_issued_certificate demo_request s) as [r s']. simpl in Hok. subst r. apply H.
Defined.
