(* ===== verification/WorkerEnv.v ===== *)
(** * Settings from the environment

    The workers and the agent read their settings from environment variables,
    with the same three readers. *)

From stdpp Require Import prelude strings.
From Stdlib Require Import Ascii.
From S2P Require Import Prelude RustStr.

(** [std::env::var]; [None] is its error. *)
Class EnvVars := env_var : string → option string.

(** [str::parse] for the unsigned and the signed types. *)
Definition parse_unsigned (max : Z) (s : string) : option Z :=
  let digits := match bytes s with "+"%char :: l => l | l => l end in
  if decide (digits = []) then None
  else n ← decimal 0 digits; if (n <=? max)%Z then Some n else None.

Definition parse_signed (min max : Z) (s : string) : option Z :=
  match bytes s with
  | "-"%char :: l =>
      if decide (l = []) then None
      else n ← decimal 0 l; if (min <=? - n)%Z then Some (- n)%Z else None
  | _ => parse_unsigned max s
  end.

Section Readers.
Context `{!EnvVars}.

Definition parse_env_u64 (name : string) (default_value : Z) : Z :=
  default default_value (env_var name ≫= parse_unsigned u64_max).
Definition parse_env_u32 (name : string) (default_value : Z) : Z :=
  default default_value (env_var name ≫= parse_unsigned u32_max).
Definition parse_env_bool (name : string) : bool :=
  match env_var name with
  | Some value => bool_decide (value ∈ ["1"; "true"; "TRUE"; "yes"; "YES"])
  | None => false
  end.
End Readers.

(** A setting that is read is within its type; any other text is the default. *)
Lemma parse_unsigned_bound max s n : parse_unsigned max s = Some n → (n ≤ max)%Z.
Proof.
  unfold parse_unsigned. case_decide; [done|]. destruct (decimal 0 _) as [k|]; simpl; [|done].
  destruct (Z.leb_spec k max); [|done]. by intros [= <-].
Qed.

Lemma parse_env_u64_bound `{!EnvVars} name d : (d ≤ u64_max)%Z → (parse_env_u64 name d ≤ u64_max)%Z.
Proof.
  intros Hd. unfold parse_env_u64. destruct (env_var name ≫= _) as [n|] eqn:Hn; [|done]. simpl.
  apply bind_Some in Hn as (s & _ & Hn). by eapply parse_unsigned_bound.
Qed.
