(* ===== verification/NodeAgent.v ===== *)
(** * The node agent (apps/node-agent/src/main.rs)

    The program on a node: it keeps a session with the hub, sends heartbeats,
    stages, applies and acknowledges releases, and runs the operations queued for
    the node.  Its state is the memory of [main] (registration, local state,
    session), the files it writes, and counters that number the calls it makes to
    the file system, to processes and to the clock, whose answers are parameters.
    The hub is behind [HubLink]: a call has an answer, or could not be made.  An
    error is its chain of contexts, outermost first, as [anyhow] keeps it. *)

From stdpp Require Import prelude strings pretty gmap.
From Stdlib Require Import Ascii.
From S2P Require Import Prelude RustStr Json Extern HubNodes HubOps HubReleases Http DnsProvider Io WorkerEnv.

(** ** Data *)

Record AgentConfig := mkAgentConfig {
  hub_base_url : string;
  registration_path : string;
  state_path : string;
  data_dir : string;
  cfg_pingora_version : string;
  cfg_agent_version : string;
  heartbeat_interval_seconds : Z;
  apply_command : option string;
  allow_noop_apply : bool;
  apply_timeout_seconds : Z;
  healthcheck_url : option string;
  healthcheck_expected_status : option Z;
  healthcheck_timeout_seconds : Z;
  healthcheck_retries : Z;
  healthcheck_interval_seconds : Z;
}.

Record RegistrationMetadata := mkRegistration {
  reg_node_id : Uuid;
  reg_node_code : string;
  reg_hostname : string;
  reg_private_ip : string;
  reg_refresh_token : string;
  reg_expires_at : string;
  registration_mode : string;
}.

Record LocalAgentState := mkLocal {
  current_release_id : option Uuid;
  current_release_version : option string;
  current_config_hash : option string;
  local_site_count : Z;
  last_acknowledged_release_id : option Uuid;
  last_heartbeat_at : option DateTime;
}.

(** [#[derive(Default)]]. *)
Definition default_local : LocalAgentState := mkLocal None None None 0 None None.

Definition set_last_heartbeat_at (v : option DateTime) (s : LocalAgentState) : LocalAgentState :=
  mkLocal (current_release_id s) (current_release_version s) (current_config_hash s)
    (local_site_count s) (last_acknowledged_release_id s) v.
Definition set_last_acknowledged (v : option Uuid) (s : LocalAgentState) : LocalAgentState :=
  mkLocal (current_release_id s) (current_release_version s) (current_config_hash s)
    (local_site_count s) v (last_heartbeat_at s).
Definition set_current_release (rid : Uuid) (version hash : string) (count : Z) (s : LocalAgentState) :
    LocalAgentState :=
  mkLocal (Some rid) (Some version) (Some hash) count (last_acknowledged_release_id s)
    (last_heartbeat_at s).

Record Session := mkSession {
  access_token : string;
  session_expires_at : DateTime;
}.

Record ReleaseArtifacts := mkArtifacts {
  release_dir : string;
  package_path : string;
  manifest_path : string;
  rendered_config_path : string;
  certificates_path : string;
}.

Inductive SyncAction :=
  | NoRelease
  | Idle
  | Applied (version : string)
  | Acked (version : string).

(** ** The environment *)

Abbreviation Error := (list string).

(** A process to start: the argument of [sh -lc] and its variables. *)
Record CommandSpec := mkCommand {
  cmd_line : string;
  cmd_env : list (string * string);
}.

Inductive ExecOutcome :=
  | TimedOut
  | SpawnFailed (text : string)
  | Exited (code : option Z) (stdout stderr : string).

Class AgentExtern := {
  agent_env :: EnvVars;
  (** The n-th call to the file system fails with a text; a failed write may
      leave other contents. *)
  io_error : nat → option (string * option string);
  (** The n-th process, with its time limit in seconds, and the files it leaves. *)
  spawn : nat → CommandSpec → Z → gmap string string → ExecOutcome * gmap string string;
  (** The n-th probe of a URL: the status of the answer or an error. *)
  probe : nat → string → Z → Result Z string;
  (** [serde_json] and [chrono]. *)
  registration_to_json : RegistrationMetadata → string;
  registration_from_json : string → Result RegistrationMetadata string;
  state_to_json : LocalAgentState → string;
  state_from_json : string → Result LocalAgentState string;
  package_to_json : ConfigPackageResponse → string;
  value_to_json : Value → string;
  to_rfc3339 : DateTime → string;
}.

(** A call to the hub, and its answer: the status, the text of the body, and
    what it decodes to as an [ApiResponse]. *)
Record HubCall := mkHubCall {
  hc_verb : Verb;
  hc_url : string;
  hc_body : option RequestBody;
  hc_token : option string;
}.

Record HubReply := mkHubReply {
  hr_status : Z;
  hr_text : Result string string;
  hr_data : Result Payload string;
}.

Class HubLink (H : Type) := hub_call : HubCall → H → Result HubReply string * H.

(** [T: DeserializeOwned] of the answers the agent reads. *)
Class FromPayload (A : Type) := from_payload : Payload → option A.
#[export] Instance from_tokens : FromPayload NodeTokensResponse := λ p,
  match p with PNodeTokensResponse d => Some d | _ => None end.
#[export] Instance from_heartbeat : FromPayload NodeHeartbeatResponse := λ p,
  match p with PNodeHeartbeatResponse d => Some d | _ => None end.
#[export] Instance from_latest : FromPayload LatestReleaseResponse := λ p,
  match p with PLatestReleaseResponse d => Some d | _ => None end.
#[export] Instance from_package : FromPayload ConfigPackageResponse := λ p,
  match p with PConfigPackageResponse d => Some d | _ => None end.
#[export] Instance from_ack : FromPayload ReleaseAckResponse := λ p,
  match p with PReleaseAckResponse d => Some d | _ => None end.
#[export] Instance from_pending : FromPayload PendingOperationResponse := λ p,
  match p with PPendingOperationResponse d => Some d | _ => None end.
#[export] Instance from_result : FromPayload OperationResultResponse := λ p,
  match p with POperationResultResponse d => Some d | _ => None end.

(** The agent: what [main] holds and what it acts on. *)
Record Agent (H : Type) := mkAgent {
  hub : H;
  files : gmap string string;
  io_next : nat;
  exec_next : nat;
  probe_next : nat;
  now_next : nat;
  registration : RegistrationMetadata;
  local : LocalAgentState;
  session : Session;
}.
Arguments mkAgent {_} _ _ _ _ _ _ _ _ _.
Arguments hub {_} _.
Arguments files {_} _.
Arguments io_next {_} _.
Arguments exec_next {_} _.
Arguments probe_next {_} _.
Arguments now_next {_} _.
Arguments registration {_} _.
Arguments local {_} _.
Arguments session {_} _.

Section Setters.
Context {H : Type}.
Definition set_hub (h : H) (a : Agent H) : Agent H :=
  mkAgent h (files a) (io_next a) (exec_next a) (probe_next a) (now_next a) (registration a)
    (local a) (session a).
Definition set_files (f : gmap string string) (n : nat) (a : Agent H) : Agent H :=
  mkAgent (hub a) f n (exec_next a) (probe_next a) (now_next a) (registration a) (local a)
    (session a).
Definition set_exec (f : gmap string string) (n : nat) (a : Agent H) : Agent H :=
  mkAgent (hub a) f (io_next a) n (probe_next a) (now_next a) (registration a) (local a) (session a).
Definition set_probe_next (n : nat) (a : Agent H) : Agent H :=
  mkAgent (hub a) (files a) (io_next a) (exec_next a) n (now_next a) (registration a) (local a)
    (session a).
Definition set_now_next (n : nat) (a : Agent H) : Agent H :=
  mkAgent (hub a) (files a) (io_next a) (exec_next a) (probe_next a) n (registration a) (local a)
    (session a).
Definition set_registration (r : RegistrationMetadata) (a : Agent H) : Agent H :=
  mkAgent (hub a) (files a) (io_next a) (exec_next a) (probe_next a) (now_next a) r (local a)
    (session a).
Definition set_local (l : LocalAgentState) (a : Agent H) : Agent H :=
  mkAgent (hub a) (files a) (io_next a) (exec_next a) (probe_next a) (now_next a) (registration a) l
    (session a).
Definition set_session (s : Session) (a : Agent H) : Agent H :=
  mkAgent (hub a) (files a) (io_next a) (exec_next a) (probe_next a) (now_next a) (registration a)
    (local a) s.
End Setters.

Abbreviation AgentIo H := (IoE Error (Agent H)).

(** [.context(message)], [.with_context(...)]. *)
Definition context {S A} (message : string) (m : IoE Error S A) : IoE Error S A := λ s,
  let '(r, s') := m s in (map_err (cons message) r, s').

(** [error.to_string()] and [format!("{error:#}")]. *)
Definition error_to_string (e : Error) : string := default "" (head e).
Definition error_alternate (e : Error) : string := join ": " e.

(** ** Configuration *)

(** [PathBuf::join]: an absolute path replaces the base. *)
Definition path_join (base name : string) : string :=
  if starts_with "/" name then name
  else if is_empty base || ends_with "/" base then base +:+ name
  else base +:+ "/" +:+ name.

Section Config.
Context `{!AgentExtern}.

Definition optional_env (name : string) : option string :=
  value ← env_var name;
  let value := trim value in if is_empty value then None else Some value.

(** The version of the package is [env!("CARGO_PKG_VERSION")]. *)
Definition from_env (cargo_pkg_version : string) : AgentConfig :=
  let data_dir := default "/var/lib/pingorahub/node-agent"
                    (env_var "PINGORAHUB_NODE_AGENT_DATA_DIR") in
  {|
    hub_base_url := trim_end_matches "/"
      (default "http://127.0.0.1:3000" (env_var "PINGORAHUB_HUB_BASE_URL"));
    registration_path := default "/etc/pingorahub/manual-node-registration.json"
      (env_var "PINGORAHUB_NODE_REGISTRATION_PATH");
    state_path := default (path_join data_dir "state.json")
      (env_var "PINGORAHUB_NODE_AGENT_STATE_PATH");
    data_dir := data_dir;
    cfg_pingora_version := default "manual-pending"
      (env_var "PINGORAHUB_NODE_AGENT_PINGORA_VERSION");
    cfg_agent_version := default cargo_pkg_version (env_var "PINGORAHUB_NODE_AGENT_VERSION");
    heartbeat_interval_seconds := parse_env_u64 "PINGORAHUB_NODE_AGENT_MIN_HEARTBEAT_SECONDS" 15;
    apply_command := optional_env "PINGORAHUB_NODE_APPLY_COMMAND";
    allow_noop_apply := parse_env_bool "PINGORAHUB_NODE_ALLOW_NOOP_APPLY";
    apply_timeout_seconds := parse_env_u64 "PINGORAHUB_NODE_APPLY_TIMEOUT_SECONDS" 30;
    healthcheck_url := optional_env "PINGORAHUB_NODE_APPLY_HEALTHCHECK_URL";
    healthcheck_expected_status :=
      env_var "PINGORAHUB_NODE_APPLY_HEALTHCHECK_EXPECT_STATUS" ≫= parse_unsigned u16_max;
    healthcheck_timeout_seconds :=
      parse_env_u64 "PINGORAHUB_NODE_APPLY_HEALTHCHECK_TIMEOUT_SECONDS" 10;
    healthcheck_retries := parse_env_u32 "PINGORAHUB_NODE_APPLY_HEALTHCHECK_RETRIES" 3;
    healthcheck_interval_seconds :=
      parse_env_u64 "PINGORAHUB_NODE_APPLY_HEALTHCHECK_INTERVAL_SECONDS" 2;
  |}.

Definition current_process_user : string :=
  match env_var "USER" with
  | Some user => user
  | None => default "unknown" (env_var "LOGNAME")
  end.
End Config.

Definition releases_dir (config : AgentConfig) : string := path_join (data_dir config) "releases".
Definition current_release_version_path (config : AgentConfig) : string :=
  path_join (data_dir config) "current-release-version".
Definition current_manifest_path (config : AgentConfig) : string :=
  path_join (data_dir config) "current-manifest.json".
Definition current_rendered_config_path (config : AgentConfig) : string :=
  path_join (data_dir config) "current-rendered-config.json".
Definition current_certificates_path (config : AgentConfig) : string :=
  path_join (data_dir config) "current-certificates.json".

(** ** Text *)

(** [str::split_whitespace]; [fuel] bounds the steps by the length. *)
Fixpoint split_whitespace_list (fuel : nat) (word l : list ascii) : list (list ascii) :=
  let flush := if decide (word = []) then [] else [word] in
  match fuel with
  | O => flush
  | S fuel =>
      match strip_any whitespace l with
      | Some l' => flush ++ split_whitespace_list fuel [] l'
      | None =>
          match l with
          | [] => flush
          | c :: l' => split_whitespace_list fuel (word ++ [c]) l'
          end
      end
  end.

Definition split_whitespace (s : string) : list string :=
  of_bytes <$> split_whitespace_list (S (length (bytes s))) [] (bytes s).

Definition MAX_LEN : nat := 400.

Definition truncate_message (raw : string) : string :=
  let normalized := join " " (split_whitespace raw) in
  if chars_count normalized <=? MAX_LEN then normalized
  else take_chars MAX_LEN normalized +:+ "...".

Definition classify_operation_error (e : Error) : string :=
  if contains "timed out" (error_to_string e) then "timeout" else "failed".

Definition is_not_found (e : Error) : bool := contains "http 404:" (error_to_string e).
Definition is_auth_error (e : Error) : bool := contains "http 401:" (error_to_string e).

Definition healthcheck_status_matches (status : Z) (expected_status : option Z) : bool :=
  match expected_status with
  | Some expected => bool_decide (status = expected)
  | None => is_success status || ((300 <=? status)%Z && (status <? 400)%Z)
  end.

Definition reported_current_version (state : LocalAgentState) (fallback : string) : string :=
  default fallback (current_release_version state).

(** The text of a process that failed: its exit and its output. *)
Definition exit_text (what : string) (code : option Z) (stdout stderr : string) : string :=
  what +:+ " exited with " +:+ match code with Some c => pretty c | None => "signal" end
  +:+ "; stdout=" +:+ (if is_empty stdout then "-" else stdout)
  +:+ "; stderr=" +:+ (if is_empty stderr then "-" else stderr).

Section Agent.
Context {H : Type} `{EX : !Extern, AX : !AgentExtern, HL : !HubLink H}.

(** ** The file system and the clock *)

Definition utc_now : AgentIo H DateTime := λ a,
  (Ok (clock (now_next a)), set_now_next (S (now_next a)) a).

(** [fs::create_dir_all]: directories are not tracked. *)
Definition create_dir_all (path : string) : AgentIo H unit := λ a,
  match io_error (io_next a) with
  | Some (text, _) => (Err [text], set_files (files a) (S (io_next a)) a)
  | None => (Ok tt, set_files (files a) (S (io_next a)) a)
  end.

Definition fs_write (path contents : string) : AgentIo H unit := λ a,
  match io_error (io_next a) with
  | Some (text, leftover) =>
      (Err [text], set_files (match leftover with
                              | Some c => <[path := c]> (files a)
                              | None => files a
                              end) (S (io_next a)) a)
  | None => (Ok tt, set_files (<[path := contents]> (files a)) (S (io_next a)) a)
  end.

(** [fs::read]: the contents, or [None] for a file that does not exist. *)
Definition fs_read_opt (path : string) : AgentIo H (option string) := λ a,
  match io_error (io_next a) with
  | Some (text, _) => (Err [text], set_files (files a) (S (io_next a)) a)
  | None => (Ok (files a !! path), set_files (files a) (S (io_next a)) a)
  end.

Definition fs_read (path : string) : AgentIo H string :=
  let! contents := fs_read_opt path in
  lift (ok_or contents ["No such file or directory (os error 2)"]).

(** The parent of the state path ([Path::parent]) is an argument. *)
Definition ensure_dirs (config : AgentConfig) (state_parent : option string) : AgentIo H unit :=
  do! context ("failed to create " +:+ data_dir config) (create_dir_all (data_dir config)) in
  do! match state_parent with
      | Some parent => context ("failed to create " +:+ parent) (create_dir_all parent)
      | None => ret tt
      end in
  context ("failed to create " +:+ releases_dir config) (create_dir_all (releases_dir config)).

Definition registration_persist (path : string) (r : RegistrationMetadata) : AgentIo H unit :=
  context ("failed to write registration metadata to " +:+ path)
    (fs_write path (registration_to_json r)).

Definition registration_load (path : string) : AgentIo H RegistrationMetadata :=
  let! raw := context ("failed to read registration metadata from " +:+ path) (fs_read path) in
  context "failed to parse registration metadata json"
    (lift (map_err (λ e, [e]) (registration_from_json raw))).

Definition state_persist (path : string) (s : LocalAgentState) : AgentIo H unit :=
  context ("failed to write node-agent state to " +:+ path) (fs_write path (state_to_json s)).

Definition state_load (path : string) : AgentIo H LocalAgentState :=
  let! raw := context ("failed to read node-agent state from " +:+ path) (fs_read_opt path) in
  match raw with
  | Some raw =>
      context "failed to parse node-agent state json" (lift (map_err (λ e, [e]) (state_from_json raw)))
  | None => ret default_local
  end.

(** ** Calls to the hub *)

Definition parse_response `{!FromPayload A} (response : HubReply) : AgentIo H A :=
  let! body := context "failed to read response body"
                 (lift (map_err (λ e, [e]) (hr_text response))) in
  do! require (is_success (hr_status response))
        ["http " +:+ pretty (hr_status response) +:+ ": " +:+ body] in
  let! data := context "failed to decode api response envelope"
                 (lift (map_err (λ e, [e]) (hr_data response))) in
  context "failed to decode api response envelope"
    (lift (ok_or (from_payload data) ["missing field"])).

Definition call_hub (call : HubCall) : AgentIo H HubReply := λ a,
  let '(r, h) := hub_call call (hub a) in (map_err (λ e, [e]) r, set_hub h a).

Definition get_json `{!FromPayload A} (url : string) (token : option string) : AgentIo H A :=
  let! response := context ("failed GET " +:+ url) (call_hub (mkHubCall Get url None token)) in
  parse_response response.

Definition post_json `{!FromPayload A} (url : string) (body : RequestBody) (token : option string) :
    AgentIo H A :=
  let! response := context ("failed POST " +:+ url)
                     (call_hub (mkHubCall Post url (Some body) token)) in
  parse_response response.

(** ** The session *)

Definition should_refresh : AgentIo H bool :=
  let! now := utc_now in
  gets (λ a, (session_expires_at (session a) <=? now + minutes 5)%Z).

Section WithConfig.
Context (config : AgentConfig).

(** Stores the new refresh token in memory, then on disk. *)
Definition refresh_session : AgentIo H Session :=
  let! reg := gets registration in
  let! response := post_json (hub_base_url config +:+ "/api/node/auth/refresh")
                     (JNodeRefreshRequest (mkRefresh (reg_node_id reg) (reg_refresh_token reg))) None in
  let reg := mkRegistration (reg_node_id reg) (reg_node_code reg) (reg_hostname reg)
               (reg_private_ip reg) (resp_refresh_token response)
               (to_rfc3339 (resp_expires_at response)) (registration_mode reg) in
  do! modify (set_registration reg) in
  do! registration_persist (registration_path config) reg in
  ret (mkSession (resp_access_token response) (resp_expires_at response)).

(** [session = refresh_session(..).await?]. *)
Definition renew_session : AgentIo H unit :=
  let! s := refresh_session in modify (set_session s).

Definition token : AgentIo H (option string) := gets (λ a, Some (access_token (session a))).

Definition heartbeat : AgentIo H NodeHeartbeatResponse :=
  let! reg := gets registration in
  let! state := gets local in
  let! tok := token in
  post_json (hub_base_url config +:+ "/api/node/heartbeat")
    (JNodeHeartbeatRequest {|
       beat_node_id := reg_node_id reg;
       beat_pingora_version := cfg_pingora_version config;
       beat_agent_version := cfg_agent_version config;
       beat_active_config_version := current_release_version state;
       beat_site_count := local_site_count state;
       beat_cpu_usage := 0;
       beat_mem_usage := 0;
       beat_disk_usage := 0;
       beat_health_score := 100;
     |}) tok.

(** ** Releases *)

Definition report_release_status (release_id : Uuid) (apply_status current_version : string)
    (message : option string) : AgentIo H ReleaseAckResponse :=
  let! reg := gets registration in
  let! tok := token in
  post_json (hub_base_url config +:+ "/api/node/releases/" +:+ uuid_to_string release_id +:+ "/ack")
    (JReleaseAckRequest (mkAckRequest (reg_node_id reg) apply_status current_version message)) tok.

Definition acknowledge_release (package : ConfigPackageResponse) (message : option string) :
    AgentIo H unit :=
  do! report_release_status (cp_release_id package) "success" (cp_release_version package) message in
  ret tt.

Definition persist_release_artifacts (package : ConfigPackageResponse) : AgentIo H ReleaseArtifacts :=
  let dir := path_join (releases_dir config) (cp_release_version package) in
  do! context ("failed to create " +:+ dir) (create_dir_all dir) in
  let artifacts := mkArtifacts dir (path_join dir "package.json") (path_join dir "manifest.json")
    (path_join dir "rendered-config.json") (path_join dir "certificates.json") in
  do! context ("failed to write package.json for " +:+ cp_release_version package)
        (fs_write (package_path artifacts) (package_to_json package)) in
  do! context ("failed to write manifest.json for " +:+ cp_release_version package)
        (fs_write (manifest_path artifacts) (value_to_json (cp_manifest package))) in
  do! context ("failed to write rendered-config.json for " +:+ cp_release_version package)
        (fs_write (rendered_config_path artifacts) (value_to_json (cp_rendered_config package))) in
  do! context ("failed to write certificates.json for " +:+ cp_release_version package)
        (fs_write (certificates_path artifacts) (value_to_json (cp_certificates package))) in
  ret artifacts.

(** [fs::write(to, fs::read(from)?)]. *)
Definition copy_file (from to read_message : string) : AgentIo H unit :=
  let! contents := context (read_message +:+ from) (fs_read from) in
  context ("failed to write " +:+ to) (fs_write to contents).

Definition activate_release_artifacts (package : ConfigPackageResponse) (artifacts : ReleaseArtifacts) :
    AgentIo H unit :=
  do! context ("failed to write " +:+ current_release_version_path config)
        (fs_write (current_release_version_path config) (cp_release_version package)) in
  do! copy_file (manifest_path artifacts) (current_manifest_path config)
        "failed to read staged manifest " in
  do! copy_file (rendered_config_path artifacts) (current_rendered_config_path config)
        "failed to read staged rendered config " in
  copy_file (certificates_path artifacts) (current_certificates_path config)
    "failed to read staged certificates ".

Definition ensure_apply_mode : AgentIo H unit :=
  require (negb (bool_decide (apply_command config = None) && negb (allow_noop_apply config)))
    ["PINGORAHUB_NODE_APPLY_COMMAND is required unless PINGORAHUB_NODE_ALLOW_NOOP_APPLY=true"].

(** [tokio::time::timeout(limit, command.output())] with its two contexts. *)
Definition run_command (cmd : CommandSpec) (limit : Z) (timeout_message spawn_message : string) :
    AgentIo H (option Z * string * string) := λ a,
  let '(outcome, f) := spawn (exec_next a) cmd limit (files a) in
  let a' := set_exec f (S (exec_next a)) a in
  match outcome with
  | TimedOut => (Err [timeout_message; "deadline has elapsed"], a')
  | SpawnFailed text => (Err [spawn_message; text], a')
  | Exited code stdout stderr => (Ok (code, truncate_message stdout, truncate_message stderr), a')
  end.

Definition run_apply_command (package : ConfigPackageResponse) (artifacts : ReleaseArtifacts)
    (previous_version : option string) (command : string) : AgentIo H string :=
  let trimmed_command := trim command in
  if is_empty trimmed_command
  then ret "apply command is empty; skipped external apply step"
  else
    let! reg := gets registration in
    let variables :=
      [("PINGORAHUB_NODE_ID", uuid_to_string (reg_node_id reg));
       ("PINGORAHUB_NODE_CODE", reg_node_code reg);
       ("PINGORAHUB_NODE_HOSTNAME", reg_hostname reg);
       ("PINGORAHUB_NODE_PRIVATE_IP", reg_private_ip reg);
       ("PINGORAHUB_DATA_DIR", data_dir config);
       ("PINGORAHUB_RELEASE_ID", uuid_to_string (cp_release_id package));
       ("PINGORAHUB_RELEASE_VERSION", cp_release_version package);
       ("PINGORAHUB_RELEASE_DIR", release_dir artifacts);
       ("PINGORAHUB_RELEASE_PACKAGE_PATH", package_path artifacts);
       ("PINGORAHUB_RELEASE_MANIFEST_PATH", manifest_path artifacts);
       ("PINGORAHUB_RELEASE_RENDERED_CONFIG_PATH", rendered_config_path artifacts);
       ("PINGORAHUB_RELEASE_CERTIFICATES_PATH", certificates_path artifacts)]
      ++ match previous_version with
         | Some version => [("PINGORAHUB_PREVIOUS_RELEASE_VERSION", version)]
         | None => []
         end in
    let! output := run_command (mkCommand trimmed_command variables) (apply_timeout_seconds config)
      ("apply command timed out after " +:+ pretty (apply_timeout_seconds config) +:+ "s")
      "failed to execute apply command" in
    let '(code, stdout, stderr) := output in
    do! require (bool_decide (code = Some 0%Z)) [exit_text "apply command" code stdout stderr] in
    ret (if is_empty stdout then "apply command completed"
         else "apply command completed: " +:+ stdout).

(** The loop of [run_healthcheck] over the attempts that are left; the pauses
    between them have no effect. *)
Fixpoint healthcheck_attempts (url : string) (attempts : Z) (left : nat) (attempt : Z)
    (last_error : string) : AgentIo H string :=
  match left with
  | O => fail ["health check " +:+ url +:+ " failed after " +:+ pretty attempts
               +:+ " attempt(s): " +:+ last_error]
  | S left' => λ a,
      let a' := set_probe_next (S (probe_next a)) a in
      match probe (probe_next a) url (healthcheck_timeout_seconds config) with
      | Ok status =>
          if healthcheck_status_matches status (healthcheck_expected_status config)
          then (Ok ("health check passed on attempt " +:+ pretty attempt +:+ " with status "
                    +:+ pretty status), a')
          else healthcheck_attempts url attempts left' (attempt + 1)
                 ("unexpected status " +:+ pretty status +:+ " on attempt " +:+ pretty attempt) a'
      | Err error =>
          healthcheck_attempts url attempts left' (attempt + 1)
            ("health check attempt " +:+ pretty attempt +:+ " failed: " +:+ error) a'
      end
  end.

Definition run_healthcheck : AgentIo H string :=
  let! url := lift (ok_or (healthcheck_url config) ["health check url is not configured"]) in
  let attempts := Z.max (healthcheck_retries config) 1 in
  healthcheck_attempts url attempts (Z.to_nat attempts) 1 "".

Definition apply_release_package (package : ConfigPackageResponse) (artifacts : ReleaseArtifacts) :
    AgentIo H string :=
  do! ensure_apply_mode in
  let! state := gets local in
  let! note :=
    match apply_command config with
    | Some command =>
        run_apply_command package artifacts (current_release_version state) command
    | None => ret "no apply command configured; noop apply explicitly allowed"
    end in
  let! health :=
    if decide (healthcheck_url config = None) then ret "no health check configured"
    else run_healthcheck in
  ret (join "; " ["artifacts staged at " +:+ release_dir artifacts; note; health]).

(** [sites.len() as u32]. *)
Definition manifest_sites (package : ConfigPackageResponse) : Z :=
  match get_array (cp_manifest package) "sites" with
  | Some sites => wrap_u32 (Z.of_nat (length sites))
  | None => 0
  end.

(** The branch of [sync_latest_release] for a version the node does not run. *)
Definition apply_latest (latest : LatestReleaseResponse) : AgentIo H SyncAction :=
  let! state := gets local in
  let previous_version := reported_current_version state (lr_release_version latest) in
  do! report_release_status (lr_release_id latest) "downloading" previous_version
        (Some ("node-agent downloading " +:+ lr_release_version latest)) in
  let! tok := token in
  let! package := get_json (A := ConfigPackageResponse)
                    (hub_base_url config +:+ download_url latest) tok in
  let! artifacts := persist_release_artifacts package in
  do! report_release_status (lr_release_id latest) "applying" previous_version
        (Some ("release artifacts staged at " +:+ release_dir artifacts
               +:+ "; starting apply pipeline")) in
  let! applied := attempt (apply_release_package package artifacts) in
  match applied with
  | Err error =>
      do! attempt (report_release_status (lr_release_id latest) "failed" previous_version
                     (Some (truncate_message ("release " +:+ cp_release_version package
                              +:+ " apply failed: " +:+ error_alternate error)))) in
      fail error
  | Ok apply_message =>
      do! activate_release_artifacts package artifacts in
      do! modify (λ a, set_local (set_current_release (cp_release_id package)
            (cp_release_version package) (lr_config_hash latest) (manifest_sites package) (local a)) a) in
      do! acknowledge_release package (Some apply_message) in
      do! modify (λ a, set_local (set_last_acknowledged (Some (cp_release_id package)) (local a)) a) in
      let! state := gets local in
      do! state_persist (state_path config) state in
      ret (Applied (cp_release_version package))
  end.

(** The branch for the version the node runs. *)
Definition confirm_latest (latest : LatestReleaseResponse) : AgentIo H SyncAction :=
  let! state := gets local in
  if decide (last_acknowledged_release_id state = Some (lr_release_id latest)) then ret Idle
  else
    let! current_version := lift (ok_or (current_release_version state)
                                    ["missing current release version for ack"]) in
    do! report_release_status (lr_release_id latest) "success" current_version
          (Some "node-agent confirmed active release state") in
    do! modify (λ a, set_local (set_last_acknowledged (Some (lr_release_id latest)) (local a)) a) in
    let! state := gets local in
    do! state_persist (state_path config) state in
    ret (Acked current_version).

Definition sync_latest_release : AgentIo H SyncAction :=
  let! reg := gets registration in
  let! tok := token in
  let! found := attempt (get_json (A := LatestReleaseResponse)
    (hub_base_url config +:+ "/api/node/config/releases/latest?node_id="
     +:+ uuid_to_string (reg_node_id reg)) tok) in
  match found with
  | Err error => if is_not_found error then ret NoRelease else fail error
  | Ok latest =>
      let! state := gets local in
      if decide (current_release_version state = Some (lr_release_version latest))
      then confirm_latest latest else apply_latest latest
  end.

(** ** Operations *)

Definition run_node_operation (operation : PendingOperationResponse) : AgentIo H string :=
  let! reg := gets registration in
  do! require (is_empty (trim (po_run_as_user operation))
               || bool_decide (po_run_as_user operation = current_process_user))
        ["operation " +:+ po_template_name operation +:+ " requires run_as_user="
         +:+ po_run_as_user operation +:+ ", current user=" +:+ current_process_user] in
  let variables :=
    [("PINGORAHUB_NODE_ID", uuid_to_string (reg_node_id reg));
     ("PINGORAHUB_NODE_CODE", reg_node_code reg);
     ("PINGORAHUB_NODE_HOSTNAME", reg_hostname reg);
     ("PINGORAHUB_NODE_PRIVATE_IP", reg_private_ip reg);
     ("PINGORAHUB_OPERATION_ID", uuid_to_string (po_operation_id operation));
     ("PINGORAHUB_OPERATION_TEMPLATE_ID", uuid_to_string (po_template_id operation));
     ("PINGORAHUB_OPERATION_TEMPLATE_NAME", po_template_name operation);
     ("PINGORAHUB_OPERATION_TYPE", po_operation_type operation)] in
  let! output := run_command (mkCommand (trim (rendered_command operation)) variables)
    (Z.max (po_timeout_seconds operation) 1)
    ("operation " +:+ po_template_name operation +:+ " timed out after "
     +:+ pretty (po_timeout_seconds operation) +:+ "s")
    "failed to execute node operation command" in
  let '(code, stdout, stderr) := output in
  do! require (bool_decide (code = Some 0%Z)) [exit_text "node operation" code stdout stderr] in
  ret (if is_empty stdout then "operation " +:+ po_template_name operation +:+ " completed"
       else stdout).

(** What is reported for an operation. *)
Definition operation_report (node_id : Uuid) (result : Result string Error) (now : DateTime) :
    OperationResultRequest :=
  match result with
  | Ok stdout => mkResultRequest node_id "success" 0 stdout "" now
  | Err error =>
      mkResultRequest node_id (classify_operation_error error) 1 ""
        (truncate_message (error_alternate error)) now
  end.

(** One turn of the loop of [sync_pending_operations]: [false] when there is
    nothing left to do. *)
Definition sync_one_operation : AgentIo H bool :=
  let! reg := gets registration in
  let! tok := token in
  let! found := attempt (get_json (A := PendingOperationResponse)
    (hub_base_url config +:+ "/api/node/operations/pending?node_id="
     +:+ uuid_to_string (reg_node_id reg)) tok) in
  match found with
  | Err error => if is_not_found error then ret false else fail error
  | Ok operation =>
      let! result := attempt (run_node_operation operation) in
      let! now := utc_now in
      do! post_json (A := OperationResultResponse)
            (hub_base_url config +:+ "/api/node/operations/"
             +:+ uuid_to_string (po_operation_id operation) +:+ "/result")
            (JOperationResultRequest (operation_report (reg_node_id reg) result now)) tok in
      ret true
  end.

(** The loop; [None] when the fuel runs out. *)
Fixpoint sync_pending_operations (fuel : nat) (executed : Z) : AgentIo H (option Z) :=
  match fuel with
  | O => ret None
  | S fuel =>
      let! more := sync_one_operation in
      if more : bool then sync_pending_operations fuel (wrap_u32 (executed + 1))
      else ret (Some executed)
  end.

(** ** The main loop *)

(** [match m { Err(error) if is_auth_error(&error) => { refresh; m? } .. }]. *)
Definition with_fresh_session {A} (m : AgentIo H A) (otherwise : Error → AgentIo H (option A)) :
    AgentIo H (option A) :=
  let! r := attempt m in
  match r with
  | Ok a => ret (Some a)
  | Err error =>
      if is_auth_error error then
        do! renew_session in
        let! a := m in ret (Some a)
      else otherwise error
  end.

(** One turn: the pause before the next one, in seconds. *)
Definition agent_cycle (fuel : nat) : AgentIo H Z :=
  let! due := should_refresh in
  do! (if due : bool then renew_session else ret tt) in
  let! response := with_fresh_session heartbeat fail in
  let! response := lift (ok_or response []) in
  let! now := utc_now in
  do! modify (λ a, set_local (set_last_heartbeat_at (Some now) (local a)) a) in
  let! state := gets local in
  do! state_persist (state_path config) state in
  do! with_fresh_session sync_latest_release (λ _, ret None) in
  do! with_fresh_session (sync_pending_operations fuel 0) (λ _, ret None) in
  ret (Z.max (next_heartbeat_after_seconds response) (heartbeat_interval_seconds config)).
End WithConfig.
End Agent.

(** ** The health check *)

Section Healthcheck.
Context {H : Type} `{EX : !Extern, AX : !AgentExtern, HL : !HubLink H}.
Context (config : AgentConfig) (url : string).

(** The answer to the probe number [i] counted from the first of this check. *)
Definition probe_passes (first i : nat) : Prop :=
  ∃ status, probe (first + i) url (healthcheck_timeout_seconds config) = Ok status
    ∧ healthcheck_status_matches status (healthcheck_expected_status config) = true.

Lemma healthcheck_attempts_spec attempts left attempt last (a : Agent H) :
  let '(r, a') := healthcheck_attempts config url attempts left attempt last a in
  (∃ i, i < left ∧ probe_passes (probe_next a) i ∧ (∀ j, j < i → ¬ probe_passes (probe_next a) j)
     ∧ a' = set_probe_next (probe_next a + S i) a ∧ is_ok r = true)
  ∨ ((∀ j, j < left → ¬ probe_passes (probe_next a) j)
     ∧ a' = set_probe_next (probe_next a + left) a ∧ is_ok r = false).
Proof.
  revert attempt last a. induction left as [|left IH]; intros attempt last a; simpl.
  { right. split_and!; [lia| |done]. rewrite Nat.add_0_r. by destruct a. }
  assert (∀ last', ¬ probe_passes (probe_next a) 0 →
    let '(r, a') := healthcheck_attempts config url attempts left (attempt + 1) last'
                      (set_probe_next (S (probe_next a)) a) in
    (∃ i, i < S left ∧ probe_passes (probe_next a) i
       ∧ (∀ j, j < i → ¬ probe_passes (probe_next a) j)
       ∧ a' = set_probe_next (probe_next a + S i) a ∧ is_ok r = true)
    ∨ ((∀ j, j < S left → ¬ probe_passes (probe_next a) j)
       ∧ a' = set_probe_next (probe_next a + S left) a ∧ is_ok r = false)) as Hnext.
  { intros last' H0. specialize (IH (attempt + 1)%Z last' (set_probe_next (S (probe_next a)) a)).
    destruct (healthcheck_attempts _ _ _ _ _ _ _) as [r a']. simpl in IH.
    assert (∀ j, probe_passes (S (probe_next a)) j ↔ probe_passes (probe_next a) (S j)) as Hs.
    { intros j. unfold probe_passes. by rewrite <-plus_n_Sm. }
    destruct IH as [(i & Hi & Hp & Hbefore & -> & Hr)|(Hall & -> & Hr)].
    - left. exists (S i). replace (probe_next a + S (S i)) with (S (probe_next a) + S i) by lia.
      split_and!; [lia|by apply Hs| |done|done]. intros [|j] Hj; [done|]. rewrite <-Hs. apply Hbefore. lia.
    - right. replace (probe_next a + S left) with (S (probe_next a) + left) by lia.
      split_and!; [|done|done]. intros [|j] Hj; [done|]. rewrite <-Hs. apply Hall. lia. }
  destruct (probe (probe_next a) url (healthcheck_timeout_seconds config)) as [status|error] eqn:Hp.
  - destruct (healthcheck_status_matches status _) eqn:Hm.
    + left. exists 0. split_and!; [lia| |lia| |done].
      * exists status. by rewrite Nat.add_0_r.
      * by rewrite Nat.add_1_r.
    + apply Hnext. intros (st & Hst & Hok). rewrite Nat.add_0_r in Hst. congruence.
  - apply Hnext. intros (st & Hst & _). rewrite Nat.add_0_r in Hst. congruence.
Qed.

(** The health check of a release ends after at most the configured number of
    probes, and after one when none is configured: it passes at the first probe
    whose answer has the expected status, without probing again, and fails when no
    probe up to the limit passes; nothing but the count of probes changes. *)
Theorem run_healthcheck_bounded (a : Agent H) :
  healthcheck_url config = Some url →
  let limit := Z.to_nat (Z.max (healthcheck_retries config) 1) in
  let '(r, a') := run_healthcheck config a in
  (∃ i, i < limit ∧ probe_passes (probe_next a) i ∧ (∀ j, j < i → ¬ probe_passes (probe_next a) j)
     ∧ a' = set_probe_next (probe_next a + S i) a ∧ is_ok r = true)
  ∨ ((∀ j, j < limit → ¬ probe_passes (probe_next a) j)
     ∧ a' = set_probe_next (probe_next a + limit) a ∧ is_ok r = false).
Proof.
  intros Hurl limit. unfold run_healthcheck, bind, lift. rewrite Hurl. simpl.
  apply healthcheck_attempts_spec.
Qed.
End Healthcheck.

(** ** Messages *)

Lemma truncate_message_bound s : chars_count (truncate_message s) ≤ MAX_LEN + 3.
Proof.
  unfold truncate_message. destruct (_ <=? _) eqn:Hle; [apply Nat.leb_le in Hle; lia|].
  rewrite chars_count_app. pose proof (chars_count_take MAX_LEN (join " " (split_whitespace s))).
  assert (chars_count "..." = 3) as -> by done. lia.
Qed.

(** A command that fails by itself and mentions a time-out in its output is
    reported as one that was stopped. *)
Lemma failed_command_reported_as_timeout `{!Extern} :
  classify_operation_error
    [exit_text "node operation" (Some 1%Z) "" (truncate_message "curl: (28) Operation timed out")]
  = "timeout".
Proof. vm_compute. reflexivity. Qed.

(** ** Releases take effect only when they were applied *)

Section Activation.
Context {H : Type} `{EX : !Extern, AX : !AgentExtern, HL : !HubLink H}.
Context (config : AgentConfig).
Implicit Types a : Agent H.

Lemma wp_context {A} msg (m : AgentIo H A) a Q :
  wp m a (λ r a', Q (map_err (cons msg) r) a') → wp (context msg m) a Q.
Proof. unfold wp, context. by destruct (m a). Qed.

Ltac agent_steps :=
  repeat first [progress cbn [map_err] | progress cbv beta iota | wp1 | apply wp_context].

(** The agent after file operations, and after calls to the hub. *)
Lemma wp_fs_write path contents a (Q : Result unit Error → Agent H → Prop) :
  Q (Ok tt) (set_files (<[path := contents]> (files a)) (S (io_next a)) a) →
  (∀ e f, (∀ p, p ≠ path → f !! p = files a !! p) → Q (Err e) (set_files f (S (io_next a)) a)) →
  wp (fs_write path contents) a Q.
Proof.
  intros Hok Herr. unfold wp, fs_write. destruct (io_error (io_next a)) as [[text leftover]|]; [|done].
  apply Herr. intros p Hp. destruct leftover; [by rewrite lookup_insert_ne|done].
Qed.

Lemma wp_create_dir path a (Q : Result unit Error → Agent H → Prop) :
  (∀ r, Q r (set_files (files a) (S (io_next a)) a)) → wp (create_dir_all path) a Q.
Proof. intros HQ. unfold wp, create_dir_all. by destruct (io_error (io_next a)) as [[]|]. Qed.

Lemma wp_fs_read path a (Q : Result string Error → Agent H → Prop) :
  (∀ c, files a !! path = Some c → Q (Ok c) (set_files (files a) (S (io_next a)) a)) →
  (∀ e, Q (Err e) (set_files (files a) (S (io_next a)) a)) →
  wp (fs_read path) a Q.
Proof.
  intros Hok Herr. unfold fs_read, fs_read_opt. apply wp_bind. unfold wp.
  destruct (io_error (io_next a)) as [[]|]; [done|]. unfold lift.
  destruct (files a !! path) as [c|] eqn:Hc; simpl; [|done]. by apply Hok.
Qed.

Lemma wp_parse_response `{!FromPayload A} response a (Q : Result A Error → Agent H → Prop) :
  (∀ r, Q r a) → wp (parse_response response) a Q.
Proof.
  intros HQ. unfold parse_response. agent_steps; apply HQ.
Qed.

Lemma wp_call_hub call a (Q : Result HubReply Error → Agent H → Prop) :
  (∀ r h, Q r (set_hub h a)) → wp (call_hub call) a Q.
Proof. intros HQ. unfold wp, call_hub. by destruct (hub_call call (hub a)). Qed.

Lemma wp_get_json `{!FromPayload A} url tok a (Q : Result A Error → Agent H → Prop) :
  (∀ r h, Q r (set_hub h a)) → wp (get_json url tok) a Q.
Proof.
  intros HQ. unfold get_json. apply wp_bind, wp_context, wp_call_hub.
  intros [r|e] h; simpl; [|apply HQ]. apply wp_parse_response. intros r'. apply HQ.
Qed.

Lemma wp_post_json `{!FromPayload A} url body tok a (Q : Result A Error → Agent H → Prop) :
  (∀ r h, Q r (set_hub h a)) → wp (post_json url body tok) a Q.
Proof.
  intros HQ. unfold post_json. apply wp_bind, wp_context, wp_call_hub.
  intros [r|e] h; simpl; [|apply HQ]. apply wp_parse_response. intros r'. apply HQ.
Qed.

Lemma wp_report rid st v msg a (Q : Result ReleaseAckResponse Error → Agent H → Prop) :
  (∀ r h, Q r (set_hub h a)) → wp (report_release_status config rid st v msg) a Q.
Proof. intros HQ. unfold report_release_status, token. wps. by apply wp_post_json. Qed.

(** Staging writes files only. *)
Lemma wp_stage package a (Q : Result ReleaseArtifacts Error → Agent H → Prop) :
  (∀ r f n, Q r (set_files f n a)) → wp (persist_release_artifacts config package) a Q.
Proof.
  intros HQ. unfold persist_release_artifacts. apply wp_bind, wp_context, wp_create_dir.
  intros [[]|e]; simpl; [|apply HQ].
  do 4 (apply wp_bind, wp_context, wp_fs_write; simpl; [|intros; apply (HQ (Err _))]).
  apply wp_ret. apply (HQ (Ok _)).
Qed.

(** Programs that leave the memory of the agent as it is, and ask nothing of
    the hub. *)
Definition same_memory a a' : Prop :=
  local a' = local a ∧ registration a' = registration a ∧ session a' = session a.
Definition same_inside a a' : Prop := same_memory a a' ∧ hub a' = hub a.

#[local] Instance same_inside_preorder : PreOrder same_inside.
Proof. split; [done|]. unfold same_inside, same_memory. intros a1 a2 a3. intuition congruence. Qed.

Definition keeps_memory {A} (m : AgentIo H A) : Prop := ∀ a, wp m a (λ _ a', same_inside a a').

Lemma keeps_memory_bind {A B} (m : AgentIo H A) (k : A → AgentIo H B) :
  keeps_memory m → (∀ x, keeps_memory (k x)) → keeps_memory (bind m k).
Proof.
  intros Hm Hk a. apply wp_bind. eapply wp_mono; [apply Hm|]. intros [x|e] a1 H1; [|done].
  eapply wp_mono; [apply Hk|]. intros ? a2 H2. by etrans.
Qed.

Lemma keeps_memory_pure {A} (m : AgentIo H A) : (∀ a, (m a).2 = a) → keeps_memory m.
Proof. intros Hm a. unfold wp. specialize (Hm a). destruct (m a) as [r a']. simpl in Hm. by subst a'. Qed.

Lemma run_command_keeps cmd limit m1 m2 : keeps_memory (run_command (H := H) cmd limit m1 m2).
Proof.
  intros a. unfold wp, run_command. destruct (spawn _ _ _ _) as [[|text|code o e] f]; done.
Qed.

Lemma healthcheck_keeps : keeps_memory (run_healthcheck (H := H) config).
Proof.
  intros a. unfold run_healthcheck. wps; try done.
  apply run_wp. intros r a' Hrun.
  pose proof (healthcheck_attempts_spec config a0 (Z.max (healthcheck_retries config) 1)
    (Z.to_nat (Z.max (healthcheck_retries config) 1)) 1 "" a) as Hspec.
  rewrite Hrun in Hspec. by destruct Hspec as [(i & _ & _ & _ & -> & _)|(_ & -> & _)].
Qed.

Lemma apply_package_keeps package artifacts :
  keeps_memory (apply_release_package (H := H) config package artifacts).
Proof.
  unfold apply_release_package. apply keeps_memory_bind; [by apply keeps_memory_pure|]. intros _.
  apply keeps_memory_bind; [by apply keeps_memory_pure|]. intros state. apply keeps_memory_bind.
  - destruct (apply_command config); [|by apply keeps_memory_pure]. unfold run_apply_command.
    destruct (is_empty _); [by apply keeps_memory_pure|].
    apply keeps_memory_bind; [by apply keeps_memory_pure|]. intros reg.
    apply keeps_memory_bind; [apply run_command_keeps|]. intros [[code o] e].
    apply keeps_memory_bind; [by apply keeps_memory_pure|]. intros _. by apply keeps_memory_pure.
  - intros note. apply keeps_memory_bind; [|intros health; by apply keeps_memory_pure].
    case_decide; [by apply keeps_memory_pure|apply healthcheck_keeps].
Qed.

(** The files that describe the release in use. *)
Definition current_paths : list string :=
  [current_release_version_path config; current_manifest_path config;
   current_rendered_config_path config; current_certificates_path config].

Lemma wp_copy_file from to msg a (Q : Result unit Error → Agent H → Prop) :
  (∀ c n, files a !! from = Some c → Q (Ok tt) (set_files (<[to := c]> (files a)) n a)) →
  (∀ e f n, Q (Err e) (set_files f n a)) →
  wp (copy_file from to msg) a Q.
Proof.
  intros Hok Herr. unfold copy_file. apply wp_bind, wp_context, wp_fs_read; simpl; [|intros; apply Herr].
  intros c Hc. apply wp_context, wp_fs_write; simpl; [by apply (Hok c)|intros; apply Herr].
Qed.

(** The staged files are not among them. *)
Definition staged_apart (artifacts : ReleaseArtifacts) : Prop :=
  Forall (λ p, p ∉ current_paths)
    [manifest_path artifacts; rendered_config_path artifacts; certificates_path artifacts].

(** The files staged for a package are under [releases/<version>/]. *)
Definition staging_dir (package : ConfigPackageResponse) : string :=
  path_join (releases_dir config) (cp_release_version package).
Definition artifacts_of (package : ConfigPackageResponse) : ReleaseArtifacts :=
  let d := staging_dir package in
  mkArtifacts d (path_join d "package.json") (path_join d "manifest.json")
    (path_join d "rendered-config.json") (path_join d "certificates.json").

(** The package is staged in the files [f]. *)
Record staged_for (package : ConfigPackageResponse) (f : gmap string string) : Prop := {
  staged_manifest :
    f !! manifest_path (artifacts_of package) = Some (value_to_json (cp_manifest package));
  staged_config :
    f !! rendered_config_path (artifacts_of package) = Some (value_to_json (cp_rendered_config package));
  staged_certificates :
    f !! certificates_path (artifacts_of package) = Some (value_to_json (cp_certificates package));
}.

(** The apply command of the configuration ran as the next process, told the version and the
    directory of the release, and exited with status 0 within its time limit; it turned
    the files [f] into [f'].  A blank command is skipped; no command at all is only
    allowed by the option for it. *)
Definition apply_succeeded (package : ConfigPackageResponse) (next : nat) (f : gmap string string)
    (next' : nat) (f' : gmap string string) : Prop :=
  match apply_command config with
  | None => allow_noop_apply config = true ∧ next' = next ∧ f' = f
  | Some command =>
      if decide (trim command = "") then next' = next ∧ f' = f
      else next' = S next ∧ ∃ env stdout stderr,
        spawn next (mkCommand (trim command) env) (apply_timeout_seconds config) f
          = (Exited (Some 0%Z) stdout stderr, f')
        ∧ ("PINGORAHUB_RELEASE_VERSION", cp_release_version package) ∈ env
        ∧ ("PINGORAHUB_RELEASE_DIR", staging_dir package) ∈ env
  end.

(** The health check, if one is configured, passed at one of the attempts it has, and no probe
    was sent after that one. *)
Definition health_passed (next next' : nat) : Prop :=
  match healthcheck_url config with
  | None => next' = next
  | Some url => ∃ i, i < Z.to_nat (Z.max (healthcheck_retries config) 1)
      ∧ probe_passes config url next i ∧ (∀ j, j < i → ¬ probe_passes config url next j)
      ∧ next' = next + S i
  end.

(** The current files after an activation: the version, and the staged files as
    they are after the apply command. *)
Record activated (package : ConfigPackageResponse) (artifacts : ReleaseArtifacts)
    (staged current : gmap string string) : Prop := {
  active_version : current !! current_release_version_path config = Some (cp_release_version package);
  active_manifest : is_Some (current !! current_manifest_path config)
    ∧ current !! current_manifest_path config = staged !! manifest_path artifacts;
  active_config : current !! current_rendered_config_path config = staged !! rendered_config_path artifacts;
  active_certificates :
    current !! current_certificates_path config = staged !! certificates_path artifacts;
}.

(** The apply command. *)
Lemma apply_command_spec package previous command a r a' :
  run_apply_command config package (artifacts_of package) previous command a = (Ok r, a') →
  apply_command config = Some command →
  apply_succeeded package (exec_next a) (files a) (exec_next a') (files a')
  ∧ probe_next a' = probe_next a.
Proof.
  intros Hrun Hc. unfold apply_succeeded. rewrite Hc. unfold run_apply_command in Hrun.
  destruct (is_empty (trim command)) eqn:He.
  { injection Hrun as _ <-. destruct (trim command); [|done]. by rewrite decide_True. }
  rewrite decide_False by (intros Ht; by rewrite Ht in He).
  unfold bind, gets, run_command, require in Hrun. simpl in Hrun.
  match type of Hrun with context [spawn ?i ?c ?l ?f] => destruct (spawn i c l f) as [[|text|code o e] f'] eqn:Hs end;
    try done.
  simpl in Hrun. destruct (bool_decide (code = Some 0%Z)) eqn:Hcode; [|done].
  apply bool_decide_eq_true in Hcode as ->. apply (f_equal snd) in Hrun. cbn [ret snd] in Hrun. subst a'. cbn.
  split; [|done]. split; [done|]. eexists _, _, _. split; [exact Hs|]. split; set_solver.
Qed.

(** The apply pipeline: the command, then the health check. *)
Lemma apply_package_spec package a r a' :
  apply_release_package config package (artifacts_of package) a = (Ok r, a') →
  apply_succeeded package (exec_next a) (files a) (exec_next a') (files a')
  ∧ health_passed (probe_next a) (probe_next a').
Proof.
  unfold apply_release_package, bind, gets. unfold ensure_apply_mode, require.
  destruct (negb _) eqn:Hmode; [|done].
  set (m := match apply_command config with Some _ => _ | None => _ end).
  destruct (m a) as [[note|e] a1] eqn:Ha; subst m; [|done].
  assert (apply_succeeded package (exec_next a) (files a) (exec_next a1) (files a1)
    ∧ probe_next a1 = probe_next a) as [Happ Hprobe].
  { destruct (apply_command config) as [command|] eqn:Hc; [by eapply apply_command_spec|].
    injection Ha as _ <-. unfold apply_succeeded. rewrite Hc. split; [|done].
    split; [|done]. by destruct (allow_noop_apply config). }
  unfold health_passed. rewrite <-Hprobe. case_decide as Hurl.
  - intros [= _ <-]. by rewrite Hurl.
  - destruct (healthcheck_url config) as [url|] eqn:Hu; [|done].
    unfold run_healthcheck, bind, lift. rewrite Hu. simpl.
    pose proof (healthcheck_attempts_spec config url (Z.max (healthcheck_retries config) 1)
      (Z.to_nat (Z.max (healthcheck_retries config) 1)) 1 "" a1) as Hspec.
    destruct (healthcheck_attempts _ _ _ _ _ _ a1) as [[h|e] a2]; [|done]. intros [= _ <-].
    destruct Hspec as [(i & Hi & Hp & Hb & -> & _)|(_ & _ & ?)]; [|done].
    split; [done|]. by exists i.
Qed.

Lemma activate_spec package artifacts a :
  NoDup current_paths → staged_apart artifacts →
  wp (activate_release_artifacts config package artifacts) a
    (λ r a', ∃ f n, a' = set_files f n a ∧ (r = Ok tt → activated package artifacts (files a) f)).
Proof.
  intros Hnd Hdisj. unfold staged_apart in Hdisj. rewrite Forall_forall in Hdisj.
  unfold activate_release_artifacts, current_paths in *.
  rewrite !NoDup_cons, !not_elem_of_cons in Hnd.
  destruct Hnd as ((V1 & V2 & V3 & _) & (X1 & X2 & _) & (Y1 & _) & _).
  assert (∀ p, p ∈ [manifest_path artifacts; rendered_config_path artifacts; certificates_path artifacts] →
    p ≠ current_release_version_path config ∧ p ≠ current_manifest_path config
    ∧ p ≠ current_rendered_config_path config ∧ p ≠ current_certificates_path config) as Hne.
  { intros p Hp. apply Hdisj in Hp. rewrite !not_elem_of_cons in Hp. tauto. }
  destruct (Hne (manifest_path artifacts)) as (M1 & M2 & M3 & M4); [set_solver|].
  destruct (Hne (rendered_config_path artifacts)) as (R1 & R2 & R3 & R4); [set_solver|].
  destruct (Hne (certificates_path artifacts)) as (C1 & C2 & C3 & C4); [set_solver|]. clear Hne Hdisj.
  apply wp_bind, wp_context, wp_fs_write; simpl; [|by intros; eexists _, _].
  apply wp_bind, wp_copy_file; simpl; [|by intros; eexists _, _]. intros c1 n1 Hc1.
  apply wp_bind, wp_copy_file; simpl; [|by intros; eexists _, _]. intros c2 n2 Hc2.
  apply wp_copy_file; simpl; [|by intros; eexists _, _]. intros c3 n3 Hc3.
  eexists _, n3. split; [reflexivity|]. intros _.
  rewrite lookup_insert_ne in Hc1 by done. rewrite !lookup_insert_ne in Hc2, Hc3 by done.
  split; rewrite ?Hc1, ?Hc2, ?Hc3; [|split|..]; try (by simplify_map_eq).
Qed.

Lemma activate_files package artifacts a :
  wp (activate_release_artifacts config package artifacts) a (λ _ a', ∃ f n, a' = set_files f n a).
Proof.
  unfold activate_release_artifacts.
  apply wp_bind, wp_context, wp_fs_write; simpl; [|by intros; eexists _, _].
  do 2 (apply wp_bind, wp_copy_file; simpl; [|by intros; eexists _, _]; intros ? ? _).
  apply wp_copy_file; simpl; by intros; eexists _, _.
Qed.

(** The package was staged, its apply command and its health check succeeded, nothing else
    was started or probed, and the current files were replaced. *)
Definition applied_between (package : ConfigPackageResponse) (a a' : Agent H) : Prop :=
  ∃ staged f, staged_for package staged
    ∧ apply_succeeded package (exec_next a) staged (exec_next a') f
    ∧ health_passed (probe_next a) (probe_next a')
    ∧ (starts_with "/" (cp_release_version package) = false →
       activated package (artifacts_of package) f (files a')).

(** The version the node runs after a turn in which the hub told it of [latest]. *)
Definition switched_to (latest : LatestReleaseResponse) (a a' : Agent H) : Prop :=
  current_release_version (local a') = current_release_version (local a)
  ∨ ∃ package h h', get_json (hub_base_url config +:+ download_url latest)
        (Some (access_token (session a))) (set_hub h a) = (Ok package, set_hub h' a)
      ∧ applied_between package a a'
      ∧ current_release_version (local a') = Some (cp_release_version package).

(** Every way through [sync_latest_release]. *)
Definition switched (a a' : Agent H) : Prop :=
  current_release_version (local a') = current_release_version (local a)
  ∨ ∃ latest h, get_json (hub_base_url config +:+ "/api/node/config/releases/latest?node_id="
          +:+ uuid_to_string (reg_node_id (registration a)))
        (Some (access_token (session a))) a = (Ok latest, set_hub h a)
      ∧ current_release_version (local a) ≠ Some (lr_release_version latest)
      ∧ switched_to latest a a'.
End Activation.

(** ** Paths *)

(** The prefix that a relative name is joined to. *)
Definition dir (base : string) : string :=
  if is_empty base || ends_with "/" base then base else base +:+ "/".

Lemma path_join_rel base name : starts_with "/" name = false → path_join base name = dir base +:+ name.
Proof.
  intros Hn. unfold path_join, dir. rewrite Hn. destruct (is_empty base || ends_with "/" base); [done|].
  by rewrite string_app_assoc.
Qed.

Lemma string_app_inj_l (a b c : string) : a +:+ b = a +:+ c → b = c.
Proof.
  intros Heq. apply (f_equal bytes) in Heq. rewrite !bytes_app in Heq. apply app_inv_head in Heq.
  apply (f_equal of_bytes) in Heq. by rewrite !of_bytes_bytes in Heq.
Qed.

Lemma current_paths_NoDup config : NoDup (current_paths config).
Proof.
  unfold current_paths, current_release_version_path, current_manifest_path,
    current_rendered_config_path, current_certificates_path. rewrite !path_join_rel by reflexivity.
  apply (NoDup_fmap_2_strong (λ s, dir (data_dir config) +:+ s)
    ["current-release-version"; "current-manifest.json"; "current-rendered-config.json";
     "current-certificates.json"]).
  - intros x y _ _. apply string_app_inj_l.
  - apply (bool_decide_unpack _). vm_compute. exact I.
Qed.

(** A staged file is under [releases/]. *)
Lemma staged_path config version name :
  starts_with "/" version = false → starts_with "/" name = false →
  ∃ rest, path_join (path_join (releases_dir config) version) name
          = dir (data_dir config) +:+ "releases/" +:+ rest.
Proof.
  intros Hv Hn. rewrite (path_join_rel _ name), (path_join_rel _ version) by done.
  assert (dir (releases_dir config) = dir (data_dir config) +:+ "releases/") as ->.
  { unfold releases_dir. rewrite path_join_rel by done. unfold dir at 1.
    set (d := dir (data_dir config)).
    assert (is_empty (d +:+ "releases") = false) as -> by (by destruct d).
    assert (ends_with "/" (d +:+ "releases") = false) as ->.
    { apply not_true_iff_false. rewrite ends_with_spec. intros [r Hr].
      apply (f_equal (reverse ∘ bytes)) in Hr. simpl in Hr. by rewrite !bytes_app, !reverse_app in Hr. }
    by rewrite <-string_app_assoc. }
  unfold dir at 1. destruct (_ || _).
  - exists (version +:+ name). by rewrite <-!string_app_assoc.
  - exists (version +:+ "/" +:+ name). by rewrite <-!string_app_assoc.
Qed.

Lemma staged_not_current config version name :
  starts_with "/" version = false → starts_with "/" name = false →
  path_join (path_join (releases_dir config) version) name ∉ current_paths config.
Proof.
  intros Hv Hn. destruct (staged_path config version name Hv Hn) as [rest ->].
  unfold current_paths, current_release_version_path, current_manifest_path,
    current_rendered_config_path, current_certificates_path. rewrite !path_join_rel by reflexivity.
  rewrite !elem_of_cons. intros [Heq|[Heq|[Heq|[Heq|Heq%elem_of_nil]]]]; [..|done];
    by apply string_app_inj_l in Heq.
Qed.

Section Switch.
Context {H : Type} `{EX : !Extern, AX : !AgentExtern, HL : !HubLink H}.
Context (config : AgentConfig).
Implicit Types a : Agent H.

Lemma wp_activate package artifacts a (Q : Result unit Error → Agent H → Prop) :
  (∀ r f n,
     (r = Ok tt → staged_apart config artifacts → activated config package artifacts (files a) f) →
     Q r (set_files f n a)) →
  wp (activate_release_artifacts config package artifacts) a Q.
Proof.
  intros HQ. destruct (decide (staged_apart config artifacts)) as [Hd|Hd].
  - eapply wp_mono; [apply activate_spec; [apply current_paths_NoDup|exact Hd]|].
    intros r a' (f & n & -> & Hact). apply HQ. auto.
  - eapply wp_mono; [apply activate_files|]. intros r a' (f & n & ->). apply HQ. tauto.
Qed.

(** The artifacts are the files staged for the version, and hold the package. *)
Lemma path_join_inj base x y :
  starts_with "/" x = false → starts_with "/" y = false → path_join base x = path_join base y → x = y.
Proof. intros Hx Hy. rewrite !path_join_rel by done. apply string_app_inj_l. Qed.

Lemma wp_stage_paths package a (Q : Result ReleaseArtifacts Error → Agent H → Prop) :
  (∀ r f n, (∀ artifacts, r = Ok artifacts →
       artifacts = artifacts_of config package ∧ staged_for config package f) → Q r (set_files f n a)) →
  wp (persist_release_artifacts config package) a Q.
Proof.
  intros HQ. unfold persist_release_artifacts. apply wp_bind, wp_context, wp_create_dir.
  intros [[]|e]; simpl; [|by apply HQ].
  do 4 (apply wp_bind, wp_context, wp_fs_write; simpl; [|intros; by apply (HQ (Err _))]).
  apply wp_ret. apply (HQ (Ok _)). intros artifacts [= <-]. split; [done|].
  split; simpl; fold (staging_dir config package); rewrite ?lookup_insert_eq; try done;
    repeat (rewrite lookup_insert_ne; [|by intros ?%path_join_inj]); by rewrite lookup_insert_eq.
Qed.

Lemma artifacts_apart package :
  starts_with "/" (cp_release_version package) = false → staged_apart config (artifacts_of config package).
Proof. intros Hv. repeat constructor; by apply staged_not_current. Qed.

Lemma apply_latest_switched latest a :
  state_path config ∉ current_paths config →
  wp (apply_latest config latest) a (λ _ a', switched_to config latest a a').
Proof.
  intros Hstate. unfold apply_latest, token. wps.
  apply wp_report. intros [r1|e] h1; [|by left]. wps.
  apply run_wp. intros rp a0' Hget.
  assert (∃ h2, a0' = set_hub h2 a) as [h2 ->].
  { refine (wp_run _ _ _ _ _ (wp_get_json _ _ _ (λ _ a', ∃ h, a' = set_hub h a) _) Hget). eauto. }
  destruct rp as [package|e]; [|by left]. wps.
  apply wp_stage_paths. intros [artifacts|e] f1 n1 Hart; [|by left].
  destruct (Hart artifacts eq_refl) as [-> Hstaged]. wps.
  apply wp_report. intros [r2|e] h3; [|by left]. wps.
  apply run_wp. intros r a2 Hrun.
  pose proof (wp_run _ _ _ _ _ (apply_package_keeps config package _ _) Hrun) as [(Hl & _ & _) _].
  destruct r as [message|error]; wps.
  2: { apply wp_report. intros r3 h4. wps. left. simpl. by rewrite Hl. }
  apply apply_package_spec in Hrun as [Happ Hhealth]. simpl in Happ, Hhealth.
  apply wp_activate. intros r3 f n Hact.
  destruct r3 as [[]|e]; [|left; simpl; by rewrite Hl]. wps.
  assert (∀ a', current_release_version (local a') = Some (cp_release_version package) →
    exec_next a' = exec_next a2 → probe_next a' = probe_next a2 →
    (∀ p, p ≠ state_path config → files a' !! p = f !! p) → switched_to config latest a a') as Hdone.
  { intros a' Hcur He Hp Hf. right. exists package, h1, h2. split_and!; [exact Hget| |done].
    exists f1, (files a2). rewrite He, Hp. split_and!; [done..|]. intros Hv.
    destruct (Hact eq_refl) as [A1 [A2 A3] A4 A5]; [by apply artifacts_apart|].
    unfold current_paths in Hstate. rewrite !not_elem_of_cons in Hstate.
    destruct Hstate as (S1 & S2 & S3 & S4 & _).
    split; simpl; rewrite !Hf by (by apply not_eq_sym); done. }
  unfold acknowledge_release. apply wp_bind, wp_bind, wp_report. intros [r4|e] h4; wps.
  2: { by apply Hdone. }
  unfold state_persist. apply wp_context, wp_fs_write; simpl.
  - wps. apply Hdone; [done..|]. intros p Hp. simpl. by rewrite lookup_insert_ne.
  - intros e f' Hf. by apply Hdone.
Qed.

(** What was asked of the hub before does not matter. *)
Lemma switched_to_set_hub latest h a a' :
  switched_to config latest (set_hub h a) a' → switched_to config latest a a'.
Proof. intros [Hs|(package & h1 & h2 & Hrest)]; [by left|right]. by exists package, h1, h2. Qed.

Lemma confirm_latest_switched latest a :
  wp (confirm_latest config latest) a (λ _ a',
    current_release_version (local a') = current_release_version (local a)).
Proof.
  unfold confirm_latest. wps. case_decide; wps; try done.
  apply wp_report. intros [r|e] h; [|done]. wps.
  unfold state_persist. apply wp_context, wp_fs_write; simpl; by wps.
Qed.

(** C20: A node changes the release it runs, in the memory the heartbeats report,
    only when the release was applied: whatever the hub, the disk and the apply
    command do, after a synchronisation the version is the one before it, or in this turn
    the hub told of another latest release, the package was downloaded from the address
    it gave and staged, the configured apply command ran on the staged files and exited
    with status 0 (or is blank, or there is none and the configuration allows that), the
    health check passed, if one is configured, within its attempts, and no other process
    was started and no other probe sent.  The current files then hold the version and
    what the command left of the staged ones, provided that the version is not an
    absolute path.  Assumed: the state file is none of the four current files. *)
Theorem release_switch_needs_apply a :
  state_path config ∉ current_paths config →
  switched config a (sync_latest_release config a).2.
Proof.
  intros Hstate.
  assert (wp (sync_latest_release config) a (λ _ a', switched config a a')) as Hwp.
  { unfold sync_latest_release, token. wps. apply run_wp. intros r a0 Hget.
    assert (∃ h, a0 = set_hub h a) as [h ->].
    { refine (wp_run _ _ _ _ _ (wp_get_json _ _ _ (λ _ a', ∃ h, a' = set_hub h a) _) Hget). eauto. }
    wps. destruct r as [latest|error]; [|destruct (is_not_found error); wps; by left]. wps.
    case_decide as Hcur.
    - eapply wp_mono; [apply confirm_latest_switched|]. intros r' a' Hs. by left.
    - eapply wp_mono; [by apply apply_latest_switched|]. intros r' a' Hs%switched_to_set_hub.
      right. by exists latest, h. }
  unfold wp in Hwp. by destruct (sync_latest_release config a) as [r a'].
Qed.
End Switch.

(** ** A node and a scripted hub *)

(** The hub gives the answers of a list in order. *)
#[export] Instance scripted_hub : HubLink (list HubReply) := λ _ script,
  match script with
  | [] => (Err "connection refused", [])
  | reply :: rest => (Ok reply, rest)
  end.

(** A disk that never fails, commands that succeed and print nothing, and a
    service that answers from the second probe on. *)
#[export] Instance demo_agent_extern : AgentExtern := {|
  agent_env := λ _, None;
  io_error := λ _, None;
  spawn := λ _ _ _ f, (Exited (Some 0%Z) "" "", f);
  probe := λ n _ _, if decide (n = 0) then Err "connection refused" else Ok 200%Z;
  registration_to_json := reg_refresh_token;
  registration_from_json := λ _, Err "unreadable";
  state_to_json := λ s, default "" (current_release_version s);
  state_from_json := λ _, Ok default_local;
  package_to_json := cp_release_version;
  value_to_json := λ _, "{}";
  to_rfc3339 := λ _, "1970-01-01T00:00:00Z";
|}.

Definition demo_config : AgentConfig := {|
  hub_base_url := "http://hub";
  registration_path := "/etc/node.json";
  state_path := "/data/state.json";
  data_dir := "/data";
  cfg_pingora_version := "1";
  cfg_agent_version := "1";
  heartbeat_interval_seconds := 15;
  apply_command := Some "reload";
  allow_noop_apply := false;
  apply_timeout_seconds := 30;
  healthcheck_url := Some "http://localhost/health";
  healthcheck_expected_status := None;
  healthcheck_timeout_seconds := 10;
  healthcheck_retries := 3;
  healthcheck_interval_seconds := 2;
|}.

Definition demo_agent (script : list HubReply) : Agent (list HubReply) :=
  mkAgent script ∅ 0 0 0 0 (mkRegistration 1%Z "n1" "host" "10.0.0.1" "rt" "" "manual")
    (mkLocal (Some 7%Z) (Some "r1") (Some "h1") 1 (Some 7%Z) None) (mkSession "at" 1000).

Definition reply (p : Payload) : HubReply := mkHubReply 200 (Ok "") (Ok p).

(** A newer release, its package and the acknowledgements. *)
Definition demo_script : list HubReply :=
  let ack status := reply (PReleaseAckResponse (mkAckResponse 8 1 status)) in
  [reply (PLatestReleaseResponse (mkLatestRelease 8 "r2" "h2" "/api/node/config/releases/8/package"));
   ack "downloading";
   reply (PConfigPackageResponse
     (mkConfigPackage 8 "r2" (VObject [("sites", VArray [VNull; VNull])]) VNull VNull ""));
   ack "applying"; ack "success"].

Lemma run_healthcheck_bounded_witness :
  is_ok (run_healthcheck demo_config (demo_agent [])).1 = true
  ∧ probe_next (run_healthcheck demo_config (demo_agent [])).2 = 2
  ∧ let '(r, a') := run_healthcheck demo_config (demo_agent []) in
    (∃ i, i < 3 ∧ probe_passes demo_config "http://localhost/health" 0 i
       ∧ (∀ j, j < i → ¬ probe_passes demo_config "http://localhost/health" 0 j)
       ∧ a' = set_probe_next (S i) (demo_agent []) ∧ is_ok r = true)
    ∨ ((∀ j, j < 3 → ¬ probe_passes demo_config "http://localhost/health" 0 j)
       ∧ a' = set_probe_next 3 (demo_agent []) ∧ is_ok r = false).
Proof.
  split; [vm_compute; reflexivity|]. split; [vm_compute; reflexivity|].
  exact (run_healthcheck_bounded demo_config "http://localhost/health" (demo_agent []) eq_refl).
Defined.

Lemma release_switch_needs_apply_witness :
  (sync_latest_release demo_config (demo_agent demo_script)).1 = Ok (Applied "r2")
  ∧ files (sync_latest_release demo_config (demo_agent demo_script)).2 !! "/data/current-release-version"
    = Some "r2"
  ∧ switched demo_config (demo_agent demo_script)
      (sync_latest_release demo_config (demo_agent demo_script)).2.
Proof.
  split; [vm_compute; reflexivity|]. split; [vm_compute; reflexivity|].
  apply release_switch_needs_apply. apply (bool_decide_unpack _). vm_compute. exact I.
Defined.
