(* ===== verification/AgentHub.v ===== *)
(** * A node and its hub

    The composition of the node agent ([NodeAgent]) with the hub that serves it
    ([Http]): a call of the agent is routed to an endpoint, served, and its answer
    decoded.  What the libraries in between do is a parameter: the network may lose
    a request or an answer, [axum] finds the endpoint of a URL, and an answer has a
    text.  [WireLaws] says which endpoints the URLs of the agent reach. *)

From stdpp Require Import prelude strings pretty gmap.
From Stdlib Require Import Ascii.
From S2P Require Import Prelude RustStr Json Extern AppError Domain Records Store TokenStore Hub HubAdmin HubNodes HubOps HubReleases SiteConfig HubSites HubDns Http HubInv TokenLife DnsProvider Io NodeAgent WorkerEnv.

(** ** The wire *)

Inductive Delivery :=
  | Delivered
  | RequestLost (text : string)
  | AnswerLost (text : string).

(** The endpoint, the captures of its path and the [node_id] of the query. *)
Definition Route : Type := Endpoint * list string * option string.

Class Wire (T : Type) := {
  delivery : HubCall → World T → Delivery;
  axum_route : Method → string → option Route;
  response_text : Response → Result string string;
}.

Definition method_of (verb : Verb) : Method :=
  match verb with Get => GET | Post => POST | Put => PUT | Delete => DELETE end.

(** The request of a call: a call without a body is refused by the [Json]
    extractor with status 415. *)
Definition request_of (call : HubCall) (path : list string) (query : option string) : Request :=
  mkRequest (mkHeaders (String.append "Bearer " <$> hc_token call) None) path query
    (default (Rejected 415) (hc_body call)).

Section Link.
Context {T : Type} `{EX : !Extern, DX : !DnsExtern, HX : !HttpExtern, NT : !NodeTokenStore T, WI : !Wire T}.
Context (hub_config : HubConfig).

(** The answer as the agent sees it; the data of a JSON answer is what was
    encoded. *)
Definition reply_of (r : Response) : HubReply :=
  mkHubReply (resp_status r) (response_text r)
    (match resp_body r with BJson d => Ok (api_data d) | _ => Err "expected value" end).

Definition dispatch (call : HubCall) (w : World T) : Response * World T :=
  match axum_route (method_of (hc_verb call)) (hc_url call) with
  | Some (endpoint, path, query) => serve hub_config endpoint (request_of call path query) w
  | None => (mkResponse 404 [] BEmpty, w)
  end.

Definition hub_link : HubLink (World T) := λ call w,
  match delivery call w with
  | RequestLost text => (Err text, w)
  | AnswerLost text => (Err text, (dispatch call w).2)
  | Delivered => let '(r, w') := dispatch call w in (Ok (reply_of r), w')
  end.

(** [axum] matches a path with the patterns of [build_router]. *)
Class WireLaws (base : string) : Prop := {
  route_latest : ∀ u,
    axum_route GET (base +:+ "/api/node/config/releases/latest?node_id=" +:+ uuid_to_string u)
    = Some (EpLatestRelease, [], Some (uuid_to_string u));
  route_pending : ∀ u,
    axum_route GET (base +:+ "/api/node/operations/pending?node_id=" +:+ uuid_to_string u)
    = Some (EpNextNodeOperation, [], Some (uuid_to_string u));
  route_ack : ∀ u,
    axum_route POST (base +:+ "/api/node/releases/" +:+ uuid_to_string u +:+ "/ack")
    = Some (EpAckRelease, [uuid_to_string u], None);
  route_result : ∀ u,
    axum_route POST (base +:+ "/api/node/operations/" +:+ uuid_to_string u +:+ "/result")
    = Some (EpReportNodeOperationResult, [uuid_to_string u], None);
  route_refresh :
    axum_route POST (base +:+ "/api/node/auth/refresh") = Some (EpRefreshNodeAuth, [], None);
  route_table : ∀ method url endpoint captures query,
    axum_route method url = Some (endpoint, captures, query) → routed method endpoint = true;
}.
End Link.

(** ** What a call does *)

Section Calls.
Context {T : Type} `{EX : !Extern, DX : !DnsExtern, HX : !HttpExtern, NT : !NodeTokenStore T, WI : !Wire T}.
Context `{EL : !ExternLaws, TL : !TokenLaws T, HW : !HttpLaws}.
Context (hub_config : HubConfig) `{AX : !AgentExtern} (config : AgentConfig).
Context `{WL : !WireLaws (hub_base_url config)}.
#[local] Existing Instance hub_link.
#[local] Instance link : HubLink (World T) := hub_link hub_config.
Implicit Types w : World T.
Implicit Types a : Agent (World T).

Definition on_served (s : Server) w (Q : Response → World T → Prop) : Prop :=
  let '(r, w') := s w in Q r w'.

Lemma on_json {A} (inject : A → Payload) (m : Hub T (ApiResponse A)) w (Q : Response → World T → Prop) :
  after m w (λ r w', match r with
    | Ok x => Q (mkResponse 200 [] (BJson (mkApiResponse (api_request_id x) (inject (api_data x))
                                             (api_meta x)))) w'
    | Err e => ∀ st env, Q (mkResponse st [] (BError env)) (set_rng_next (S (rng_next w')) w')
    end) → on_served (json inject m) w Q.
Proof.
  unfold after, on_served, json, answer, Hub.bind. destruct (m w) as [[x|e] w']; [done|]. intros H. apply H.
Qed.

(** A call: it may have no effect, or the effect of its endpoint with the answer
    lost, or both. *)
Lemma wp_call call endpoint path query a (Q : Result HubReply Error → Agent (World T) → Prop) :
  axum_route (method_of (hc_verb call)) (hc_url call) = Some (endpoint, path, query) →
  (∀ e, Q (Err e) a) →
  on_served (serve hub_config endpoint (request_of call path query)) (hub a) (λ r w',
    (∀ e, Q (Err e) (set_hub w' a)) ∧ Q (Ok (reply_of r)) (set_hub w' a)) →
  wp (call_hub call) a Q.
Proof.
  intros Hroute Hlost Hs. unfold wp, call_hub, hub_call, link, hub_link, dispatch. rewrite Hroute.
  unfold on_served in Hs. destruct (serve _ _ _ _) as [r w'].
  destruct (delivery call (hub a)); simpl; [apply Hs| |apply Hs].
  replace (set_hub (hub a) a) with a by (by destruct a). apply Hlost.
Qed.

(** The answers that are decoded. *)
Definition decoded `{!FromPayload A} (r : Response) (x : A) : Prop :=
  ∃ d, resp_body r = BJson d ∧ from_payload (api_data d) = Some x.

Lemma wp_parse `{!FromPayload A} (r : Response) a (Q : Result A Error → Agent (World T) → Prop) :
  (∀ e, Q (Err e) a) → (∀ x, decoded r x → Q (Ok x) a) → wp (parse_response (reply_of r)) a Q.
Proof.
  intros Herr Hok. unfold parse_response, reply_of.
  repeat first [progress cbn [map_err hr_text hr_status hr_data] | progress cbv beta iota | apply wp_context
               | wp1]; try apply Herr.
  rename select (ok_or _ _ = _) into Hx. rename select (map_err _ _ = Ok _) into Hd.
  destruct (resp_body r) as [d|env|asset|] eqn:Hbody; simplify_eq/=.
  apply Hok. exists d. split; [done|]. by destruct (from_payload (api_data d)); simplify_eq/=.
Qed.

Lemma wp_get `{!FromPayload A} url tok endpoint path query a
    (Q : Result A Error → Agent (World T) → Prop) :
  axum_route GET url = Some (endpoint, path, query) → (∀ e, Q (Err e) a) →
  on_served (serve hub_config endpoint (request_of (mkHubCall Get url None tok) path query)) (hub a)
    (λ r w', (∀ e, Q (Err e) (set_hub w' a)) ∧ ∀ x, decoded r x → Q (Ok x) (set_hub w' a)) →
  wp (get_json url tok) a Q.
Proof.
  intros Hroute Hlost Hs. unfold get_json. apply wp_bind, wp_context.
  eapply (wp_call (mkHubCall Get url None tok)); [exact Hroute|intros; apply Hlost|].
  unfold on_served in *. destruct (serve _ _ _ _) as [r w']. destruct Hs as [He Hok].
  split; [intros; apply He|]. by apply wp_parse.
Qed.

Lemma wp_post `{!FromPayload A} url body tok endpoint path query a
    (Q : Result A Error → Agent (World T) → Prop) :
  axum_route POST url = Some (endpoint, path, query) → (∀ e, Q (Err e) a) →
  on_served (serve hub_config endpoint (request_of (mkHubCall Post url (Some body) tok) path query)) (hub a)
    (λ r w', (∀ e, Q (Err e) (set_hub w' a)) ∧ ∀ x, decoded r x → Q (Ok x) (set_hub w' a)) →
  wp (post_json url body tok) a Q.
Proof.
  intros Hroute Hlost Hs. unfold post_json. apply wp_bind, wp_context.
  eapply (wp_call (mkHubCall Post url (Some body) tok)); [exact Hroute|intros; apply Hlost|].
  unfold on_served in *. destruct (serve _ _ _ _) as [r w']. destruct Hs as [He Hok].
  split; [intros; apply He|]. by apply wp_parse.
Qed.

(** A handler that keeps the service in order keeps it steady. *)
Lemma keeps_steady {A} (m : Hub T A) w : keeps 0 m → steady w → after m w (λ _ w', steady w').
Proof.
  intros Hm [Hw Hc]. eapply after_mono; [apply Hm; [done|lia]|]. intros r w' [Hw' Hc']. split; [done|lia].
Qed.

Lemma steady_rng w n : rng_next w ≤ n → steady w → steady (set_rng_next n w).
Proof. intros Hn [Hw Hc]. split; [|done]. by apply service_ok_rng. Qed.

Lemma after_and {A} (m : Hub T A) w (P Q : Fallible A → World T → Prop) :
  after m w P → after m w Q → after m w (λ r w', P r w' ∧ Q r w').
Proof. unfold after. by destruct (m w). Qed.

(** The token check of the node endpoints; it changes no table. *)
Lemma after_node_guard {A} headers n (k : Hub T A) w (Q : Fallible A → World T → Prop) :
  steady w →
  (∀ e w', steady w' → repo w' = repo w → Q (Err e) w') →
  (∀ w', steady w' → repo w' = repo w → is_Some (node (repo w) n) → after k w' Q) →
  after (Hub.bind (Hub.lift (extract_bearer_token headers)) (λ token,
         Hub.bind (authorize_node n token) (λ _, k))) w Q.
Proof.
  intros Hw Herr Hok. apply after_bind, after_lift; [|by eauto]. intros tok _. apply after_bind.
  apply (after_mono _ _ (λ r w', steady w' ∧ repo w' = repo w ∧ (r = Ok tt → is_Some (node (repo w) n)))).
  - apply after_and; [by apply keeps_steady; [apply authorize_node_keeps|]|].
    unfold authorize_node. sym0; try done. split; [done|]. intros _. apply not_eq_None_Some.
    rename select (negb (bool_decide (_ = None)) = true) into Hn.
    by apply negb_true_iff, bool_decide_eq_false in Hn.
  - intros [[]|e] w' (Hw' & Hr & Hn); [|by apply Herr]. auto.
Qed.

(** ** Operations *)

(** The operations of a node that wait for it. *)
Definition queue (n : Uuid) w : gmap Uuid NodeOperationRecord := approved_ops n (repo w).
Definition waiting (n : Uuid) w : nat := size (queue n w).

Lemma waiting_le n w w' : queue n w' ⊆ queue n w → waiting n w' ≤ waiting n w.
Proof. apply map_subseteq_size. Qed.

Lemma waiting_taken n w w' u :
  is_Some (queue n w !! u) → queue n w' ⊆ delete u (queue n w) → S (waiting n w') ≤ waiting n w.
Proof.
  intros Hu Hsub. apply map_subseteq_size in Hsub. rewrite map_size_delete_Some in Hsub by done.
  unfold waiting. assert (size (queue n w) ≠ 0); [|lia].
  destruct Hu as [o Ho]. intros Hs%map_size_empty_iff. by rewrite Hs, lookup_empty in Ho.
Qed.

(** A claim takes the operation it answers with off the queue. *)
Lemma claim_queue n w :
  steady w →
  after (hub_claim_next_node_operation n) w (λ r w', steady w' ∧
    match r with
    | Ok (Some p) => is_Some (queue n w !! po_operation_id p)
                     ∧ queue n w' = delete (po_operation_id p) (queue n w)
    | _ => queue n w' ⊆ queue n w
    end).
Proof.
  intros Hw. apply after_and; [by apply keeps_steady; [apply hub_claim_keeps|]|].
  assert (world_ok w) as Hok by apply Hw.
  unfold hub_claim_next_node_operation. apply after_bind. unfold after, queue.
  pose proof (repo_claim_run n w Hok) as Hrun. destruct (next_claim n (repo w)) as [o|] eqn:Ho.
  - destruct Hrun as (t & w1 & _ & -> & Hrepo & _). unfold Hub.bind, Hub.lift.
    apply next_claim_Some in Ho as [Ho _]; [|apply world_repo, Hok].
    assert (approved_ops n (repo w1) = delete (operation_id o) (approved_ops n (repo w))) as Hq
      by (by rewrite Hrepo, approved_ops_start).
    destruct (claimed_node_operation_dispatch _) as [p|e] eqn:Hd; simpl.
    + unfold claimed_node_operation_dispatch in Hd. result_inv. simpl. by split.
    + rewrite Hq. apply delete_subseteq.
  - destruct Hrun as (w1 & -> & Hrepo & _). simpl. by rewrite Hrepo.
Qed.

Lemma report_queue n oid request w :
  steady w →
  after (report_node_operation_result oid request) w (λ _ w', steady w' ∧ queue n w' ⊆ queue n w).
Proof.
  intros Hw. apply after_and; [by apply keeps_steady; [apply report_node_operation_result_keeps|]|].
  unfold after. destruct (report_node_operation_result oid request w) as [[r|e] w'] eqn:Hrun.
  - apply report_result_run in Hrun as (o & o' & _ & _ & Hops & _ & _ & _ & _ & Hnot & _); [|apply Hw].
    unfold queue, approved_ops. rewrite Hops, map_filter_insert_False by apply Hnot.
    rewrite map_filter_delete. apply delete_subseteq.
  - assert (atomic_on_error (report_node_operation_result (T := T) oid request)) as Hat
      by (unfold report_node_operation_result; solve_atomic).
    apply Hat in Hrun as [Hr _]. unfold queue. by rewrite Hr.
Qed.

Abbreviation agent_node a := (reg_node_id (registration a)).

(** A process the agent started for an operation, and what the processes, started one
    after the other, make of the files. *)
Record OperationRun := mkRun { run_operation : Uuid; run_spec : CommandSpec; run_limit : Z }.

Fixpoint run_all (i : nat) (l : list OperationRun) (f : gmap string string) : gmap string string :=
  match l with
  | [] => f
  | p :: l' => run_all (S i) l' (spawn i (run_spec p) (run_limit p) f).2
  end.

(** Between [a] and [a'] exactly the processes [l] were started, in this order.  Each was
    told the id of an operation that waited at [a] and waits no more at [a'], no two the
    same id, and nothing was put on the queue. *)
Record ran (n : Uuid) a a' (l : list OperationRun) : Prop := {
  ran_count : exec_next a' = exec_next a + length l;
  ran_files : files a' = run_all (exec_next a) l (files a);
  ran_queue : queue n (hub a') ⊆ queue n (hub a);
  ran_once : NoDup (run_operation <$> l);
  ran_taken : ∀ p, p ∈ l → is_Some (queue n (hub a) !! run_operation p)
                ∧ queue n (hub a') !! run_operation p = None;
  ran_named : ∀ p, p ∈ l →
    ("PINGORAHUB_OPERATION_ID", uuid_to_string (run_operation p)) ∈ cmd_env (run_spec p);
}.

Lemma ran_nothing n a a' :
  exec_next a' = exec_next a → files a' = files a → queue n (hub a') ⊆ queue n (hub a) → ran n a a' [].
Proof. intros He Hf Hq. split; simpl; [lia|done|done|constructor|set_solver..]. Qed.

Lemma run_all_app i l k f : run_all i (l ++ k) f = run_all (i + length l) k (run_all i l f).
Proof.
  revert i f. induction l as [|p l IH]; intros i f; simpl; [by rewrite Nat.add_0_r|].
  rewrite IH. f_equal. lia.
Qed.

Lemma ran_trans n a a1 a' l k : ran n a a1 l → ran n a1 a' k → ran n a a' (l ++ k).
Proof.
  intros [Hc1 Hf1 Hq1 Ho1 Ht1 Hn1] [Hc2 Hf2 Hq2 Ho2 Ht2 Hn2]. split.
  - rewrite length_app. lia.
  - by rewrite run_all_app, <-Hf1, <-Hc1.
  - by etrans.
  - rewrite fmap_app. apply NoDup_app. split_and!; [done| |done].
    intros u (p & -> & [_ Hp]%Ht1)%list_elem_of_fmap (q & Hpq & [Hq _]%Ht2)%list_elem_of_fmap.
    rewrite <-Hpq, Hp in Hq. by destruct Hq.
  - intros p [Hp|Hp]%elem_of_app.
    + apply Ht1 in Hp as [? Hp]. split; [done|]. by eapply lookup_weaken_None.
    + apply Ht2 in Hp as [[o Ho] Hp]. split; [|done]. exists o. by eapply lookup_weaken.
  - intros p [Hp|Hp]%elem_of_app; auto.
Qed.

Lemma wp_run_command cmd limit m1 m2 a Q :
  (∀ r, Q r (set_exec (spawn (exec_next a) cmd limit (files a)).2 (S (exec_next a)) a)) →
  wp (run_command cmd limit m1 m2) a Q.
Proof. intros HQ. unfold wp, run_command. by destruct (spawn _ _ _ _) as [[|text|code o e] f]. Qed.

(** Running an operation starts one process, which is told its id, or none. *)
Lemma wp_operation operation a (Q : Result string Error → Agent (World T) → Prop) :
  (∀ r, Q r a) →
  (∀ r p, run_operation p = po_operation_id operation →
     ("PINGORAHUB_OPERATION_ID", uuid_to_string (po_operation_id operation)) ∈ cmd_env (run_spec p) →
     Q r (set_exec (spawn (exec_next a) (run_spec p) (run_limit p) (files a)).2 (S (exec_next a)) a)) →
  wp (run_node_operation operation) a Q.
Proof.
  intros HQ0 HQ. unfold run_node_operation. wps; try apply HQ0. apply wp_run_command.
  set (cmd := mkCommand _ _). set (limit := Z.max _ _). intros r.
  assert (∀ r, Q r (set_exec (spawn (exec_next a) cmd limit (files a)).2 (S (exec_next a)) a)) as HQ1.
  { intros r'. apply (HQ r' (mkRun (po_operation_id operation) cmd limit)); [done|]. set_solver. }
  destruct r as [[[code o] e]|e]; wps; apply HQ1.
Qed.

Lemma set_hub_hub a : set_hub (hub a) a = a.
Proof. by destruct a. Qed.

Lemma wp_now a (Q : Result DateTime Error → Agent (World T) → Prop) :
  Q (Ok (clock (now_next a))) (set_now_next (S (now_next a)) a) → wp NodeAgent.utc_now a Q.
Proof. done. Qed.

(** Asking for the next operation. *)
Lemma wp_pending tok a (Q : Result PendingOperationResponse Error → Agent (World T) → Prop) :
  let n := agent_node a in
  steady (hub a) →
  (∀ e w', steady w' → queue n w' ⊆ queue n (hub a) → Q (Err e) (set_hub w' a)) →
  (∀ p w', steady w' → is_Some (queue n (hub a) !! po_operation_id p) →
     queue n w' = delete (po_operation_id p) (queue n (hub a)) → Q (Ok p) (set_hub w' a)) →
  wp (get_json (hub_base_url config +:+ "/api/node/operations/pending?node_id=" +:+ uuid_to_string n) tok)
    a Q.
Proof.
  intros n Hw Herr Hok.
  eapply wp_get; [apply route_pending|intros e; rewrite <-(set_hub_hub a); by apply Herr|].
  unfold serve, with_query, request_of. simpl. rewrite parse_uuid_to_string. apply on_json.
  unfold api_next_node_operation.
  assert (∀ w', steady w' → queue n w' ⊆ queue n (hub a) → ∀ st env,
    (∀ e, Q (Err e) (set_hub (set_rng_next (S (rng_next w')) w') a))
    ∧ ∀ x, decoded (mkResponse st [] (BError env)) x
        → Q (Ok x) (set_hub (set_rng_next (S (rng_next w')) w') a)) as Hfail.
  { intros w' Hw' Hle st env. split; [|by intros x (d & [=] & _)].
    intros e. apply Herr; [apply steady_rng; [lia|done]|done]. }
  apply after_node_guard; [done|..].
  { intros e w' Hw' Hr. apply Hfail; [done|]. unfold queue. by rewrite Hr. }
  intros w1 Hw1 Hr1 _. assert (queue n w1 = queue n (hub a)) as Hwait by (unfold queue; by rewrite Hr1).
  apply after_bind. eapply after_mono; [by apply claim_queue|]. fold n. rewrite Hwait.
  intros [[p|]|e] w2 [Hw2 Hle2]; sym0; simplify_eq; try by apply Hfail.
  unfold api_ok. sym0. assert (steady (set_rng_next (S (rng_next w2)) w2)) by (apply steady_rng; [lia|done]).
  destruct Hle2 as [Hin Hq].
  split; [intros e; apply Herr; [done|]; change (queue n w2 ⊆ queue n (hub a)); rewrite Hq; apply delete_subseteq|].
  intros x (d & [= <-] & [= <-]). by apply Hok.
Qed.

(** Reporting its result. *)
Lemma wp_result n oid request tok a (Q : Result OperationResultResponse Error → Agent (World T) → Prop) :
  steady (hub a) →
  (∀ r w', steady w' → queue n w' ⊆ queue n (hub a) → Q r (set_hub w' a)) →
  wp (post_json (hub_base_url config +:+ "/api/node/operations/" +:+ uuid_to_string oid +:+ "/result")
        (JOperationResultRequest request) tok) a Q.
Proof.
  intros Hw HQ.
  eapply wp_post; [apply route_result|intros e; rewrite <-(set_hub_hub a); by apply HQ|].
  unfold serve, with_uuid, with_path, with_json, request_of. simpl. rewrite parse_uuid_to_string.
  apply on_json. unfold api_report_node_operation_result.
  assert (∀ w', steady w' → queue n w' ⊆ queue n (hub a) → ∀ st env,
    (∀ e, Q (Err e) (set_hub (set_rng_next (S (rng_next w')) w') a))
    ∧ ∀ x, decoded (mkResponse st [] (BError env)) x
        → Q (Ok x) (set_hub (set_rng_next (S (rng_next w')) w') a)) as Hfail.
  { intros w' Hw' Hle st env. assert (steady (set_rng_next (S (rng_next w')) w')) by
      (apply steady_rng; [lia|done]). split; intros; by apply HQ. }
  apply after_node_guard; [done|..].
  { intros e w' Hw' Hr. apply Hfail; [done|]. unfold queue. by rewrite Hr. }
  intros w1 Hw1 Hr1 _. assert (queue n w1 = queue n (hub a)) as Hwait by (unfold queue; by rewrite Hr1).
  apply after_bind. eapply after_mono; [by apply (report_queue n)|]. rewrite Hwait.
  intros [p|e] w2 [Hw2 Hle2]; [|by apply Hfail].
  unfold api_ok. sym0. assert (steady (set_rng_next (S (rng_next w2)) w2)) by (apply steady_rng; [lia|done]).
  split; intros; by apply HQ.
Qed.

(** One turn of the agent's loop. *)
Lemma turn_runs a :
  steady (hub a) →
  wp (sync_one_operation config) a (λ r a', steady (hub a') ∧ registration a' = registration a
    ∧ (∃ l, ran (agent_node a) a a' l)
    ∧ (r = Ok true → S (waiting (agent_node a) (hub a')) ≤ waiting (agent_node a) (hub a))).
Proof.
  intros Hw. unfold sync_one_operation, token. wps. apply wp_pending; [done|..].
  - intros e w' Hw' Hle. wps. destruct (is_not_found e); wps;
      (split_and!; [done|done|by exists []; apply ran_nothing|done]).
  - intros p w' Hw' Hin Hq. wps.
    assert (∀ q, q = po_operation_id p → ∀ w2, queue (agent_node a) w2 ⊆ queue (agent_node a) w' →
      is_Some (queue (agent_node a) (hub a) !! q) ∧ queue (agent_node a) w2 !! q = None) as Hgone.
    { intros q -> w2 H2. split; [done|]. eapply lookup_weaken_None; [|exact H2].
      rewrite Hq. apply lookup_delete_eq. }
    assert (∀ w2, queue (agent_node a) w2 ⊆ queue (agent_node a) w' →
      queue (agent_node a) w2 ⊆ queue (agent_node a) (hub a)) as Hsub.
    { intros w2 H2. etrans; [exact H2|]. rewrite Hq. apply delete_subseteq. }
    apply wp_operation; [intros r|intros r pr Hpr Hnamed]; cbv beta iota;
      apply wp_bind, wp_now, wp_bind, (wp_result (agent_node a)); try done;
      intros [x|e] w2 Hw2 Hle2; wps; simpl hub in *.
    all: split_and!; [done|done| |intros _; apply (waiting_taken _ _ _ (po_operation_id p)); [done|by rewrite <-Hq]].
    1, 2: exists []; apply ran_nothing; [done..|by apply Hsub].
    all: exists [pr]; split; simpl; [lia|done|by apply Hsub|apply NoDup_singleton|..];
      intros q ->%list_elem_of_singleton; [by apply Hgone|by rewrite Hpr].
Qed.

Lemma loop_runs fuel executed a :
  steady (hub a) → waiting (agent_node a) (hub a) < fuel → (0 ≤ executed)%Z →
  let '(r, a') := sync_pending_operations config fuel executed a in
  r ≠ Ok None ∧ steady (hub a') ∧ (∃ l, ran (agent_node a) a a' l)
  ∧ ∀ k, r = Ok (Some k) →
      (k + Z.of_nat (waiting (agent_node a) (hub a'))
       ≤ executed + Z.of_nat (waiting (agent_node a) (hub a)))%Z.
Proof.
  revert executed a. induction fuel as [|fuel IH]; intros executed a Hw Hlt Hex; [lia|].
  simpl. unfold Io.bind. pose proof (turn_runs a Hw) as Hturn. unfold wp in Hturn.
  destruct (sync_one_operation config a) as [[[|]|e] a1]; destruct Hturn as (Hw1 & Hreg & [l Hl] & Hle).
  - specialize (Hle eq_refl).
    assert (0 ≤ wrap_u32 (executed + 1) ≤ executed + 1)%Z as Hwrap
      by (unfold wrap_u32; split; [apply Z.mod_pos_bound|apply Z.mod_le]; lia).
    specialize (IH (wrap_u32 (executed + 1)) a1 Hw1). rewrite Hreg in IH.
    destruct (sync_pending_operations config fuel _ a1) as [r a2].
    destruct IH as (Hr & Hw2 & [k Hk] & Hkr); [lia|lia|].
    split_and!; [done|done|exists (l ++ k); by eapply ran_trans|]. intros j Hj. specialize (Hkr j Hj). lia.
  - split_and!; [done|done|by exists l|]. intros k [= <-]. apply ran_queue, waiting_le in Hl. lia.
  - split_and!; [done|done|by exists l|]. intros k [=].
Qed.

(** C9: The loop in which an agent fetches and runs its operations ends: against
    a hub in any state it can reach and that serves no other client meanwhile, over a
    network that may lose requests and answers, and whatever the commands do, it stops
    after at most one turn more than there are operations waiting for the node.  The
    processes it starts belong to operations that waited and are off the queue, and no
    two of them to the same one: no operation is run twice, also when the loop ends with
    an error.  The count it returns is at most the number of operations it took. *)
Theorem operations_loop_ends fuel a :
  hub_reachable hub_config (hub a) → waiting (agent_node a) (hub a) < fuel →
  let '(r, a') := sync_pending_operations config fuel 0 a in
  r ≠ Ok None ∧ steady (hub a') ∧ (∃ l, ran (agent_node a) a a' l)
  ∧ ∀ k, r = Ok (Some k) →
      (k + Z.of_nat (waiting (agent_node a) (hub a')) ≤ Z.of_nat (waiting (agent_node a) (hub a)))%Z.
Proof. intros Hw%hub_reachable_steady Hlt. by apply (loop_runs fuel 0). Qed.

(** ** Releases *)

(** What the hub has on file after a node reported on a release. *)
Definition recorded w (n rid : Uuid) (status version : string) : Prop :=
  ∃ r nd, release (repo w) rid = Some r ∧ n ∈ target_node_ids r
    ∧ (apply_status <$> ack_status r !! n) = Some status
    ∧ node (repo w) n = Some nd ∧ active_config_version (runtime nd) = Some version.

(** A report: when it is answered, it is on file. *)
Lemma wp_report_recorded rid status version message a
    (Q : Result ReleaseAckResponse Error → Agent (World T) → Prop) :
  steady (hub a) →
  (∀ e w', steady w' → Q (Err e) (set_hub w' a)) →
  (∀ x w', steady w' → recorded w' (agent_node a) rid status version → Q (Ok x) (set_hub w' a)) →
  wp (report_release_status config rid status version message) a Q.
Proof.
  intros Hw Herr Hok. unfold report_release_status, token. wps.
  eapply wp_post; [apply route_ack|intros e; rewrite <-(set_hub_hub a); by apply Herr|].
  unfold serve, with_uuid, with_path, with_json, request_of. simpl. rewrite parse_uuid_to_string.
  apply on_json. unfold api_ack_release. simpl.
  assert (∀ w', steady w' → ∀ st env,
    (∀ e, Q (Err e) (set_hub (set_rng_next (S (rng_next w')) w') a))
    ∧ ∀ x, decoded (mkResponse st [] (BError env)) x
        → Q (Ok x) (set_hub (set_rng_next (S (rng_next w')) w') a)) as Hfail.
  { intros w' Hw' st env. split; [|by intros x (d & [=] & _)]. intros e. apply Herr, steady_rng; [lia|done]. }
  apply after_node_guard; [done|intros; by apply Hfail|]. intros w1 Hw1 Hr1 [nd Hnd].
  set (request := mkAckRequest _ _ _ _). apply after_bind.
  pose proof (keeps_steady _ _ (ack_release_keeps rid request) Hw1) as Hkeep. unfold after in *.
  destruct (ack_release rid request w1) as [[x|e] w2] eqn:Hrun; [|by apply Hfail].
  apply ack_release_run in Hrun as (r & r' & Hr & Hin & Hr' & Ht & Hst & _ & _ & Hnode & _); [|apply Hw1].
  rewrite Hr1 in Hnode. destruct (Hnode nd Hnd) as (nd' & Hnd' & Hv & _). cbn.
  assert (steady (set_rng_next (S (rng_next w2)) w2)) by (apply steady_rng; [lia|done]).
  split; [intros e; by apply Herr|]. intros y (d & [= <-] & [= <-]). apply Hok; [done|].
  exists r', nd'. by rewrite Ht.
Qed.

(** A read of the hub. *)
Lemma wp_get_steady `{!FromPayload A} url tok a (Q : Result A Error → Agent (World T) → Prop) :
  steady (hub a) → (∀ r w', steady w' → Q r (set_hub w' a)) → wp (get_json url tok) a Q.
Proof.
  intros Hw HQ. destruct (axum_route GET url) as [[[endpoint path] query]|] eqn:Hroute.
  - eapply wp_get; [exact Hroute|intros e; rewrite <-(set_hub_hub a); by apply HQ|].
    pose proof (serve_get_keeps hub_config endpoint (request_of (mkHubCall Get url None tok) path query)
      (hub a) (route_table _ _ _ _ _ Hroute) Hw) as Hw'.
    unfold on_served. destruct (serve _ _ _ _) as [r w']. split; intros; by apply HQ.
  - unfold get_json. apply wp_bind, wp_context. unfold wp, call_hub, hub_call, link, hub_link, dispatch.
    simpl. rewrite Hroute. destruct (delivery _ _); try (by apply (HQ (Err _))).
    apply wp_parse; intros; by apply HQ.
Qed.

(** The node and its hub agree on the release the node runs. *)
Definition agreed (version : string) a : Prop :=
  current_release_version (local a) = Some version
  ∧ ∃ rid, last_acknowledged_release_id (local a) = Some rid
      ∧ recorded (hub a) (agent_node a) rid "success" version.

Definition succeeded (r : Result SyncAction Error) (version : string) : Prop :=
  r = Ok (Applied version) ∨ r = Ok (Acked version).

Lemma failed_not_succeeded e version : ¬ succeeded (Err e) version.
Proof. by intros [|]. Qed.

Lemma apply_latest_agrees latest a :
  steady (hub a) →
  wp (apply_latest config latest) a (λ r a', ∀ version, succeeded r version → agreed version a').
Proof.
  intros Hw. assert (∀ e a' version, succeeded (Err e) version → agreed version a') as Herr
    by (intros e a' version H; by apply failed_not_succeeded in H).
  unfold apply_latest, token. wps.
  apply wp_report_recorded; [done|intros; by eapply Herr|]. intros x1 w1 Hw1 _. wps.
  apply wp_get_steady; [done|]. intros [package|e] w2 Hw2; [|by apply Herr]. wps.
  apply wp_stage. intros [artifacts|e] f1 n1; [|by apply Herr]. wps.
  apply wp_report_recorded; [done|intros; by eapply Herr|]. intros x2 w3 Hw3 _. wps.
  set (a1 := set_hub w3 _). apply run_wp. intros r a2 Hrun.
  pose proof (wp_run _ _ _ _ _ (apply_package_keeps config package artifacts a1) Hrun) as [(_ & Hreg & _) Hhub].
  assert (steady (hub a2)) as Hs2 by (by rewrite Hhub).
  destruct r as [message|error]; wps.
  2: { apply wp_report_recorded; [done|..]; intros; wps; by eapply Herr. }
  eapply wp_mono; [apply activate_files|]. intros [[]|e] a3 (f & n & ->); [|by apply Herr]. wps.
  unfold acknowledge_release. apply wp_bind, wp_bind, wp_report_recorded; [done|intros; wps; by eapply Herr|].
  intros x3 w4 Hw4 Hrec. wps. unfold state_persist.
  apply wp_context, wp_fs_write; simpl; [|intros; by eapply Herr]. wps.
  intros version [[= <-]|[=]]. split; [done|]. exists (cp_release_id package). split; [done|]. simpl in *.
  exact Hrec.
Qed.

Lemma confirm_latest_agrees latest a :
  steady (hub a) →
  wp (confirm_latest config latest) a (λ r a', ∀ version, succeeded r version → agreed version a').
Proof.
  intros Hw. unfold confirm_latest. wps. case_decide; [by wps; intros v [|]|].
  destruct (current_release_version (local a)) as [current|] eqn:Hcur; wps; simplify_eq/=;
    [|by exfalso; eapply failed_not_succeeded].
  apply wp_report_recorded; [done|by intros e w' _ v [|]|]. intros x w1 Hw1 Hrec. wps. unfold state_persist.
  apply wp_context, wp_fs_write; [|by intros e f _ v [|]]. simpl. wps.
  intros v [[=]|[= <-]]. split; [done|]. by exists (lr_release_id latest).
Qed.

(** C10: When an agent has applied a release, or confirmed the one it runs, the
    node and its hub agree: the version in the agent's memory is the node's active
    version at the hub, and the release the agent acknowledged, whose target the
    node is, is on file there as applied with success. *)
Theorem sync_agrees version a :
  hub_reachable hub_config (hub a) → succeeded (sync_latest_release config a).1 version →
  agreed version (sync_latest_release config a).2.
Proof.
  intros Hw%hub_reachable_steady.
  assert (wp (sync_latest_release config) a (λ r a', ∀ version, succeeded r version → agreed version a'))
    as Hwp.
  { unfold sync_latest_release, token. wps. apply wp_get_steady; [done|]. intros r w1 Hw1. wps.
    destruct r as [latest|error]; [|destruct (is_not_found error); by wps; intros v [|]]. wps.
    case_decide; [by apply confirm_latest_agrees|by apply apply_latest_agrees]. }
  unfold wp in Hwp. destruct (sync_latest_release config a) as [r a']. apply Hwp.
Qed.

(** ** Refresh tokens *)

Definition refresh_request a : NodeRefreshRequest :=
  mkRefresh (agent_node a) (reg_refresh_token (registration a)).

(** A refresh that succeeds takes the token it was made with off the store, for good. *)
Lemma refresh_spends request w resp w' :
  world_ok w → refresh_node_token request w = (Ok resp, w') → spent (refresh_req_token request) w'.
Proof.
  intros Hw H. unfold refresh_node_token in H. hub_inv. simplify_eq/=.
  rename select (issue_node_tokens _ _ = _) into Hrun. rename select (refresh_lease _ _ = _) into Hold.
  assert (∀ i, rng_next w ≤ i → refresh_token_of (rng i) ≠ refresh_req_token request) as Hne.
  { intros i Hi Heq. pose proof (world_fresh_refresh w Hw i Hi). congruence. }
  destruct (issue_node_tokens_run (refresh_node_id request) w Hw) as (w1 & Hiss & Hw1 & _ & _ & _ & Href).
  assert (rng_next w ≤ rng_next w1) as Hn.
  { unfold issue_node_tokens, Hub.bind, Hub.new_v4, Hub.utc_now, write_tokens in Hiss. simpl in Hiss.
    destruct (issue_tokens _ _ _ _ _). injection Hiss as _ <-. simpl. lia. }
  rewrite Hiss in Hrun. injection Hrun as <- <-. split.
  - by apply world_tokens.
  - rewrite Href, Hold. case_decide as Heq; [by destruct (Hne (S (rng_next w)) ltac:(lia))|].
    unfold drop_node. simpl. by rewrite decide_True.
  - by apply world_fresh_access.
  - by apply world_fresh_refresh.
  - intros i Hi. apply Hne. lia.
Qed.

(** What a refresh of the session leaves at the hub. *)
Lemma wp_refresh a (Q : Result Session Error → Agent (World T) → Prop) :
  (∀ e w', repo w' = repo (hub a) → tokens w' = tokens (hub a) → Q (Err e) (set_hub w' a)) →
  (∀ r resp w' a', refresh_node_token (refresh_request a) (hub a) = (Ok resp, w') →
     tokens (hub a') = tokens w' → rng_next w' ≤ rng_next (hub a') → Q r a') →
  wp (refresh_session config) a Q.
Proof.
  intros Hno Hyes. unfold refresh_session. wps.
  eapply wp_post; [apply route_refresh|intros e; rewrite <-(set_hub_hub a); by apply Hno|].
  unfold serve, with_json, request_of. simpl. apply on_json. unfold refresh_node_auth. apply after_bind.
  unfold after. fold (refresh_request a).
  destruct (refresh_node_token (refresh_request a) (hub a)) as [[resp|e] w'] eqn:Hrun.
  - cbn. split; [intros e; eapply Hyes; [done|done|simpl; lia]|]. intros x (d & [= <-] & [= <-]). wps.
    unfold registration_persist. apply wp_context, wp_fs_write; simpl; [wps|intros e f _];
      (eapply Hyes; [done|done|simpl; lia]).
  - intros st env. split; [|by intros x (d & [=] & _)]. intros e'.
    assert (atomic_on_error (refresh_node_token (T := T) (refresh_request a))) as Hat.
    { unfold refresh_node_token, issue_node_tokens. solve_atomic. }
    by apply Hat in Hrun as [Hr Ht]; apply Hno.
Qed.

(** C22: A refresh that reached the hub cannot be repeated.  Once the hub has
    rotated a node's tokens, the refresh token it was asked with never comes on file
    again, whatever requests the hub serves afterwards.  An agent that still holds this
    token, because the answer was lost or the new one could not be written to its disk,
    is refused at every later refresh: the handler answers 401, the agent gets an error
    and keeps its registration, and neither the repository nor the tokens of the hub
    change. *)
Theorem rotated_refresh_refused a :
  hub_reachable hub_config (hub a) →
  let old := reg_refresh_token (registration a) in
  let a1 := (refresh_session config a).2 in
  tokens (hub a1) ≠ tokens (hub a) →
  ∀ b, registration b = registration a → hub_later hub_config (hub a1) (hub b) →
    refresh_lease (tokens (hub b)) old = None
    ∧ refresh_node_token (refresh_request b) (hub b) = (Err (unauthorized "invalid refresh token"), hub b)
    ∧ let '(r, b') := refresh_session config b in
      is_ok r = false ∧ registration b' = registration b
      ∧ repo (hub b') = repo (hub b) ∧ tokens (hub b') = tokens (hub b).
Proof.
  intros Hw%hub_reachable_steady old a1 Hrot b Hreg Hlater.
  assert (spent old (hub a1)) as Hspent.
  { assert (wp (refresh_session config) a (λ _ a', tokens (hub a') = tokens (hub a) ∨ spent old (hub a')))
      as Hwp.
    { apply wp_refresh; [by left|]. intros r resp w' a' Hrun Ht Hn. right. apply (spent_same _ w'); [done..|].
      apply (refresh_spends _ _ _ _ (service_world _ (proj1 Hw)) Hrun). }
    unfold wp in Hwp. subst a1. destruct (refresh_session config a) as [r a']. naive_solver. }
  pose proof (spent_off _ _ (later_spent _ _ _ _ Hlater Hspent)) as Hdead. split; [done|].
  assert (refresh_node_token (refresh_request b) (hub b)
    = (Err (unauthorized "invalid refresh token"), hub b)) as Hrefused.
  { unfold refresh_node_token, refresh_request, Hub.bind, read_tokens, get_or. simpl.
    rewrite Hreg. fold old. by rewrite Hdead. }
  split; [done|]. assert (wp (refresh_session config) b (λ r b', is_ok r = false
    ∧ registration b' = registration b ∧ repo (hub b') = repo (hub b) ∧ tokens (hub b') = tokens (hub b)))
    as Hwp; [|unfold wp in Hwp; by destruct (refresh_session config b)].
  apply wp_refresh; [done|]. intros r resp w' b' Hrun. by rewrite Hrefused in Hrun.
Qed.
End Calls.

(** ** A small installation *)

(** The wire of the examples: the patterns of the node's routes are matched one
    by one. *)
Definition captured (prefix suffix path : string) : option string :=
  match strip_prefix prefix path ≫= split_once "/" with
  | Some (segment, rest) => if decide (rest = suffix) then Some segment else None
  | None => None
  end.

Definition node_route (method : Method) (path : string) : option Route :=
  match method with
  | GET =>
      match strip_prefix "/api/node/config/releases/latest?node_id=" path,
            strip_prefix "/api/node/operations/pending?node_id=" path,
            strip_prefix "/api/node/config/package/" path with
      | Some query, _, _ => Some (EpLatestRelease, [], Some query)
      | _, Some query, _ => Some (EpNextNodeOperation, [], Some query)
      | _, _, Some rest =>
          match split_once "?" rest with
          | Some (version, query) => Some (EpConfigPackage, [version], strip_prefix "node_id=" query)
          | None => Some (EpConfigPackage, [rest], None)
          end
      | _, _, _ => None
      end
  | POST =>
      match captured "/api/node/releases/" "ack" path, captured "/api/node/operations/" "result" path with
      | Some segment, _ => Some (EpAckRelease, [segment], None)
      | _, Some segment => Some (EpReportNodeOperationResult, [segment], None)
      | _, _ =>
          if decide (path = "/api/node/auth/refresh") then Some (EpRefreshNodeAuth, [], None)
          else if decide (path = "/api/node/heartbeat") then Some (EpNodeHeartbeat, [], None)
          else None
      end
  | _ => None
  end.

Definition demo_wire (d : Delivery) : Wire MemoryTokenState := {|
  delivery _ _ := d;
  axum_route method url :=
    route ← strip_prefix "http://hub" url ≫= node_route method;
    if routed method route.1.1 then Some route else None;
  response_text r := match resp_body r with BError env => Ok (body_message (error env)) | _ => Ok "" end;
|}.

Lemma strip_prefix_app p s : strip_prefix p (p +:+ s) = Some s.
Proof. by apply strip_prefix_Some. Qed.

Lemma word_no_slash u : "/"%char ∉ bytes (uuid_to_string u).
Proof.
  pose proof (uuid_to_string_word u) as Hw. unfold word in Hw. rewrite Forall_forall in Hw.
  intros Hin. by apply Hw in Hin.
Qed.

Lemma captured_word prefix suffix u :
  captured prefix suffix (prefix +:+ uuid_to_string u +:+ "/" +:+ suffix) = Some (uuid_to_string u).
Proof.
  unfold captured. rewrite strip_prefix_app. simpl mbind.
  rewrite (split_once_app "/") by apply word_no_slash. by rewrite decide_True.
Qed.

(** A table entry, looked up. *)
Lemma demo_route d method path route :
  node_route method path = Some route → routed method route.1.1 = true →
  axum_route (Wire := demo_wire d) method ("http://hub" +:+ path) = Some route.
Proof.
  intros Hr Ht. unfold axum_route, demo_wire. rewrite strip_prefix_app. cbn [mbind option_bind].
  rewrite Hr. cbn [mbind option_bind]. by rewrite Ht.
Qed.

Lemma demo_wire_laws d : WireLaws (WI := demo_wire d) "http://hub".
Proof.
  split.
  - intros u. apply demo_route; [|vm_compute; reflexivity]. unfold node_route.
    by rewrite (strip_prefix_app "/api/node/config/releases/latest?node_id=").
  - intros u. apply demo_route; [|vm_compute; reflexivity]. unfold node_route.
    by rewrite (strip_prefix_app "/api/node/operations/pending?node_id=").
  - intros u. apply demo_route; [|vm_compute; reflexivity]. unfold node_route.
    by rewrite (captured_word "/api/node/releases/" "ack").
  - intros u. apply demo_route; [|vm_compute; reflexivity]. unfold node_route.
    by rewrite (captured_word "/api/node/operations/" "result").
  - reflexivity.
  - intros method url endpoint captures query Hroute. unfold axum_route, demo_wire in Hroute.
    apply bind_Some in Hroute as (route & _ & Hroute).
    destruct (routed method route.1.1) eqn:Ht; [|done]. injection Hroute as ->. exact Ht.
Qed.

(** Requests served one after the other, each of which the hub can take. *)
Fixpoint serve_all (l : list (Endpoint * Request)) (w : World MemoryTokenState) : World MemoryTokenState :=
  match l with
  | [] => w
  | (endpoint, req) :: l' => serve_all l' (serve default_hub_config endpoint req w).2
  end.

Fixpoint calm (l : list (Endpoint * Request)) (w : World MemoryTokenState) : bool :=
  match l with
  | [] => true
  | (endpoint, req) :: l' =>
      (release_counter w + 2 <=? u64_max)%Z
      && match endpoint with
         | EpCreateSite => (Z.of_nat (size (site_ids_by_code (repo w))) <? u32_max)%Z
         | EpUpdateOperationTemplate | EpUpdateDnsProvider => false
         | _ => true
         end
      && calm l' (serve default_hub_config endpoint req w).2
  end.

Lemma calm_reachable l w :
  calm l w = true → hub_reachable default_hub_config w → hub_reachable default_hub_config (serve_all l w).
Proof.
  revert w. induction l as [|[endpoint req] l IH]; intros w Hc Hw; [done|].
  simpl in Hc. apply andb_true_iff in Hc as [Hc Hl]. apply andb_true_iff in Hc as [Hc He]. simpl.
  apply IH; [done|]. apply hub_serve; [done|]. split; [by apply Z.leb_le|].
  destruct endpoint; try done. by apply Z.ltb_lt.
Qed.

Definition as_admin (path : list string) (body : RequestBody) : Request :=
  mkRequest (mkHeaders None (Some "pingorahub_admin_session=adm_10021003")) path None body.

(** An administrator signs in, makes a node, which registers, and queues two
    operations for it. *)
Definition setup : list (Endpoint * Request) :=
  [(EpAdminLogin, login_request);
   (EpCreateNode, as_admin [] (JCreateNodeRequest demo_create));
   (EpRegisterNode, mkRequest anonymous [] None
      (JNodeRegisterRequest (mkRegister "edge-a" "boot-1007" "edge-a.local" None None "0.1.0")));
   (EpCreateOperationTemplate, as_admin []
      (JCreateOperationTemplateRequest (mkTemplateRequest "echo" "custom_template" "echo {{word}}" ["word"] 30 "unknown" false)));
   (EpCreateNodeOperation, as_admin ["1006"]
      (JCreateNodeOperationRequest (mkOperationRequest 1012 (jobj [("word", VString "hi")]) None)));
   (EpCreateNodeOperation, as_admin ["1006"]
      (JCreateNodeOperationRequest (mkOperationRequest 1012 (jobj [("word", VString "ho")]) None)));
   (EpCreateSite, as_admin []
      (JCreateSiteRequest (mkCreateSite None "Shop" "shop.example.com" 443 "https" true SiteConfig.demo_config)));
   (EpBindSiteNodes, as_admin ["1018"]
      (JCreateSiteBindingsRequest [mkBindingItem 1006 "primary" 10 None None None]));
   (EpCreateRelease, as_admin [] (JCreateReleaseRequest (mkCreateRelease "site" 1018 "manual" "first")))].

Definition installed : World MemoryTokenState := serve_all setup created_world.

Lemma installed_reachable : hub_reachable default_hub_config installed.
Proof.
  apply calm_reachable; [vm_compute; reflexivity|].
  apply (hub_seed default_hub_config " Admin" "" "secret1" admin_world); [|done].
  apply (hub_boot default_hub_config 30).
Qed.

(** The agent of the node, as it starts. *)
Definition fleet_agent : Agent (World MemoryTokenState) :=
  mkAgent installed ∅ 0 0 0 0
    (mkRegistration 1006 "edge-a" "edge-a.local" "" "node-rt-1010" "" "manual") default_local
    (mkSession "node-at-1009" 86400000000008).

#[local] Existing Instance demo_wire_laws.

(** The links over a network that delivers, and over one that loses answers. *)
Definition good_link : HubLink (World MemoryTokenState) :=
  hub_link (WI := demo_wire Delivered) default_hub_config.
Definition lossy_link : HubLink (World MemoryTokenState) :=
  hub_link (WI := demo_wire (AnswerLost "connection reset")) default_hub_config.

Lemma operations_loop_ends_witness :
  let run := sync_pending_operations (HL := good_link) demo_config 3 0 fleet_agent in
  waiting 1006 installed = 2 ∧ run.1 = Ok (Some 2%Z) ∧ waiting 1006 (hub run.2) = 0
  ∧ run.1 ≠ Ok None ∧ steady (hub run.2).
Proof.
  intros run. split; [vm_compute; reflexivity|]. split; [vm_compute; reflexivity|].
  split; [vm_compute; reflexivity|].
  assert (waiting 1006 installed < 3) as Hlt by (apply Nat.ltb_lt; vm_compute; reflexivity).
  pose proof (operations_loop_ends (WI := demo_wire Delivered) default_hub_config demo_config 3 fleet_agent
    installed_reachable Hlt) as H.
  subst run. unfold link in H. fold good_link in H.
  destruct (sync_pending_operations demo_config 3 0 fleet_agent) as [r a']. exact (conj (proj1 H) (proj1 (proj2 H))).
Defined.

Lemma sync_agrees_witness :
  let run := sync_latest_release (HL := good_link) demo_config fleet_agent in
  run.1 = Ok (Applied "rel-site-25-001") ∧ agreed "rel-site-25-001" run.2.
Proof.
  intros run. split; [vm_compute; reflexivity|].
  apply (sync_agrees (WI := demo_wire Delivered) default_hub_config demo_config "rel-site-25-001" fleet_agent
    installed_reachable). left. vm_compute. reflexivity.
Defined.

(** The answer to a refresh is lost: the agent has its old token, and is locked out,
    also when the hub has served other requests. *)
Lemma rotated_refresh_refused_witness :
  let run := refresh_session (HL := lossy_link) demo_config fleet_agent in
  let login := mkRequest anonymous [] None (JAdminLoginRequest (mkLogin "Admin" "secret1")) in
  let b := set_hub (serve default_hub_config EpAdminLogin login (hub run.2)).2 run.2 in
  registration b = registration fleet_agent
  ∧ is_ok (refresh_session (HL := lossy_link) demo_config b).1 = false.
Proof.
  intros run login b. assert (registration b = registration fleet_agent) as Hreg by (vm_compute; reflexivity).
  split; [exact Hreg|].
  pose proof (rotated_refresh_refused (WI := demo_wire (AnswerLost "connection reset")) default_hub_config
    demo_config fleet_agent installed_reachable) as H.
  destruct (H ltac:(intros Heq; apply (f_equal (λ t, refresh_lease t "node-rt-1010")) in Heq;
                    vm_compute in Heq; discriminate Heq)
              b Hreg (later_serve _ _ _ _ _ (later_now _ _))) as (_ & _ & H').
  unfold link in H'. fold lossy_link in H'.
  destruct (refresh_session demo_config b) as [r b']. exact (proj1 H').
Defined.

(** ** A failed first release *)

(** The apply command fails. *)
Definition failing_apply : AgentExtern := {|
  agent_env := λ _, None;
  io_error := λ _, None;
  spawn := λ _ _ _ f, (Exited (Some 1%Z) "" "bad configuration", f);
  probe := λ _ _ _, Ok 200%Z;
  registration_to_json := reg_refresh_token;
  registration_from_json := λ _, Err "unreadable";
  state_to_json := λ s, default "" (current_release_version s);
  state_from_json := λ _, Ok default_local;
  package_to_json := cp_release_version;
  value_to_json := λ _, "{}";
  to_rfc3339 := λ _, "1970-01-01T00:00:00Z";
|}.

(** A node that runs no release reports the version it tries as its current one,
    also when it failed: the hub then shows as active a version that the node does
    not run. *)
Lemma failed_first_apply_recorded :
  let run := sync_latest_release (AX := failing_apply) (HL := good_link) demo_config fleet_agent in
  is_ok run.1 = false ∧ current_release_version (local run.2) = None
  ∧ recorded (hub run.2) 1006 1021 "failed" "rel-site-25-001".
Proof.
  intros run. split; [vm_compute; reflexivity|]. split; [vm_compute; reflexivity|].
  eexists _, _. split_and!; [vm_compute; reflexivity| |vm_compute; reflexivity..].
  apply (bool_decide_unpack _). vm_compute. exact I.
Qed.
