(* ===== verification/FailoverTx.v ===== *)
(** * The failover worker: its database (apps/failover-worker/src/main.rs)

    The queries of the worker and the transaction of a failover, on the tables of
    the schema ([Sql]; columns that nothing reads, such as [updated_at] of the
    policies, are left out).  A table whose rows the database numbers itself is
    keyed by its unique columns, or is a list.  The worker has its own copies of
    the hub's readers of a site configuration, line for line the same
    ([Readers]); its missed heartbeats are those of the status worker. *)

From stdpp Require Import prelude strings pretty gmap sorting.
From Stdlib Require Import Ascii.
From S2P Require Import Prelude RustStr Json Extern AppError Domain SiteConfig ConfigCompiler Records Store HubReleases HubDns DnsProvider Io Sql DnsWorker Failover.

(** ** The copies of the hub's readers *)

Module Readers.
Definition decode_protocol : string → Protocol := Store.decode_protocol.
Definition decode_site_status : string → SiteStatus := Store.decode_site_status.
Definition parse_upstreams : Value → list Upstream := SiteConfig.parse_upstreams.
Definition parse_routes : Value → list Upstream → list SiteRoute := SiteConfig.parse_routes.
Definition default_site_routes : list Upstream → list SiteRoute := SiteConfig.default_site_routes.
Definition parse_route_value : Value → option SiteRoute := SiteConfig.parse_route_value.
Definition parse_route_match_type : string → RouteMatchType := SiteConfig.parse_route_match_type.
Definition sort_site_routes : list SiteRoute → list SiteRoute := SiteConfig.sort_site_routes.
Definition route_match_rank : RouteMatchType → Z := SiteConfig.route_match_rank.
Definition parse_upstream_balance_method : Value → UpstreamBalanceMethod :=
  SiteConfig.parse_upstream_balance_method.
Definition normalize_upstream_balance_method : string → UpstreamBalanceMethod :=
  SiteConfig.normalize_upstream_balance_method.
Definition parse_cache_rules `{!Extern} : Value → list CacheRule := SiteConfig.parse_cache_rules.
Definition parse_endpoint_object : Map → option UpstreamEndpoint := SiteConfig.parse_endpoint_object.
End Readers.

(** ** Snapshots *)

Record SiteSnapshot := mkSite {
  ss_site_id : Uuid;
  ss_site_code : string;
  ss_name : string;
  ss_domain : string;
  ss_listen_port : Z;
  ss_protocol : Protocol;
  ss_tls_enabled : bool;
  ss_status : SiteStatus;
  ss_config : Value;
  ss_bindings : list SiteBindingSnapshot;
}.

Record DnsRecordSnapshot := mkRecordSnapshot {
  rs_record_id : Uuid;
  rs_value : string;
  rs_ttl : Z;
}.

Record FailoverRunSummary := mkRunSummary {
  run_scanned : nat;
  run_eligible : nat;
  run_switched : nat;
  run_skipped : nat;
  run_failed : nat;
}.

Record LoadedOperationTemplate := mkLoadedTemplate {
  lt_id : Uuid;
  lt_name : string;
  lt_approval_required : bool;
}.

(** ** Tables *)

Record PolicyRow := mkPolicyRow {
  po_scope_type : string;
  po_scope_id : Uuid;
  po_primary_node_id : Uuid;
  po_standby_node_id : Uuid;
  po_trigger_mode : string;
  po_failure_threshold : Z;
  po_precheck_policy : Value;
  po_status : string;
  po_created_at : DateTime;
}.

Definition set_po_targets (primary standby : Uuid) (p : PolicyRow) : PolicyRow :=
  mkPolicyRow (po_scope_type p) (po_scope_id p) primary standby (po_trigger_mode p)
    (po_failure_threshold p) (po_precheck_policy p) (po_status p) (po_created_at p).

(** [nd_public_host] is [host(public_ip)]: the address without its mask. *)
Record NodeRow := mkNodeRow {
  nd_node_code : string;
  nd_status : string;
  nd_public_host : option string;
  nd_last_seen_at : option DateTime;
}.

Record HeartbeatRow := mkHeartbeatRow {
  hb_node_id : Uuid;
  hb_active_config_version : option string;
  hb_reported_at : DateTime;
}.

Record SiteRow := mkSiteRow {
  si_site_code : string;
  si_name : string;
  si_domain : string;
  si_listen_port : Z;
  si_protocol : string;
  si_tls_enabled : bool;
  si_status : string;
}.

Definition set_si_status (status : string) (s : SiteRow) : SiteRow :=
  mkSiteRow (si_site_code s) (si_name s) (si_domain s) (si_listen_port s) (si_protocol s)
    (si_tls_enabled s) status.

Record NodeBindingRow := mkNodeBindingRow {
  nb_status : string;
  nb_bind_mode : string;
  nb_binding_role : string;
  nb_priority : Z;
}.

Record DnsProviderRow := mkDnsProviderRow {
  dp_provider_type : string;
  dp_api_endpoint : option string;
  dp_credential_encrypted : string;
  dp_status : string;
}.

Record CertBindingRow := mkCertBindingRow {
  cb_site_id : Uuid;
  cb_certificate_id : Uuid;
  cb_version : Z;
  cb_is_default : bool;
  cb_created_at : DateTime;
}.

Record ReleaseRow := mkReleaseRow {
  rl_release_code : string;
  rl_scope_type : string;
  rl_scope_id : option Uuid;
  rl_release_type : string;
  rl_release_version : string;
  rl_manifest_json : Value;
  rl_manifest_hash : string;
  rl_reason : option string;
  rl_status : string;
  rl_published_at : option DateTime;
  rl_created_by : string;
  rl_created_at : DateTime;
}.

Record NodeReleaseRow := mkNodeReleaseRow {
  nr_target_version : string;
  nr_current_version : option string;
  nr_apply_status : string;
  nr_apply_message : option string;
  nr_acked_at : option DateTime;
}.

Record DnsRecordRow := mkDnsRecordRow {
  dr_zone_id : Uuid;
  dr_record_type : string;
  dr_host : string;
  dr_value : string;
  dr_ttl : Z;
  dr_status : string;
  dr_last_synced_at : option DateTime;
  dr_updated_at : DateTime;
}.

Definition set_dr_value (value : string) (ttl : Z) (now : DateTime) (r : DnsRecordRow) :
    DnsRecordRow :=
  mkDnsRecordRow (dr_zone_id r) (dr_record_type r) (dr_host r) value ttl (dr_status r) (Some now) now.

Record ChangeLogRow := mkChangeLogRow {
  cl_zone_id : Uuid;
  cl_record_id : option Uuid;
  cl_change_type : string;
  cl_before_data : option Value;
  cl_after_data : option Value;
  cl_change_status : string;
  cl_operator_id : string;
  cl_created_at : DateTime;
}.

Record EventRow := mkEventRow {
  ev_policy_id : Uuid;
  ev_site_id : option Uuid;
  ev_source_node_id : Uuid;
  ev_target_node_id : Uuid;
  ev_trigger_reason : string;
  ev_event_status : string;
  ev_started_at : DateTime;
  ev_finished_at : option DateTime;
}.

Definition finish_event (status : string) (now : DateTime) (e : EventRow) : EventRow :=
  mkEventRow (ev_policy_id e) (ev_site_id e) (ev_source_node_id e) (ev_target_node_id e)
    (ev_trigger_reason e) status (ev_started_at e) (Some now).

Record AuditRow := mkAuditRow {
  au_operator_id : string;
  au_action : string;
  au_resource_type : string;
  au_resource_id : string;
  au_before_data : option Value;
  au_after_data : option Value;
  au_created_at : DateTime;
}.

Record TemplateRow := mkTemplateRow {
  tp_name : string;
  tp_approval_required : bool;
}.

Record NodeOperationRow := mkNodeOperationRow {
  op_node_id : Uuid;
  op_template_id : Uuid;
  op_event_id : option Uuid;
  op_input_params : Value;
  op_exec_status : string;
  op_requested_by : string;
  op_approved_by : option string;
  op_created_at : DateTime;
}.

(** The tables the worker only reads. *)
Record Catalog := mkCatalog {
  nodes : gmap Uuid NodeRow;
  node_heartbeats : gmap Uuid HeartbeatRow;
  site_configs : gmap (Uuid * Z) Value;
  zones : gmap Uuid ZoneRow;
  providers : gmap Uuid DnsProviderRow;
  certs : gmap Uuid CertificateRow;
  cert_versions : gmap Uuid VersionRow;
  cert_bindings : gmap Uuid CertBindingRow;
  operation_templates : gmap Uuid TemplateRow;
}.

(** The tables it writes.  Bindings are unique by site and node, the states of a
    release by release and node. *)
Record FTables := mkFTables {
  catalog : Catalog;
  failover_policies : gmap Uuid PolicyRow;
  failover_events : gmap Uuid EventRow;
  sites : gmap Uuid SiteRow;
  site_node_bindings : gmap (Uuid * Uuid) NodeBindingRow;
  config_releases : gmap Uuid ReleaseRow;
  node_release_status : gmap (Uuid * Uuid) NodeReleaseRow;
  dns_records : gmap Uuid DnsRecordRow;
  dns_change_logs : gmap Uuid ChangeLogRow;
  node_operations : gmap Uuid NodeOperationRow;
  audit_logs : list AuditRow;
}.

Definition set_policies (t : gmap Uuid PolicyRow) (d : FTables) : FTables :=
  mkFTables (catalog d) t (failover_events d) (sites d) (site_node_bindings d) (config_releases d)
    (node_release_status d) (dns_records d) (dns_change_logs d) (node_operations d) (audit_logs d).
Definition set_events (t : gmap Uuid EventRow) (d : FTables) : FTables :=
  mkFTables (catalog d) (failover_policies d) t (sites d) (site_node_bindings d) (config_releases d)
    (node_release_status d) (dns_records d) (dns_change_logs d) (node_operations d) (audit_logs d).
Definition set_sites (t : gmap Uuid SiteRow) (d : FTables) : FTables :=
  mkFTables (catalog d) (failover_policies d) (failover_events d) t (site_node_bindings d)
    (config_releases d) (node_release_status d) (dns_records d) (dns_change_logs d)
    (node_operations d) (audit_logs d).
Definition set_node_bindings (t : gmap (Uuid * Uuid) NodeBindingRow) (d : FTables) : FTables :=
  mkFTables (catalog d) (failover_policies d) (failover_events d) (sites d) t (config_releases d)
    (node_release_status d) (dns_records d) (dns_change_logs d) (node_operations d) (audit_logs d).
Definition set_config_releases (t : gmap Uuid ReleaseRow) (d : FTables) : FTables :=
  mkFTables (catalog d) (failover_policies d) (failover_events d) (sites d) (site_node_bindings d) t
    (node_release_status d) (dns_records d) (dns_change_logs d) (node_operations d) (audit_logs d).
Definition set_node_release_status (t : gmap (Uuid * Uuid) NodeReleaseRow) (d : FTables) : FTables :=
  mkFTables (catalog d) (failover_policies d) (failover_events d) (sites d) (site_node_bindings d)
    (config_releases d) t (dns_records d) (dns_change_logs d) (node_operations d) (audit_logs d).
Definition set_dns_records (t : gmap Uuid DnsRecordRow) (d : FTables) : FTables :=
  mkFTables (catalog d) (failover_policies d) (failover_events d) (sites d) (site_node_bindings d)
    (config_releases d) (node_release_status d) t (dns_change_logs d) (node_operations d)
    (audit_logs d).
Definition set_dns_change_logs (t : gmap Uuid ChangeLogRow) (d : FTables) : FTables :=
  mkFTables (catalog d) (failover_policies d) (failover_events d) (sites d) (site_node_bindings d)
    (config_releases d) (node_release_status d) (dns_records d) t (node_operations d) (audit_logs d).
Definition set_node_operations (t : gmap Uuid NodeOperationRow) (d : FTables) : FTables :=
  mkFTables (catalog d) (failover_policies d) (failover_events d) (sites d) (site_node_bindings d)
    (config_releases d) (node_release_status d) (dns_records d) (dns_change_logs d) t (audit_logs d).
Definition set_audit_logs (t : list AuditRow) (d : FTables) : FTables :=
  mkFTables (catalog d) (failover_policies d) (failover_events d) (sites d) (site_node_bindings d)
    (config_releases d) (node_release_status d) (dns_records d) (dns_change_logs d)
    (node_operations d) t.

(** ** Constraints (migration 0001) *)

Definition policy_row_ok (d : FTables) (p : PolicyRow) : Prop :=
  present (nodes (catalog d)) (po_primary_node_id p)
  ∧ present (nodes (catalog d)) (po_standby_node_id p)
  ∧ po_primary_node_id p ≠ po_standby_node_id p.

Definition event_row_ok (d : FTables) (e : EventRow) : Prop :=
  present (failover_policies d) (ev_policy_id e) ∧ present_opt (sites d) (ev_site_id e)
  ∧ present (nodes (catalog d)) (ev_source_node_id e)
  ∧ present (nodes (catalog d)) (ev_target_node_id e)
  ∧ ev_source_node_id e ≠ ev_target_node_id e.

Definition binding_row_ok (d : FTables) (k : Uuid * Uuid) : Prop :=
  present (sites d) k.1 ∧ present (nodes (catalog d)) k.2.

Definition release_codes_distinct (t : gmap Uuid ReleaseRow) : Prop :=
  map_Forall (λ u r, map_Forall (λ u' r', rl_release_code r' = rl_release_code r → u' = u) t) t.

Definition release_node_ok (d : FTables) (k : Uuid * Uuid) : Prop :=
  present (config_releases d) k.1 ∧ present (nodes (catalog d)) k.2.

Definition change_log_ok (d : FTables) (l : ChangeLogRow) : Prop :=
  present (zones (catalog d)) (cl_zone_id l) ∧ present_opt (dns_records d) (cl_record_id l).

Definition operation_row_ok (d : FTables) (o : NodeOperationRow) : Prop :=
  present (nodes (catalog d)) (op_node_id o)
  ∧ present (operation_templates (catalog d)) (op_template_id o)
  ∧ present_opt (failover_events d) (op_event_id o).

Definition ftables_ok (d : FTables) : Prop :=
  map_Forall (λ _ p, policy_row_ok d p) (failover_policies d)
  ∧ map_Forall (λ _ e, event_row_ok d e) (failover_events d)
  ∧ map_Forall (λ k _, binding_row_ok d k) (site_node_bindings d)
  ∧ release_codes_distinct (config_releases d)
  ∧ map_Forall (λ k _, release_node_ok d k) (node_release_status d)
  ∧ map_Forall (λ _ r, present (zones (catalog d)) (dr_zone_id r)) (dns_records d)
  ∧ map_Forall (λ _ l, change_log_ok d l) (dns_change_logs d)
  ∧ map_Forall (λ _ o, operation_row_ok d o) (node_operations d).

#[export] Instance ftables_ok_dec d : Decision (ftables_ok d).
Proof.
  unfold ftables_ok, policy_row_ok, event_row_ok, binding_row_ok, release_codes_distinct,
    release_node_ok, change_log_ok, operation_row_ok.
  apply _.
Defined.

#[export] Instance ftables_schema : Schema FTables := {| schema_ok := ftables_ok |}.

(** ** Queries *)

(** An event that was started and not finished. *)
Definition open_event (policy_id : Uuid) (e : EventRow) : Prop :=
  ev_policy_id e = policy_id ∧ ev_finished_at e = None
  ∧ ev_event_status e ∈ ["detected"; "prechecking"; "switching"].
#[export] Instance open_event_dec u e : Decision (open_event u e).
Proof. unfold open_event. apply _. Defined.

Section Queries.
Context `{EX : !Extern, CO : !Collation}.

(** [LEFT JOIN LATERAL (... ORDER BY reported_at DESC LIMIT 1)]. *)
Definition latest_config_version (c : Catalog) (node_id : Uuid) : option string :=
  h ← head (sort_by (cmp_rev (cmp_on hb_reported_at Z.compare))
              (filter (λ h, hb_node_id h = node_id) (values (node_heartbeats c))));
  hb_active_config_version h.

(** The joins of a policy with its nodes, and the reading of the row. *)
Definition policy_snapshot (c : Catalog) (entry : Uuid * PolicyRow) : option PolicySnapshot :=
  let '(u, p) := entry in
  pn ← nodes c !! po_primary_node_id p;
  sn ← nodes c !! po_standby_node_id p;
  Some {|
    policy_id := u;
    policy_scope_type := po_scope_type p;
    policy_scope_id := po_scope_id p;
    primary_node_id := po_primary_node_id p;
    standby_node_id := po_standby_node_id p;
    trigger_mode := po_trigger_mode p;
    failure_threshold := Z.max (po_failure_threshold p) 0;
    precheck_policy := po_precheck_policy p;
    primary_node_code := nd_node_code pn;
    standby_node_code := nd_node_code sn;
    primary_status := nd_status pn;
    standby_status := nd_status sn;
    standby_public_ip := nd_public_host sn;
    primary_last_seen_at := nd_last_seen_at pn;
    primary_active_config_version := latest_config_version c (po_primary_node_id p);
    standby_active_config_version := latest_config_version c (po_standby_node_id p);
  |}.

Definition select_active_policies (d : FTables) : list PolicySnapshot :=
  filter_map (policy_snapshot (catalog d))
    (sort_by (cmp_on (λ e, po_created_at e.2) Z.compare)
       (filter (λ e, po_status e.2 = "active") (entries (failover_policies d)))).

Definition select_open_event (policy_id : Uuid) (d : FTables) : bool :=
  bool_decide (Exists (open_event policy_id) (values (failover_events d))).

(** The latest configuration of a site. *)
Definition latest_site_config (site_id : Uuid) (c : Catalog) : option Value :=
  snd <$> head (sort_by (cmp_rev (cmp_on (λ e, e.1.2) Z.compare))
                  (filter (λ e, e.1.1 = site_id) (entries (site_configs c)))).

Definition select_site (site_id : Uuid) (d : FTables) : option (SiteRow * option Value) :=
  (λ s, (s, latest_site_config site_id (catalog d))) <$> sites d !! site_id.

(** A row of the join of the bindings with the nodes. *)
Definition binding_snapshot (c : Catalog) (site_id : Uuid)
    (entry : (Uuid * Uuid) * NodeBindingRow) : option SiteBindingSnapshot :=
  let '((s, n), b) := entry in
  if decide (s = site_id) then
    nd ← nodes c !! n;
    Some (mkBound n (nd_node_code nd) (nd_status nd) (nb_binding_role b) (nb_priority b))
  else None.

Definition select_bindings (site_id : Uuid) (d : FTables) : list SiteBindingSnapshot :=
  sort_by (cmp_then (cmp_on fb_priority Z.compare) (cmp_on fb_node_code collate))
    (filter_map (binding_snapshot (catalog d) site_id) (entries (site_node_bindings d))).

Definition zone_snapshot (c : Catalog) (entry : Uuid * ZoneRow) : option DnsZoneSnapshot :=
  let '(u, z) := entry in
  p ← providers c !! z_provider_id z;
  if decide (z_status z = "active" ∧ dp_status p = "active") then
    Some (mkZoneSnapshot u (z_provider_id z) (dp_provider_type p) (dp_api_endpoint p)
            (dp_credential_encrypted p) (z_zone_name z) (z_external_zone_id z) (z_status z))
  else None.

Definition select_zones (d : FTables) : list DnsZoneSnapshot :=
  sort_by (cmp_then (cmp_rev (cmp_on (λ z, chars_count (zs_zone_name z)) Nat.compare))
                    (cmp_on zs_zone_name collate))
    (filter_map (zone_snapshot (catalog d)) (entries (zones (catalog d)))).

(** The version a site's default binding names, with its certificate.  A list of
    names that cannot be decoded counts as empty. *)
Definition certificate_refs (c : Catalog) (b : CertBindingRow) : list CertificateRef :=
  match certs c !! cb_certificate_id b with
  | None => []
  | Some x =>
      (λ v, mkCertificateRef (cb_certificate_id b) (cb_version b) (c_common_name x)
              (default [] (value_strings (c_sans x))) (c_not_after x) (v_cert_pem v)
              (v_key_pem_encrypted v) (v_chain_pem v))
      <$> filter (λ v, v_certificate_id v = cb_certificate_id b ∧ v_version v = cb_version b)
            (values (cert_versions c))
  end.

Definition select_certificates (site_id : Uuid) (d : FTables) : list CertificateRef :=
  sort_by (cmp_rev (cmp_on cb_created_at Z.compare))
    (filter (λ b, cb_site_id b = site_id ∧ cb_is_default b = true)
       (values (cert_bindings (catalog d)))) ≫= certificate_refs (catalog d).

Definition select_dns_record (plan : DnsFailoverPlan) (d : FTables) : option DnsRecordSnapshot :=
  (λ e : Uuid * DnsRecordRow, mkRecordSnapshot e.1 (dr_value e.2) (dr_ttl e.2)) <$>
    head (sort_by (cmp_rev (cmp_on (λ e, dr_updated_at e.2) Z.compare))
      (filter (λ e, dr_zone_id e.2 = zs_zone_id (plan_zone plan)
                    ∧ dr_record_type e.2 = record_type (change plan)
                    ∧ dr_host e.2 = host (change plan) ∧ dr_status e.2 = "active")
         (entries (dns_records d)))).

Definition loaded_template (entry : Uuid * TemplateRow) : LoadedOperationTemplate :=
  mkLoadedTemplate entry.1 (tp_name entry.2) (tp_approval_required entry.2).

Definition select_template (template_id : Uuid) (d : FTables) : option LoadedOperationTemplate :=
  (λ t, loaded_template (template_id, t)) <$> operation_templates (catalog d) !! template_id.
Definition select_template_by_name (name : string) (d : FTables) : option LoadedOperationTemplate :=
  loaded_template <$>
    find_where (λ e, tp_name e.2 = name) (entries (operation_templates (catalog d))).
End Queries.

(** ** JSON of the logs *)

Section Json.
Context `{EX : !Extern}.

Definition binding_to_json (b : SiteBindingSnapshot) : Value := jobj
  [("node_id", uuid_json (fb_node_id b)); ("node_code", VString (fb_node_code b));
   ("node_status", VString (fb_node_status b)); ("binding_role", VString (fb_binding_role b));
   ("priority", jint (fb_priority b))].

Definition dns_failover_plan_to_json (plan : DnsFailoverPlan) : Value := jobj
  [("zone_id", uuid_json (zs_zone_id (plan_zone plan)));
   ("provider_id", uuid_json (zs_provider_id (plan_zone plan)));
   ("zone_name", VString (change_zone_name (change plan)));
   ("record_type", VString (record_type (change plan))); ("host", VString (host (change plan)));
   ("value", VString (change_value (change plan))); ("ttl", jnat (ttl (change plan)))].
End Json.

(** ** Statements *)

Abbreviation FailoverState N := (Db FTables N).

(** [i32::try_from(ttl).unwrap_or(i32::MAX)]. *)
Definition ttl_column (ttl : Z) : Z := default i32_max (try_from i32_min i32_max ttl).

Section Failover.
Context {N : Type} `{EX : !Extern, CO : !Collation, DX : !DnsExtern, FX : !FailoverExtern}.
Context `{DBE : !DbExtern, ST : !StatusText, DN : !DnsNet N}.

Definition load_active_policies : Io (FailoverState N) (list PolicySnapshot) :=
  query select_active_policies.

Definition has_open_failover_event (policy_id : Uuid) : Io (FailoverState N) bool :=
  query (select_open_event policy_id).

Definition create_failover_event (policy : PolicySnapshot) (now : DateTime) (reason : string) :
    Io (FailoverState N) Uuid :=
  let! event_id := with_env new_v4 in
  do! insert_row failover_events set_events event_id
        (mkEventRow (policy_id policy) (Some (policy_scope_id policy)) (primary_node_id policy)
           (standby_node_id policy) reason "switching" now None) in
  ret event_id.

Definition finish_failover_event (event_id : Uuid) (status : string) (now : DateTime) :
    Io (FailoverState N) unit :=
  execute (λ d, set_events (alter (finish_event status now) event_id (failover_events d)) d).

Definition load_site_bindings (site_id : Uuid) : Io (FailoverState N) (list SiteBindingSnapshot) :=
  query (select_bindings site_id).

Definition load_site_snapshot (site_id : Uuid) : Io (FailoverState N) SiteSnapshot :=
  let! row := query (select_site site_id) in
  let! row := lift (ok_or row ("site " +:+ uuid_to_string site_id +:+ " not found")) in
  let! bindings := load_site_bindings site_id in
  let s := row.1 in
  ret {|
    ss_site_id := site_id;
    ss_site_code := si_site_code s;
    ss_name := si_name s;
    ss_domain := si_domain s;
    ss_listen_port := clamp 0 u16_max (si_listen_port s);
    ss_protocol := Readers.decode_protocol (si_protocol s);
    ss_tls_enabled := si_tls_enabled s;
    ss_status := Readers.decode_site_status (si_status s);
    ss_config := default (VObject []) row.2;
    ss_bindings := bindings;
  |}.

Definition load_dns_zone_snapshots : Io (FailoverState N) (list DnsZoneSnapshot) :=
  query select_zones.

Definition load_site_certificates (site_id : Uuid) : Io (FailoverState N) (list CertificateRef) :=
  query (select_certificates site_id).

Definition load_dns_record_snapshot (plan : DnsFailoverPlan) :
    Io (FailoverState N) (option DnsRecordSnapshot) :=
  query (select_dns_record plan).

Definition provider_config_from_dns_zone (zone : DnsZoneSnapshot) : Result ProviderConfig string :=
  let? credentials := map_err (λ _, "failed to decode dns provider credentials")
    (json_from_str (zs_credential_encrypted zone)) in
  Ok (mkProviderConfig (zs_provider_type zone) (zs_api_endpoint zone) credentials).

(** ** The bindings and the policy *)

(** The [INSERT]s of [save_site_bindings]. *)
Fixpoint insert_bindings (site_id : Uuid) (bindings : list SiteBindingSnapshot) :
    Io (FailoverState N) unit :=
  match bindings with
  | [] => ret tt
  | b :: bindings' =>
      do! insert_row site_node_bindings set_node_bindings (site_id, fb_node_id b)
            (mkNodeBindingRow "active" "failover" (fb_binding_role b) (fb_priority b)) in
      insert_bindings site_id bindings'
  end.

Definition save_site_bindings (site_id : Uuid) (bindings : list SiteBindingSnapshot) :
    Io (FailoverState N) unit :=
  do! execute (λ d, set_node_bindings
        (filter (λ e, e.1.1 ≠ site_id) (site_node_bindings d)) d) in
  insert_bindings site_id bindings.

Definition advance_failover_policy (policy : PolicySnapshot)
    (switched_bindings : list SiteBindingSnapshot) : Io (FailoverState N) (option Uuid) :=
  let next_primary_node_id := standby_node_id policy in
  match select_next_policy_standby switched_bindings next_primary_node_id with
  | None => ret None
  | Some next_standby_node_id =>
      do! execute (λ d, set_policies
            (alter (set_po_targets next_primary_node_id next_standby_node_id) (policy_id policy)
               (failover_policies d)) d) in
      ret (Some next_standby_node_id)
  end.

(** ** The DNS change *)

Definition upsert_dns_record_snapshot (plan : DnsFailoverPlan) (existing : option DnsRecordSnapshot)
    (now : DateTime) : Io (FailoverState N) Uuid :=
  let c := change plan in
  match existing with
  | Some record =>
      do! execute (λ d, set_dns_records
            (alter (set_dr_value (change_value c) (ttl_column (ttl c)) now) (rs_record_id record)
               (dns_records d)) d) in
      ret (rs_record_id record)
  | None =>
      let! record_id := with_env new_v4 in
      do! insert_row dns_records set_dns_records record_id
            (mkDnsRecordRow (zs_zone_id (plan_zone plan)) (record_type c) (host c) (change_value c)
               (ttl_column (ttl c)) "active" (Some now) now) in
      ret record_id
  end.

Definition insert_dns_change_log (plan : DnsFailoverPlan) (existing : option DnsRecordSnapshot)
    (record_id event_id : Uuid) (now : DateTime) : Io (FailoverState N) unit :=
  let zone := plan_zone plan in
  let c := change plan in
  let before_data := (λ record, jobj
    [("record_id", uuid_json (rs_record_id record)); ("zone_id", uuid_json (zs_zone_id zone));
     ("record_type", VString (record_type c)); ("host", VString (host c));
     ("value", VString (rs_value record)); ("ttl", jint (rs_ttl record))]) <$> existing in
  let after_data := jobj
    [("record_id", uuid_json record_id); ("zone_id", uuid_json (zs_zone_id zone));
     ("provider_id", uuid_json (zs_provider_id zone)); ("failover_event_id", uuid_json event_id);
     ("record_type", VString (record_type c)); ("host", VString (host c));
     ("value", VString (change_value c)); ("ttl", jnat (ttl c))] in
  let! log_id := with_env new_v4 in
  insert_row dns_change_logs set_dns_change_logs log_id
    (mkChangeLogRow (zs_zone_id zone) (Some record_id) "failover_dns_switch" before_data
       (Some after_data) "applied" "system:failover-worker" now).

Definition record_text (c : DnsRecordChange) : string :=
  record_type c +:+ " " +:+ host c +:+ " to " +:+ change_value c.

Definition apply_dns_failover (plan : DnsFailoverPlan) (event_id : Uuid) (now : DateTime) :
    Io (FailoverState N) unit :=
  let! existing := load_dns_record_snapshot plan in
  let! provider_config := lift (provider_config_from_dns_zone (plan_zone plan)) in
  let! provider := lift (map_err
    (λ _, "failed to build dns provider " +:+ zs_provider_type (plan_zone plan))
    (build_provider provider_config)) in
  let! sent := with_env (attempt (on_net (
    match existing with
    | Some _ => update_record provider (change plan)
    | None => create_record provider (change plan)
    end))) in
  do! lift (map_err
    (λ _, match existing with
          | Some _ => "failed to update dns record " +:+ record_text (change plan)
          | None => "failed to create dns record " +:+ record_text (change plan)
          end) sent) in
  let! record_id := upsert_dns_record_snapshot plan existing now in
  insert_dns_change_log plan existing record_id event_id now.

(** ** The operations after the switch *)

Definition load_operation_template (template_id : option Uuid) (template_name : option string) :
    Io (FailoverState N) (option LoadedOperationTemplate) :=
  match template_id, template_name with
  | Some u, _ => query (select_template u)
  | None, Some name => query (select_template_by_name name)
  | None, None => ret None
  end.

Fixpoint enqueue_items (policy : PolicySnapshot) (event_id : Uuid) (now : DateTime)
    (items : list Value) (queued : nat) : Io (FailoverState N) nat :=
  match items with
  | [] => ret queued
  | item :: items' =>
      match parse_post_switch_operation item policy with
      | None => enqueue_items policy event_id now items' queued
      | Some spec =>
          let! template := load_operation_template (spec_template_id spec)
                             (spec_template_name spec) in
          match template with
          | None => enqueue_items policy event_id now items' queued
          | Some template =>
              if lt_approval_required template
              then enqueue_items policy event_id now items' queued
              else
                let! operation_id := with_env new_v4 in
                do! insert_row node_operations set_node_operations operation_id
                      (mkNodeOperationRow (spec_node_id spec) (lt_id template) (Some event_id)
                         (spec_input_params spec) "approved" "system:failover-worker"
                         (Some "system:failover-worker") now) in
                enqueue_items policy event_id now items' (S queued)
          end
      end
  end.

Definition enqueue_post_switch_operations (policy : PolicySnapshot) (event_id : Uuid)
    (now : DateTime) : Io (FailoverState N) nat :=
  match get_array (precheck_policy policy) "post_switch_operations" with
  | None => ret 0
  | Some items => enqueue_items policy event_id now items 0
  end.

(** ** The failover of a site *)

(** [now.timestamp_millis() as u64]. *)
Definition timestamp_millis (t : DateTime) : Z := t / 1000000.

(** The specification compiled for a site. *)
Definition snapshot_spec (site : SiteSnapshot) : SiteSpec :=
  let upstreams := Readers.parse_upstreams (ss_config site) in
  mkSiteSpec (ss_site_id site) (ss_site_code site) (ss_name site) (ss_domain site)
    (ss_listen_port site) (ss_protocol site) (ss_tls_enabled site) (ss_status site) upstreams
    (Readers.parse_routes (ss_config site) upstreams) (Readers.parse_cache_rules (ss_config site)).

(** The rows of [node_release_status], one for each node. *)
Fixpoint insert_release_nodes (release_id : Uuid) (version : string)
    (bindings : list SiteBindingSnapshot) : Io (FailoverState N) unit :=
  match bindings with
  | [] => ret tt
  | b :: bindings' =>
      do! insert_row node_release_status set_node_release_status (release_id, fb_node_id b)
            (mkNodeReleaseRow version None "pending" (Some "queued by failover-worker") None) in
      insert_release_nodes release_id version bindings'
  end.

Definition audit_row (policy : PolicySnapshot) (site : SiteSnapshot)
    (switched : list SiteBindingSnapshot) (release_id : Uuid) (version : string)
    (plan : option DnsFailoverPlan) (next_standby : option Uuid) (now : DateTime) : AuditRow :=
  mkAuditRow "system:failover-worker" "failover_switch" "site" (uuid_to_string (ss_site_id site))
    (Some (jobj
      [("primary_node_id", uuid_json (primary_node_id policy));
       ("standby_node_id", uuid_json (standby_node_id policy));
       ("bindings", VArray (binding_to_json <$> ss_bindings site))]))
    (Some (jobj
      [("release_id", uuid_json release_id); ("release_version", VString version);
       ("bindings", VArray (binding_to_json <$> switched));
       ("dns_failover", jopt dns_failover_plan_to_json plan);
       ("next_policy_primary_node_id", uuid_json (standby_node_id policy));
       ("next_policy_standby_node_id", jopt uuid_json next_standby)])) now.

Definition execute_site_failover (policy : PolicySnapshot) (site : SiteSnapshot) (event_id : Uuid)
    (now : DateTime) : Io (FailoverState N) unit :=
  transaction (
    let! dns_zones := load_dns_zone_snapshots in
    let! plan := lift (build_dns_failover_plan (ss_domain site) policy dns_zones) in
    let switched := build_switched_bindings (ss_bindings site) (primary_node_id policy)
                      (standby_node_id policy) in
    do! save_site_bindings (ss_site_id site) switched in
    let! next_policy_standby := advance_failover_policy policy switched in
    let! certificates := load_site_certificates (ss_site_id site) in
    do! require (negb (bool_decide (switched = [])))
          ("no eligible target nodes available for site " +:+ ss_site_code site
           +:+ " after failover switch") in
    let version := build_release_version "failover" now (wrap_u64 (timestamp_millis now)) in
    let targets := (λ b, mkReleaseTarget (fb_node_id b) [ss_site_id site]
                           (bool_decide (fb_binding_role b = "standby"))) <$> switched in
    let! release_id := with_env new_v4 in
    let! created := with_env utc_now in
    let! b := lift (compile_site_bundle (snapshot_spec site) certificates targets version
                      release_id created) in
    let reason := "automatic failover " +:+ primary_node_code policy +:+ " -> "
                  +:+ standby_node_code policy +:+ " for site " +:+ ss_site_code site in
    do! insert_row config_releases set_config_releases release_id
          (mkReleaseRow (uuid_to_string release_id) "site" (Some (ss_site_id site)) "failover" version
             (bundle_json b) (manifest_config_hash (manifest b)) (Some reason) "pending" (Some now)
             "system:failover-worker" now) in
    do! insert_release_nodes release_id version switched in
    do! execute (λ d, set_sites (alter (set_si_status "published") (ss_site_id site) (sites d)) d) in
    do! match plan with
        | Some plan => apply_dns_failover plan event_id now
        | None => ret tt
        end in
    do! execute (λ d, set_audit_logs
          (audit_logs d
           ++ [audit_row policy site switched release_id version plan next_policy_standby now]) d) in
    do! enqueue_post_switch_operations policy event_id now in
    ret tt).

Definition trigger_policy_failover (policy : PolicySnapshot) (now : DateTime) (reason : string) :
    Io (FailoverState N) bool :=
  let! opened := has_open_failover_event (policy_id policy) in
  if (opened : bool) then ret false
  else
    let! site := load_site_snapshot (policy_scope_id policy) in
    if decide (current_primary_node_id (ss_bindings site) = Some (standby_node_id policy))
    then ret false
    else
      let! event_id := create_failover_event policy now reason in
      let! result := attempt (execute_site_failover policy site event_id now) in
      match result with
      | Ok _ => do! finish_failover_event event_id "switched" now in ret true
      | Err error =>
          do! finish_failover_event event_id "failed" now in
          lift (Err error)
      end.

(** ** Passes *)

Definition count_not_eligible (m : FailoverRunSummary) : FailoverRunSummary :=
  let '(mkRunSummary sc el sw sk fa) := m in mkRunSummary sc el sw (S sk) fa.

(** An eligible policy, by what came of it. *)
Definition count_outcome (r : Result bool string) (m : FailoverRunSummary) : FailoverRunSummary :=
  let '(mkRunSummary sc el sw sk fa) := m in
  match r with
  | Ok true => mkRunSummary sc (S el) (S sw) sk fa
  | Ok false => mkRunSummary sc (S el) sw (S sk) fa
  | Err _ => mkRunSummary sc (S el) sw sk (S fa)
  end.

Fixpoint process_policies (now : DateTime) (expected_heartbeat_seconds : Z)
    (policies : list PolicySnapshot) (summary : FailoverRunSummary) :
    Io (FailoverState N) FailoverRunSummary :=
  match policies with
  | [] => ret summary
  | policy :: policies' =>
      match evaluate_policy policy now expected_heartbeat_seconds with
      | None =>
          process_policies now expected_heartbeat_seconds policies' (count_not_eligible summary)
      | Some reason =>
          let! result := attempt (trigger_policy_failover policy now reason) in
          process_policies now expected_heartbeat_seconds policies' (count_outcome result summary)
      end
  end.

Definition process_failover_policies (now : DateTime) (expected_heartbeat_seconds : Z) :
    Io (FailoverState N) FailoverRunSummary :=
  let! policies := load_active_policies in
  process_policies now expected_heartbeat_seconds policies
    (mkRunSummary (length policies) 0 0 0 0).

(** The loop of [main].  [sleeps] says how each sleep ends: it elapses ([false]) or
    is interrupted; the one after the last is interrupted. *)
Fixpoint main_loop (expected_heartbeat_seconds : Z) (run_once : bool) (sleeps : list bool) :
    Io (FailoverState N) unit :=
  let! now := with_env utc_now in
  do! process_failover_policies now expected_heartbeat_seconds in
  if run_once then ret tt
  else
    match sleeps with
    | false :: sleeps' => main_loop expected_heartbeat_seconds run_once sleeps'
    | _ => ret tt
    end.
End Failover.
