(* ===== verification/FailoverPass.v ===== *)
(** * What a pass of the failover worker leaves

    The transaction of a failover as a relation between the tables before and
    after it; the outcomes of a trigger, whatever statement or call fails; the
    invariant that every active policy follows the primary of its site; the
    counters of a pass; events that are never closed. *)

From stdpp Require Import prelude strings pretty gmap sorting.
From Stdlib Require Import Ascii.
From S2P Require Import Prelude RustStr Json Extern AppError Domain SiteConfig ConfigCompiler Store HubReleases HubDns DnsProvider Io Sql DnsWorker Failover FailoverTx.

(** ** The bindings a failover writes *)

Definition binding_row (b : SiteBindingSnapshot) : NodeBindingRow :=
  mkNodeBindingRow "active" "failover" (fb_binding_role b) (fb_priority b).

Definition insert_all (site : Uuid) (t : gmap (Uuid * Uuid) NodeBindingRow)
    (bs : list SiteBindingSnapshot) : gmap (Uuid * Uuid) NodeBindingRow :=
  foldl (λ t b, <[(site, fb_node_id b) := binding_row b]> t) t bs.

(** The bindings of a site replaced. *)
Definition rebound (site : Uuid) (bs : list SiteBindingSnapshot)
    (t : gmap (Uuid * Uuid) NodeBindingRow) : gmap (Uuid * Uuid) NodeBindingRow :=
  insert_all site (filter (λ e, e.1.1 ≠ site) t) bs.

Lemma NoDup_fmap_elem {A B} (f : A → B) l x y :
  NoDup (f <$> l) → x ∈ l → y ∈ l → f x = f y → x = y.
Proof.
  induction l as [|a l IH]; intros Hnd Hx Hy Hf; [by apply not_elem_of_nil in Hx|].
  rewrite fmap_cons in Hnd. apply NoDup_cons in Hnd as [Ha Hnd].
  apply elem_of_cons in Hx as [->|Hx], Hy as [->|Hy]; [done| | |by apply IH].
  - destruct Ha. rewrite Hf. by apply list_elem_of_fmap_2.
  - destruct Ha. rewrite <-Hf. by apply list_elem_of_fmap_2.
Qed.

(** The rows of a key that a list of insertions leaves. *)
Lemma foldl_insert_lookup `{Countable K} {A R} (key : A → K) (row : A → R) (t : gmap K R) l k :
  NoDup (key <$> l) →
  foldl (λ t a, <[key a := row a]> t) t l !! k
  = match find_where (λ a, key a = k) l with Some a => Some (row a) | None => t !! k end.
Proof.
  revert t. induction l as [|a l IH]; intros t Hnd; [done|].
  rewrite fmap_cons in Hnd. apply NoDup_cons in Hnd as [Ha Hnd]. simpl. rewrite IH by done.
  rewrite find_where_cons. case_decide as Hk.
  - subst k. assert (find_where (λ b, key b = key a) l = None) as ->.
    { apply find_where_None, Forall_forall. intros b Hb Hkb. apply Ha. rewrite <-Hkb.
      by apply list_elem_of_fmap_2. }
    by rewrite lookup_insert_eq.
  - by rewrite lookup_insert_ne.
Qed.

Lemma rebound_lookup site bs t s n :
  NoDup (fb_node_id <$> bs) →
  rebound site bs t !! (s, n)
  = if decide (s = site) then binding_row <$> find_where (λ b, fb_node_id b = n) bs
    else t !! (s, n).
Proof.
  intros Hnd. unfold rebound, insert_all.
  rewrite (foldl_insert_lookup (λ b, (site, fb_node_id b))).
  2: { assert ((λ b, (site, fb_node_id b)) <$> bs = pair site <$> (fb_node_id <$> bs)) as ->
         by (by rewrite <-list_fmap_compose).
       by apply (NoDup_fmap_2 _). }
  case_decide as Hs.
  - subst s. destruct (find_where (λ b, fb_node_id b = n) bs) as [b|] eqn:Hb.
    + apply find_where_Some in Hb as [Hin Hid].
      rewrite (find_where_unique _ bs b); [done|done|by f_equal|].
      intros b' Hb' [= Hid']. apply (NoDup_fmap_elem fb_node_id bs); congruence || done.
    + rewrite find_where_None in Hb.
      assert (find_where (λ b, (site, fb_node_id b) = (site, n)) bs = None) as ->.
      { apply find_where_None. eapply Forall_impl; [exact Hb|]. intros b Hne [= Heq]. done. }
      simpl. apply map_lookup_filter_None. right. intros r _ Hne. by apply Hne.
  - assert (find_where (λ b, (site, fb_node_id b) = (s, n)) bs = None) as ->.
    { apply find_where_None, Forall_forall. intros b _ [= -> _]. done. }
    destruct (t !! (s, n)) as [r|] eqn:Ht.
    + apply map_lookup_filter_Some. by split.
    + apply map_lookup_filter_None. by left.
Qed.

(** ** The statements of the transaction *)

Section Statements.
Context {N : Type} `{EX : !Extern, EL : !ExternLaws, CO : !Collation, DX : !DnsExtern}.
Context `{FX : !FailoverExtern, DBE : !DbExtern, ST : !StatusText, DN : !DnsNet N}.
Implicit Types d : FTables.

(** In each of these rules an error may leave any tables: the transaction rolls
    them back. *)

Lemma insert_bindings_dbt d site bs (Q : Result unit string → FTables → Prop) :
  ftables_ok d → (∀ e d', Q (Err e) d') →
  (let d' := set_node_bindings (insert_all site (site_node_bindings d) bs) d in
   NoDup (fb_node_id <$> bs) → Forall (λ b, site_node_bindings d !! (site, fb_node_id b) = None) bs →
   ftables_ok d' → Q (Ok tt) d') →
  dbt d (insert_bindings (N := N) site bs) Q.
Proof.
  revert d. induction bs as [|b bs IH]; intros d Hok He HQ; simpl.
  - apply dbt_ret. assert (set_node_bindings (insert_all site (site_node_bindings d) []) d = d) as Hd
      by (by destruct d). cbv zeta in HQ. rewrite Hd in HQ. apply HQ; [constructor..|done].
  - sqls; [by apply He|]. rename select (_ !! _ = None) into Hnew.
    apply IH; [done|done|]. intros d' Hnd Hfree Hok'. apply HQ.
    + rewrite fmap_cons. apply NoDup_cons. split; [|done]. intros (b' & Heq & Hb')%list_elem_of_fmap.
      rewrite Forall_forall in Hfree. specialize (Hfree b' Hb'). simpl in Hfree.
      by rewrite <-Heq, lookup_insert_eq in Hfree.
    + constructor; [done|]. eapply Forall_impl; [exact Hfree|]. simpl. intros b'.
      by rewrite lookup_insert_None; intros [? _].
    + done.
Qed.

Lemma save_site_bindings_dbt d site bs (Q : Result unit string → FTables → Prop) :
  (∀ e d', Q (Err e) d') →
  (let d' := set_node_bindings (rebound site bs (site_node_bindings d)) d in
   NoDup (fb_node_id <$> bs) → ftables_ok d' → Q (Ok tt) d') →
  dbt d (save_site_bindings (N := N) site bs) Q.
Proof.
  intros He HQ. unfold save_site_bindings. sqls; [by apply He..|].
  apply insert_bindings_dbt; [done|done|]. intros d' Hnd _ Hok. by apply HQ.
Qed.

(** The targets of a policy after the switch. *)
Definition advanced (policy : PolicySnapshot) (switched : list SiteBindingSnapshot)
    (t : gmap Uuid PolicyRow) : gmap Uuid PolicyRow :=
  match select_next_policy_standby switched (standby_node_id policy) with
  | Some next => alter (set_po_targets (standby_node_id policy) next) (policy_id policy) t
  | None => t
  end.

Lemma advance_failover_policy_dbt d policy bs (Q : Result (option Uuid) string → FTables → Prop) :
  ftables_ok d → (∀ e d', Q (Err e) d') →
  (let d' := set_policies (advanced policy bs (failover_policies d)) d in
   ftables_ok d' → ∀ next, Q (Ok next) d') →
  dbt d (advance_failover_policy (N := N) policy bs) Q.
Proof.
  intros Hok He HQ. unfold advance_failover_policy. cbv zeta in HQ. revert HQ. unfold advanced.
  destruct (select_next_policy_standby bs _) as [next|]; intros HQ.
  - sqls; [by apply He..|]. by apply HQ.
  - apply dbt_ret. assert (set_policies (failover_policies d) d = d) as Hd by (by destruct d).
    rewrite Hd in HQ. by apply HQ.
Qed.

(** The row a node gets for a release. *)
Definition queued_row (version : string) : NodeReleaseRow :=
  mkNodeReleaseRow version None "pending" (Some "queued by failover-worker") None.

Definition queue_all (release_id : Uuid) (version : string) (bs : list SiteBindingSnapshot)
    (t : gmap (Uuid * Uuid) NodeReleaseRow) : gmap (Uuid * Uuid) NodeReleaseRow :=
  foldl (λ t b, <[(release_id, fb_node_id b) := queued_row version]> t) t bs.

Lemma insert_release_nodes_dbt d rid version bs (Q : Result unit string → FTables → Prop) :
  ftables_ok d → (∀ e d', Q (Err e) d') →
  (let d' := set_node_release_status (queue_all rid version bs (node_release_status d)) d in
   ftables_ok d' → Q (Ok tt) d') →
  dbt d (insert_release_nodes (N := N) rid version bs) Q.
Proof.
  revert d. induction bs as [|b bs IH]; intros d Hok He HQ; simpl.
  - apply dbt_ret. assert (set_node_release_status (queue_all rid version [] (node_release_status d)) d = d)
      as Hd by (by destruct d). cbv zeta in HQ. rewrite Hd in HQ. by apply HQ.
  - sqls; [by apply He|]. apply IH; [done..|]. intros d' Hok'. by apply HQ.
Qed.

(** The record of a plan: the name and the type it asks for, with its value. *)
Definition planned_record (plan : DnsFailoverPlan) (r : DnsRecordRow) : Prop :=
  dr_zone_id r = zs_zone_id (plan_zone plan) ∧ dr_record_type r = record_type (change plan)
  ∧ dr_host r = host (change plan) ∧ dr_value r = change_value (change plan)
  ∧ dr_ttl r = ttl_column (ttl (change plan)) ∧ dr_status r = "active".

Lemma select_dns_record_Some plan d s :
  select_dns_record plan d = Some s →
  ∃ r, dns_records d !! rs_record_id s = Some r ∧ dr_zone_id r = zs_zone_id (plan_zone plan)
    ∧ dr_record_type r = record_type (change plan) ∧ dr_host r = host (change plan)
    ∧ dr_status r = "active".
Proof.
  unfold select_dns_record. intros ([u r] & Hr & ->)%fmap_Some. apply head_Some_elem_of in Hr.
  rewrite elem_of_sort_by in Hr. apply list_elem_of_filter in Hr as [(? & ? & ? & ?) Hr].
  apply elem_of_entries in Hr. by exists r.
Qed.

Lemma upsert_dns_record_dbt d plan now (Q : Result Uuid string → FTables → Prop) :
  (∀ e d', Q (Err e) d') →
  (∀ rid r, planned_record plan r →
     let d' := set_dns_records (<[rid := r]> (dns_records d)) d in ftables_ok d' → Q (Ok rid) d') →
  dbt d (upsert_dns_record_snapshot (N := N) plan (select_dns_record plan d) now) Q.
Proof.
  intros He HQ. unfold upsert_dns_record_snapshot.
  destruct (select_dns_record plan d) as [s|] eqn:Hs.
  - apply select_dns_record_Some in Hs as (r & Hr & ? & ? & ? & ?).
    sqls; [by apply He..|]. rename select (schema_ok _) into Hok.
    assert (alter (set_dr_value (change_value (change plan)) (ttl_column (ttl (change plan))) now)
              (rs_record_id s) (dns_records d)
            = <[rs_record_id s := set_dr_value (change_value (change plan))
                  (ttl_column (ttl (change plan))) now r]> (dns_records d)) as Halter.
    { apply map_eq. intros u. destruct (decide (u = rs_record_id s)) as [->|Hu].
      - by rewrite lookup_alter_eq, lookup_insert_eq, Hr.
      - by rewrite lookup_alter_ne, lookup_insert_ne. }
    rewrite Halter in Hok |- *. by apply HQ.
  - sqls; [by apply He|]. apply HQ; [|done]. by repeat split.
Qed.

Lemma apply_dns_failover_dbt d plan eid now (Q : Result unit string → FTables → Prop) :
  (∀ e d', Q (Err e) d') →
  (∀ rid r lid l, planned_record plan r → dns_change_logs d !! lid = None →
     let d' := set_dns_change_logs (<[lid := l]> (dns_change_logs d))
                 (set_dns_records (<[rid := r]> (dns_records d)) d) in
     cl_record_id l = Some rid → ftables_ok d' → Q (Ok tt) d') →
  dbt d (apply_dns_failover (N := N) plan eid now) Q.
Proof.
  intros He HQ. unfold apply_dns_failover, load_dns_record_snapshot.
  sqls; try by apply He. apply upsert_dns_record_dbt; [done|]. intros rid row Hr d1 Hok1.
  unfold insert_dns_change_log. sqls; [by apply He|]. by eapply HQ.
Qed.

(** The operation an item of the policy asks for: the item is readable, the template it
    names, by id or else by name, exists and needs no approval. *)
Definition asked_operation d (policy : PolicySnapshot) (eid : Uuid) (now : DateTime) (item : Value) :
    option NodeOperationRow :=
  match parse_post_switch_operation item policy with
  | None => None
  | Some spec =>
      let template :=
        match spec_template_id spec, spec_template_name spec with
        | Some u, _ => (λ row, (u, row)) <$> operation_templates (catalog d) !! u
        | None, Some name => find_where (λ e, tp_name e.2 = name) (entries (operation_templates (catalog d)))
        | None, None => None
        end in
      match template with
      | Some (u, row) =>
          if tp_approval_required row then None
          else Some (mkNodeOperationRow (spec_node_id spec) u (Some eid) (spec_input_params spec) "approved"
                       "system:failover-worker" (Some "system:failover-worker") now)
      | None => None
      end
  end.

(** All of them, in the order of the policy. *)
Definition asked_operations d (policy : PolicySnapshot) (eid : Uuid) (now : DateTime) :
    list NodeOperationRow :=
  omap (asked_operation d policy eid now)
    (default [] (get_array (precheck_policy policy) "post_switch_operations")).

(** The table of operations with the rows added, each under an id that was free. *)
Inductive queued_rows : list NodeOperationRow → gmap Uuid NodeOperationRow →
    gmap Uuid NodeOperationRow → Prop :=
  | queued_none t : queued_rows [] t t
  | queued_row_next o rows u t t' :
      t !! u = None → queued_rows rows (<[u := o]> t) t' → queued_rows (o :: rows) t t'.

Lemma load_operation_template_dbt d spec (Q : Result _ string → FTables → Prop) :
  (∀ e d', Q (Err e) d') →
  (Q (Ok (match spec_template_id spec, spec_template_name spec with
          | Some u, _ => select_template u d
          | None, Some name => select_template_by_name name d
          | None, None => None
          end)) d) →
  dbt d (load_operation_template (N := N) (spec_template_id spec) (spec_template_name spec)) Q.
Proof.
  intros He HS. unfold load_operation_template.
  destruct (spec_template_id spec) as [u|]; [|destruct (spec_template_name spec) as [name|]]; sqls;
    first [by apply He|done].
Qed.

Lemma enqueue_items_dbt d policy eid now items n (Q : Result nat string → FTables → Prop) :
  ftables_ok d → (∀ e d', Q (Err e) d') →
  (∀ t n', queued_rows (omap (asked_operation d policy eid now) items) (node_operations d) t →
     let d' := set_node_operations t d in ftables_ok d' → Q (Ok n') d') →
  dbt d (enqueue_items (N := N) policy eid now items n) Q.
Proof.
  revert d n. induction items as [|item items IH]; intros d n Hok He HQ; simpl.
  - apply dbt_ret. assert (set_node_operations (node_operations d) d = d) as Hd by (by destruct d).
    rewrite <-Hd. apply HQ; [constructor|by rewrite Hd].
  - simpl in HQ. destruct (parse_post_switch_operation item policy) as [spec|] eqn:Hspec.
    2: { apply IH; [done..|]. unfold asked_operation in HQ at 1. by rewrite Hspec in HQ. }
    apply dbt_bind, load_operation_template_dbt; [done|]. unfold select_template, select_template_by_name.
    unfold asked_operation in HQ at 1. rewrite Hspec in HQ. cbv beta zeta in HQ |- *.
    destruct (match spec_template_id spec with Some _ => _ | None => _ end) as [[u row]|] eqn:Ht in HQ.
    + assert (match spec_template_id spec, spec_template_name spec with
        | Some v, _ => (λ t, loaded_template (v, t)) <$> operation_templates (catalog d) !! v
        | None, Some name => loaded_template <$>
            find_where (λ e, tp_name e.2 = name) (entries (operation_templates (catalog d)))
        | None, None => None end = Some (loaded_template (u, row))) as ->.
      { destruct (spec_template_id spec) as [v|]; [|destruct (spec_template_name spec) as [name|]]; [| |done].
        - destruct (operation_templates (catalog d) !! v); by simplify_eq/=.
        - by rewrite Ht. }
      simpl. destruct (tp_approval_required row); [by apply IH|]. sqls; [by apply He|].
      apply IH; [done..|]. intros t n' Hq d' Hok'. apply HQ; [|done]. by eapply queued_row_next.
    + assert (match spec_template_id spec, spec_template_name spec with
        | Some v, _ => (λ t, loaded_template (v, t)) <$> operation_templates (catalog d) !! v
        | None, Some name => loaded_template <$>
            find_where (λ e, tp_name e.2 = name) (entries (operation_templates (catalog d)))
        | None, None => None end = None) as ->; [|by apply IH].
      destruct (spec_template_id spec) as [v|]; [|destruct (spec_template_name spec) as [name|]]; [| |done].
      * by destruct (operation_templates (catalog d) !! v).
      * by rewrite Ht.
Qed.

Lemma enqueue_operations_dbt d policy eid now (Q : Result nat string → FTables → Prop) :
  ftables_ok d → (∀ e d', Q (Err e) d') →
  (∀ t n', queued_rows (asked_operations d policy eid now) (node_operations d) t →
     let d' := set_node_operations t d in ftables_ok d' → Q (Ok n') d') →
  dbt d (enqueue_post_switch_operations (N := N) policy eid now) Q.
Proof.
  intros Hok He HQ. unfold enqueue_post_switch_operations. unfold asked_operations in HQ.
  destruct (get_array _ _) as [items|]; [by apply enqueue_items_dbt|].
  apply (enqueue_items_dbt d policy eid now []); done.
Qed.

(** ** A failover that succeeded *)

Definition switched_bindings (policy : PolicySnapshot) (site : SiteSnapshot) :
    list SiteBindingSnapshot :=
  build_switched_bindings (ss_bindings site) (primary_node_id policy) (standby_node_id policy).

Record failed_over (policy : PolicySnapshot) (site : SiteSnapshot) (eid : Uuid) (now : DateTime)
    d d' : Prop := {
  (** What it does not touch, and the constraints. *)
  fo_catalog : catalog d' = catalog d;
  fo_events : failover_events d' = failover_events d;
  fo_schema : ftables_ok d';
  (** The bindings of the site are the switched ones, each node once. *)
  fo_nodes : NoDup (fb_node_id <$> switched_bindings policy site);
  fo_bindings : site_node_bindings d'
    = rebound (ss_site_id site) (switched_bindings policy site) (site_node_bindings d);
  (** The policy moves on. *)
  fo_policies : failover_policies d'
    = advanced policy (switched_bindings policy site) (failover_policies d);
  (** A new release is pending for every node of the site, and the site is
      published. *)
  fo_release : ∃ rid row version,
    config_releases d !! rid = None ∧ config_releases d' = <[rid := row]> (config_releases d)
    ∧ rl_scope_id row = Some (ss_site_id site) ∧ rl_release_type row = "failover"
    ∧ rl_status row = "pending" ∧ rl_release_version row = version
    ∧ node_release_status d'
      = queue_all rid version (switched_bindings policy site) (node_release_status d);
  fo_sites : sites d' = alter (set_si_status "published") (ss_site_id site) (sites d);
  (** The record of the DNS plan, if there is one. *)
  fo_dns : ∃ plan, build_dns_failover_plan (ss_domain site) policy (select_zones d) = Ok plan
    ∧ match plan with
      | None => dns_records d' = dns_records d ∧ dns_change_logs d' = dns_change_logs d
      | Some plan => ∃ rid r lid l, planned_record plan r
          ∧ dns_records d' = <[rid := r]> (dns_records d)
          ∧ dns_change_logs d !! lid = None ∧ cl_record_id l = Some rid
          ∧ dns_change_logs d' = <[lid := l]> (dns_change_logs d)
      end;
  (** One more audit row; exactly the operations the policy asks for are queued. *)
  fo_audit : ∃ row, audit_logs d' = audit_logs d ++ [row]
    ∧ au_resource_id row = uuid_to_string (ss_site_id site);
  fo_operations :
    queued_rows (asked_operations d policy eid now) (node_operations d) (node_operations d');
}.

(** The DNS step: nothing without a plan. *)
Lemma dns_step_dbt d (plan : option DnsFailoverPlan) eid now (Q : Result unit string → FTables → Prop) :
  ftables_ok d → (∀ e d', Q (Err e) d') →
  (∀ records logs,
     match plan with
     | None => records = dns_records d ∧ logs = dns_change_logs d
     | Some plan => ∃ rid r lid l, planned_record plan r ∧ records = <[rid := r]> (dns_records d)
         ∧ dns_change_logs d !! lid = None ∧ cl_record_id l = Some rid
         ∧ logs = <[lid := l]> (dns_change_logs d)
     end →
     let d' := set_dns_change_logs logs (set_dns_records records d) in ftables_ok d' → Q (Ok tt) d') →
  dbt d (match plan with Some plan => apply_dns_failover (N := N) plan eid now | None => ret tt end) Q.
Proof.
  intros Hok He HQ. destruct plan as [plan|].
  - apply apply_dns_failover_dbt; [done|]. intros rid r lid l Hr Hl d' Hcl Hok'. apply HQ; [|done].
    by exists rid, r, lid, l.
  - apply dbt_ret. assert (set_dns_change_logs (dns_change_logs d) (set_dns_records (dns_records d) d) = d)
      as Hd by (by destruct d). rewrite <-Hd. apply HQ; [done|by rewrite Hd].
Qed.

(** The transaction either takes the tables through a whole failover or leaves
    them as they were. *)
Lemma execute_site_failover_dbt d policy site eid now (Q : Result unit string → FTables → Prop) :
  (∀ e, Q (Err e) d) →
  (∀ d', failed_over policy site eid now d d' → Q (Ok tt) d') →
  dbt d (execute_site_failover (N := N) policy site eid now) Q.
Proof.
  intros He HQ. unfold execute_site_failover, load_dns_zone_snapshots, load_site_certificates.
  sqls; try by apply He.
  apply save_site_bindings_dbt; [intros; apply He|]. intros d1 Hnd Hok1.
  apply dbt_bind, advance_failover_policy_dbt; [done|intros; apply He|]. intros d2 Hok2 next.
  sqls; try by apply He.
  apply insert_release_nodes_dbt; [done|intros; apply He|]. intros d3 Hok3.
  sqls; try by apply He.
  apply dns_step_dbt; [done|intros; apply He|]. intros records logs Hdns d4 Hok4.
  sqls; try by apply He.
  apply enqueue_operations_dbt; [done|intros; apply He|]. intros ops n Hq d5 Hok5. sqls.
  apply HQ. split; try done.
  - eexists _, _, _. by split_and!.
  - eexists. by split.
  - eexists. by split.
Qed.

(** ** The outcomes of a trigger *)

(** What [load_site_snapshot] reads. *)
Definition site_snapshot (u : Uuid) d : option SiteSnapshot :=
  (λ s, mkSite u (si_site_code s) (si_name s) (si_domain s) (clamp 0 u16_max (si_listen_port s))
          (decode_protocol (si_protocol s)) (si_tls_enabled s) (decode_site_status (si_status s))
          (default (VObject []) (latest_site_config u (catalog d))) (select_bindings u d))
  <$> sites d !! u.

Lemma load_site_snapshot_dbt d u (Q : Result SiteSnapshot string → FTables → Prop) :
  (∀ e, Q (Err e) d) → (∀ site, site_snapshot u d = Some site → Q (Ok site) d) →
  dbt d (load_site_snapshot (N := N) u) Q.
Proof.
  intros He HQ. unfold load_site_snapshot, load_site_bindings. sqls; try by apply He.
  apply HQ. unfold site_snapshot. rename select (ok_or _ _ = Ok _) into Hs.
  apply ok_or_Ok in Hs. unfold select_site in Hs.
  destruct (sites d !! u); simplify_eq/=. done.
Qed.

Definition started (policy : PolicySnapshot) (now : DateTime) (reason : string) : EventRow :=
  mkEventRow (policy_id policy) (Some (policy_scope_id policy)) (primary_node_id policy)
    (standby_node_id policy) reason "switching" now None.

Definition with_event (eid : Uuid) (e : EventRow) d : FTables :=
  set_events (<[eid := e]> (failover_events d)) d.

(** A trigger refuses, fails before its event is stored, rolls back, or switches;
    the event it stored is closed unless that last statement fails. *)
Inductive outcome (policy : PolicySnapshot) (now : DateTime) (reason : string) d :
    Result bool string → FTables → Prop :=
  | refused : outcome policy now reason d (Ok false) d
  | not_started e : outcome policy now reason d (Err e) d
  | rolled_back eid e :
      select_open_event (policy_id policy) d = false → failover_events d !! eid = None →
      ftables_ok (with_event eid (finish_event "failed" now (started policy now reason)) d) →
      outcome policy now reason d (Err e)
        (with_event eid (finish_event "failed" now (started policy now reason)) d)
  | rolled_back_open eid e :
      select_open_event (policy_id policy) d = false → failover_events d !! eid = None →
      ftables_ok (with_event eid (started policy now reason) d) →
      outcome policy now reason d (Err e) (with_event eid (started policy now reason) d)
  | switched site eid d' :
      select_open_event (policy_id policy) d = false → failover_events d !! eid = None → site_snapshot (policy_scope_id policy) d = Some site →
      current_primary_node_id (ss_bindings site) ≠ Some (standby_node_id policy) →
      failed_over policy site eid now (with_event eid (started policy now reason) d) d' →
      ftables_ok (with_event eid (finish_event "switched" now (started policy now reason)) d') →
      outcome policy now reason d (Ok true)
        (with_event eid (finish_event "switched" now (started policy now reason)) d')
  | switched_open site eid d' e :
      select_open_event (policy_id policy) d = false → failover_events d !! eid = None → site_snapshot (policy_scope_id policy) d = Some site →
      current_primary_node_id (ss_bindings site) ≠ Some (standby_node_id policy) →
      failed_over policy site eid now (with_event eid (started policy now reason) d) d' →
      outcome policy now reason d (Err e) d'.

Lemma finish_with_event eid status now e d :
  set_events (alter (finish_event status now) eid (failover_events (with_event eid e d)))
    (with_event eid e d)
  = with_event eid (finish_event status now e) d.
Proof.
  unfold with_event, set_events. simpl. f_equal. apply map_eq. intros u.
  destruct (decide (u = eid)) as [->|Hu].
  - by rewrite lookup_alter_eq, !lookup_insert_eq.
  - by rewrite lookup_alter_ne, !lookup_insert_ne.
Qed.

Lemma finish_failed_over policy site eid now e d d' status :
  failed_over policy site eid now (with_event eid e d) d' →
  set_events (alter (finish_event status now) eid (failover_events d')) d'
  = with_event eid (finish_event status now e) d'.
Proof.
  intros Hfo. unfold with_event. rewrite (fo_events _ _ _ _ _ _ Hfo). f_equal.
  apply map_eq. intros u. simpl. destruct (decide (u = eid)) as [->|Hu].
  - by rewrite lookup_alter_eq, !lookup_insert_eq.
  - by rewrite lookup_alter_ne, !lookup_insert_ne.
Qed.

Lemma trigger_outcome d policy now reason :
  dbt d (trigger_policy_failover (N := N) policy now reason) (outcome policy now reason d).
Proof.
  unfold trigger_policy_failover, has_open_failover_event. sqls; [constructor|].
  destruct (select_open_event _ d) eqn:Hopen; sqls; [constructor|].
  apply load_site_snapshot_dbt; [constructor|]. intros site Hsite.
  case_decide as Hcur; sqls; [constructor|].
  unfold create_failover_event. sqls; [constructor|]. rename u into eid.
  apply execute_site_failover_dbt.
  - intros e. unfold finish_failover_event. sqls; try by apply rolled_back_open.
    { done. }
    rename select (schema_ok (set_events (alter _ _ _) _)) into Hok.
    change (set_events (<[eid := _]> (failover_events d)) d)
      with (with_event eid (started policy now reason) d) in Hok |- *.
    rewrite finish_with_event in Hok |- *. by apply rolled_back.
  - intros d' Hfo. unfold finish_failover_event. sqls; try by eapply switched_open.
    rename select (schema_ok (set_events (alter _ _ _) _)) into Hok.
    rewrite (finish_failed_over policy site eid now (started policy now reason) d d') in Hok |- * by done.
    by eapply switched.
Qed.

(** ** The bindings read back *)

(** What a binding says of its node, whatever the node's own row says. *)
Definition fb_key (b : SiteBindingSnapshot) : Uuid * string * Z :=
  (fb_node_id b, fb_binding_role b, fb_priority b).

Lemma fb_ok_keys l k : fb_key <$> l ≡ₚ fb_key <$> k → fb_ok l → fb_ok k.
Proof.
  intros Hp [Hnd Hr Hone].
  assert (∀ l, fb_node_id <$> l = (λ x, x.1.1) <$> (fb_key <$> l)) as Hid
    by (intros ?; by rewrite <-list_fmap_compose).
  assert (∀ l, length (filter fb_primary l)
               = length (filter (λ x, x.1.2 = "primary") (fb_key <$> l))) as Hlen.
  { intros l'. induction l' as [|b l' IH]; [done|]. rewrite fmap_cons.
    destruct (decide (fb_primary b)) as [Hb|Hb].
    - rewrite !filter_cons_True by done. simpl. by rewrite IH.
    - by rewrite !filter_cons_False. }
  split.
  - rewrite Hid, <-Hp, <-Hid. done.
  - assert (∀ l, Forall (λ b, fb_primary b ∨ fb_standby b) l
      ↔ Forall (λ x : Uuid * string * Z, x.1.2 = "primary" ∨ x.1.2 = "standby") (fb_key <$> l)) as HF
      by (intros ?; by rewrite Forall_fmap).
    rewrite HF, <-Hp, <-HF. done.
  - rewrite Hlen, <-Hp, <-Hlen. done.
Qed.

(** The node is the site's one primary, and the priority leaves room for a
    standby behind it. *)
Definition serves (n : Uuid) (bs : list SiteBindingSnapshot) : Prop :=
  fb_ok bs ∧ ∃ priority, (n, "primary", priority) ∈ fb_key <$> bs
    ∧ (i32_min ≤ priority)%Z ∧ (priority + 10 ≤ i32_max)%Z.

Lemma serves_keys n l k : fb_key <$> l ≡ₚ fb_key <$> k → serves n l → serves n k.
Proof.
  intros Hp [Hok (pr & Hin & Hlo)]. split; [by eapply fb_ok_keys|]. exists pr. by rewrite <-Hp.
Qed.

Lemma elem_of_select_bindings s d b :
  b ∈ select_bindings s d ↔ ∃ row nd,
    site_node_bindings d !! (s, fb_node_id b) = Some row
    ∧ nodes (catalog d) !! fb_node_id b = Some nd
    ∧ b = mkBound (fb_node_id b) (nd_node_code nd) (nd_status nd) (nb_binding_role row)
            (nb_priority row).
Proof.
  unfold select_bindings. rewrite elem_of_sort_by, elem_of_filter_map. split.
  - intros ([[s' n] row] & Hin & Hb). apply elem_of_entries in Hin. simpl in Hb.
    case_decide; [|done]. subst s'. destruct (nodes (catalog d) !! n) as [nd|] eqn:Hn; [|done].
    injection Hb as <-. by exists row, nd.
  - intros (row & nd & Hrow & Hnd & Hb). exists ((s, fb_node_id b), row).
    split; [by apply elem_of_entries|]. simpl. rewrite decide_True by done. rewrite Hnd. simpl.
    by rewrite <-Hb.
Qed.

Lemma select_bindings_NoDup s d : NoDup (fb_node_id <$> select_bindings s d).
Proof.
  unfold select_bindings. rewrite sort_by_perm. apply (NoDup_fmap_1 (pair s)).
  rewrite <-list_fmap_compose.
  eapply sublist_NoDup; [|apply (filter_map_sublist _ _ fst)].
  - unfold entries. rewrite hash_iter_perm. apply NoDup_fst_map_to_list.
  - intros [[s' n] row] b. simpl. case_decide; [|done]. subst s'.
    by destruct (nodes (catalog d) !! n); simpl; intros [= <-].
Qed.

(** With the foreign keys, the keys of the bindings are the rows of the table. *)
Lemma elem_of_binding_keys s d n role priority :
  ftables_ok d →
  (n, role, priority) ∈ fb_key <$> select_bindings s d ↔
  ∃ row, site_node_bindings d !! (s, n) = Some row ∧ nb_binding_role row = role
    ∧ nb_priority row = priority.
Proof.
  intros (_ & _ & Hfk & _). rewrite list_elem_of_fmap. split.
  - intros (b & Hk & Hb). apply elem_of_select_bindings in Hb as (row & nd & Hrow & _ & Hb).
    injection Hk as -> -> ->. exists row. rewrite Hb. by simpl.
  - intros (row & Hrow & <- & <-). pose proof (Hfk _ _ Hrow) as [_ [nd Hnd]]. simpl in Hnd.
    exists (mkBound n (nd_node_code nd) (nd_status nd) (nb_binding_role row) (nb_priority row)).
    split; [done|]. apply elem_of_select_bindings. by exists row, nd.
Qed.

Lemma NoDup_binding_keys l : NoDup (fb_node_id <$> l) → NoDup (fb_key <$> l).
Proof. intros H. apply (NoDup_fmap_1 (λ x, x.1.1)). by rewrite <-list_fmap_compose. Qed.

(** Same rows for a site, same bindings. *)
Lemma select_bindings_same s d d' :
  ftables_ok d → ftables_ok d' →
  (∀ n, site_node_bindings d' !! (s, n) = site_node_bindings d !! (s, n)) →
  fb_key <$> select_bindings s d ≡ₚ fb_key <$> select_bindings s d'.
Proof.
  intros Hok Hok' Hsame. apply NoDup_Permutation; [apply NoDup_binding_keys, select_bindings_NoDup..|].
  intros [[n role] pr]. rewrite !elem_of_binding_keys by done. by rewrite Hsame.
Qed.

(** After a failover the bindings of the site read back as they were switched. *)
Lemma select_bindings_rebound s bs d d' :
  ftables_ok d' → NoDup (fb_node_id <$> bs) →
  site_node_bindings d' = rebound s bs (site_node_bindings d) →
  fb_key <$> bs ≡ₚ fb_key <$> select_bindings s d'.
Proof.
  intros Hok Hnd Heq.
  apply NoDup_Permutation; [by apply NoDup_binding_keys|apply NoDup_binding_keys, select_bindings_NoDup|].
  intros [[n role] pr]. rewrite elem_of_binding_keys, Heq, rebound_lookup, decide_True by done.
  rewrite list_elem_of_fmap. split.
  - intros (b & [= -> -> ->] & Hb). exists (binding_row b).
    rewrite (find_where_unique _ bs b); [done|done|done|].
    intros b' Hb' Hid. by apply (NoDup_fmap_elem fb_node_id bs).
  - intros (row & Hrow & <- & <-). apply fmap_Some in Hrow as (b & Hb & ->).
    apply find_where_Some in Hb as [Hb <-]. by exists b.
Qed.

(** A site whose primary the policy names is served by the standby afterwards. *)
Lemma serves_switched policy site :
  serves (primary_node_id policy) (ss_bindings site) →
  primary_node_id policy ≠ standby_node_id policy →
  serves (standby_node_id policy) (switched_bindings policy site).
Proof.
  intros [Hok (pr & (p & [= Hid Hrole Hpr] & Hp)%list_elem_of_fmap & Hlo & Hhi)] Hne.
  unfold switched_bindings. rewrite Hid.
  destruct (switched_shape (ss_bindings site) p (standby_node_id policy))
    as (Hbs & s & o & Hperm & Hsid & Hsp & Hspr & _); [done|done|by symmetry|congruence|lia..|].
  split; [done|]. exists pr. split; [|done]. apply list_elem_of_fmap. exists s. split.
  - unfold fb_key. rewrite Hsid, Hspr, <-Hpr, Hsp. done.
  - rewrite Hperm. set_solver.
Qed.

(** ** Policies follow the primaries of their sites *)

(** An active policy of a site. *)
Definition site_policy (p : PolicyRow) : Prop := po_status p = "active" ∧ po_scope_type p = "site".

Record policies_follow d : Prop := {
  follow_schema : ftables_ok d;
  follow_primary u p : failover_policies d !! u = Some p → site_policy p →
    serves (po_primary_node_id p) (select_bindings (po_scope_id p) d);
  follow_alone u u' p p' : failover_policies d !! u = Some p → failover_policies d !! u' = Some p' →
    site_policy p → site_policy p' → po_scope_id p = po_scope_id p' → u = u';
}.

(** The row of a policy is as its snapshot. *)
Definition tracks d (policy : PolicySnapshot) : Prop :=
  ∃ p, failover_policies d !! policy_id policy = Some p ∧ po_status p = "active"
    ∧ po_scope_type p = policy_scope_type policy ∧ po_scope_id p = policy_scope_id policy
    ∧ po_primary_node_id p = primary_node_id policy ∧ po_standby_node_id p = standby_node_id policy.

(** Changes to the events do not matter. *)
Lemma policies_follow_with_event eid e d :
  policies_follow d → ftables_ok (with_event eid e d) → policies_follow (with_event eid e d).
Proof. intros [_ Hp Ha] Hok. by split. Qed.

(** The policy moves to the node that was promoted. *)
Lemma next_standby_exists policy site :
  primary_node_id policy ≠ standby_node_id policy →
  ∃ next, select_next_policy_standby (switched_bindings policy site) (standby_node_id policy) = Some next.
Proof.
  intros Hne. destruct (failover_advances_policy (ss_bindings site) policy Hne) as (b & _ & _ & Hb & Ha & _).
  unfold advanced_targets in Ha. unfold switched_bindings.
  destruct (select_next_policy_standby _ _) as [next|]; [by exists next|]. congruence.
Qed.

(** A row [q'] that comes from [q] when the policy [pid] gets a new primary. *)
Definition retargeted (pid primary u : Uuid) (q q' : PolicyRow) : Prop :=
  (site_policy q' → site_policy q) ∧ po_scope_id q' = po_scope_id q ∧ (u ≠ pid → q' = q)
  ∧ (u = pid → po_primary_node_id q' = primary).

Lemma retargeted_alter pid primary standby u (t : gmap Uuid PolicyRow) q' :
  alter (set_po_targets primary standby) pid t !! u = Some q' →
  ∃ q, t !! u = Some q ∧ retargeted pid primary u q q'.
Proof.
  destruct (decide (u = pid)) as [->|Hu].
  - rewrite lookup_alter_eq. intros (q & Hq & ->)%fmap_Some. by exists q.
  - rewrite lookup_alter_ne by done. intros Hq. by exists q'.
Qed.

Lemma policies_follow_switch d d0 d' policy site eid now :
  policies_follow d → tracks d policy → policy_scope_type policy = "site" →
  site_snapshot (policy_scope_id policy) d = Some site →
  failover_policies d0 = failover_policies d → site_node_bindings d0 = site_node_bindings d →
  failed_over policy site eid now d0 d' →
  policies_follow d'.
Proof.
  intros Hf (p & Hp & Hact & Htype & Hscope & Hpr & Hst) Hkind Hsite Hpol0 Hbind0 Hfo.
  assert (ss_site_id site = policy_scope_id policy ∧ ss_bindings site = select_bindings (policy_scope_id policy) d)
    as [Hid Hbs].
  { unfold site_snapshot in Hsite. by destruct (sites d !! _); simplify_eq/=. }
  assert (site_policy p) as Hsp by (split; [done|congruence]).
  destruct (follow_schema _ Hf) as (Hrows & _). pose proof (Hrows _ _ Hp) as (_ & _ & Hne).
  rewrite Hpr, Hst in Hne.
  destruct (next_standby_exists policy site Hne) as [next Hnext].
  pose proof (fo_policies _ _ _ _ _ _ Hfo) as Hpol. unfold advanced in Hpol.
  rewrite Hnext, Hpol0 in Hpol.
  pose proof (fo_bindings _ _ _ _ _ _ Hfo) as Hbind. rewrite Hbind0, Hid in Hbind.
  pose proof (fo_nodes _ _ _ _ _ _ Hfo) as Hnd. pose proof (fo_schema _ _ _ _ _ _ Hfo) as Hok.
  assert (∀ u q', failover_policies d' !! u = Some q' → ∃ q, failover_policies d !! u = Some q
    ∧ retargeted (policy_id policy) (standby_node_id policy) u q q') as Hback
    by (intros u q'; rewrite Hpol; by apply retargeted_alter).
  split; [done| |].
  - intros u q' Hq' Hsq'. destruct (Hback u q' Hq') as (q & Hq & Hsq & Hsc & Hoth & Hown).
    rewrite Hsc. destruct (decide (u = policy_id policy)) as [Hu|Hu].
    + rewrite (Hown Hu). subst u. assert (q = p) as -> by congruence. rewrite Hscope.
      eapply serves_keys; [by eapply select_bindings_rebound|]. apply serves_switched; [|done].
      rewrite Hbs, <-Hscope, <-Hpr. by eapply follow_primary.
    + rewrite (Hoth Hu). eapply serves_keys; [|eapply follow_primary; [done|exact Hq|by apply Hsq]].
      apply select_bindings_same; [by apply follow_schema|done|]. intros n.
      rewrite Hbind, rebound_lookup by done. rewrite decide_False; [done|].
      intros Heq. apply Hu. eapply (follow_alone _ Hf); [exact Hq|exact Hp|by apply Hsq|done|congruence].
  - intros u u' q1' q2' H1 H2 S1 S2 Hsc.
    destruct (Hback _ _ H1) as (q1 & Hq1 & HS1 & Hsc1 & _).
    destruct (Hback _ _ H2) as (q2 & Hq2 & HS2 & Hsc2 & _).
    eapply (follow_alone _ Hf); [exact Hq1|exact Hq2|by apply HS1|by apply HS2|congruence].
Qed.

(** One trigger keeps the invariant, and touches no other policy. *)
Lemma outcome_follows policy now reason d r d' :
  outcome policy now reason d r d' →
  policies_follow d → tracks d policy → policy_scope_type policy = "site" → policies_follow d'.
Proof.
  destruct 1; intros Hf Ht Hkind; try done.
  - by apply policies_follow_with_event.
  - by apply policies_follow_with_event.
  - apply policies_follow_with_event; [|done].
    by eapply (policies_follow_switch d (with_event eid (started policy now reason) d)).
  - by eapply (policies_follow_switch d (with_event eid (started policy now reason) d)).
Qed.

Lemma outcome_policies policy now reason d r d' u :
  outcome policy now reason d r d' → u ≠ policy_id policy →
  failover_policies d' !! u = failover_policies d !! u.
Proof.
  assert (∀ site eid dm, failed_over policy site eid now (with_event eid (started policy now reason) d) dm →
    u ≠ policy_id policy → failover_policies dm !! u = failover_policies d !! u) as Hfo.
  { intros site eid dm Hfo Hu. rewrite (fo_policies _ _ _ _ _ _ Hfo). unfold advanced.
    destruct (select_next_policy_standby _ _); [|done]. by rewrite lookup_alter_ne. }
  destruct 1 as [| | | |site eid dm _ _ _ _ Hm _|site eid dm e _ _ _ _ Hm]; intros Hu; try done;
    exact (Hfo site eid dm Hm Hu).
Qed.

Lemma process_policies_follow now expected policies m d :
  policies_follow d → Forall (tracks d) policies → NoDup (policy_id <$> policies) →
  dbt d (process_policies (N := N) now expected policies m) (λ _ d', policies_follow d').
Proof.
  revert m d. induction policies as [|policy policies IH]; intros m d Hf Ht Hnd; simpl; [by apply dbt_ret|].
  apply Forall_cons in Ht as [Hp Ht]. rewrite fmap_cons in Hnd. apply NoDup_cons in Hnd as [Hni Hnd].
  destruct (evaluate_policy policy now expected) as [reason|] eqn:Hev; [|by apply IH].
  apply dbt_bind, dbt_attempt. eapply dbt_mono; [apply trigger_outcome|]. intros r d' Ho. simpl.
  assert (policy_scope_type policy = "site") as Hkind
    by (unfold evaluate_policy in Hev; by case_decide).
  apply IH; [by eapply outcome_follows| |done].
  apply Forall_forall. intros q Hq. rewrite Forall_forall in Ht. destruct (Ht q Hq) as (row & Hrow & Hrest).
  exists row. split; [|done]. rewrite <-Hrow. eapply outcome_policies; [done|].
  intros Heq. apply Hni. rewrite <-Heq. by apply list_elem_of_fmap_2.
Qed.

(** The policies a pass loads are those of the table, each once. *)
Lemma policy_snapshot_Some c u p policy :
  policy_snapshot c (u, p) = Some policy →
  policy_id policy = u ∧ policy_scope_type policy = po_scope_type p
  ∧ policy_scope_id policy = po_scope_id p ∧ primary_node_id policy = po_primary_node_id p
  ∧ standby_node_id policy = po_standby_node_id p.
Proof.
  unfold policy_snapshot. intros Hs. destruct (nodes c !! po_primary_node_id p); simpl in Hs; [|done].
  destruct (nodes c !! po_standby_node_id p); simpl in Hs; [|done]. by injection Hs as <-.
Qed.

Lemma select_active_policies_tracks d : Forall (tracks d) (select_active_policies d).
Proof.
  apply Forall_forall. intros policy Hin. apply elem_of_filter_map in Hin as ([u p] & Hp & Hs).
  rewrite elem_of_sort_by in Hp. apply list_elem_of_filter in Hp as [Hact Hp].
  apply elem_of_entries in Hp. apply policy_snapshot_Some in Hs as (Hid & ? & ? & ? & ?).
  exists p. by rewrite Hid.
Qed.

Lemma select_active_policies_NoDup d : NoDup (policy_id <$> select_active_policies d).
Proof.
  unfold select_active_policies. eapply sublist_NoDup; [|apply (filter_map_sublist _ _ fst)].
  - rewrite sort_by_perm. eapply sublist_NoDup; [|apply fmap_sublist, sublist_filter].
    unfold entries. rewrite hash_iter_perm. apply NoDup_fst_map_to_list.
  - intros [u p] policy Hs. by apply policy_snapshot_Some in Hs as [-> _].
Qed.

Lemma process_follows now expected d :
  policies_follow d →
  dbt d (process_failover_policies (N := N) now expected) (λ _ d', policies_follow d').
Proof.
  intros Hf. unfold process_failover_policies, load_active_policies. sqls; [done|].
  by apply process_policies_follow;
    [|apply select_active_policies_tracks|apply select_active_policies_NoDup].
Qed.

(** C12: While no two active policies share a site and each names the node that serves
    its site, with a priority that leaves room for a standby behind it, this holds
    after any number of passes, whatever statements and DNS calls fail on the way:
    every such site keeps exactly one primary, and its policy names it. *)
Theorem passes_follow_primaries expected run_once sleeps s :
  policies_follow (db s) →
  policies_follow (db (main_loop (N := N) expected run_once sleeps s).2).
Proof.
  intros Hf. apply (dbt_run (db s) _ (λ _ d', policies_follow d')); [|done].
  revert Hf. generalize (db s). induction sleeps as [|b sleeps IH]; intros d Hf; simpl; sqls;
    (eapply dbt_mono; [by apply process_follows|]); intros [m|e] d' Hd'; try done;
    destruct run_once; sqls; try done.
  destruct b; sqls; [done|]. by apply IH.
Qed.

(** ** Events that stay open *)

Lemma select_open_event_true u d eid e :
  failover_events d !! eid = Some e → open_event u e → select_open_event u d = true.
Proof.
  intros He Ho. unfold select_open_event. apply bool_decide_eq_true, Exists_exists. exists e.
  split; [apply elem_of_values; eauto|done].
Qed.

(** What a stuck event keeps as it was. *)
Record stuck (u eid : Uuid) (e : EventRow) d d' : Prop := {
  stuck_event : failover_events d' !! eid = Some e;
  stuck_policy : failover_policies d' !! u = failover_policies d !! u;
  stuck_others v e' : failover_events d' !! v = Some e' → ev_policy_id e' = u →
    failover_events d !! v = Some e';
}.

Lemma stuck_trans u eid e d1 d2 d3 : stuck u eid e d1 d2 → stuck u eid e d2 d3 → stuck u eid e d1 d3.
Proof.
  intros [E1 P1 O1] [E2 P2 O2]. split; [done|congruence|]. intros v e' H3 Hu. by apply O1; [apply O2|].
Qed.

Lemma stuck_refl u eid e d : failover_events d !! eid = Some e → stuck u eid e d d.
Proof. by split. Qed.

(** An event of another policy. *)
Lemma stuck_with_event u eid e d d' v e' :
  failover_events d !! eid = Some e → failover_events d !! v = None → ev_policy_id e' ≠ u →
  failover_policies d' !! u = failover_policies d !! u →
  failover_events d' = <[v := e']> (failover_events d) → stuck u eid e d d'.
Proof.
  intros He Hv Hu Hp Hev. split; [|done|]; rewrite Hev.
  - rewrite lookup_insert_ne; [done|congruence].
  - intros w e2 Hw Hu'. destruct (decide (w = v)) as [->|Hne].
    + rewrite lookup_insert_eq in Hw. congruence.
    + by rewrite lookup_insert_ne in Hw.
Qed.

Lemma outcome_stuck policy now reason d r d' u eid e :
  outcome policy now reason d r d' →
  failover_events d !! eid = Some e → open_event u e → stuck u eid e d d'.
Proof.
  intros Ho He Hopen. destruct (decide (policy_id policy = u)) as [Hu|Hu].
  - assert (select_open_event (policy_id policy) d = true) as Ht
      by (rewrite Hu; by eapply select_open_event_true).
    destruct Ho; try congruence; by apply stuck_refl.
  - pose proof (outcome_policies _ _ _ _ _ _ u Ho ltac:(congruence)) as Hp.
    destruct Ho as [| |v ex _ Hv _|v ex _ Hv _|site v dm _ Hv _ _ Hm _|site v dm ex _ Hv _ _ Hm];
      try by apply stuck_refl.
    + by apply (stuck_with_event u eid e d _ v (finish_event "failed" now (started policy now reason))).
    + by apply (stuck_with_event u eid e d _ v (started policy now reason)).
    + apply (stuck_with_event u eid e d _ v (finish_event "switched" now (started policy now reason)));
        [done..|]. simpl. rewrite (fo_events _ _ _ _ _ _ Hm). simpl. by rewrite insert_insert_eq.
    + apply (stuck_with_event u eid e d _ v (started policy now reason)); [done..|].
      by rewrite (fo_events _ _ _ _ _ _ Hm).
Qed.

Lemma process_policies_stuck now expected policies m d u eid e :
  failover_events d !! eid = Some e → open_event u e →
  dbt d (process_policies (N := N) now expected policies m) (λ _ d', stuck u eid e d d').
Proof.
  intros He Hopen. revert m d He. induction policies as [|policy policies IH]; intros m d He; simpl.
  { by apply dbt_ret, stuck_refl. }
  destruct (evaluate_policy policy now expected) as [reason|]; [|by apply IH].
  apply dbt_bind, dbt_attempt. eapply dbt_mono; [apply trigger_outcome|]. intros r d' Ho. simpl.
  pose proof (outcome_stuck _ _ _ _ _ _ _ _ _ Ho He Hopen) as Hs.
  eapply dbt_mono; [apply IH, (stuck_event _ _ _ _ _ Hs)|]. intros ? d'' Hs'. by eapply stuck_trans.
Qed.

(** C13: An event that was left open, as happens when the statement that should close it
    fails, stays open for good: however often the worker passes over the policies,
    the event and the policy are as they were and the policy triggers no further
    failover. *)
Theorem open_event_blocks_policy expected run_once sleeps s u eid e :
  failover_events (db s) !! eid = Some e → open_event u e →
  stuck u eid e (db s) (db (main_loop (N := N) expected run_once sleeps s).2).
Proof.
  intros He Hopen. apply (dbt_run (db s) _ (λ _ d', stuck u eid e (db s) d')); [|done].
  revert He. generalize (db s). induction sleeps as [|b sleeps IH]; intros d He; simpl;
    unfold process_failover_policies, load_active_policies; sqls; try (by apply stuck_refl);
    (eapply dbt_mono; [by apply process_policies_stuck|]); intros [m|ex] d' Hd'; try done;
    destruct run_once; sqls; try done.
  destruct b; sqls; [done|].
  eapply dbt_mono; [apply IH, (stuck_event _ _ _ _ _ Hd')|]. intros ? d'' Hs. by eapply stuck_trans.
Qed.

(** ** The counters of a pass *)

Definition with_status (status : string) d : gmap Uuid EventRow :=
  filter (λ e, ev_event_status e.2 = status) (failover_events d).

Lemma with_status_insert status d d' eid e :
  failover_events d !! eid = None → failover_events d' = <[eid := e]> (failover_events d) →
  size (with_status status d')
  = size (with_status status d) + (if decide (ev_event_status e = status) then 1 else 0).
Proof.
  intros Hnew Hev. unfold with_status. rewrite Hev. case_decide as Hs.
  - rewrite map_filter_insert_True by done. rewrite map_size_insert_None; [lia|].
    apply map_lookup_filter_None. by left.
  - rewrite map_filter_insert_not' by (try done; intros ? ?; congruence). lia.
Qed.

(** How a trigger counts: a success is one more switched event, a failure at most
    one more failed event. *)
Lemma outcome_counts policy now reason d r d' :
  outcome policy now reason d r d' →
  size (with_status "switched" d') = size (with_status "switched" d)
    + (if decide (r = Ok true) then 1 else 0)
  ∧ size (with_status "failed" d') ≤ size (with_status "failed" d) + (if is_ok r then 0 else 1).
Proof.
  destruct 1 as [| |v ex _ Hv _|v ex _ Hv _|site v dm _ Hv _ _ Hm _|site v dm ex _ Hv _ _ Hm]; simpl;
    try (rewrite decide_False by done); try (rewrite decide_True by done); try lia.
  - rewrite !(with_status_insert _ d (with_event v _ d) v _ Hv eq_refl). simpl. lia.
  - rewrite !(with_status_insert _ d (with_event v _ d) v _ Hv eq_refl). simpl. lia.
  - assert (failover_events (with_event v (finish_event "switched" now (started policy now reason)) dm)
            = <[v := finish_event "switched" now (started policy now reason)]> (failover_events d)) as Hev
      by (simpl; rewrite (fo_events _ _ _ _ _ _ Hm); simpl; by rewrite insert_insert_eq).
    rewrite !(with_status_insert _ d _ v _ Hv Hev). simpl. lia.
  - pose proof (fo_events _ _ _ _ _ _ Hm) as Hev.
    rewrite !(with_status_insert _ d _ v _ Hv Hev). simpl. lia.
Qed.

(** The policies a pass acts on. *)
Definition eligible (now : DateTime) (expected : Z) (policies : list PolicySnapshot) : nat :=
  length (filter (λ p, is_Some (evaluate_policy p now expected)) policies).

Lemma process_policies_counts now expected policies m d :
  dbt d (process_policies (N := N) now expected policies m) (λ r d', ∃ m', r = Ok m'
    ∧ run_scanned m' = run_scanned m
    ∧ run_eligible m' = run_eligible m + eligible now expected policies
    ∧ run_switched m' + run_skipped m' + run_failed m'
      = run_switched m + run_skipped m + run_failed m + length policies
    ∧ run_switched m ≤ run_switched m' ∧ run_failed m ≤ run_failed m'
    ∧ run_switched m' + run_failed m' + run_eligible m
      ≤ run_switched m + run_failed m + run_eligible m'
    ∧ size (with_status "switched" d') + run_switched m
      = size (with_status "switched" d) + run_switched m'
    ∧ size (with_status "failed" d') + run_failed m ≤ size (with_status "failed" d) + run_failed m').
Proof.
  revert m d. induction policies as [|policy policies IH]; intros m d; simpl.
  { apply dbt_ret. exists m. unfold eligible. simpl. split_and!; [done|lia..]. }
  unfold eligible. rewrite filter_cons.
  destruct (evaluate_policy policy now expected) as [reason|] eqn:Hev.
  - rewrite decide_True by eauto. apply dbt_bind, dbt_attempt.
    eapply dbt_mono; [apply trigger_outcome|]. intros r d' Ho. simpl.
    apply outcome_counts in Ho as [Hsw Hfa].
    eapply dbt_mono; [apply IH|]. intros r' d'' (m' & -> & H). exists m'. split; [done|].
    unfold eligible in H. destruct m as [sc el sw sk fa].
    destruct r as [[]|e]; simpl in *; rewrite ?decide_False, ?decide_True in Hsw by done; lia.
  - rewrite decide_False by (intros [? ?]; congruence).
    eapply dbt_mono; [apply IH|]. intros r' d'' (m' & -> & H). exists m'. split; [done|].
    unfold eligible in H. destruct m as [sc el sw sk fa]. simpl in *. lia.
Qed.

(** The summary of a pass is exact.  Unless the policies cannot be read, a pass ends
    with a summary whatever fails in it: every active policy is counted once as
    switched, skipped or failed, the eligible ones are those the evaluation let
    through, and the events closed as switched grow by just the number reported. *)
Theorem pass_summary_exact now expected s :
  let '(r, s') := process_failover_policies (N := N) now expected s in
  (db_error (statement s) = None → is_ok r = true)
  ∧ ∀ m, r = Ok m →
    run_scanned m = length (select_active_policies (db s))
    ∧ run_scanned m = run_switched m + run_skipped m + run_failed m
    ∧ run_eligible m = eligible now expected (select_active_policies (db s))
    ∧ run_switched m + run_failed m ≤ run_eligible m
    ∧ size (with_status "switched" (db s')) = size (with_status "switched" (db s)) + run_switched m
    ∧ size (with_status "failed" (db s')) ≤ size (with_status "failed" (db s)) + run_failed m.
Proof.
  unfold process_failover_policies, load_active_policies, bind, query.
  destruct (db_error (statement s)); [by split|].
  set (policies := select_active_policies (db s)). set (s1 := mkDb _ _ _).
  pose proof (process_policies_counts now expected policies (mkRunSummary (length policies) 0 0 0 0) (db s)
    s1 eq_refl) as H.
  destruct (process_policies now expected policies _ s1) as [r s']. destruct H as (m' & -> & H).
  split; [done|]. intros m [= <-]. simpl in H. lia.
Qed.

(** C11: A trigger is all or nothing.  From any tables, and whatever statements, DNS calls
    or commits fail, it ends in one of these ways: it refuses or fails and leaves the
    tables as they were; it fails after storing its event, and only that event row
    is new; or the whole failover is in the tables: the bindings of the site
    switched, the policy advanced, a new release pending for every node of the site,
    the site published, the DNS record of the plan stored, and exactly the operations the
    policy asks for queued (those whose template exists and needs no approval), each for
    this event.  It reports a switch only in the last case, with the event closed. *)
Theorem failover_all_or_nothing policy now reason s :
  let '(r, s') := trigger_policy_failover (N := N) policy now reason s in
  outcome policy now reason (db s) r (db s')
  ∧ (r = Ok true → ∃ site eid rid row, site_snapshot (policy_scope_id policy) (db s) = Some site
       ∧ site_node_bindings (db s')
         = rebound (policy_scope_id policy) (switched_bindings policy site) (site_node_bindings (db s))
       ∧ failover_events (db s') !! eid
         = Some (finish_event "switched" now (started policy now reason))
       ∧ config_releases (db s) !! rid = None ∧ config_releases (db s') !! rid = Some row
       ∧ rl_status row = "pending" ∧ rl_scope_id row = Some (policy_scope_id policy)
       ∧ (∀ b, b ∈ switched_bindings policy site →
            node_release_status (db s') !! (rid, fb_node_id b)
            = Some (queued_row (rl_release_version row)))
       ∧ queued_rows (asked_operations (db s) policy eid now) (node_operations (db s))
           (node_operations (db s'))).
Proof.
  pose proof (trigger_outcome (db s) policy now reason s eq_refl) as Ho.
  destruct (trigger_policy_failover policy now reason s) as [r s']. split; [done|]. intros ->.
  remember (db s') as d'. remember (Ok true) as r. destruct Ho as [| | | |site eid dm _ Hev Hsite _ Hm _|]; try done.
  assert (ss_site_id site = policy_scope_id policy) as Hid
    by (unfold site_snapshot in Hsite; by destruct (sites (db s) !! _); simplify_eq/=).
  destruct (fo_release _ _ _ _ _ _ Hm) as (rid & row & version & Hnew & Hrel & Hsc & _ & Hpend & Hv & Hst).
  exists site, eid, rid, row. split; [done|]. simpl. rewrite Hrel, Hst, Hv, (fo_bindings _ _ _ _ _ _ Hm), <-Hid.
  split_and!; [done|apply lookup_insert_eq|done|apply lookup_insert_eq|done|done| |exact (fo_operations _ _ _ _ _ _ Hm)].
  intros b Hb.
  unfold queue_all. rewrite (foldl_insert_lookup (λ b, (rid, fb_node_id b)) (λ _, queued_row version)).
  - destruct (find_where_is_Some (λ a, (rid, fb_node_id a) = (rid, fb_node_id b)) (switched_bindings policy site))
      as [x ->]; [by exists b|done].
  - assert ((λ b, (rid, fb_node_id b)) <$> switched_bindings policy site
            = pair rid <$> (fb_node_id <$> switched_bindings policy site)) as ->
      by (by rewrite <-list_fmap_compose).
    apply (NoDup_fmap_2 _). apply (fo_nodes _ _ _ _ _ _ Hm).
Qed.
End Statements.

(** ** Examples *)

#[local] Instance example_collation : Collation := String.compare.
#[local] Instance example_credentials : DnsExtern := {|
  json_to_string _ := "{}";
  json_from_str _ := Ok (VObject [("api_token", VString "token")]);
  cloudflare_zones _ _ _ := Ok [];
|}.
#[local] Instance example_parsers : FailoverExtern := {|
  uuid_parse_str := λ _, None;
  parse_ipv4 := String.eqb "203.0.113.9";
  parse_ipv6 := λ _, false;
|}.

(** A site served by an offline node, its standby, and a policy that moves the
    name of the site as well. *)
Definition example_catalog : Catalog := {|
  nodes := <[1%Z := mkNodeRow "a" "offline" None (Some 0%Z)]>
           (<[2%Z := mkNodeRow "b" "online" (Some "203.0.113.9") (Some 0%Z)]> ∅);
  node_heartbeats := ∅;
  site_configs := ∅;
  zones := {[ 70%Z := mkZoneRow 7 "example.com" "z1" "active" ]};
  providers := {[ 7%Z := mkDnsProviderRow "cloudflare" (Some "https://api.example") "{}" "active" ]};
  certs := ∅;
  cert_versions := ∅;
  cert_bindings := ∅;
  operation_templates := ∅;
|}.

Definition example_policy_row : PolicyRow :=
  mkPolicyRow "site" 50 1 2 "auto" 3
    (VObject [("dns_failover", VObject [("enabled", VBool true)])]) "active" 0.

Definition example_bindings : gmap (Uuid * Uuid) NodeBindingRow :=
  <[(50, 1)%Z := mkNodeBindingRow "active" "manual" "primary" 10]>
  (<[(50, 2)%Z := mkNodeBindingRow "active" "manual" "standby" 20]> ∅).

Definition example_tables : FTables := {|
  catalog := example_catalog;
  failover_policies := {[ 9%Z := example_policy_row ]};
  failover_events := ∅;
  sites := {[ 50%Z := mkSiteRow "shop" "Shop" "www.example.com" 443 "https" true "published" ]};
  site_node_bindings := example_bindings;
  config_releases := ∅;
  node_release_status := ∅;
  dns_records := {[ 80%Z := mkDnsRecordRow 70 "A" "www.example.com" "203.0.113.7" 300 "active" None 0 ]};
  dns_change_logs := ∅;
  node_operations := ∅;
  audit_logs := [];
|}.

Definition example_state : FailoverState DemoCloud := mkDb example_tables 0 (mkEnv cloud0 0 0).

(** A database that answers, and one whose n-th statement fails. *)
Definition answers : DbExtern := λ _, None.
Definition fails_at (n : nat) : DbExtern := λ i, if decide (i = n) then Some "connection reset" else None.

(** A pass, a minute after the node was last seen. *)
Definition example_pass (database : DbExtern) :=
  process_failover_policies (N := DemoCloud) (DBE := database) (seconds 60) 15 example_state.

(** The pass switches the site, the policy and the name. *)
Lemma example_switch :
  let '(r, s') := example_pass answers in
  r = Ok (mkRunSummary 1 1 1 0 0)
  ∧ current_primary_node_id (select_bindings 50 (db s')) = Some 2%Z
  ∧ ((λ p, (po_primary_node_id p, po_standby_node_id p)) <$> failover_policies (db s') !! 9%Z)
    = Some (2, 1)%Z
  ∧ (rec_content <$> demo_records (env_net (env s')) !! ("z1", "r1")) = Some "203.0.113.9".
Proof. vm_compute. tauto. Qed.

(** A failover whose commit fails is undone in the database only: the bindings, the
    policy, the releases and the stored record are as before and the event is closed
    as failed, while at the provider the name already points to the standby. *)
Theorem failed_commit_leaves_dns_switched :
  let '(r, s') := example_pass (fails_at 20) in
  r = Ok (mkRunSummary 1 1 0 0 1)
  ∧ site_node_bindings (db s') = example_bindings
  ∧ failover_policies (db s') = failover_policies example_tables
  ∧ config_releases (db s') = ∅
  ∧ dns_records (db s') = dns_records example_tables
  ∧ ev_event_status <$> values (failover_events (db s')) = ["failed"]
  ∧ (rec_content <$> demo_records (env_net (env s')) !! ("z1", "r1")) = Some "203.0.113.9".
Proof. vm_compute. tauto. Qed.

(** A failover whose last statement fails: the site is switched, the pass reports
    a failure, and the event is left open. *)
Lemma failed_finish_leaves_event_open :
  let '(r, s') := example_pass (fails_at 21) in
  r = Ok (mkRunSummary 1 1 0 0 1)
  ∧ current_primary_node_id (select_bindings 50 (db s')) = Some 2%Z
  ∧ select_open_event 9 (db s') = true.
Proof. vm_compute. tauto. Qed.

Lemma example_schema : ftables_ok example_tables.
Proof. apply (bool_decide_unpack _). vm_compute. exact I. Qed.

Lemma example_follows : policies_follow example_tables.
Proof.
  split; [apply example_schema| |].
  - intros u p Hp _. simpl in Hp. apply lookup_singleton_Some in Hp as [<- <-]. split.
    + by split; [apply (bool_decide_unpack _); vm_compute..|vm_compute].
    + exists 10%Z. split; [|split; vm_compute; discriminate].
      apply (bool_decide_unpack _). vm_compute. exact I.
  - intros u u' p p' Hp Hp' _ _ _. simpl in Hp, Hp'.
    apply lookup_singleton_Some in Hp as [<- _]. by apply lookup_singleton_Some in Hp' as [<- _].
Qed.

Lemma passes_follow_primaries_witness :
  policies_follow (db example_state)
  ∧ policies_follow (db (main_loop (N := DemoCloud) (DBE := answers) 15 false [false; false]
                           example_state).2).
Proof.
  split; [exact example_follows|].
  exact (passes_follow_primaries (DBE := answers) 15 false [false; false] example_state example_follows).
Defined.

Definition example_open : EventRow :=
  mkEventRow 9 (Some 50%Z) 1 2 "primary node a degraded" "switching" 0 None.

Lemma open_event_blocks_policy_witness :
  let s := mkDb (with_event 90 example_open example_tables) 0 (mkEnv cloud0 0 0) in
  open_event 9 example_open
  ∧ stuck 9 90 example_open (db s)
      (db (main_loop (N := DemoCloud) (DBE := answers) 15 false [false] s).2).
Proof.
  intros s. assert (open_event 9 example_open) as Ho by (apply (bool_decide_unpack _); vm_compute; exact I).
  split; [exact Ho|].
  apply (open_event_blocks_policy (DBE := answers) 15 false [false] s 9 90 example_open);
    [reflexivity|exact Ho].
Defined.

Lemma pass_summary_exact_witness :
  ∃ m s', example_pass answers = (Ok m, s') ∧ run_switched m = 1
    ∧ size (with_status "switched" (db s')) = 1.
Proof.
  pose proof (pass_summary_exact (DBE := answers) (seconds 60) 15 example_state) as H.
  unfold example_pass. destruct (process_failover_policies (seconds 60) 15 example_state) as [r s'] eqn:E.
  assert (r = Ok (mkRunSummary 1 1 1 0 0)) as -> by
    (change r with (r, s').1; rewrite <-E; vm_compute; reflexivity).
  destruct H as [_ H]. destruct (H _ eq_refl) as (_ & _ & _ & _ & Hsw & _).
  exists (mkRunSummary 1 1 1 0 0), s'. split; [reflexivity|]. split; [reflexivity|exact Hsw].
Defined.

Definition example_policy : PolicySnapshot :=
  mkPolicy 9 "site" 50 1 2 "auto" 3 (VObject [("dns_failover", VObject [("enabled", VBool true)])])
    "a" "b" "offline" "online" (Some "203.0.113.9") (Some 0%Z) None None.

Lemma failover_all_or_nothing_witness :
  ∃ s' rid row, trigger_policy_failover (N := DemoCloud) (DBE := answers) example_policy (seconds 60) "down"
      example_state = (Ok true, s')
    ∧ config_releases (db s') !! rid = Some row ∧ rl_status row = "pending".
Proof.
  pose proof (failover_all_or_nothing (DBE := answers) example_policy (seconds 60) "down" example_state) as H.
  destruct (trigger_policy_failover example_policy (seconds 60) "down" example_state) as [r s'] eqn:E.
  assert (r = Ok true) as -> by (change r with (r, s').1; rewrite <-E; vm_compute; reflexivity).
  destruct H as [_ H]. destruct (H eq_refl) as (site & eid & rid & row & _ & _ & _ & _ & Hrow & Hst & _).
  exists s', rid, row. split; [reflexivity|]. split; [exact Hrow|exact Hst].
Defined.

(** The policy also asks for two operations, by the names of their templates: the one whose
    template needs no approval is queued for the standby, the other is not. *)
Definition example_operations_policy : PolicySnapshot :=
  mkPolicy 9 "site" 50 1 2 "auto" 3
    (VObject [("post_switch_operations",
       VArray [VObject [("template_name", VString "warm-up")]; VObject [("template_name", VString "reboot")]])])
    "a" "b" "offline" "online" (Some "203.0.113.9") (Some 0%Z) None None.

Definition example_with_templates : FailoverState DemoCloud :=
  let c := example_catalog in
  mkDb (mkFTables (mkCatalog (nodes c) (node_heartbeats c) (site_configs c) (zones c) (providers c) (certs c)
          (cert_versions c) (cert_bindings c)
          (<[31%Z := mkTemplateRow "warm-up" false]> (<[32%Z := mkTemplateRow "reboot" true]> ∅)))
        (failover_policies example_tables) (failover_events example_tables) (sites example_tables)
        (site_node_bindings example_tables) (config_releases example_tables)
        (node_release_status example_tables) (dns_records example_tables) (dns_change_logs example_tables)
        (node_operations example_tables) (audit_logs example_tables)) 0 (mkEnv cloud0 0 0).

Example example_operation_queued :
  let '(r, s') := trigger_policy_failover (N := DemoCloud) (DBE := answers) example_operations_policy
                    (seconds 60) "down" example_with_templates in
  r = Ok true ∧ (λ o, (op_node_id o, op_template_id o, op_exec_status o)) <$> values (node_operations (db s'))
                = [(2%Z, 31%Z, "approved")].
Proof. vm_compute. split; reflexivity. Qed.
