(* ===== verification/Acme.v ===== *)
(** * The ACME client (apps/dns-worker/src/lib.rs)

    [LetsEncryptAcmeClient]: the directory and the account it caches, the signed
    requests with their nonces, the polling loops, the order of a certificate
    and the material of the issued one.  The ACME server and the monotonic clock
    are a peer ([AcmeNet]); keys, signatures, certificate requests and X.509 are
    OpenSSL's ([AcmeCrypto]).  The theorems follow every request of an operation. *)

From stdpp Require Import prelude strings pretty gmap.
From Stdlib Require Import Ascii.
From S2P Require Import Prelude RustStr Json Extern HubDns HubCerts DnsProvider Io Sql WorkerEnv DnsWorker.

(** ** Data *)

Record RealAcmeConfig := mkAcmeConfig {
  directory_url : string;
  contact_email : option string;
  account_key_pem : string;
  account_key_passphrase : option string;
  cert_key_passphrase : string;
  dns_propagation_wait_seconds : Z;
  poll_interval_seconds : Z;
  poll_timeout_seconds : Z;
}.

Record EcJwk := mkJwk { jwk_crv : string; jwk_kty : string; jwk_x : string; jwk_y : string }.

Record GeneratedCertificateRequest := mkCsr { csr_der : list ascii; csr_key_pem_encrypted : string }.

Record AcmeDirectory := mkDirectory {
  new_nonce_url : string;
  new_account_url : string;
  new_order_url : string;
}.

Record AcmeProblem := mkProblem { detail : option string }.

Record AcmeOrder := mkAcmeOrder {
  ao_status : string;
  ao_authorizations : list string;
  ao_finalize : string;
  ao_certificate : option string;
  ao_error : option AcmeProblem;
}.

Record AcmeAuthorizationChallenge := mkAuthChallenge {
  ac_kind : string;
  ac_url : string;
  ac_token : option string;
  ac_error : option AcmeProblem;
}.

(** [identifier] is the [value] of the identifier. *)
Record AcmeAuthorization := mkAuthorization {
  aa_status : string;
  aa_identifier : string;
  aa_challenges : list AcmeAuthorizationChallenge;
}.

Inductive JwsIdentity := Jwk | Kid (account_url : string).

(** ** The peer *)

Inductive AcmeRequest :=
  | AcmeGet (url : string)
  | AcmeHead (url : string)
  | AcmePost (url : string) (body : Value).

(** A header is missing, unreadable ([to_str] fails) or a text. *)
Definition Header : Type := option (option string).

(** A response: status, headers, the text of the body and what it decodes to. *)
Record AcmeReply := mkAcmeReply {
  ar_status : Z;
  ar_location : Header;
  ar_replay_nonce : Header;
  ar_text : option string;
  ar_directory : option AcmeDirectory;
  ar_order : option AcmeOrder;
  ar_authorization : option AcmeAuthorization;
}.

(** The server and the monotonic clock, in nanoseconds; [None] is a request that
    could not be sent. *)
Class AcmeNet (P : Type) := {
  acme_call : AcmeRequest → P → option AcmeReply * P;
  instant_now : P → Z;
  acme_sleep : Z → P → P;
}.

(** An X.509 name and certificate, as the code looks at them: the entries with
    their short name (if OpenSSL knows it) and their value (if it is UTF-8). *)
Record X509Entry := mkEntry { entry_short_name : option string; entry_value : option string }.
Record X509 := mkX509 {
  x_issuer : list X509Entry;
  x_not_before : string;
  x_not_after : string;
  x_pem : option string;
  x_digest : option string;
}.

(** OpenSSL, [base64], [sha2], [serde_json] and [chrono]'s parser.  Draws of random
    values are numbered. *)
Class AcmeCrypto := {
  Key : Type;
  private_key_from_pem : string → option string → option Key;
  key_is_ec : Key → bool;
  curve_is_p256 : Key → bool;
  affine_coordinates : Key → option (list ascii * list ascii);
  sign_sha256 : nat → Key → string → option (list ascii * list ascii);
  base64_url : list ascii → string;
  sha256_digest : string → list ascii;
  json_text : Value → string;
  openssl_csr : nat → string → list string → string → Result GeneratedCertificateRequest string;
  x509_stack_from_pem : string → option (list X509);
  parse_openssl_time : string → option DateTime;
  read_file : string → option string;
}.

(** The client with its caches, on its peer. *)
Record AcmeHost (P : Type) := mkHost {
  host_peer : P;
  directory_cache : option AcmeDirectory;
  account_url_cache : option string;
  host_draws : nat;
}.
Arguments mkHost {_} _ _ _ _.
Arguments host_peer {_} _.
Arguments directory_cache {_} _.
Arguments account_url_cache {_} _.
Arguments host_draws {_} _.

Definition set_host_peer {P} (p : P) (h : AcmeHost P) : AcmeHost P :=
  mkHost p (directory_cache h) (account_url_cache h) (host_draws h).
Definition set_directory_cache {P} (v : option AcmeDirectory) (h : AcmeHost P) : AcmeHost P :=
  mkHost (host_peer h) v (account_url_cache h) (host_draws h).
Definition set_account_url_cache {P} (v : option string) (h : AcmeHost P) : AcmeHost P :=
  mkHost (host_peer h) (directory_cache h) v (host_draws h).

(** The DNS provider's API is reached through the same host. *)
#[export] Instance host_dns_net {P} `{!DnsNet P} : DnsNet (AcmeHost P) := λ call h,
  let '(r, p) := net_send call (host_peer h) in (r, set_host_peer p h).

(** ** Settings *)

Definition acme_from_env `{!EnvVars, !AcmeCrypto} (default_directory_url : string) :
    Result RealAcmeConfig string :=
  let directory_url := default default_directory_url (env_var "PINGORAHUB_ACME_DIRECTORY_URL") in
  let contact_email := nonblank (env_var "PINGORAHUB_ACME_CONTACT_EMAIL") in
  let account_key_passphrase :=
    v ← env_var "PINGORAHUB_ACME_ACCOUNT_KEY_PASSPHRASE"; if is_empty v then None else Some v in
  let? account_key_pem :=
    match env_var "PINGORAHUB_ACME_ACCOUNT_KEY_PEM_PATH" with
    | Some path => ok_or (read_file path) ("failed to read acme account key from " +:+ path)
    | None =>
        ok_or (env_var "PINGORAHUB_ACME_ACCOUNT_KEY_PEM")
          "real acme mode requires PINGORAHUB_ACME_ACCOUNT_KEY_PEM_PATH or PINGORAHUB_ACME_ACCOUNT_KEY_PEM"
    end in
  Ok (mkAcmeConfig directory_url contact_email account_key_pem account_key_passphrase
        (default "pingorahub-dev-only" (env_var "PINGORAHUB_ACME_CERT_KEY_PASSPHRASE"))
        (parse_env_u64 "PINGORAHUB_ACME_DNS_PROPAGATION_WAIT_SECONDS" 15)
        (parse_env_u64 "PINGORAHUB_ACME_POLL_INTERVAL_SECONDS" 5)
        (parse_env_u64 "PINGORAHUB_ACME_POLL_TIMEOUT_SECONDS" 180)).

(** ** Helpers *)

Definition pad_big_num (bytes : list ascii) (width : nat) : list ascii :=
  if decide (width ≤ length bytes) then bytes
  else replicate (width - length bytes) zero ++ bytes.

Definition header_to_string (value : Header) (name : string) : Result string string :=
  let? value := ok_or value ("missing " +:+ name +:+ " header") in
  ok_or value "invalid header value".

Definition location_header (r : AcmeReply) : Result string string :=
  header_to_string (ar_location r) "Location".
Definition replay_nonce (r : AcmeReply) : Result string string :=
  header_to_string (ar_replay_nonce r) "Replay-Nonce".

(** [anyhow]'s [Context]: the new text is what [to_string] shows. *)
Definition with_context {S A} (message : string) (m : Io S A) : Io S A := λ s,
  let '(r, s') := m s in (map_err (λ _, message) r, s').

Definition ensure_acme_success `{!StatusText} {S} (success : bool) (response : AcmeReply)
    (action : string) : Io S AcmeReply :=
  if success then ret response
  else fail (action +:+ " failed with status " +:+ status_to_string (ar_status response) +:+ ": "
             +:+ default "" (ar_text response)).

Definition parse_json_response `{!StatusText} {S T} (decoded : AcmeReply → option T)
    (response : AcmeReply) (action : string) : Io S T :=
  let! response := ensure_acme_success (is_success (ar_status response)) response action in
  lift (ok_or (decoded response) ("failed to decode " +:+ action +:+ " response json")).

Definition parse_text_response `{!StatusText} {S} (response : AcmeReply) (action : string) :
    Io S string :=
  let! response := ensure_acme_success (is_success (ar_status response)) response action in
  lift (ok_or (ar_text response) ("failed to decode " +:+ action +:+ " response text")).

Definition format_x509_name (name : list X509Entry) : string :=
  match head (filter (λ e, entry_short_name e = Some "CN") name) ≫= entry_value with
  | Some common_name => common_name
  | None =>
      let parts := filter_map (λ e,
        short_name ← entry_short_name e; value ← entry_value e;
        Some (short_name +:+ "=" +:+ value)) name in
      if decide (parts = []) then "unknown" else join ", " parts
  end.

Section Material.
Context `{!AcmeCrypto}.

Definition parse_asn1_time (raw : string) : Result DateTime string :=
  ok_or (parse_openssl_time raw) ("failed to parse openssl time " +:+ raw).

(** The certificates behind the leaf, one text after the other. *)
Fixpoint chain_text (certs : list X509) : Result string string :=
  match certs with
  | [] => Ok ""
  | c :: certs' =>
      let? pem := ok_or (x_pem c) "failed to encode chain cert pem" in
      let? rest := chain_text certs' in
      Ok (pem +:+ rest)
  end.

Definition issued_material_from_chain (chain_pem key_pem_encrypted : string) :
    Result IssuedCertificateMaterial string :=
  let? certs := ok_or (x509_stack_from_pem chain_pem)
    "failed to parse downloaded certificate chain pem" in
  let? leaf := ok_or (head certs) "empty certificate chain received from acme server" in
  let issuer := format_x509_name (x_issuer leaf) in
  let? not_before := parse_asn1_time (x_not_before leaf) in
  let? not_after := parse_asn1_time (x_not_after leaf) in
  let? cert_pem := ok_or (x_pem leaf) "failed to encode leaf cert pem" in
  let? chain_pem :=
    match tail certs with
    | [] => Ok None
    | rest => let? chain := chain_text rest in Ok (Some chain)
    end in
  let? fingerprint := ok_or (x_digest leaf) "failed to calculate certificate fingerprint" in
  Ok (mkMaterial issuer not_before not_after cert_pem key_pem_encrypted chain_pem fingerprint).
End Material.

(** ** The client *)

Section Client.
Context {P : Type} `{EX : !Extern, ST : !StatusText, AN : !AcmeNet P, AX : !AcmeCrypto}.
Context (config : RealAcmeConfig).

(** [client.get(url).send()] and the like, [Instant::now()], [sleep]. *)
Definition call (request : AcmeRequest) (message : string) : Io (AcmeHost P) AcmeReply := λ h,
  let '(r, p) := acme_call request (host_peer h) in (ok_or r message, set_host_peer p h).
Definition now_instant : Io (AcmeHost P) Z := gets (λ h, instant_now (host_peer h)).
Definition sleep (duration : Z) : Io (AcmeHost P) unit :=
  modify (λ h, set_host_peer (acme_sleep duration (host_peer h)) h).
Definition draw : Io (AcmeHost P) nat := λ h,
  (Ok (host_draws h),
   mkHost (host_peer h) (directory_cache h) (account_url_cache h) (S (host_draws h))).

Definition directory : Io (AcmeHost P) AcmeDirectory :=
  let! cached := gets directory_cache in
  match cached with
  | Some directory => ret directory
  | None =>
      let! response := call (AcmeGet (directory_url config)) "failed to fetch acme directory" in
      let! directory := parse_json_response ar_directory response "fetch acme directory" in
      do! modify (set_directory_cache (Some directory)) in
      ret directory
  end.

Definition new_nonce : Io (AcmeHost P) string :=
  let! directory := directory in
  let! response := call (AcmeHead (new_nonce_url directory)) "failed to fetch acme replay nonce" in
  lift (replay_nonce response).

Definition account_key : Result Key string :=
  ok_or (private_key_from_pem (account_key_pem config) (account_key_passphrase config))
    (match account_key_passphrase config with
     | Some _ => "failed to load encrypted acme account key"
     | None => "failed to load acme account key"
     end).

Definition account_jwk : Result EcJwk string :=
  let? key := account_key in
  if negb (key_is_ec key) then Err "acme account key must be an EC P-256 private key"
  else if negb (curve_is_p256 key) then Err "acme account key must use the P-256 curve"
  else
    let? xy := ok_or (affine_coordinates key)
      "failed to extract acme account public key coordinates" in
    Ok (mkJwk "P-256" "EC" (base64_url (pad_big_num xy.1 32)) (base64_url (pad_big_num xy.2 32))).

(** The serde form, in the order of the fields. *)
Definition jwk_json (jwk : EcJwk) : Value := jobj
  [("crv", VString (jwk_crv jwk)); ("kty", VString (jwk_kty jwk)); ("x", VString (jwk_x jwk));
   ("y", VString (jwk_y jwk))].

Definition jwk_thumbprint : Result string string :=
  let? jwk := account_jwk in Ok (base64_url (sha256_digest (json_text (jwk_json jwk)))).

Definition sign_compact_jws (protected_b64 payload_b64 : string) : Io (AcmeHost P) string :=
  let! key := lift account_key in
  let! n := draw in
  let! rs := lift (ok_or (sign_sha256 n key (protected_b64 +:+ "." +:+ payload_b64))
                     "failed to sign acme request") in
  ret (base64_url (pad_big_num rs.1 32 ++ pad_big_num rs.2 32)).

(** The protected header of a request. *)
Definition protected_header (nonce url : string) (identity : JwsIdentity) : Result Value string :=
  match identity with
  | Jwk =>
      let? jwk := account_jwk in
      Ok (jobj [("alg", VString "ES256"); ("nonce", VString nonce); ("url", VString url);
                ("jwk", jwk_json jwk)])
  | Kid kid =>
      Ok (jobj [("alg", VString "ES256"); ("nonce", VString nonce); ("url", VString url);
                ("kid", VString kid)])
  end.

(** [URL_SAFE_NO_PAD.encode(serde_json::to_vec(value))]. *)
Definition encode_json (v : Value) : string := base64_url (bytes (json_text v)).

Definition jws_body (protected_b64 payload_b64 signature : string) : Value := jobj
  [("protected", VString protected_b64); ("payload", VString payload_b64);
   ("signature", VString signature)].

Definition signed_post (url : string) (payload : option Value) (identity : JwsIdentity) :
    Io (AcmeHost P) AcmeReply :=
  let! nonce := new_nonce in
  let! protected := lift (protected_header nonce url identity) in
  let protected_b64 := encode_json protected in
  let payload_b64 := match payload with Some v => encode_json v | None => "" end in
  let! signature := sign_compact_jws protected_b64 payload_b64 in
  call (AcmePost url (jws_body protected_b64 payload_b64 signature))
    ("failed to call acme endpoint " +:+ url).

Definition account_payload : Value :=
  match contact_email config with
  | Some email => jobj [("termsOfServiceAgreed", VBool true);
                        ("contact", VArray [VString ("mailto:" +:+ email)])]
  | None => jobj [("termsOfServiceAgreed", VBool true)]
  end.

Definition account_url : Io (AcmeHost P) string :=
  let! cached := gets account_url_cache in
  match cached with
  | Some url => ret url
  | None =>
      let! directory := directory in
      let! response := with_context "failed to create or fetch acme account"
        (signed_post (new_account_url directory) (Some account_payload) Jwk) in
      let! response := ensure_acme_success (is_success (ar_status response)) response
                         "create acme account" in
      let! url := lift (map_err (λ _, "acme newAccount response missing Location header")
                          (location_header response)) in
      do! modify (set_account_url_cache (Some url)) in
      ret url
  end.

Definition post_as_get_json {T} (decoded : AcmeReply → option T) (url : string) :
    Io (AcmeHost P) T :=
  let! account := account_url in
  let! response := with_context ("failed acme POST-as-GET for " +:+ url)
    (signed_post url None (Kid account)) in
  parse_json_response decoded response "acme POST-as-GET".

Definition post_as_get_text (url : string) : Io (AcmeHost P) string :=
  let! account := account_url in
  let! response := with_context ("failed acme POST-as-GET text for " +:+ url)
    (signed_post url None (Kid account)) in
  parse_text_response response "acme POST-as-GET text".

(** A problem's detail behind a message. *)
Definition with_detail (message : string) (d : option string) : string :=
  message +:+ match d with Some v => ": " +:+ v | None => "" end.

(** [StdDuration::from_secs(x.max(1))]. *)
Definition at_least_a_second (x : Z) : Z := seconds (Z.max x 1).

(** The two polling loops: [turn] asks the server, and returns what the loop
    ends with, if it ends.  A loop that runs out of [fuel] is [None]. *)
Fixpoint poll {A} (fuel : nat) (deadline : Z) (late : string) (turn : Io (AcmeHost P) (option A)) :
    Io (AcmeHost P) (option A) :=
  match fuel with
  | O => ret None
  | S fuel =>
      let! answer := turn in
      match answer with
      | Some a => ret (Some a)
      | None =>
          let! now := now_instant in
          do! require (negb (deadline <=? now)%Z) late in
          do! sleep (at_least_a_second (poll_interval_seconds config)) in
          poll fuel deadline late turn
      end
  end.

(** Turns that cannot run out: one each interval, the first and the last one. *)
Definition poll_fuel : nat :=
  Z.to_nat (Z.max (poll_timeout_seconds config) 1 / Z.max (poll_interval_seconds config) 1) + 2.

Definition poll_until {A} (late : string) (turn : Io (AcmeHost P) (option A)) :
    Io (AcmeHost P) A :=
  let! start := now_instant in
  let deadline := (start + at_least_a_second (poll_timeout_seconds config))%Z in
  let! answer := poll poll_fuel deadline late turn in
  lift (ok_or answer "the polling loop goes on").

Definition authorization_turn (url : string) : Io (AcmeHost P) (option unit) :=
  let! authorization := post_as_get_json ar_authorization url in
  let status := aa_status authorization in
  if decide (status = "valid") then ret (Some tt)
  else if decide (status ∈ ["pending"; "processing"]) then ret None
  else if decide (status = "invalid") then
    fail (with_detail "acme authorization became invalid"
            (head (filter_map (λ c, ac_error c ≫= detail) (aa_challenges authorization))))
  else fail ("unexpected acme authorization status: " +:+ status).

Definition poll_authorization_valid (url : string) : Io (AcmeHost P) unit :=
  poll_until "timed out waiting for acme authorization to become valid" (authorization_turn url).

Definition order_turn (order_url key_pem_encrypted : string) :
    Io (AcmeHost P) (option IssuedCertificateMaterial) :=
  let! order := post_as_get_json ar_order order_url in
  let status := ao_status order in
  if decide (status = "valid") then
    let! certificate_url := lift (ok_or (ao_certificate order) "acme order missing certificate url") in
    let! chain_pem := post_as_get_text certificate_url in
    let! material := lift (issued_material_from_chain chain_pem key_pem_encrypted) in
    ret (Some material)
  else if decide (status ∈ ["ready"; "processing"; "pending"]) then ret None
  else if decide (status = "invalid") then
    fail (with_detail "acme order became invalid" (ao_error order ≫= detail))
  else fail ("unexpected acme order status: " +:+ status).

Definition generate_certificate_csr (common_name : string) (sans : list string)
    (key_passphrase : string) : Io (AcmeHost P) GeneratedCertificateRequest :=
  let! n := draw in
  lift (openssl_csr n common_name (unique_identifiers common_name sans) key_passphrase).

Definition finalize_and_download_certificate (payload : Value) (common_name : string)
    (sans : list string) : Io (AcmeHost P) IssuedCertificateMaterial :=
  let! finalize_url := lift (payload_str payload "finalize_url") in
  let! order_url := lift (payload_str payload "order_url") in
  let! csr := generate_certificate_csr common_name sans (cert_key_passphrase config) in
  let! account := account_url in
  let! response := with_context "failed to finalize acme order"
    (signed_post finalize_url (Some (jobj [("csr", VString (base64_url (csr_der csr)))]))
       (Kid account)) in
  do! ensure_acme_success (is_success (ar_status response)) response "finalize acme order" in
  poll_until "timed out waiting for acme order to become valid"
    (order_turn order_url (csr_key_pem_encrypted csr)).

(** ** The interface of the worker *)

Definition identifiers_json (identifiers : list string) : Value :=
  jobj [("identifiers",
         VArray ((λ v, jobj [("type", VString "dns"); ("value", VString v)]) <$> identifiers))].

Definition real_prepare (order : QueuedDnsChallengeOrder) :
    Io (AcmeHost P) PreparedDns01Challenge :=
  if has_prepared_dns_payload (job_challenge_payload order)
  then ret (mkPrepared (job_challenge_payload order))
  else
    let identifiers := unique_identifiers (job_common_name order) (job_sans order) in
    do! require (bool_decide (length identifiers = 1))
          "real acme mode currently supports a single dns identifier per order" in
    let! directory := directory in
    let! account := account_url in
    let! order_response := with_context "failed to create acme order"
      (signed_post (new_order_url directory) (Some (identifiers_json identifiers)) (Kid account)) in
    let! order_url := lift (map_err (λ _, "acme newOrder response missing Location header")
                              (location_header order_response)) in
    let! order_body := parse_json_response ar_order order_response "create acme order" in
    let! authorization_url := lift (ok_or (head (ao_authorizations order_body))
                                      "acme order missing authorization url") in
    let! authorization := post_as_get_json ar_authorization authorization_url in
    let! dns_challenge := lift (ok_or (find_where (λ c, ac_kind c = "dns-01")
                                         (aa_challenges authorization))
                                  "acme authorization missing dns-01 challenge") in
    let! token := lift (ok_or (ac_token dns_challenge) "acme dns-01 challenge missing token") in
    let! thumbprint := lift jwk_thumbprint in
    let key_authorization := token +:+ "." +:+ thumbprint in
    let record_value := base64_url (sha256_digest key_authorization) in
    let identifier := aa_identifier authorization in
    ret (mkPrepared (jobj
      [("zone_name", VString (job_zone_name order));
       ("record_name", VString (dns01_record_name identifier)); ("record_type", VString "TXT");
       ("record_value", VString record_value); ("ttl", jint 60); ("identifier", VString identifier);
       ("order_url", VString order_url); ("authorization_url", VString authorization_url);
       ("challenge_url", VString (ac_url dns_challenge)); ("challenge_token", VString token);
       ("finalize_url", VString (ao_finalize order_body))])).

Definition real_acknowledge (payload : Value) : Io (AcmeHost P) unit :=
  let! challenge_url := lift (payload_str payload "challenge_url") in
  do! (if (0 <? dns_propagation_wait_seconds config)%Z
       then sleep (seconds (dns_propagation_wait_seconds config)) else ret tt) in
  let! account := account_url in
  let! response := with_context "failed to acknowledge acme dns-01 challenge"
    (signed_post challenge_url (Some (VObject [])) (Kid account)) in
  do! ensure_acme_success (is_success (ar_status response)) response
        "acknowledge acme dns-01 challenge" in
  ret tt.

Definition real_finalize (order : QueuedCertificateIssuanceOrder) :
    Io (AcmeHost P) IssuedCertificateMaterial :=
  let! authorization_url := lift (payload_str (job_challenge_payload order) "authorization_url") in
  do! poll_authorization_valid authorization_url in
  finalize_and_download_certificate (job_challenge_payload order) (job_common_name order)
    (job_sans order).

Definition LetsEncryptAcmeClient : AcmeClient (AcmeHost P) := {|
  prepare_dns01_challenge order := on_net (real_prepare order);
  acknowledge_dns01_challenge payload := on_net (real_acknowledge payload);
  finalize_dns01_order order := on_net (real_finalize order);
|}.
End Client.

(** [LetsEncryptAcmeClient::new]: empty caches. *)
Definition new_host {P} (p : P) : AcmeHost P := mkHost p None None 0.

Definition build_acme_client {P} `{!Extern, !WorkerExtern, !StatusText, !AcmeNet P, !AcmeCrypto, !EnvVars}
    (mode : string) : Result (AcmeClient (AcmeHost P)) string :=
  if decide (mode = "mock") then Ok MockAcmeClient
  else if decide (mode = "letsencrypt-staging") then
    let? config := acme_from_env "https://acme-staging-v02.api.letsencrypt.org/directory" in
    Ok (LetsEncryptAcmeClient config)
  else if decide (mode = "letsencrypt-production") then
    let? config := acme_from_env "https://acme-v02.api.letsencrypt.org/directory" in
    Ok (LetsEncryptAcmeClient config)
  else if decide (mode = "custom") then
    let? config := acme_from_env "https://acme-staging-v02.api.letsencrypt.org/directory" in
    Ok (LetsEncryptAcmeClient config)
  else Err ("unsupported acme mode: " +:+ mode).

(** ** What every operation of the client respects *)

Section Respects.
Context {P : Type} `{EX : !Extern, ST : !StatusText, AN : !AcmeNet P, AX : !AcmeCrypto}.

Definition respects {S A} (R : S → S → Prop) (m : Io S A) : Prop := ∀ s, R s (m s).2.

Section Rules.
Context {S : Type} (R : S → S → Prop) `{HR : !PreOrder R}.

Lemma respects_pure {A} (m : Io S A) : (∀ s, (m s).2 = s) → respects R m.
Proof. intros H s. by rewrite H. Qed.
Lemma respects_bind {A B} (m : Io S A) (k : A → Io S B) :
  respects R m → (∀ a, respects R (k a)) → respects R (bind m k).
Proof.
  intros Hm Hk s. unfold bind. specialize (Hm s). destruct (m s) as [[a|e] s']; [|done].
  etrans; [exact Hm|apply Hk].
Qed.
Lemma respects_context {A} message (m : Io S A) : respects R m → respects R (with_context message m).
Proof. intros Hm s. unfold with_context. specialize (Hm s). by destruct (m s). Qed.
End Rules.

Context (config : RealAcmeConfig) (R : AcmeHost P → AcmeHost P → Prop) `{HR : !PreOrder R}.
Hypothesis R_host : ∀ h h', host_peer h' = host_peer h → R h h'.
Hypothesis R_sleep : ∀ h n, R h (set_host_peer (acme_sleep n (host_peer h)) h).
Hypothesis R_get : ∀ url message, respects R (call (P := P) (AcmeGet url) message).
Hypothesis R_post : ∀ url payload identity, respects R (signed_post config url payload identity).

(** One step towards the requests. *)
Ltac step :=
  match goal with
  | |- respects _ (bind _ _) => apply respects_bind; [done| |intros ?]
  | |- respects _ (with_context _ _) => apply respects_context
  | |- respects _ (match ?x with _ => _ end) => destruct x
  | |- respects _ (signed_post _ _ _ _) => apply R_post
  | |- respects _ (call (AcmeGet _) _) => apply R_get
  | |- respects _ (modify (set_directory_cache _)) => intros ?; by apply R_host
  | |- respects _ (modify (set_account_url_cache _)) => intros ?; by apply R_host
  | |- respects _ (sleep _) => intros ?; apply R_sleep
  | |- respects _ draw => intros ?; by apply R_host
  | |- respects _ (lift _) => by apply respects_pure
  | |- respects _ (ret _) => by apply respects_pure
  | |- respects _ (fail _) => by apply respects_pure
  | |- respects _ (gets _) => by apply respects_pure
  | |- respects _ (require _ _) => by apply respects_pure
  | |- respects _ now_instant => by apply respects_pure
  end.

Lemma directory_respects : respects R (directory config).
Proof. unfold directory, parse_json_response, ensure_acme_success. repeat step. Qed.

Lemma account_url_respects : respects R (account_url config).
Proof.
  unfold account_url, ensure_acme_success.
  apply respects_bind; [done|by apply respects_pure|]. intros [url|]; [repeat step|].
  apply respects_bind; [done|apply directory_respects|]. intros d. repeat step.
Qed.

Lemma post_as_get_json_respects {T} (decoded : AcmeReply → option T) url :
  respects R (post_as_get_json config decoded url).
Proof.
  unfold post_as_get_json, parse_json_response, ensure_acme_success.
  apply respects_bind; [done|apply account_url_respects|]. intros account. repeat step.
Qed.

Lemma post_as_get_text_respects url : respects R (post_as_get_text config url).
Proof.
  unfold post_as_get_text, parse_text_response, ensure_acme_success.
  apply respects_bind; [done|apply account_url_respects|]. intros account. repeat step.
Qed.

(** The steps of the operations above them. *)
Ltac calls :=
  repeat (first
    [ step
    | lazymatch goal with
      | |- respects _ (directory _) => apply directory_respects
      | |- respects _ (account_url _) => apply account_url_respects
      | |- respects _ (post_as_get_json _ _ _) => apply post_as_get_json_respects
      | |- respects _ (post_as_get_text _ _) => apply post_as_get_text_respects
      end ]).

Lemma authorization_turn_respects url : respects R (authorization_turn config url).
Proof. unfold authorization_turn. calls. Qed.

Lemma order_turn_respects url key : respects R (order_turn config url key).
Proof. unfold order_turn. calls. Qed.

Lemma poll_respects {A} fuel deadline late (turn : Io (AcmeHost P) (option A)) :
  respects R turn → respects R (poll config fuel deadline late turn).
Proof. intros Ht. induction fuel as [|fuel IH]; simpl; calls; done. Qed.

Lemma poll_until_respects {A} late (turn : Io (AcmeHost P) (option A)) :
  respects R turn → respects R (poll_until config late turn).
Proof. intros Ht. unfold poll_until. calls. by apply poll_respects. Qed.

Lemma real_prepare_respects order : respects R (real_prepare config order).
Proof. unfold real_prepare, parse_json_response, ensure_acme_success. calls. Qed.

Lemma real_acknowledge_respects payload : respects R (real_acknowledge config payload).
Proof. unfold real_acknowledge, ensure_acme_success. calls. Qed.

Lemma real_finalize_respects order : respects R (real_finalize config order).
Proof.
  unfold real_finalize, poll_authorization_valid, finalize_and_download_certificate,
    generate_certificate_csr, ensure_acme_success.
  calls; apply poll_until_respects; [apply authorization_turn_respects|apply order_turn_respects].
Qed.
End Respects.

(** ** The polling loops end *)

(** The monotonic clock does not run backwards, and a sleep lasts at least as long
    as it was asked to ([Instant], [tokio::time::sleep]). *)
Class AcmeTimeLaws (P : Type) `{!AcmeNet P} : Prop := {
  call_takes_time : ∀ request p, (instant_now p ≤ instant_now (acme_call request p).2)%Z;
  sleep_takes_time : ∀ n p, (0 ≤ n)%Z → (instant_now p + n ≤ instant_now (acme_sleep n p))%Z;
}.

Section Termination.
Context {P : Type} `{EX : !Extern, ST : !StatusText, AN : !AcmeNet P, AX : !AcmeCrypto}.
Context `{TL : !AcmeTimeLaws P} (config : RealAcmeConfig).

Definition later (h h' : AcmeHost P) : Prop :=
  (instant_now (host_peer h) ≤ instant_now (host_peer h'))%Z.

#[local] Instance later_preorder : PreOrder later.
Proof. split; unfold later; [intros ?|intros ???]; lia. Qed.

Lemma call_later request message : respects later (call (P := P) request message).
Proof.
  intros h. unfold call, later. pose proof (call_takes_time request (host_peer h)) as H.
  by destruct (acme_call request (host_peer h)).
Qed.

Lemma signed_post_later url payload identity : respects later (signed_post config url payload identity).
Proof.
  unfold signed_post, new_nonce, directory, sign_compact_jws, draw, parse_json_response, ensure_acme_success.
  repeat match goal with
  | |- respects _ (bind _ _) => apply respects_bind; [apply _| |intros ?]
  | |- respects _ (match ?x with _ => _ end) => destruct x
  | |- respects _ (call _ _) => apply call_later
  | |- respects _ (lift _) => by apply respects_pure; [apply _|]
  | |- respects _ _ => by intros ?; unfold later; simpl; lia
  end.
Qed.

(** A turn that asks the server takes time. *)
Definition takes_time {A} (turn : Io (AcmeHost P) A) : Prop := respects later turn.

Lemma authorization_turn_time url : takes_time (authorization_turn config url).
Proof.
  apply authorization_turn_respects; try apply _; [by intros ?? H; unfold later; rewrite H| |].
  - intros. apply call_later.
  - apply signed_post_later.
Qed.

Lemma order_turn_time url key : takes_time (order_turn config url key).
Proof.
  apply order_turn_respects; try apply _; [by intros ?? H; unfold later; rewrite H| |].
  - intros. apply call_later.
  - apply signed_post_later.
Qed.

Lemma interval_positive x : (1 ≤ at_least_a_second x)%Z.
Proof. unfold at_least_a_second, seconds. lia. Qed.

(** With a turn for every interval up to the deadline and one more, a loop does not
    run out of turns. *)
Lemma poll_enough {A} fuel deadline late (turn : Io (AcmeHost P) (option A)) h :
  takes_time turn →
  (deadline ≤ instant_now (host_peer h)
              + Z.of_nat fuel * at_least_a_second (poll_interval_seconds config))%Z →
  (poll config (S fuel) deadline late turn h).1 ≠ Ok None.
Proof.
  intros Ht. pose proof (interval_positive (poll_interval_seconds config)) as Hi.
  revert h. induction fuel as [|fuel IH]; intros h Hd; cbn [poll]; unfold bind.
  all: specialize (Ht h) as Hturn; unfold later in Hturn;
    destruct (turn h) as [[[a|]|e] h1]; [done| |done]; unfold now_instant, gets, require.
  all: destruct (Z.leb_spec deadline (instant_now (host_peer h1))) as [Hle|Hlt]; [done|]; simpl in *.
  - lia.
  - apply IH. simpl.
    pose proof (sleep_takes_time (at_least_a_second (poll_interval_seconds config)) (host_peer h1)
      ltac:(lia)) as Hs. lia.
Qed.

(** More turns than that change nothing. *)
Lemma poll_stable {A} fuel deadline late (turn : Io (AcmeHost P) (option A)) h extra :
  (poll config fuel deadline late turn h).1 ≠ Ok None →
  poll config (fuel + extra) deadline late turn h = poll config fuel deadline late turn h.
Proof.
  revert h. induction fuel as [|fuel IH]; intros h Hn; [done|].
  cbn [Nat.add poll] in *. unfold bind in *.
  destruct (turn h) as [[[a|]|e] h1]; [done| |done]. unfold now_instant, gets, require in *.
  destruct (negb _); [|done]. unfold sleep, modify in *. by apply IH.
Qed.

Lemma poll_fuel_spec start :
  (start + at_least_a_second (poll_timeout_seconds config)
   ≤ start + Z.of_nat (pred (poll_fuel config)) * at_least_a_second (poll_interval_seconds config))%Z.
Proof.
  unfold poll_fuel, at_least_a_second, seconds.
  set (t := Z.max (poll_timeout_seconds config) 1). set (i := Z.max (poll_interval_seconds config) 1).
  assert (0 < i)%Z by lia. assert (0 ≤ t)%Z by lia.
  pose proof (Z.div_mod t i ltac:(lia)) as Hdm. pose proof (Z.mod_pos_bound t i ltac:(lia)) as Hm.
  pose proof (Z.div_pos t i ltac:(lia) ltac:(lia)) as Hp.
  rewrite Nat.add_comm. simpl pred. rewrite Nat2Z.inj_succ, Z2Nat.id by done. nia.
Qed.

(** A polling loop that is started now comes to a result or an error within its
    turns, and would do the same with any number of further ones. *)
Definition poll_ends {A} (late : string) (turn : Io (AcmeHost P) (option A)) (h : AcmeHost P) : Prop :=
  let deadline := (instant_now (host_peer h) + at_least_a_second (poll_timeout_seconds config))%Z in
  let '(r, h') := poll config (poll_fuel config) deadline late turn h in
  r ≠ Ok None ∧ ∀ extra, poll config (poll_fuel config + extra) deadline late turn h = (r, h').

Lemma poll_ends_turn {A} late (turn : Io (AcmeHost P) (option A)) h :
  takes_time turn → poll_ends late turn h.
Proof.
  intros Ht. unfold poll_ends. set (deadline := (_ + _)%Z).
  assert ((poll config (poll_fuel config) deadline late turn h).1 ≠ Ok None) as Hn.
  { pose proof (poll_fuel_spec (instant_now (host_peer h))) as Hf. fold deadline in Hf.
    unfold poll_fuel in *. rewrite Nat.add_comm in *. simpl in Hf.
    by apply (poll_enough (S (Z.to_nat _))). }
  pose proof (poll_stable (poll_fuel config) deadline late turn h) as Hs.
  destruct (poll config (poll_fuel config) deadline late turn h) as [r h']. split; [done|]. auto.
Qed.

(** C14: Both polling loops of the ACME client end, whatever the server answers and
    however long it takes: given a turn for each interval within the time limit, a
    first and a last one, they never come to the end of these turns without a
    result or an error. *)
Theorem polling_ends url key h :
  poll_ends "timed out waiting for acme authorization to become valid" (authorization_turn config url) h
  ∧ poll_ends "timed out waiting for acme order to become valid" (order_turn config url key) h.
Proof.
  split; apply poll_ends_turn; [apply authorization_turn_time|apply order_turn_time].
Qed.
End Termination.

(** ** Nonces *)

Definition Exchange : Type := AcmeRequest * option AcmeReply.

(** A peer that keeps the exchanges it had. *)
Record Logged (P : Type) := mkLogged { logged_peer : P; exchanges : list Exchange }.
Arguments mkLogged {_} _ _.
Arguments logged_peer {_} _.
Arguments exchanges {_} _.

#[export] Instance logged_net {P} `{!AcmeNet P} : AcmeNet (Logged P) := {|
  acme_call request l :=
    let '(r, p) := acme_call request (logged_peer l) in
    (r, mkLogged p (exchanges l ++ [(request, r)]));
  instant_now l := instant_now (logged_peer l);
  acme_sleep n l := mkLogged (acme_sleep n (logged_peer l)) (exchanges l);
|}.

Section Nonces.
Context {P : Type} `{EX : !Extern, ST : !StatusText, AN : !AcmeNet P, AX : !AcmeCrypto}.
Context (config : RealAcmeConfig).

(** The body of a POST is signed for its URL and the nonce. *)
Definition signed_for (nonce url : string) (body : Value) : Prop :=
  ∃ identity protected payload_b64 key n rs,
    protected_header config nonce url identity = Ok protected
    ∧ account_key config = Ok key
    ∧ sign_sha256 n key (encode_json protected +:+ "." +:+ payload_b64) = Some rs
    ∧ body = jws_body (encode_json protected) payload_b64
               (base64_url (pad_big_num rs.1 32 ++ pad_big_num rs.2 32)).

(** Exchanges in which every POST follows the answer that gave it its nonce. *)
Inductive disciplined : list Exchange → Prop :=
  | disciplined_nil : disciplined []
  | disciplined_get url r l : disciplined l → disciplined ((AcmeGet url, r) :: l)
  | disciplined_head url r l : disciplined l → disciplined ((AcmeHead url, r) :: l)
  | disciplined_post nonce_url reply nonce url body r l :
      replay_nonce reply = Ok nonce → signed_for nonce url body → disciplined l →
      disciplined ((AcmeHead nonce_url, Some reply) :: (AcmePost url body, r) :: l).

Lemma disciplined_app l k : disciplined l → disciplined k → disciplined (l ++ k).
Proof. induction 1; intros Hk; simpl; [done|constructor; auto..|]. by econstructor; eauto. Qed.

(** What an operation adds to the exchanges is disciplined. *)
Definition adds_disciplined (h h' : AcmeHost (Logged P)) : Prop :=
  ∃ new, exchanges (host_peer h') = exchanges (host_peer h) ++ new ∧ disciplined new.

#[local] Instance adds_disciplined_preorder : PreOrder adds_disciplined.
Proof.
  split.
  - intros h. exists []. rewrite app_nil_r. split; [done|constructor].
  - intros h1 h2 h3 (l & H12 & Hl) (k & H23 & Hk). exists (l ++ k).
    rewrite H23, H12, app_assoc. split; [done|by apply disciplined_app].
Qed.

Lemma adds_disciplined_same h h' : host_peer h' = host_peer h → adds_disciplined h h'.
Proof. intros H. exists []. rewrite H, app_nil_r. split; [done|constructor]. Qed.

(** A call logs its exchange. *)
Lemma call_logged request message (h : AcmeHost (Logged P)) :
  ∃ r p, call request message h
    = (ok_or r message,
       set_host_peer (mkLogged p (exchanges (host_peer h) ++ [(request, r)])) h).
Proof.
  unfold call, acme_call, logged_net. destruct (acme_call request (logged_peer (host_peer h))) as [r p].
  by exists r, p.
Qed.

Lemma get_disciplined url message :
  respects adds_disciplined (call (P := Logged P) (AcmeGet url) message).
Proof.
  intros h. destruct (call_logged (AcmeGet url) message h) as (r & p & ->). exists [(AcmeGet url, r)].
  split; [done|]. repeat constructor.
Qed.

Lemma directory_disciplined : respects adds_disciplined (directory (P := Logged P) config).
Proof.
  apply directory_respects; try apply _; [apply adds_disciplined_same|apply get_disciplined].
Qed.

Lemma wp_snd {S A} (m : Io S A) (s : S) (Q : S → Prop) : wp m s (λ _ s', Q s') → Q (m s).2.
Proof. unfold wp. by destruct (m s). Qed.

(** A signed request: the nonce is fetched, the body signed for it and sent. *)
Lemma signed_post_disciplined url payload identity :
  respects adds_disciplined (signed_post (P := Logged P) config url payload identity).
Proof.
  intros h. apply (wp_snd _ h (adds_disciplined h)). unfold signed_post, new_nonce, sign_compact_jws.
  apply wp_bind, wp_bind, run_wp. intros rd h1 Hdir.
  pose proof (directory_disciplined h) as Hd. rewrite Hdir in Hd. simpl in Hd.
  destruct rd as [dir|e]; [|done].
  apply wp_bind, run_wp. intros r h2 Hhead.
  destruct (call_logged (AcmeHead (new_nonce_url dir)) "failed to fetch acme replay nonce" h1)
    as (reply & p & Hcall). rewrite Hcall in Hhead. injection Hhead as <- <-.
  set (h2 := set_host_peer _ h1).
  assert (∀ h3, exchanges (host_peer h3) = exchanges (host_peer h2) → adds_disciplined h h3) as Hfail.
  { intros h3 H3. etrans; [exact Hd|]. exists [(AcmeHead (new_nonce_url dir), reply)]. rewrite H3.
    split; [done|repeat constructor]. }
  destruct reply as [reply|]; [|by apply Hfail]. cbn [ok_or]. wps; try by apply Hfail.
  rename select (replay_nonce reply = Ok _) into Hn. rename select (protected_header _ _ _ _ = Ok _) into Hp.
  rename select (account_key config = Ok _) into Hk.
  unfold draw at 1. apply run_wp. intros ? ? [= <- <-]. wps; try by apply Hfail.
  rename select (ok_or (sign_sha256 _ _ _) _ = Ok _) into Hs. apply ok_or_Ok in Hs.
  set (h3 := mkHost _ _ _ _). set (body := jws_body _ _ _). apply run_wp. intros r h4 Hpost.
  destruct (call_logged (AcmePost url body) ("failed to call acme endpoint " +:+ url) h3)
    as (r' & p' & Hcall'). rewrite Hcall' in Hpost. injection Hpost as <- <-.
  etrans; [exact Hd|]. exists [(AcmeHead (new_nonce_url dir), Some reply); (AcmePost url body, r')].
  split; [simpl; by rewrite <-app_assoc|]. econstructor; [exact Hn| |constructor].
  by eexists identity, _, _, _, _, _.
Qed.

(** C15: Whatever an ACME server answers, and wherever an operation of the client
    stops, every POST it sends is signed with the account key for the URL it goes
    to and for the nonce of the answer just before it, so that no answer's nonce
    serves two requests. *)
Theorem requests_carry_fresh_nonces (h : AcmeHost (Logged P)) order issuance payload :
  adds_disciplined h (real_prepare config order h).2
  ∧ adds_disciplined h (real_acknowledge config payload h).2
  ∧ adds_disciplined h (real_finalize config issuance h).2.
Proof.
  split_and!.
  - apply real_prepare_respects; try apply _;
      [apply adds_disciplined_same|apply get_disciplined|apply signed_post_disciplined].
  - apply real_acknowledge_respects; try apply _;
      [apply adds_disciplined_same| |apply get_disciplined|apply signed_post_disciplined].
    intros h0 n. exists []. rewrite app_nil_r. split; [done|constructor].
  - apply real_finalize_respects; try apply _;
      [apply adds_disciplined_same| |apply get_disciplined|apply signed_post_disciplined].
    intros h0 n. exists []. rewrite app_nil_r. split; [done|constructor].
Qed.
End Nonces.

(** ** The prepared challenge *)

Section Prepared.
Context {P : Type} `{EX : !Extern, ST : !StatusText, AN : !AcmeNet P, AX : !AcmeCrypto}.
Context (config : RealAcmeConfig).

Definition with_payload (payload : Value) (o : QueuedDnsChallengeOrder) : QueuedDnsChallengeOrder :=
  mkJob (job_order_id o) (job_site_id o) (job_certificate_id o) (job_order_type o)
    (job_acme_provider o) (job_provider_type o) (job_api_endpoint o) (job_credentials o)
    (job_zone_name o) (job_external_zone_id o) payload (job_common_name o) (job_sans o).

Lemma dns01_record_name_nonblank identifier : is_empty (trim (dns01_record_name identifier)) = false.
Proof.
  apply is_empty_false, (trim_nonblank "_"); [reflexivity|].
  unfold dns01_record_name. rewrite bytes_app. simpl. left.
Qed.

(** The payload of a prepared challenge. *)
Definition prepared_value (order : QueuedDnsChallengeOrder) (identifier order_url authorization_url
    challenge_url token finalize record_value : string) : Value := jobj
  [("zone_name", VString (job_zone_name order));
   ("record_name", VString (dns01_record_name identifier)); ("record_type", VString "TXT");
   ("record_value", VString record_value); ("ttl", jint 60); ("identifier", VString identifier);
   ("order_url", VString order_url); ("authorization_url", VString authorization_url);
   ("challenge_url", VString challenge_url); ("challenge_token", VString token);
   ("finalize_url", VString finalize)].

Lemma decode_prepared order identifier ou au cu token fin value :
  decode_challenge_payload (prepared_value order identifier ou au cu token fin value)
  = Some (mkChallengePayload (Some (job_zone_name order)) (Some (dns01_record_name identifier))
            (Some "TXT") (Some value) (Some 60%Z)).
Proof. unfold prepared_value. generalize (dns01_record_name identifier). intros name. by vm_compute. Qed.

(** The server gave [reply] to a signed request for [url] with this payload. *)
Definition answered (url payload_b64 : string) (reply : AcmeReply) : Prop :=
  ∃ protected signature (p p' : P),
    acme_call (AcmePost url (jws_body protected payload_b64 signature)) p = (Some reply, p').

(** The challenge the server set: it took an order for the names, and of the first
    authorization of that order, as it answered when asked for it, the challenge is the
    first of the kind dns-01. *)
Record challenge_set (identifiers : list string) (order_url : string) (body : AcmeOrder)
    (authorization_url : string) (authorization : AcmeAuthorization)
    (challenge : AcmeAuthorizationChallenge) : Prop := {
  set_order : ∃ url reply, answered url (encode_json (identifiers_json identifiers)) reply
    ∧ is_success (ar_status reply) = true ∧ location_header reply = Ok order_url
    ∧ ar_order reply = Some body;
  set_authorization_url : head (ao_authorizations body) = Some authorization_url;
  set_authorization : ∃ reply, answered authorization_url "" reply
    ∧ is_success (ar_status reply) = true ∧ ar_authorization reply = Some authorization;
  set_challenge : ∃ before after, aa_challenges authorization = before ++ challenge :: after
    ∧ ac_kind challenge = "dns-01" ∧ ∀ c, c ∈ before → ac_kind c ≠ "dns-01";
}.

Lemma signed_post_Ok message url payload identity (h h' : AcmeHost P) reply :
  with_context message (signed_post config url payload identity) h = (Ok reply, h') →
  answered url (match payload with Some v => encode_json v | None => "" end) reply.
Proof.
  unfold with_context. destruct (signed_post config url payload identity h) as [[r|e] h1] eqn:Hs; [|done].
  intros [= -> _]. revert Hs. unfold signed_post.
  repeat (let a := fresh "a" in let s := fresh "s" in let Hm := fresh "Hm" in
          intros (a & s & Hm & ?H)%io_bind_Ok; revert H).
  unfold call. match goal with |- context [acme_call ?q ?p] => destruct (acme_call q p) as [[r|] p'] eqn:Hc end;
    [|done]. intros [= -> _]. by eexists _, _, _, _.
Qed.

Lemma parse_json_Ok {T} (decoded : AcmeReply → option T) reply action (h h' : AcmeHost P) x :
  parse_json_response decoded reply action h = (Ok x, h') →
  is_success (ar_status reply) = true ∧ decoded reply = Some x.
Proof.
  unfold parse_json_response, ensure_acme_success, bind, ret, fail, lift.
  destruct (is_success _); [|done]. destruct (decoded reply); [|done]. intros [= -> _]. done.
Qed.

Lemma post_as_get_Ok {T} (decoded : AcmeReply → option T) url (h h' : AcmeHost P) x :
  post_as_get_json config decoded url h = (Ok x, h') →
  ∃ reply, answered url "" reply ∧ is_success (ar_status reply) = true ∧ decoded reply = Some x.
Proof.
  unfold post_as_get_json. intros (acc & h1 & _ & H)%io_bind_Ok.
  apply io_bind_Ok in H as (reply & h2 & Hp%signed_post_Ok & [Hs Hx]%parse_json_Ok).
  by exists reply.
Qed.

Lemma lift_ok_Ok {E A} (o : option A) (e : E) {S} (s s' : S) x : lift (ok_or o e) s = (Ok x, s') → o = Some x ∧ s' = s.
Proof. unfold lift. destruct o; [|done]. by intros [= -> ->]. Qed.

Lemma real_prepare_Ok order (h h' : AcmeHost P) prep :
  has_prepared_dns_payload (job_challenge_payload order) = false →
  real_prepare config order h = (Ok prep, h') →
  let names := unique_identifiers (job_common_name order) (job_sans order) in
  length names = 1
  ∧ ∃ order_url body authorization_url authorization challenge token thumbprint,
      challenge_set names order_url body authorization_url authorization challenge
      ∧ ac_token challenge = Some token ∧ jwk_thumbprint config = Ok thumbprint
      ∧ prepared_payload prep
        = prepared_value order (aa_identifier authorization) order_url authorization_url
            (ac_url challenge) token (ao_finalize body)
            (base64_url (sha256_digest (token +:+ "." +:+ thumbprint))).
Proof.
  intros Hnew. unfold real_prepare. rewrite Hnew. cbv zeta.
  intros (u & h1 & Hone & H)%io_bind_Ok. split; [unfold require in Hone; by case_bool_decide|].
  apply io_bind_Ok in H as (dir & h2 & _ & H).
  apply io_bind_Ok in H as (acc & h3 & _ & H).
  apply io_bind_Ok in H as (reply & h4 & Hreply%signed_post_Ok & H).
  apply io_bind_Ok in H as (order_url & h5 & Hloc & H).
  apply io_bind_Ok in H as (body & h6 & [Hs Hbody]%parse_json_Ok & H).
  apply io_bind_Ok in H as (au & h7 & [Hau ->]%lift_ok_Ok & H).
  apply io_bind_Ok in H as (authz & h8 & Hauthz%post_as_get_Ok & H).
  apply io_bind_Ok in H as (challenge & h9 & [Hch ->]%lift_ok_Ok & H).
  apply io_bind_Ok in H as (token & h10 & [Htok ->]%lift_ok_Ok & H).
  apply io_bind_Ok in H as (thumb & h11 & Hthumb & [= <- <-]).
  exists order_url, body, au, authz, challenge, token, thumb. split; [|split_and!; [done| |done]].
  - split; [|done..|by apply find_where_first in Hch as (l & k & -> & Hk & Hb); exists l, k].
    exists (new_order_url dir), reply. split_and!; [done|done| |done].
    unfold lift in Hloc. by destruct (location_header reply); simplify_eq/=.
  - unfold lift in Hthumb. by simplify_eq/=.
Qed.

(** C16: The challenge the ACME client prepares for a new order is the one RFC 8555 asks
    for.  The order has one name, and the server was sent an order for exactly that
    name.  Of the first authorization of the order, as the server answered, the client
    takes the first challenge of the kind dns-01: the TXT record [_acme-challenge.]
    followed by the domain of that authorization gets the unpadded base64url SHA-256
    digest of that challenge's token and the thumbprint of the account key.  The stored
    payload is complete: it reads back as that record (if the digest's text is not
    blank), names the addresses of that challenge, authorization and order, and
    preparing the order again returns it without a request. *)
Theorem prepared_challenge_reads_back order (h h' : AcmeHost P) prep :
  has_prepared_dns_payload (job_challenge_payload order) = false →
  real_prepare config order h = (Ok prep, h') →
  ∃ name order_url body authorization_url authorization challenge token thumbprint,
    let value := base64_url (sha256_digest (token +:+ "." +:+ thumbprint)) in
    let payload := prepared_payload prep in
    unique_identifiers (job_common_name order) (job_sans order) = [name]
    ∧ challenge_set [name] order_url body authorization_url authorization challenge
    ∧ ac_token challenge = Some token ∧ jwk_thumbprint config = Ok thumbprint
    ∧ (is_empty (trim value) = false →
       challenge_from_payload (job_order_id order) (job_zone_name order)
         (job_external_zone_id order) payload
       = Ok (mkChallenge (Some (job_external_zone_id order)) (job_zone_name order)
               (dns01_record_name (aa_identifier authorization)) value 60))
    ∧ get_str payload "challenge_url" = Some (ac_url challenge)
    ∧ get_str payload "authorization_url" = Some authorization_url
    ∧ get_str payload "order_url" = Some order_url
    ∧ get_str payload "finalize_url" = Some (ao_finalize body)
    ∧ ∀ h2 : AcmeHost P, real_prepare config (with_payload payload order) h2 = (Ok prep, h2).
Proof.
  intros Hnew Hp. destruct (real_prepare_Ok order h h' prep Hnew Hp)
    as (Hone & ou & body & au & authz & ch & token & thumb & Hset & Htok & Ht & Hv).
  destruct (unique_identifiers _ _) as [|name [|]] eqn:Hnames; try done.
  exists name, ou, body, au, authz, ch, token, thumb. cbv zeta.
  split_and!; [done..| | | | | |]; try (by rewrite Hv).
  - intros Hne. rewrite Hv.
    unfold challenge_from_payload. rewrite decode_prepared. cbn [ok_or result_bind].
    cbn [cc_record_type cc_record_name cc_record_value cc_zone_name cc_ttl default nonblank mbind option_bind].
    rewrite decide_False by (intros H; by apply H).
    unfold nonblank. cbn [mbind option_bind]. by rewrite dns01_record_name_nonblank, Hne.
  - intros h2. unfold real_prepare. cbn [job_challenge_payload with_payload].
    assert (has_prepared_dns_payload (prepared_payload prep) = true) as -> by (by rewrite Hv).
    by destruct prep.
Qed.
End Prepared.

(** ** A concrete server *)

(** The clock, and how often an authorization is still pending. *)
Record DemoAcme := mkDemoAcme { da_now : Z; da_pending : nat }.

Definition plain_reply (status : Z) : AcmeReply := mkAcmeReply status None None (Some "") None None None.

Definition demo_authorization (status : string) : AcmeAuthorization :=
  mkAuthorization status "www.example.com" [mkAuthChallenge "dns-01" "ch/1" (Some "tok") None].
Definition demo_acme_order : AcmeOrder := mkAcmeOrder "valid" ["authz/1"] "fin/1" (Some "cert/1") None.

Definition demo_answer (request : AcmeRequest) (pending : nat) : AcmeReply :=
  match request with
  | AcmeGet _ => mkAcmeReply 200 None None None (Some (mkDirectory "nonce" "acct" "order")) None None
  | AcmeHead _ => mkAcmeReply 200 None (Some (Some "n")) None None None None
  | AcmePost url _ =>
      if decide (url = "acct") then mkAcmeReply 201 (Some (Some "acct/1")) None None None None None
      else if decide (url = "authz/1") then
        mkAcmeReply 200 None None None None None
          (Some (demo_authorization (if decide (pending = 0) then "valid" else "pending")))
      else if decide (url = "order" ∨ url = "order/1") then
        mkAcmeReply 201 (Some (Some "order/1")) None None None (Some demo_acme_order) None
      else if decide (url = "cert/1") then mkAcmeReply 200 None None (Some "chain") None None None
      else plain_reply 200
  end.

Definition asks_authorization (request : AcmeRequest) : bool :=
  match request with AcmePost url _ => String.eqb url "authz/1" | _ => false end.

#[export] Instance demo_acme_net : AcmeNet DemoAcme := {|
  acme_call request p :=
    (Some (demo_answer request (da_pending p)),
     mkDemoAcme (da_now p + 1000000)
       (if asks_authorization request then pred (da_pending p) else da_pending p));
  instant_now p := da_now p;
  acme_sleep n p := mkDemoAcme (da_now p + n) (da_pending p);
|}.

#[export] Instance demo_acme_time : AcmeTimeLaws DemoAcme.
Proof. split; simpl; intros; lia. Qed.

#[local] Instance demo_crypto : AcmeCrypto := {|
  Key := unit;
  private_key_from_pem _ _ := Some tt;
  key_is_ec _ := true;
  curve_is_p256 _ := true;
  affine_coordinates _ := Some (bytes "x", bytes "y");
  sign_sha256 _ _ _ := Some (bytes "r", bytes "s");
  base64_url l := "b64:" +:+ of_bytes l;
  sha256_digest s := bytes s;
  json_text _ := "{}";
  openssl_csr _ _ _ _ := Ok (mkCsr (bytes "csr") "key");
  x509_stack_from_pem s :=
    Some [mkX509 [mkEntry (Some "CN") (Some "R3")] "0" "1" (Some s) (Some "f00d")];
  parse_openssl_time _ := Some 0%Z;
  read_file _ := None;
|}.

Definition demo_acme_config : RealAcmeConfig := mkAcmeConfig "dir" None "pem" None "pw" 15 5 180.
Definition demo_acme_job : QueuedDnsChallengeOrder :=
  mkJob 1 None 2 "issue" "letsencrypt" "noop" None "{}" "example.com" "z1" (VObject [])
    "www.example.com" ["www.example.com"].
Definition demo_host (pending : nat) : AcmeHost DemoAcme := new_host (mkDemoAcme 0 pending).

(** Preparing and issuing against the server, which lets the client wait twice. *)
Lemma demo_issues :
  let '(r, h') := real_prepare demo_acme_config demo_acme_job (demo_host 3) in
  match r with
  | Ok prep =>
      (real_finalize demo_acme_config (with_payload (prepared_payload prep) demo_acme_job) h').1
      = Ok (mkMaterial "R3" 0 0 "chain" "key" None "f00d")
  | Err _ => False
  end.
Proof. vm_compute. reflexivity. Qed.

Lemma polling_ends_witness :
  poll_ends demo_acme_config "timed out waiting for acme authorization to become valid"
    (authorization_turn demo_acme_config "authz/1") (demo_host 1000).
Proof. exact (proj1 (polling_ends demo_acme_config "authz/1" "key" (demo_host 1000))). Defined.

(** A server that never decides: the client gives up. *)
Lemma demo_times_out :
  (poll_authorization_valid demo_acme_config "authz/1" (demo_host 1000)).1
  = Err "timed out waiting for acme authorization to become valid".
Proof. vm_compute. reflexivity. Qed.

Lemma prepared_challenge_reads_back_witness :
  ∃ prep h', real_prepare demo_acme_config demo_acme_job (demo_host 0) = (Ok prep, h')
    ∧ real_prepare demo_acme_config (with_payload (prepared_payload prep) demo_acme_job) (demo_host 0)
      = (Ok prep, demo_host 0).
Proof.
  destruct (real_prepare demo_acme_config demo_acme_job (demo_host 0)) as [r h'] eqn:E.
  destruct r as [prep|e]; [|exfalso; apply (f_equal fst) in E; vm_compute in E; discriminate E].
  exists prep, h'. split; [reflexivity|].
  destruct (prepared_challenge_reads_back demo_acme_config demo_acme_job (demo_host 0) h' prep)
    as (name & ou & body & au & authz & ch & token & thumb & _ & _ & _ & _ & _ & _ & _ & _ & _ & H);
    [vm_compute; reflexivity|exact E|]. apply H.
Defined.
