(* ===== verification/Postgres.v ===== *)
(** * The PostgreSQL repository (apps/hub-api/src/store.rs, migrations)

    [PostgresRepository]: the tables of the schema, their constraints, and one
    definition per method of [HubRepository] on [Sql].  A row has the columns of
    its table that some statement reads or a constraint needs ([updated_at] and the
    keys the database draws itself are left out); where the columns are the fields
    of a record of [Records] the row is that record.  Tables are keyed by their
    primary key or, where the database numbers the rows, by their unique columns;
    tables with neither are lists.  Columns of an enumeration are texts, restricted by
    the schema.  Rows that compare equal under an [ORDER BY] come in any order
    ([entries]).  An error of a statement is what the database reports, for any
    reason of its own. *)

From stdpp Require Import prelude strings pretty gmap sorting.
From Stdlib Require Import Ascii.
From S2P Require Import Prelude RustStr Json Extern AppError Domain SiteConfig ConfigCompiler Records Store HubReleases Io Sql.

(** ** The values of columns *)

(** What the database and serde do with values on their way into a row and back:
    the text [::inet::text] makes of an address, if it is one; a float in a
    [NUMERIC(5, 2)] column, in hundredths, if it fits; what a [JSONB] column gives
    back; [serde_json::from_value] of a bundle. *)
Class PgExtern := {
  inet_text : string → option string;
  numeric_5_2 : F32 → option Z;
  jsonb : Value → Value;
  bundle_from_value : Value → Result CompiledConfigBundle string;
}.

(** A [TIMESTAMPTZ] counts microseconds from the year 2000; [sqlx] cuts off the rest. *)
Definition pg_epoch : DateTime := seconds 946684800.
Definition timestamptz (t : DateTime) : DateTime :=
  (pg_epoch + Z.quot (t - pg_epoch) 1000 * 1000)%Z.

(** [i32::try_from(x).unwrap_or(i32::MAX)]. *)
Definition i32_or_max (x : Z) : Z := default i32_max (try_from i32_min i32_max x).

(** [$n::inet] of an optional parameter; [None] is a refused cast. *)
Definition cast_inet `{!PgExtern} (o : option string) : option (option string) :=
  match o with
  | None => Some None
  | Some s => Some <$> inet_text s
  end.

(** ** Rows *)

Record NodeRow := mkNodeRow {
  nd_node_code : string;
  nd_name : string;
  nd_region : string;
  nd_idc : string;
  nd_labels : Value;
  nd_hostname : option string;
  nd_public_ip : option string;
  nd_private_ip : option string;
  nd_status : string;
  nd_pingora_version : option string;
  nd_agent_version : option string;
  nd_last_seen_at : option DateTime;
}.

Record CredentialRow := mkCredentialRow {
  cr_bootstrap_token_hash : option string;
  cr_client_id : string;
}.

Record HeartbeatRow := mkHeartbeatRow {
  hr_node_id : Uuid;
  hr_cpu_usage : Z;
  hr_mem_usage : Z;
  hr_disk_usage : Z;
  hr_load_status : Value;
  hr_active_config_version : option string;
  hr_site_count : Z;
  hr_health_score : Z;
  hr_reported_at : DateTime;
}.

Record SiteRow := mkSiteRow {
  si_site_code : string;
  si_name : string;
  si_domain : string;
  si_listen_port : Z;
  si_protocol : string;
  si_tls_enabled : bool;
  si_status : string;
  si_metadata : Value;
}.

Record ConfigRow := mkConfigRow {
  cf_config_json : Value;
  cf_config_hash : string;
  cf_created_by : string;
}.

Record BindingRow := mkBindingRow {
  bn_status : string;
  bn_bind_mode : string;
  bn_binding_role : string;
  bn_priority : Z;
}.

Record CertRow := mkCertRow {
  ce_cert_code : string;
  ce_common_name : string;
  ce_sans : Value;
  ce_fingerprint_sha256 : string;
  ce_status : string;
  ce_not_after : option DateTime;
  ce_created_at : DateTime;
}.

Record CertVersionRow := mkCertVersionRow {
  cv_cert_pem : string;
  cv_key_pem_encrypted : string;
  cv_chain_pem : option string;
}.

Record CertBindingRow := mkCertBindingRow {
  sb_site_id : Uuid;
  sb_certificate_id : Uuid;
  sb_version : Z;
  sb_is_default : bool;
  sb_created_at : DateTime;
}.

Record ReleaseRow := mkReleaseRow {
  rl_release_code : string;
  rl_scope_type : string;
  rl_scope_id : option Uuid;
  rl_release_type : string;
  rl_release_version : string;
  rl_manifest_json : Value;
  rl_manifest_hash : string;
  rl_reason : option string;
  rl_status : string;
  rl_created_by : string;
  rl_created_at : DateTime;
}.

Record NodeReleaseRow := mkNodeReleaseRow {
  nr_target_version : string;
  nr_current_version : option string;
  nr_apply_status : string;
  nr_apply_message : option string;
  nr_acked_at : option DateTime;
}.

Record OrderRow := mkOrderRow {
  or_site_id : option Uuid;
  or_certificate_id : option Uuid;
  or_zone_id : option Uuid;
  or_order_type : string;
  or_acme_provider : string;
  or_challenge_type : string;
  or_challenge_payload : Value;
  or_order_status : string;
  or_error_message : option string;
  or_created_at : DateTime;
}.

Record PolicyRow := mkPolicyRow {
  fp_scope_type : string;
  fp_scope_id : Uuid;
  fp_primary_node_id : Uuid;
  fp_standby_node_id : Uuid;
  fp_status : string;
}.

Record EventRow := mkEventRow {
  fe_policy_id : Uuid;
  fe_site_id : option Uuid;
  fe_source_node_id : Uuid;
  fe_target_node_id : Uuid;
}.

(** ** Field updates *)

Definition set_nd_online (pingora agent : option string) (seen : option DateTime) (r : NodeRow) :
    NodeRow :=
  mkNodeRow (nd_node_code r) (nd_name r) (nd_region r) (nd_idc r) (nd_labels r) (nd_hostname r)
    (nd_public_ip r) (nd_private_ip r)
    (if decide (nd_status r = "maintenance") then "maintenance" else "online") pingora agent seen.

Definition set_rl_status (status : string) (r : ReleaseRow) : ReleaseRow :=
  mkReleaseRow (rl_release_code r) (rl_scope_type r) (rl_scope_id r) (rl_release_type r)
    (rl_release_version r) (rl_manifest_json r) (rl_manifest_hash r) (rl_reason r) status
    (rl_created_by r) (rl_created_at r).

Definition set_or_site_id (site_id : option Uuid) (r : OrderRow) : OrderRow :=
  mkOrderRow site_id (or_certificate_id r) (or_zone_id r) (or_order_type r) (or_acme_provider r)
    (or_challenge_type r) (or_challenge_payload r) (or_order_status r) (or_error_message r)
    (or_created_at r).
Definition set_or_zone_id (zone_id : option Uuid) (r : OrderRow) : OrderRow :=
  mkOrderRow (or_site_id r) (or_certificate_id r) zone_id (or_order_type r) (or_acme_provider r)
    (or_challenge_type r) (or_challenge_payload r) (or_order_status r) (or_error_message r)
    (or_created_at r).

Definition set_fp_targets (primary standby : Uuid) (r : PolicyRow) : PolicyRow :=
  mkPolicyRow (fp_scope_type r) (fp_scope_id r) primary standby (fp_status r).

Definition set_fe_site_id (site_id : option Uuid) (r : EventRow) : EventRow :=
  mkEventRow (fe_policy_id r) site_id (fe_source_node_id r) (fe_target_node_id r).

Definition set_event_id (event_id : option Uuid) (r : NodeOperationRecord) : NodeOperationRecord :=
  mkOperation (operation_id r) (op_node_id r) (op_template_id r) event_id (input_params r)
    (exec_status r) (requested_by r) (approved_by r) (exit_code r) (stdout_log r) (stderr_log r)
    (started_at r) (finished_at r) (op_created_at r).

(** ** Tables

    Credentials are keyed by node, configurations by site and version, bindings by
    site and node, the states of a release by release and node, sessions by the hash
    of their token: those columns are unique. *)

Record PgTables := mkPgTables {
  pg_nodes : gmap Uuid NodeRow;
  pg_node_credentials : gmap Uuid CredentialRow;
  pg_node_heartbeats : list HeartbeatRow;
  pg_sites : gmap Uuid SiteRow;
  pg_site_configs : gmap (Uuid * Z) ConfigRow;
  pg_site_node_bindings : gmap (Uuid * Uuid) BindingRow;
  pg_certificates : gmap Uuid CertRow;
  pg_certificate_versions : gmap (Uuid * Z) CertVersionRow;
  pg_site_cert_bindings : list CertBindingRow;
  pg_config_releases : gmap Uuid ReleaseRow;
  pg_node_release_status : gmap (Uuid * Uuid) NodeReleaseRow;
  pg_dns_providers : gmap Uuid DnsProviderRecord;
  pg_dns_zones : gmap Uuid DnsZoneRecord;
  pg_certificate_orders : gmap Uuid OrderRow;
  pg_failover_policies : gmap Uuid PolicyRow;
  pg_failover_events : gmap Uuid EventRow;
  pg_operation_templates : gmap Uuid OperationTemplateRecord;
  pg_node_operations : gmap Uuid NodeOperationRecord;
  pg_admin_users : gmap Uuid AdminUserRecord;
  pg_admin_sessions : gmap string AdminSessionRecord;
}.

Definition set_pg_nodes (v : gmap Uuid NodeRow) (d : PgTables) : PgTables :=
  mkPgTables v (pg_node_credentials d) (pg_node_heartbeats d) (pg_sites d) (pg_site_configs d)
    (pg_site_node_bindings d) (pg_certificates d) (pg_certificate_versions d)
    (pg_site_cert_bindings d) (pg_config_releases d) (pg_node_release_status d)
    (pg_dns_providers d) (pg_dns_zones d) (pg_certificate_orders d) (pg_failover_policies d)
    (pg_failover_events d) (pg_operation_templates d) (pg_node_operations d) (pg_admin_users d)
    (pg_admin_sessions d).
Definition set_pg_node_credentials (v : gmap Uuid CredentialRow) (d : PgTables) : PgTables :=
  mkPgTables (pg_nodes d) v (pg_node_heartbeats d) (pg_sites d) (pg_site_configs d)
    (pg_site_node_bindings d) (pg_certificates d) (pg_certificate_versions d)
    (pg_site_cert_bindings d) (pg_config_releases d) (pg_node_release_status d)
    (pg_dns_providers d) (pg_dns_zones d) (pg_certificate_orders d) (pg_failover_policies d)
    (pg_failover_events d) (pg_operation_templates d) (pg_node_operations d) (pg_admin_users d)
    (pg_admin_sessions d).
Definition set_pg_node_heartbeats (v : list HeartbeatRow) (d : PgTables) : PgTables :=
  mkPgTables (pg_nodes d) (pg_node_credentials d) v (pg_sites d) (pg_site_configs d)
    (pg_site_node_bindings d) (pg_certificates d) (pg_certificate_versions d)
    (pg_site_cert_bindings d) (pg_config_releases d) (pg_node_release_status d)
    (pg_dns_providers d) (pg_dns_zones d) (pg_certificate_orders d) (pg_failover_policies d)
    (pg_failover_events d) (pg_operation_templates d) (pg_node_operations d) (pg_admin_users d)
    (pg_admin_sessions d).
Definition set_pg_sites (v : gmap Uuid SiteRow) (d : PgTables) : PgTables :=
  mkPgTables (pg_nodes d) (pg_node_credentials d) (pg_node_heartbeats d) v (pg_site_configs d)
    (pg_site_node_bindings d) (pg_certificates d) (pg_certificate_versions d)
    (pg_site_cert_bindings d) (pg_config_releases d) (pg_node_release_status d)
    (pg_dns_providers d) (pg_dns_zones d) (pg_certificate_orders d) (pg_failover_policies d)
    (pg_failover_events d) (pg_operation_templates d) (pg_node_operations d) (pg_admin_users d)
    (pg_admin_sessions d).
Definition set_pg_site_configs (v : gmap (Uuid * Z) ConfigRow) (d : PgTables) : PgTables :=
  mkPgTables (pg_nodes d) (pg_node_credentials d) (pg_node_heartbeats d) (pg_sites d) v
    (pg_site_node_bindings d) (pg_certificates d) (pg_certificate_versions d)
    (pg_site_cert_bindings d) (pg_config_releases d) (pg_node_release_status d)
    (pg_dns_providers d) (pg_dns_zones d) (pg_certificate_orders d) (pg_failover_policies d)
    (pg_failover_events d) (pg_operation_templates d) (pg_node_operations d) (pg_admin_users d)
    (pg_admin_sessions d).
Definition set_pg_site_node_bindings (v : gmap (Uuid * Uuid) BindingRow) (d : PgTables) : PgTables :=
  mkPgTables (pg_nodes d) (pg_node_credentials d) (pg_node_heartbeats d) (pg_sites d)
    (pg_site_configs d) v (pg_certificates d) (pg_certificate_versions d)
    (pg_site_cert_bindings d) (pg_config_releases d) (pg_node_release_status d) (pg_dns_providers d) (pg_dns_zones d)
    (pg_certificate_orders d) (pg_failover_policies d) (pg_failover_events d)
    (pg_operation_templates d) (pg_node_operations d) (pg_admin_users d) (pg_admin_sessions d).
Definition set_pg_certificates (v : gmap Uuid CertRow) (d : PgTables) : PgTables :=
  mkPgTables (pg_nodes d) (pg_node_credentials d) (pg_node_heartbeats d) (pg_sites d)
    (pg_site_configs d) (pg_site_node_bindings d) v (pg_certificate_versions d)
    (pg_site_cert_bindings d) (pg_config_releases d) (pg_node_release_status d)
    (pg_dns_providers d) (pg_dns_zones d) (pg_certificate_orders d) (pg_failover_policies d)
    (pg_failover_events d) (pg_operation_templates d) (pg_node_operations d) (pg_admin_users d)
    (pg_admin_sessions d).
Definition set_pg_certificate_versions (v : gmap (Uuid * Z) CertVersionRow) (d : PgTables) : PgTables :=
  mkPgTables (pg_nodes d) (pg_node_credentials d) (pg_node_heartbeats d) (pg_sites d)
    (pg_site_configs d) (pg_site_node_bindings d) (pg_certificates d) v
    (pg_site_cert_bindings d) (pg_config_releases d) (pg_node_release_status d) (pg_dns_providers d) (pg_dns_zones d)
    (pg_certificate_orders d) (pg_failover_policies d) (pg_failover_events d)
    (pg_operation_templates d) (pg_node_operations d) (pg_admin_users d) (pg_admin_sessions d).
Definition set_pg_site_cert_bindings (v : list CertBindingRow) (d : PgTables) : PgTables :=
  mkPgTables (pg_nodes d) (pg_node_credentials d) (pg_node_heartbeats d) (pg_sites d)
    (pg_site_configs d) (pg_site_node_bindings d) (pg_certificates d)
    (pg_certificate_versions d) v (pg_config_releases d) (pg_node_release_status d) (pg_dns_providers d) (pg_dns_zones d)
    (pg_certificate_orders d) (pg_failover_policies d) (pg_failover_events d)
    (pg_operation_templates d) (pg_node_operations d) (pg_admin_users d) (pg_admin_sessions d).
Definition set_pg_config_releases (v : gmap Uuid ReleaseRow) (d : PgTables) : PgTables :=
  mkPgTables (pg_nodes d) (pg_node_credentials d) (pg_node_heartbeats d) (pg_sites d)
    (pg_site_configs d) (pg_site_node_bindings d) (pg_certificates d)
    (pg_certificate_versions d) (pg_site_cert_bindings d) v (pg_node_release_status d) (pg_dns_providers d)
    (pg_dns_zones d) (pg_certificate_orders d) (pg_failover_policies d) (pg_failover_events d)
    (pg_operation_templates d) (pg_node_operations d) (pg_admin_users d) (pg_admin_sessions d).
Definition set_pg_node_release_status (v : gmap (Uuid * Uuid) NodeReleaseRow) (d : PgTables) : PgTables :=
  mkPgTables (pg_nodes d) (pg_node_credentials d) (pg_node_heartbeats d) (pg_sites d)
    (pg_site_configs d) (pg_site_node_bindings d) (pg_certificates d)
    (pg_certificate_versions d) (pg_site_cert_bindings d) (pg_config_releases d) v (pg_dns_providers d) (pg_dns_zones d)
    (pg_certificate_orders d) (pg_failover_policies d) (pg_failover_events d)
    (pg_operation_templates d) (pg_node_operations d) (pg_admin_users d) (pg_admin_sessions d).
Definition set_pg_dns_providers (v : gmap Uuid DnsProviderRecord) (d : PgTables) : PgTables :=
  mkPgTables (pg_nodes d) (pg_node_credentials d) (pg_node_heartbeats d) (pg_sites d)
    (pg_site_configs d) (pg_site_node_bindings d) (pg_certificates d)
    (pg_certificate_versions d) (pg_site_cert_bindings d) (pg_config_releases d) (pg_node_release_status d) v
    (pg_dns_zones d) (pg_certificate_orders d) (pg_failover_policies d) (pg_failover_events d)
    (pg_operation_templates d) (pg_node_operations d) (pg_admin_users d) (pg_admin_sessions d).
Definition set_pg_dns_zones (v : gmap Uuid DnsZoneRecord) (d : PgTables) : PgTables :=
  mkPgTables (pg_nodes d) (pg_node_credentials d) (pg_node_heartbeats d) (pg_sites d)
    (pg_site_configs d) (pg_site_node_bindings d) (pg_certificates d)
    (pg_certificate_versions d) (pg_site_cert_bindings d) (pg_config_releases d) (pg_node_release_status d)
    (pg_dns_providers d) v (pg_certificate_orders d) (pg_failover_policies d)
    (pg_failover_events d) (pg_operation_templates d) (pg_node_operations d) (pg_admin_users d)
    (pg_admin_sessions d).
Definition set_pg_certificate_orders (v : gmap Uuid OrderRow) (d : PgTables) : PgTables :=
  mkPgTables (pg_nodes d) (pg_node_credentials d) (pg_node_heartbeats d) (pg_sites d)
    (pg_site_configs d) (pg_site_node_bindings d) (pg_certificates d)
    (pg_certificate_versions d) (pg_site_cert_bindings d) (pg_config_releases d) (pg_node_release_status d)
    (pg_dns_providers d) (pg_dns_zones d) v (pg_failover_policies d) (pg_failover_events d)
    (pg_operation_templates d) (pg_node_operations d) (pg_admin_users d) (pg_admin_sessions d).
Definition set_pg_failover_policies (v : gmap Uuid PolicyRow) (d : PgTables) : PgTables :=
  mkPgTables (pg_nodes d) (pg_node_credentials d) (pg_node_heartbeats d) (pg_sites d)
    (pg_site_configs d) (pg_site_node_bindings d) (pg_certificates d)
    (pg_certificate_versions d) (pg_site_cert_bindings d) (pg_config_releases d) (pg_node_release_status d)
    (pg_dns_providers d) (pg_dns_zones d) (pg_certificate_orders d) v (pg_failover_events d)
    (pg_operation_templates d) (pg_node_operations d) (pg_admin_users d) (pg_admin_sessions d).
Definition set_pg_failover_events (v : gmap Uuid EventRow) (d : PgTables) : PgTables :=
  mkPgTables (pg_nodes d) (pg_node_credentials d) (pg_node_heartbeats d) (pg_sites d)
    (pg_site_configs d) (pg_site_node_bindings d) (pg_certificates d)
    (pg_certificate_versions d) (pg_site_cert_bindings d) (pg_config_releases d) (pg_node_release_status d)
    (pg_dns_providers d) (pg_dns_zones d) (pg_certificate_orders d) (pg_failover_policies d) v
    (pg_operation_templates d) (pg_node_operations d) (pg_admin_users d) (pg_admin_sessions d).
Definition set_pg_operation_templates (v : gmap Uuid OperationTemplateRecord) (d : PgTables) : PgTables :=
  mkPgTables (pg_nodes d) (pg_node_credentials d) (pg_node_heartbeats d) (pg_sites d)
    (pg_site_configs d) (pg_site_node_bindings d) (pg_certificates d)
    (pg_certificate_versions d) (pg_site_cert_bindings d) (pg_config_releases d) (pg_node_release_status d)
    (pg_dns_providers d) (pg_dns_zones d) (pg_certificate_orders d) (pg_failover_policies d)
    (pg_failover_events d) v (pg_node_operations d) (pg_admin_users d) (pg_admin_sessions d).
Definition set_pg_node_operations (v : gmap Uuid NodeOperationRecord) (d : PgTables) : PgTables :=
  mkPgTables (pg_nodes d) (pg_node_credentials d) (pg_node_heartbeats d) (pg_sites d)
    (pg_site_configs d) (pg_site_node_bindings d) (pg_certificates d)
    (pg_certificate_versions d) (pg_site_cert_bindings d) (pg_config_releases d) (pg_node_release_status d)
    (pg_dns_providers d) (pg_dns_zones d) (pg_certificate_orders d) (pg_failover_policies d)
    (pg_failover_events d) (pg_operation_templates d) v (pg_admin_users d) (pg_admin_sessions d).
Definition set_pg_admin_users (v : gmap Uuid AdminUserRecord) (d : PgTables) : PgTables :=
  mkPgTables (pg_nodes d) (pg_node_credentials d) (pg_node_heartbeats d) (pg_sites d)
    (pg_site_configs d) (pg_site_node_bindings d) (pg_certificates d)
    (pg_certificate_versions d) (pg_site_cert_bindings d) (pg_config_releases d) (pg_node_release_status d)
    (pg_dns_providers d) (pg_dns_zones d) (pg_certificate_orders d) (pg_failover_policies d)
    (pg_failover_events d) (pg_operation_templates d) (pg_node_operations d) v
    (pg_admin_sessions d).
Definition set_pg_admin_sessions (v : gmap string AdminSessionRecord) (d : PgTables) : PgTables :=
  mkPgTables (pg_nodes d) (pg_node_credentials d) (pg_node_heartbeats d) (pg_sites d)
    (pg_site_configs d) (pg_site_node_bindings d) (pg_certificates d)
    (pg_certificate_versions d) (pg_site_cert_bindings d) (pg_config_releases d) (pg_node_release_status d)
    (pg_dns_providers d) (pg_dns_zones d) (pg_certificate_orders d) (pg_failover_policies d)
    (pg_failover_events d) (pg_operation_templates d) (pg_node_operations d) (pg_admin_users d)
    v.

Definition empty_tables : PgTables :=
  mkPgTables ∅ ∅ [] ∅ ∅ ∅ ∅ ∅ [] ∅ ∅ ∅ ∅ ∅ ∅ ∅ ∅ ∅ ∅ ∅.

(** ** Constraints (migrations 0001 to 0005) *)

Definition node_status_enum : list string :=
  ["pending"; "online"; "suspect"; "offline"; "maintenance"].
Definition site_status_enum : list string := ["draft"; "published"; "disabled"].
Definition release_status_enum : list string :=
  ["draft"; "pending"; "publishing"; "success"; "failed"; "rolled_back"].
Definition apply_status_enum : list string :=
  ["pending"; "downloading"; "applying"; "success"; "failed"; "rolled_back"].
Definition certificate_status_enum : list string := ["active"; "expired"; "revoked"; "staging"].
Definition dns_provider_type_enum : list string :=
  ["cloudflare"; "alidns"; "route53"; "dnspod"; "custom"; "noop"].
Definition operation_type_enum : list string :=
  ["vip_bind"; "vip_unbind"; "route_switch"; "service_reload"; "custom_template"].
Definition operation_exec_status_enum : list string :=
  ["pending"; "approved"; "dispatching"; "running"; "success"; "failed"; "cancelled"; "timeout"].

Definition node_tables_ok (d : PgTables) : Prop :=
  unique_on nd_node_code (pg_nodes d)
  ∧ map_Forall (λ _ r, nd_status r ∈ node_status_enum) (pg_nodes d)
  ∧ map_Forall (λ u _, present (pg_nodes d) u) (pg_node_credentials d)
  ∧ unique_on cr_client_id (pg_node_credentials d)
  ∧ Forall (λ h, present (pg_nodes d) (hr_node_id h)) (pg_node_heartbeats d).

Definition site_row_ok (r : SiteRow) : Prop :=
  (0 < si_listen_port r < 65536)%Z ∧ si_status r ∈ site_status_enum.

Definition site_tables_ok (d : PgTables) : Prop :=
  unique_on si_site_code (pg_sites d)
  ∧ map_Forall (λ _ r, site_row_ok r) (pg_sites d)
  ∧ map_Forall (λ k _, present (pg_sites d) k.1) (pg_site_configs d)
  ∧ map_Forall (λ k _, present (pg_sites d) k.1 ∧ present (pg_nodes d) k.2) (pg_site_node_bindings d).

(** The partial index of migration 0005. *)
Definition active_renewal_row (o : OrderRow) : Prop :=
  is_Some (or_certificate_id o) ∧ or_order_type o = "renew"
  ∧ or_order_status o ∈ ["pending_dns_challenge"; "dns_challenge_presenting";
                         "dns_challenge_presented"; "issuing"].
#[export] Instance active_renewal_row_dec o : Decision (active_renewal_row o).
Proof. unfold active_renewal_row. apply _. Defined.

Definition order_row_ok (d : PgTables) (o : OrderRow) : Prop :=
  present_opt (pg_sites d) (or_site_id o) ∧ present_opt (pg_certificates d) (or_certificate_id o)
  ∧ present_opt (pg_dns_zones d) (or_zone_id o).

Definition certificate_tables_ok (d : PgTables) : Prop :=
  unique_on ce_cert_code (pg_certificates d) ∧ unique_on ce_fingerprint_sha256 (pg_certificates d)
  ∧ map_Forall (λ _ c, ce_status c ∈ certificate_status_enum) (pg_certificates d)
  ∧ map_Forall (λ k _, present (pg_certificates d) k.1) (pg_certificate_versions d)
  ∧ Forall (λ b, present (pg_sites d) (sb_site_id b)
                 ∧ present (pg_certificates d) (sb_certificate_id b)) (pg_site_cert_bindings d)
  ∧ map_Forall (λ _ o, order_row_ok d o) (pg_certificate_orders d)
  ∧ unique_on or_certificate_id (filter (λ e, active_renewal_row e.2) (pg_certificate_orders d)).

Definition release_tables_ok (d : PgTables) : Prop :=
  unique_on rl_release_code (pg_config_releases d)
  ∧ map_Forall (λ _ r, rl_status r ∈ release_status_enum) (pg_config_releases d)
  ∧ map_Forall (λ k r, present (pg_config_releases d) k.1 ∧ present (pg_nodes d) k.2
                       ∧ nr_apply_status r ∈ apply_status_enum) (pg_node_release_status d).

Definition dns_tables_ok (d : PgTables) : Prop :=
  unique_on provider_name (pg_dns_providers d)
  ∧ map_Forall (λ _ p, provider_type p ∈ dns_provider_type_enum) (pg_dns_providers d)
  ∧ map_Forall (λ _ z, present (pg_dns_providers d) (zone_provider_id z)) (pg_dns_zones d)
  ∧ unique_on (λ z, (zone_provider_id z, zone_name z)) (pg_dns_zones d).

Definition policy_row_ok (d : PgTables) (p : PolicyRow) : Prop :=
  present (pg_nodes d) (fp_primary_node_id p) ∧ present (pg_nodes d) (fp_standby_node_id p)
  ∧ fp_primary_node_id p ≠ fp_standby_node_id p.

Definition event_row_ok (d : PgTables) (e : EventRow) : Prop :=
  present (pg_failover_policies d) (fe_policy_id e) ∧ present_opt (pg_sites d) (fe_site_id e)
  ∧ present (pg_nodes d) (fe_source_node_id e) ∧ present (pg_nodes d) (fe_target_node_id e)
  ∧ fe_source_node_id e ≠ fe_target_node_id e.

Definition operation_row_ok (d : PgTables) (o : NodeOperationRecord) : Prop :=
  present (pg_nodes d) (op_node_id o) ∧ present (pg_operation_templates d) (op_template_id o)
  ∧ present_opt (pg_failover_events d) (event_id o)
  ∧ exec_status o ∈ operation_exec_status_enum.

Definition operation_tables_ok (d : PgTables) : Prop :=
  map_Forall (λ _ p, policy_row_ok d p) (pg_failover_policies d)
  ∧ map_Forall (λ _ e, event_row_ok d e) (pg_failover_events d)
  ∧ unique_on template_name (pg_operation_templates d)
  ∧ map_Forall (λ _ t, operation_type t ∈ operation_type_enum) (pg_operation_templates d)
  ∧ map_Forall (λ _ o, operation_row_ok d o) (pg_node_operations d).

Definition admin_tables_ok (d : PgTables) : Prop :=
  unique_on username (pg_admin_users d)
  ∧ map_Forall (λ _ s, present (pg_admin_users d) (session_user_id s)) (pg_admin_sessions d)
  ∧ unique_on session_id (pg_admin_sessions d).

Definition pg_ok (d : PgTables) : Prop :=
  node_tables_ok d ∧ site_tables_ok d ∧ certificate_tables_ok d ∧ release_tables_ok d
  ∧ dns_tables_ok d ∧ operation_tables_ok d ∧ admin_tables_ok d.

#[export] Instance pg_ok_dec d : Decision (pg_ok d).
Proof.
  unfold pg_ok, node_tables_ok, site_tables_ok, site_row_ok, certificate_tables_ok, order_row_ok,
    release_tables_ok, dns_tables_ok, operation_tables_ok, policy_row_ok, event_row_ok,
    operation_row_ok, admin_tables_ok.
  apply _.
Defined.

#[export] Instance pg_schema : Schema PgTables := {| schema_ok := pg_ok |}.

(** ** Rows read back *)

Section Queries.
Context `{EX : !Extern, PX : !PgExtern, CO : !Collation}.

(** [LEFT JOIN LATERAL (... ORDER BY reported_at DESC LIMIT 1)]. *)
Definition latest_heartbeat (d : PgTables) (node_id : Uuid) : option HeartbeatRow :=
  head (sort_by (cmp_rev (cmp_on hr_reported_at Z.compare))
          (filter (λ h, hr_node_id h = node_id) (hash_iter (pg_node_heartbeats d)))).

Definition node_record (d : PgTables) (entry : Uuid * NodeRow) : NodeRecord :=
  let '(u, r) := entry in
  let hb := latest_heartbeat d u in
  {|
    identity := mkNodeIdentity u (nd_node_code r) (nd_name r) (nd_region r) (nd_idc r)
                  (decode_node_status (nd_status r));
    runtime := {|
      active_config_version := hb ≫= hr_active_config_version;
      last_seen_at := nd_last_seen_at r;
      site_count := Z.max (default 0%Z (hr_site_count <$> hb)) 0;
      health_score := clamp 0 100 (default 100%Z (hr_health_score <$> hb));
    |};
    labels := nd_labels r;
    hostname := nd_hostname r;
    public_ip := nd_public_ip r;
    private_ip := nd_private_ip r;
    bootstrap_token := pg_node_credentials d !! u ≫= cr_bootstrap_token_hash;
    pingora_version := nd_pingora_version r;
    agent_version := nd_agent_version r;
  |}.

Definition select_node (node_id : Uuid) (d : PgTables) : option NodeRecord :=
  (λ r, node_record d (node_id, r)) <$> pg_nodes d !! node_id.

Definition select_node_id (node_code : string) (d : PgTables) : option Uuid :=
  fst <$> find_where (λ e, nd_node_code e.2 = node_code) (entries (pg_nodes d)).

Definition select_nodes (d : PgTables) : list NodeRecord :=
  node_record d <$> sort_by (cmp_on (λ e, nd_node_code e.2) collate) (entries (pg_nodes d)).

(** [SELECT DISTINCT s.site_code ... ORDER BY s.site_code]. *)
Definition select_bound_site_codes (node_id : Uuid) (d : PgTables) : list string :=
  sort_by collate (remove_dups
    (filter_map (λ e, si_site_code <$> pg_sites d !! e.1.1)
       (filter (λ e, e.1.2 = node_id) (entries (pg_site_node_bindings d))))).

Definition names_node (node_id : Uuid) (p : PolicyRow) : Prop :=
  fp_primary_node_id p = node_id ∨ fp_standby_node_id p = node_id.
#[export] Instance names_node_dec u p : Decision (names_node u p).
Proof. unfold names_node. apply _. Defined.

Definition count_policies (node_id : Uuid) (d : PgTables) : nat :=
  length (filter (names_node node_id) (values (pg_failover_policies d))).

(** The version and document of the latest configuration. *)
Definition latest_config (site_id : Uuid) (d : PgTables) : option (Z * Value) :=
  (λ e, (e.1.2, cf_config_json e.2)) <$>
  head (sort_by (cmp_rev (cmp_on (λ e, e.1.2) Z.compare))
          (filter (λ e, e.1.1 = site_id) (entries (pg_site_configs d)))).

Definition SiteQueryRow : Type := Uuid * SiteRow * option (Z * Value).

Definition select_site (site_id : Uuid) (d : PgTables) : option SiteQueryRow :=
  (λ r, (site_id, r, latest_config site_id d)) <$> pg_sites d !! site_id.

Definition select_site_id (site_code : string) (d : PgTables) : option Uuid :=
  fst <$> find_where (λ e, si_site_code e.2 = site_code) (entries (pg_sites d)).

Definition select_sites (d : PgTables) : list SiteQueryRow :=
  (λ e, (e.1, e.2, latest_config e.1 d)) <$>
  sort_by (cmp_on (λ e, si_site_code e.2) collate) (entries (pg_sites d)).

Definition select_bindings (site_id : Uuid) (d : PgTables) : list SiteBindingRecord :=
  (λ e, mkBinding e.1.2 (bn_binding_role e.2) (bn_priority e.2)) <$>
  sort_by (cmp_on (λ e, bn_priority e.2) Z.compare)
    (filter (λ e, e.1.1 = site_id) (entries (pg_site_node_bindings d))).

Definition site_record (row : SiteQueryRow) (bindings : list SiteBindingRecord) : SiteRecord :=
  let '(u, r, sc) := row in
  {|
    site_id := u;
    site_code := si_site_code r;
    site_name := si_name r;
    site_domain := si_domain r;
    site_listen_port := clamp 0 u16_max (si_listen_port r);
    site_protocol := decode_protocol (si_protocol r);
    site_tls_enabled := si_tls_enabled r;
    site_status := decode_site_status (si_status r);
    site_version := Z.max (default 1%Z (fst <$> sc)) 1;
    site_config := default (jobj []) (snd <$> sc);
    bindings := bindings;
  |}.

Definition ack_record (r : NodeReleaseRow) : NodeAckRecord :=
  mkAck (nr_apply_status r) (nr_current_version r) (nr_apply_message r) (nr_acked_at r).

(** The rows of a release, inserted into a [HashMap] by node. *)
Definition select_acks (release_id : Uuid) (d : PgTables) : gmap Uuid NodeAckRecord :=
  list_to_map ((λ e, (e.1.2, ack_record e.2)) <$>
    filter (λ e, e.1.1 = release_id) (entries (pg_node_release_status d))).

Definition select_release (release_id : Uuid) (d : PgTables) : option (Uuid * ReleaseRow) :=
  pair release_id <$> pg_config_releases d !! release_id.

Definition select_release_by_version (version : string) (d : PgTables) :
    option (Uuid * ReleaseRow) :=
  find_where (λ e, rl_release_version e.2 = version) (entries (pg_config_releases d)).

Definition select_releases (d : PgTables) : list (Uuid * ReleaseRow) :=
  sort_by (cmp_rev (cmp_on (λ e, rl_created_at e.2) Z.compare)) (entries (pg_config_releases d)).

Definition release_record (entry : Uuid * ReleaseRow) (bundle : CompiledConfigBundle)
    (acks : gmap Uuid NodeAckRecord) : ReleaseRecord :=
  let '(u, r) := entry in
  {|
    release_id := u;
    scope_type := rl_scope_type r;
    scope_id := rl_scope_id r;
    release_type := rl_release_type r;
    release_version := rl_release_version r;
    reason := default EmptyString (rl_reason r);
    release_status := rl_status r;
    bundle := bundle;
    target_node_ids := (entries acks).*1;
    ack_status := acks;
    release_created_at := rl_created_at r;
  |}.

(** The releases a node was a target of, newest first. *)
Definition select_latest_release (node_id : Uuid) (d : PgTables) : option Uuid :=
  fst <$> head (sort_by (cmp_rev (cmp_on snd Z.compare))
    (filter_map (λ e, (λ r, (e.1.1, rl_created_at r)) <$> pg_config_releases d !! e.1.1)
       (filter (λ e, e.1.2 = node_id) (entries (pg_node_release_status d))))).

(** [row.get] of a NULL where the record has no option: the task panics. *)
Definition unexpected_null : string := "UnexpectedNullError".

Definition order_record (d : PgTables) (entry : Uuid * OrderRow) :
    Result CertificateOrderRecord string :=
  let '(u, o) := entry in
  let? zone_id := ok_or (or_zone_id o) unexpected_null in
  Ok {|
    order_id := u;
    order_site_id := or_site_id o;
    order_certificate_id := or_certificate_id o;
    order_zone_id := zone_id;
    order_type := or_order_type o;
    acme_provider := or_acme_provider o;
    challenge_type := or_challenge_type o;
    challenge_payload := or_challenge_payload o;
    order_status := or_order_status o;
    error_message := or_error_message o;
    certificate_expires_at :=
      (c ← or_certificate_id o; r ← pg_certificates d !! c; ce_not_after r);
    order_created_at := or_created_at o;
  |}.

Definition select_order (order_id : Uuid) (d : PgTables) :
    option (Result CertificateOrderRecord string) :=
  (λ o, order_record d (order_id, o)) <$> pg_certificate_orders d !! order_id.

Definition select_orders (d : PgTables) : Result (list CertificateOrderRecord) string :=
  try_map (order_record d)
    (sort_by (cmp_rev (cmp_on (λ e, or_created_at e.2) Z.compare))
       (entries (pg_certificate_orders d))).

(** [serde_json::from_value::<Vec<String>>]. *)
Definition strings_of_json (v : Value) : option (list string) := as_array v ≫= mapM as_str.

(** The joins of a binding with its certificate and the version it names. *)
Definition certificate_ref (d : PgTables) (b : CertBindingRow) : option CertificateRef :=
  c ← pg_certificates d !! sb_certificate_id b;
  v ← pg_certificate_versions d !! (sb_certificate_id b, sb_version b);
  Some {|
    ref_certificate_id := sb_certificate_id b;
    ref_version := sb_version b;
    ref_common_name := ce_common_name c;
    ref_sans := default [] (strings_of_json (ce_sans c));
    ref_expires_at := ce_not_after c;
    ref_cert_pem := cv_cert_pem v;
    ref_key_pem_encrypted := cv_key_pem_encrypted v;
    ref_chain_pem := cv_chain_pem v;
  |}.

Definition select_site_certificates (site_id : Uuid) (d : PgTables) : list CertificateRef :=
  filter_map (certificate_ref d)
    (sort_by (cmp_rev (cmp_on sb_created_at Z.compare))
       (filter (λ b, sb_site_id b = site_id ∧ sb_is_default b = true)
          (hash_iter (pg_site_cert_bindings d)))).

Definition select_session (token_hash : string) (d : PgTables) : option AdminSessionContext :=
  s ← pg_admin_sessions d !! token_hash;
  u ← pg_admin_users d !! session_user_id s;
  Some (mkSessionContext (session_user_id s) (username u) (display_name u) (user_status u)
          (session_expires_at s)).

(** The columns of a template as the record reads them. *)
Definition template_record (t : OperationTemplateRecord) : OperationTemplateRecord :=
  mkTemplateRecord (template_id t) (template_name t) (operation_type t) (template_command t)
    (template_allowed_params t) (clamp 0 i32_max (template_timeout_seconds t)) (run_as_user t)
    (approval_required t) (template_created_at t).

Definition select_template (template_id : Uuid) (d : PgTables) : option OperationTemplateRecord :=
  template_record <$> pg_operation_templates d !! template_id.

Definition select_template_by_name (name : string) (d : PgTables) :
    option OperationTemplateRecord :=
  template_record <$>
  find_where (λ t, template_name t = name) (values (pg_operation_templates d)).

Definition select_templates (d : PgTables) : list OperationTemplateRecord :=
  template_record <$>
  sort_by (cmp_then (cmp_rev (cmp_on template_created_at Z.compare)) (cmp_on template_name collate))
    (values (pg_operation_templates d)).

Definition select_operations (node_id : Uuid) (d : PgTables) : list NodeOperationRecord :=
  sort_by (cmp_rev (cmp_on op_created_at Z.compare))
    (filter (λ o, op_node_id o = node_id) (values (pg_node_operations d))).

(** The oldest approved operation of the node, joined with its template. *)
Definition select_claimable (node_id : Uuid) (d : PgTables) :
    option (NodeOperationRecord * OperationTemplateRecord) :=
  head (sort_by (cmp_on (λ p, op_created_at p.1) Z.compare)
    (filter_map (λ o, pair o <$> pg_operation_templates d !! op_template_id o)
       (filter (claimable node_id) (values (pg_node_operations d))))).
End Queries.

(** ** Rows written *)

Section Rows.
Context `{EX : !Extern, PX : !PgExtern}.

Definition node_row (node : NodeRecord) (public_ip private_ip : option string) : NodeRow := {|
  nd_node_code := node_code (identity node);
  nd_name := name (identity node);
  nd_region := region (identity node);
  nd_idc := idc (identity node);
  nd_labels := jsonb (labels node);
  nd_hostname := hostname node;
  nd_public_ip := public_ip;
  nd_private_ip := private_ip;
  nd_status := node_status_name (status (identity node));
  nd_pingora_version := pingora_version node;
  nd_agent_version := agent_version node;
  nd_last_seen_at := timestamptz <$> last_seen_at (runtime node);
|}.

Definition upsert_node (node : NodeRecord) (d : PgTables) : option PgTables :=
  pub ← cast_inet (public_ip node);
  priv ← cast_inet (private_ip node);
  Some (set_pg_nodes (<[id (identity node) := node_row node pub priv]> (pg_nodes d)) d).

(** [ON CONFLICT (node_id)]: the client id stays. *)
Definition upsert_credential (node : NodeRecord) (d : PgTables) : PgTables :=
  let u := id (identity node) in
  let client_id :=
    default (uuid_to_string u) (cr_client_id <$> pg_node_credentials d !! u) in
  set_pg_node_credentials
    (<[u := mkCredentialRow (bootstrap_token node) client_id]> (pg_node_credentials d)) d.

Definition insert_heartbeat (h : HeartbeatRecord) (d : PgTables) : option PgTables :=
  cpu ← numeric_5_2 (cpu_usage h);
  mem ← numeric_5_2 (mem_usage h);
  disk ← numeric_5_2 (disk_usage h);
  Some (set_pg_node_heartbeats
    (mkHeartbeatRow (hb_node_id h) cpu mem disk (jsonb (jobj [])) (hb_active_config_version h)
       (i32_or_max (hb_site_count h)) (hb_health_score h) (timestamptz (reported_at h))
     :: pg_node_heartbeats d) d).

Definition touch_node (h : HeartbeatRecord) (d : PgTables) : PgTables :=
  set_pg_nodes
    (alter (set_nd_online (Some (hb_pingora_version h)) (Some (hb_agent_version h))
              (Some (timestamptz (reported_at h)))) (hb_node_id h) (pg_nodes d)) d.

(** The actions of the foreign keys on [nodes]: operations keep at most a reference
    to an event that is still there. *)
Definition detach_event (events : gmap Uuid EventRow) (o : NodeOperationRecord) :
    NodeOperationRecord :=
  match event_id o with
  | Some e => if decide (present events e) then o else set_event_id None o
  | None => o
  end.

Definition delete_node_row (u : Uuid) (d : PgTables) : PgTables :=
  match pg_nodes d !! u with
  | None => d
  | Some _ =>
      let policies := filter (λ e, ¬ names_node u e.2) (pg_failover_policies d) in
      let events := filter (λ e, present policies (fe_policy_id e.2)
                      ∧ fe_source_node_id e.2 ≠ u ∧ fe_target_node_id e.2 ≠ u)
                      (pg_failover_events d) in
      let d := set_pg_nodes (delete u (pg_nodes d)) d in
      let d := set_pg_node_credentials (delete u (pg_node_credentials d)) d in
      let d := set_pg_node_heartbeats
        (filter (λ h, hr_node_id h ≠ u) (pg_node_heartbeats d)) d in
      let d := set_pg_site_node_bindings
        (filter (λ e, e.1.2 ≠ u) (pg_site_node_bindings d)) d in
      let d := set_pg_node_release_status
        (filter (λ e, e.1.2 ≠ u) (pg_node_release_status d)) d in
      let d := set_pg_failover_policies policies d in
      let d := set_pg_failover_events events d in
      set_pg_node_operations
        (detach_event events <$> filter (λ e, op_node_id e.2 ≠ u) (pg_node_operations d)) d
  end.

Definition site_row (site : SiteRecord) : SiteRow := {|
  si_site_code := site_code site;
  si_name := site_name site;
  si_domain := site_domain site;
  si_listen_port := site_listen_port site;
  si_protocol := protocol_name (site_protocol site);
  si_tls_enabled := site_tls_enabled site;
  si_status := site_status_name (site_status site);
  si_metadata := jsonb (jobj []);
|}.

Definition upsert_site (site : SiteRecord) (d : PgTables) : PgTables :=
  set_pg_sites (<[site_id site := site_row site]> (pg_sites d)) d.

Definition upsert_config (site : SiteRecord) (d : PgTables) : PgTables :=
  set_pg_site_configs
    (<[(site_id site, i32_or_max (site_version site)) :=
         mkConfigRow (jsonb (site_config site))
           (site_code site +:+ "-v" +:+ pretty (site_version site)) "system"]>
       (pg_site_configs d)) d.

Definition delete_bindings (site_id : Uuid) (d : PgTables) : PgTables :=
  set_pg_site_node_bindings (filter (λ e, e.1.1 ≠ site_id) (pg_site_node_bindings d)) d.

Definition binding_row (b : SiteBindingRecord) : BindingRow :=
  mkBindingRow "active" "manual" (binding_role b) (binding_priority b).

(** The actions of the foreign keys on [sites] (migration 0004 for the orders). *)
Definition detach_order_row (u : Uuid) (o : OrderRow) : OrderRow :=
  if decide (or_site_id o = Some u) then set_or_site_id None o else o.
Definition detach_site_event (u : Uuid) (e : EventRow) : EventRow :=
  if decide (fe_site_id e = Some u) then set_fe_site_id None e else e.

Definition delete_site_row (u : Uuid) (d : PgTables) : PgTables :=
  match pg_sites d !! u with
  | None => d
  | Some _ =>
      let d := set_pg_sites (delete u (pg_sites d)) d in
      let d := set_pg_site_configs (filter (λ e, e.1.1 ≠ u) (pg_site_configs d)) d in
      let d := delete_bindings u d in
      let d := set_pg_site_cert_bindings
        (filter (λ b, sb_site_id b ≠ u) (pg_site_cert_bindings d)) d in
      let d := set_pg_certificate_orders
        (detach_order_row u <$> pg_certificate_orders d) d in
      set_pg_failover_events (detach_site_event u <$> pg_failover_events d) d
  end.

Definition active_policy_of (site_id : Uuid) (p : PolicyRow) : Prop :=
  fp_scope_type p = "site" ∧ fp_scope_id p = site_id ∧ fp_status p = "active".
#[export] Instance active_policy_of_dec u p : Decision (active_policy_of u p).
Proof. unfold active_policy_of. apply _. Defined.

Definition retarget_policies (site_id primary standby : Uuid) (d : PgTables) : PgTables :=
  set_pg_failover_policies
    ((λ p, if decide (active_policy_of site_id p) then set_fp_targets primary standby p else p)
     <$> pg_failover_policies d) d.

Definition release_row (r : ReleaseRecord) (created_at : DateTime) : ReleaseRow := {|
  rl_release_code := uuid_to_string (release_id r);
  rl_scope_type := scope_type r;
  rl_scope_id := scope_id r;
  rl_release_type := release_type r;
  rl_release_version := release_version r;
  rl_manifest_json := jsonb (bundle_json (bundle r));
  rl_manifest_hash := manifest_config_hash (manifest (bundle r));
  rl_reason := Some (reason r);
  rl_status := release_status r;
  rl_created_by := "system";
  rl_created_at := created_at;
|}.

(** An upsert keeps [created_at] of a row that is there. *)
Definition upsert_release (r : ReleaseRecord) (d : PgTables) : PgTables :=
  let created_at := default (timestamptz (release_created_at r))
                      (rl_created_at <$> pg_config_releases d !! release_id r) in
  set_pg_config_releases
    (<[release_id r := release_row r created_at]> (pg_config_releases d)) d.

Definition node_release_row (version : string) (ack : NodeAckRecord) : NodeReleaseRow :=
  mkNodeReleaseRow version (current_version ack) (apply_status ack) (ack_message ack)
    (timestamptz <$> acked_at ack).

Definition upsert_node_release (r : ReleaseRecord) (n : Uuid) (d : PgTables) : PgTables :=
  set_pg_node_release_status
    (<[(release_id r, n) := node_release_row (release_version r)
         (default (mkAck "pending" None None None) (ack_status r !! n))]>
       (pg_node_release_status d)) d.

Definition update_ack_row (rid n : Uuid) (ack : NodeAckRecord) (d : PgTables) : PgTables :=
  set_pg_node_release_status
    (alter (λ r, node_release_row (nr_target_version r) ack) (rid, n)
       (pg_node_release_status d)) d.

Definition update_release_row_status (rid : Uuid) (status : string) (d : PgTables) : PgTables :=
  set_pg_config_releases (alter (set_rl_status status) rid (pg_config_releases d)) d.

Definition upsert_provider (p : DnsProviderRecord) (d : PgTables) : PgTables :=
  let created_at := default (timestamptz (provider_created_at p))
                      (provider_created_at <$> pg_dns_providers d !! provider_id p) in
  set_pg_dns_providers
    (<[provider_id p := mkDnsProvider (provider_id p) (provider_name p) (provider_type p)
         (api_endpoint p) (credential_encrypted p) (provider_status p) created_at]>
       (pg_dns_providers d)) d.

(** The action of the foreign keys of the orders on [dns_zones]. *)
Definition detach_zone (zones : gmap Uuid DnsZoneRecord) (o : OrderRow) : OrderRow :=
  if decide (present_opt zones (or_zone_id o)) then o else set_or_zone_id None o.

Definition set_zones_detaching (zones : gmap Uuid DnsZoneRecord) (d : PgTables) : PgTables :=
  set_pg_certificate_orders (detach_zone zones <$> pg_certificate_orders d)
    (set_pg_dns_zones zones d).

Definition delete_provider_row (u : Uuid) (d : PgTables) : PgTables :=
  match pg_dns_providers d !! u with
  | None => d
  | Some _ =>
      set_zones_detaching (filter (λ e, zone_provider_id e.2 ≠ u) (pg_dns_zones d))
        (set_pg_dns_providers (delete u (pg_dns_providers d)) d)
  end.

Definition delete_zone_row (u : Uuid) (d : PgTables) : PgTables :=
  match pg_dns_zones d !! u with
  | None => d
  | Some _ => set_zones_detaching (delete u (pg_dns_zones d)) d
  end.

(** [ON CONFLICT (provider_id, zone_name)]: the row of that zone, whatever its id;
    a new row whose id is taken is refused. *)
Definition upsert_zone (z : DnsZoneRecord) (d : PgTables) : option PgTables :=
  match find_where (λ e, zone_provider_id e.2 = zone_provider_id z ∧ zone_name e.2 = zone_name z)
          (entries (pg_dns_zones d)) with
  | Some (u, row) =>
      Some (set_pg_dns_zones
        (<[u := mkDnsZone (zone_id row) (zone_provider_id row) (zone_name row)
                  (external_zone_id z) (zone_status z) (zone_created_at row)]> (pg_dns_zones d)) d)
  | None =>
      if decide (pg_dns_zones d !! zone_id z = None)
      then Some (set_pg_dns_zones
        (<[zone_id z := mkDnsZone (zone_id z) (zone_provider_id z) (zone_name z)
             (external_zone_id z) (zone_status z) (timestamptz (zone_created_at z))]>
           (pg_dns_zones d)) d)
      else None
  end.

Definition upsert_certificate (c : CertificateRecord) (d : PgTables) : PgTables :=
  let created_at := default (timestamptz (certificate_created_at c))
                      (ce_created_at <$> pg_certificates d !! certificate_id c) in
  set_pg_certificates
    (<[certificate_id c := mkCertRow (cert_code c) (common_name c)
         (jsonb (VArray (VString <$> sans c))) (fingerprint_sha256 c) (certificate_status c)
         (timestamptz <$> certificate_not_after c) created_at]> (pg_certificates d)) d.

Definition upsert_order (o : CertificateOrderRecord) (d : PgTables) : PgTables :=
  let created_at := default (timestamptz (order_created_at o))
                      (or_created_at <$> pg_certificate_orders d !! order_id o) in
  set_pg_certificate_orders
    (<[order_id o := mkOrderRow (order_site_id o) (order_certificate_id o) (Some (order_zone_id o))
         (order_type o) (acme_provider o) (challenge_type o) (jsonb (challenge_payload o))
         (order_status o) (error_message o) created_at]> (pg_certificate_orders d)) d.

(** [ON CONFLICT (username)]. *)
Definition upsert_user (x : AdminUserRecord) (d : PgTables) : option PgTables :=
  match find_where (λ e, username e.2 = username x) (entries (pg_admin_users d)) with
  | Some (u, row) =>
      Some (set_pg_admin_users
        (<[u := mkAdminUser (user_id row) (username row) (display_name x) (password_hash x)
                  (user_status x) (timestamptz <$> last_login_at x) (user_created_at row)]>
           (pg_admin_users d)) d)
  | None =>
      if decide (pg_admin_users d !! user_id x = None)
      then Some (set_pg_admin_users
        (<[user_id x := mkAdminUser (user_id x) (username x) (display_name x) (password_hash x)
             (user_status x) (timestamptz <$> last_login_at x)
             (timestamptz (user_created_at x))]> (pg_admin_users d)) d)
      else None
  end.

(** [ON CONFLICT (session_token_hash)]: the id and the creation time stay. *)
Definition upsert_session (x : AdminSessionRecord) (d : PgTables) : PgTables :=
  let old := pg_admin_sessions d !! session_token_hash x in
  set_pg_admin_sessions
    (<[session_token_hash x :=
         mkAdminSession (default (session_id x) (session_id <$> old)) (session_user_id x)
           (session_token_hash x) (timestamptz (session_expires_at x))
           (default (timestamptz (session_created_at x)) (session_created_at <$> old))
           (timestamptz (session_last_seen_at x))]> (pg_admin_sessions d)) d.

Definition upsert_template (t : OperationTemplateRecord) (d : PgTables) : PgTables :=
  let created_at := default (timestamptz (template_created_at t))
                      (template_created_at <$> pg_operation_templates d !! template_id t) in
  set_pg_operation_templates
    (<[template_id t := mkTemplateRecord (template_id t) (template_name t) (operation_type t)
         (template_command t) (jsonb (template_allowed_params t))
         (i32_or_max (template_timeout_seconds t)) (run_as_user t) (approval_required t)
         created_at]> (pg_operation_templates d)) d.

(** The columns an upsert of an operation writes, and those it leaves. *)
Definition operation_row (o old : NodeOperationRecord) (created_at : DateTime) :
    NodeOperationRecord := {|
  operation_id := operation_id o;
  op_node_id := op_node_id old;
  op_template_id := op_template_id old;
  event_id := event_id old;
  input_params := jsonb (input_params o);
  exec_status := exec_status o;
  requested_by := requested_by o;
  approved_by := approved_by o;
  exit_code := exit_code o;
  stdout_log := stdout_log o;
  stderr_log := stderr_log o;
  started_at := timestamptz <$> started_at o;
  finished_at := timestamptz <$> finished_at o;
  op_created_at := created_at;
|}.

Definition upsert_operation (o : NodeOperationRecord) (d : PgTables) : PgTables :=
  let row := match pg_node_operations d !! operation_id o with
             | Some old => operation_row o old (op_created_at old)
             | None => operation_row o o (timestamptz (op_created_at o))
             end in
  set_pg_node_operations (<[operation_id o := row]> (pg_node_operations d)) d.

(** The columns [update_node_operation] writes. *)
Definition report_operation (o old : NodeOperationRecord) : NodeOperationRecord := {|
  operation_id := operation_id old;
  op_node_id := op_node_id old;
  op_template_id := op_template_id old;
  event_id := event_id old;
  input_params := input_params old;
  exec_status := exec_status o;
  requested_by := requested_by old;
  approved_by := approved_by o;
  exit_code := exit_code o;
  stdout_log := stdout_log o;
  stderr_log := stderr_log o;
  started_at := timestamptz <$> started_at o;
  finished_at := timestamptz <$> finished_at o;
  op_created_at := op_created_at old;
|}.

(** [SET exec_status = 'running', started_at = COALESCE(started_at, $2)]. *)
Definition start_operation (now : DateTime) (o : NodeOperationRecord) : NodeOperationRecord :=
  set_started_at (or_else (started_at o) (Some (timestamptz now))) (set_exec_status "running" o).
End Rows.

(** ** The methods of [HubRepository] *)

Abbreviation Pg N := (Io (Db PgTables N)).

Section Postgres.
Context {N : Type} `{EX : !Extern, PX : !PgExtern, CO : !Collation, DBE : !DbExtern}.

Definition save_node (node : NodeRecord) : Pg N unit :=
  transaction (
    do! try_execute (upsert_node node) in
    execute (upsert_credential node)).

Definition node (node_id : Uuid) : Pg N (option NodeRecord) := query (select_node node_id).
Definition node_id_by_code (node_code : string) : Pg N (option Uuid) :=
  query (select_node_id node_code).
Definition list_nodes : Pg N (list NodeRecord) := query select_nodes.

Definition node_delete_guard (node_id : Uuid) : Pg N NodeDeleteGuard :=
  let! codes := query (select_bound_site_codes node_id) in
  let! count := query (count_policies node_id) in
  ret (mkDeleteGuard codes count).

Definition delete_node (node_id : Uuid) : Pg N unit := execute (delete_node_row node_id).

Definition record_heartbeat (heartbeat : HeartbeatRecord) : Pg N unit :=
  transaction (
    do! try_execute (insert_heartbeat heartbeat) in
    execute (touch_node heartbeat)).

Fixpoint insert_bindings (site_id : Uuid) (bindings : list SiteBindingRecord) : Pg N unit :=
  match bindings with
  | [] => ret tt
  | b :: bindings' =>
      do! insert_row pg_site_node_bindings set_pg_site_node_bindings
            (site_id, binding_node_id b) (binding_row b) in
      insert_bindings site_id bindings'
  end.

Definition save_site (site : SiteRecord) : Pg N unit :=
  transaction (
    do! execute (upsert_site site) in
    do! execute (upsert_config site) in
    do! execute (delete_bindings (site_id site)) in
    insert_bindings (site_id site) (bindings site)).

Definition load_site_bindings (site_id : Uuid) : Pg N (list SiteBindingRecord) :=
  query (select_bindings site_id).

Definition site (site_id : Uuid) : Pg N (option SiteRecord) :=
  let! row := query (select_site site_id) in
  match row with
  | None => ret None
  | Some row =>
      let! bindings := load_site_bindings site_id in
      ret (Some (site_record row bindings))
  end.

Definition site_id_by_code (site_code : string) : Pg N (option Uuid) :=
  query (select_site_id site_code).

Fixpoint load_sites (rows : list SiteQueryRow) : Pg N (list SiteRecord) :=
  match rows with
  | [] => ret []
  | row :: rows' =>
      let! bindings := load_site_bindings row.1.1 in
      let! sites := load_sites rows' in
      ret (site_record row bindings :: sites)
  end.

Definition list_sites : Pg N (list SiteRecord) :=
  let! rows := query select_sites in load_sites rows.

Definition delete_site (site_id : Uuid) : Pg N unit := execute (delete_site_row site_id).

Definition update_active_failover_policy_targets (site_id primary_node_id standby_node_id : Uuid) :
    Pg N nat :=
  execute_returning (λ d, Some
    (length (filter (active_policy_of site_id) (values (pg_failover_policies d))),
     retarget_policies site_id primary_node_id standby_node_id d)).

Fixpoint save_node_releases (release : ReleaseRecord) (targets : list Uuid) : Pg N unit :=
  match targets with
  | [] => ret tt
  | n :: targets' =>
      do! execute (upsert_node_release release n) in
      save_node_releases release targets'
  end.

Definition save_release (release : ReleaseRecord) : Pg N unit :=
  transaction (
    do! execute (upsert_release release) in
    save_node_releases release (target_node_ids release)).

Definition load_release_acks (release_id : Uuid) : Pg N (gmap Uuid NodeAckRecord) :=
  query (select_acks release_id).

Definition load_release (entry : Uuid * ReleaseRow) : Pg N ReleaseRecord :=
  let! bundle := lift (bundle_from_value (rl_manifest_json entry.2)) in
  let! acks := load_release_acks entry.1 in
  ret (release_record entry bundle acks).

Definition load_optional_release (row : option (Uuid * ReleaseRow)) :
    Pg N (option ReleaseRecord) :=
  match row with
  | None => ret None
  | Some entry => let! r := load_release entry in ret (Some r)
  end.

Definition release (release_id : Uuid) : Pg N (option ReleaseRecord) :=
  let! row := query (select_release release_id) in load_optional_release row.

Definition release_by_version (version : string) : Pg N (option ReleaseRecord) :=
  let! row := query (select_release_by_version version) in load_optional_release row.

Fixpoint load_releases (rows : list (Uuid * ReleaseRow)) : Pg N (list ReleaseRecord) :=
  match rows with
  | [] => ret []
  | entry :: rows' =>
      let! r := load_release entry in
      let! rs := load_releases rows' in
      ret (r :: rs)
  end.

Definition list_releases : Pg N (list ReleaseRecord) :=
  let! rows := query select_releases in load_releases rows.

Definition latest_release_id_for_node (node_id : Uuid) : Pg N (option Uuid) :=
  query (select_latest_release node_id).

(** Three statements, not in a transaction. *)
Definition update_release_ack (release_id node_id : Uuid) (ack : NodeAckRecord) : Pg N unit :=
  do! execute (update_ack_row release_id node_id ack) in
  let! acks := load_release_acks release_id in
  execute (update_release_row_status release_id (aggregate_release_status acks)).

Definition save_dns_provider (provider : DnsProviderRecord) : Pg N unit :=
  execute (upsert_provider provider).
Definition delete_dns_provider (provider_id : Uuid) : Pg N unit :=
  execute (delete_provider_row provider_id).
Definition dns_provider (provider_id : Uuid) : Pg N (option DnsProviderRecord) :=
  query (λ d, pg_dns_providers d !! provider_id).
Definition dns_provider_by_name (name : string) : Pg N (option DnsProviderRecord) :=
  query (λ d, find_where (λ p, provider_name p = name) (values (pg_dns_providers d))).
Definition list_dns_providers : Pg N (list DnsProviderRecord) :=
  query (λ d, sort_by (cmp_rev (cmp_on provider_created_at Z.compare))
                (values (pg_dns_providers d))).

Definition save_dns_zone (zone : DnsZoneRecord) : Pg N unit := try_execute (upsert_zone zone).
Definition dns_zone (zone_id : Uuid) : Pg N (option DnsZoneRecord) :=
  query (λ d, pg_dns_zones d !! zone_id).
Definition dns_zone_by_provider_name (provider_id : Uuid) (name : string) :
    Pg N (option DnsZoneRecord) :=
  query (λ d, find_where (λ z, zone_provider_id z = provider_id ∧ zone_name z = name)
                (values (pg_dns_zones d))).
Definition list_dns_zones : Pg N (list DnsZoneRecord) :=
  query (λ d, sort_by (cmp_rev (cmp_on zone_created_at Z.compare)) (values (pg_dns_zones d))).
Definition delete_dns_zone (zone_id : Uuid) : Pg N unit := execute (delete_zone_row zone_id).

Definition save_certificate (certificate : CertificateRecord) : Pg N unit :=
  execute (upsert_certificate certificate).
Definition site_certificates (site_id : Uuid) : Pg N (list CertificateRef) :=
  query (select_site_certificates site_id).

Definition save_certificate_order (order : CertificateOrderRecord) : Pg N unit :=
  execute (upsert_order order).

Definition certificate_order (order_id : Uuid) : Pg N (option CertificateOrderRecord) :=
  let! row := query (select_order order_id) in
  match row with
  | None => ret None
  | Some r => let! o := lift r in ret (Some o)
  end.

Definition list_certificate_orders : Pg N (list CertificateOrderRecord) :=
  let! rows := query select_orders in lift rows.

Definition save_admin_user (user : AdminUserRecord) : Pg N unit := try_execute (upsert_user user).
Definition admin_user_by_username (name : string) : Pg N (option AdminUserRecord) :=
  query (λ d, find_where (λ u, username u = name) (values (pg_admin_users d))).
Definition touch_admin_user_login (user_id : Uuid) (last_login_at : DateTime) : Pg N unit :=
  execute (λ d, set_pg_admin_users
    (alter (set_last_login_at (Some (timestamptz last_login_at))) user_id (pg_admin_users d)) d).

Definition save_admin_session (session : AdminSessionRecord) : Pg N unit :=
  execute (upsert_session session).
Definition admin_session_by_token_hash (token_hash : string) : Pg N (option AdminSessionContext) :=
  query (select_session token_hash).
Definition touch_admin_session (token_hash : string) (last_seen_at : DateTime) : Pg N unit :=
  execute (λ d, set_pg_admin_sessions
    (alter (set_session_last_seen_at (timestamptz last_seen_at)) token_hash
       (pg_admin_sessions d)) d).
Definition delete_admin_session (token_hash : string) : Pg N unit :=
  execute (λ d, set_pg_admin_sessions (delete token_hash (pg_admin_sessions d)) d).

Definition delete_admin_sessions_for_user (user_id : Uuid) (exclude : option string) : Pg N unit :=
  match exclude with
  | Some token_hash =>
      execute (λ d, set_pg_admin_sessions
        (filter (λ e, ¬ (session_user_id e.2 = user_id ∧ e.1 ≠ token_hash))
           (pg_admin_sessions d)) d)
  | None =>
      execute (λ d, set_pg_admin_sessions
        (filter (λ e, session_user_id e.2 ≠ user_id) (pg_admin_sessions d)) d)
  end.

Definition save_operation_template (template : OperationTemplateRecord) : Pg N unit :=
  execute (upsert_template template).
Definition operation_template (template_id : Uuid) : Pg N (option OperationTemplateRecord) :=
  query (select_template template_id).
Definition operation_template_by_name (name : string) : Pg N (option OperationTemplateRecord) :=
  query (select_template_by_name name).
Definition list_operation_templates : Pg N (list OperationTemplateRecord) :=
  query select_templates.
(** The foreign key of the operations restricts the deletion. *)
Definition delete_operation_template (template_id : Uuid) : Pg N unit :=
  execute (λ d, set_pg_operation_templates
    (delete template_id (pg_operation_templates d)) d).

Definition save_node_operation (operation : NodeOperationRecord) : Pg N unit :=
  execute (upsert_operation operation).
Definition node_operation (operation_id : Uuid) : Pg N (option NodeOperationRecord) :=
  query (λ d, pg_node_operations d !! operation_id).
Definition list_node_operations (node_id : Uuid) : Pg N (list NodeOperationRecord) :=
  query (select_operations node_id).

Definition claim_next_node_operation (node_id : Uuid) : Pg N (option ClaimedNodeOperation) :=
  transaction (
    let! row := query (select_claimable node_id) in
    match row with
    | None => ret None
    | Some (o, t) =>
        let! now := with_env utc_now in
        do! execute (λ d, set_pg_node_operations
              (alter (start_operation now) (operation_id o) (pg_node_operations d)) d) in
        ret (Some (mkClaimed (set_started_at (Some now) (set_exec_status "running" o))
                     (template_record t)))
    end).

Definition update_node_operation (operation : NodeOperationRecord) : Pg N unit :=
  execute (λ d, set_pg_node_operations
    (alter (report_operation operation) (operation_id operation) (pg_node_operations d)) d).
End Postgres.
