(* ===== verification/PgAgree.v ===== *)
(** * The two repositories: agreement

    What the tables of [Postgres] keep of a record of the hub ([stored_node] and its
    siblings: times cut to microseconds, integers to their columns, documents as
    [JSONB] gives them back), the relation [agree] between the tables and the state
    of the in-memory repository ([Store]), and what the queries return, by lookup,
    whatever the order of the rows. *)

From stdpp Require Import prelude strings pretty gmap sorting.
From Stdlib Require Import Ascii.
From S2P Require Import Prelude RustStr Json Extern AppError Domain SiteConfig ConfigCompiler Records Store HubReleases Io Sql Postgres.

(** ** Columns *)

Lemma timestamptz_mono t t' : (t ≤ t')%Z → (timestamptz t ≤ timestamptz t')%Z.
Proof.
  intros H. unfold timestamptz.
  assert (Z.quot (t - pg_epoch) 1000 ≤ Z.quot (t' - pg_epoch) 1000)%Z by (apply Z.quot_le_mono; lia).
  lia.
Qed.

Lemma timestamptz_idem t : timestamptz (timestamptz t) = timestamptz t.
Proof.
  unfold timestamptz. f_equal. f_equal.
  replace (pg_epoch + Z.quot (t - pg_epoch) 1000 * 1000 - pg_epoch)%Z
    with (Z.quot (t - pg_epoch) 1000 * 1000)%Z by lia.
  by rewrite Z.quot_mul.
Qed.

Lemma i32_or_max_mono x y : (0 ≤ x ≤ y)%Z → (i32_or_max x ≤ i32_or_max y)%Z.
Proof.
  unfold i32_or_max, try_from, i32_min, i32_max. intros. repeat case_decide; simpl; lia.
Qed.

Lemma i32_or_max_pos x : (1 ≤ x)%Z → (1 ≤ i32_or_max x)%Z.
Proof. unfold i32_or_max, try_from, i32_max. intros. case_decide; simpl; lia. Qed.

(** ** Stored records *)

Section Stored.
Context `{EX : !Extern, PX : !PgExtern}.

Definition stored_runtime (r : NodeRuntimeState) : NodeRuntimeState := {|
  active_config_version := active_config_version r;
  last_seen_at := timestamptz <$> last_seen_at r;
  site_count := Z.max (i32_or_max (site_count r)) 0;
  health_score := clamp 0 100 (health_score r);
|}.

Definition stored_node (n : NodeRecord) : NodeRecord := {|
  identity := identity n;
  runtime := stored_runtime (runtime n);
  labels := jsonb (labels n);
  hostname := hostname n;
  public_ip := public_ip n ≫= inet_text;
  private_ip := private_ip n ≫= inet_text;
  bootstrap_token := bootstrap_token n;
  pingora_version := pingora_version n;
  agent_version := agent_version n;
|}.

(** All but the bindings, whose order the table does not keep. *)
Definition stored_site (bs : list SiteBindingRecord) (s : SiteRecord) : SiteRecord := {|
  site_id := site_id s;
  site_code := site_code s;
  site_name := site_name s;
  site_domain := site_domain s;
  site_listen_port := clamp 0 u16_max (site_listen_port s);
  site_protocol := site_protocol s;
  site_tls_enabled := site_tls_enabled s;
  site_status := site_status s;
  site_version := Z.max (i32_or_max (site_version s)) 1;
  site_config := jsonb (site_config s);
  bindings := bs;
|}.

Definition stored_ack (a : NodeAckRecord) : NodeAckRecord :=
  mkAck (apply_status a) (current_version a) (ack_message a) (timestamptz <$> acked_at a).

(** All but the targets, which come as the keys of a [HashMap]. *)
Definition stored_release (targets : list Uuid) (r : ReleaseRecord) : ReleaseRecord :=
  mkReleaseRecord (release_id r) (scope_type r) (scope_id r) (release_type r) (release_version r)
    (reason r) (release_status r) (bundle r) targets (stored_ack <$> ack_status r)
    (timestamptz (release_created_at r)).

Definition stored_provider (p : DnsProviderRecord) : DnsProviderRecord :=
  mkDnsProvider (provider_id p) (provider_name p) (provider_type p) (api_endpoint p)
    (credential_encrypted p) (provider_status p) (timestamptz (provider_created_at p)).

Definition stored_zone (z : DnsZoneRecord) : DnsZoneRecord :=
  mkDnsZone (zone_id z) (zone_provider_id z) (zone_name z) (external_zone_id z) (zone_status z)
    (timestamptz (zone_created_at z)).

(** All but the expiry, which is the certificate's. *)
Definition stored_order (expires : option DateTime) (o : CertificateOrderRecord) :
    CertificateOrderRecord :=
  mkOrder (order_id o) (order_site_id o) (order_certificate_id o) (order_zone_id o) (order_type o)
    (acme_provider o) (challenge_type o) (jsonb (challenge_payload o)) (order_status o)
    (error_message o) expires (timestamptz (order_created_at o)).

Definition stored_user (u : AdminUserRecord) : AdminUserRecord :=
  mkAdminUser (user_id u) (username u) (display_name u) (password_hash u) (user_status u)
    (timestamptz <$> last_login_at u) (timestamptz (user_created_at u)).

Definition stored_session (s : AdminSessionRecord) : AdminSessionRecord :=
  mkAdminSession (session_id s) (session_user_id s) (session_token_hash s)
    (timestamptz (session_expires_at s)) (timestamptz (session_created_at s))
    (timestamptz (session_last_seen_at s)).

Definition stored_template (t : OperationTemplateRecord) : OperationTemplateRecord :=
  mkTemplateRecord (template_id t) (template_name t) (operation_type t) (template_command t)
    (jsonb (template_allowed_params t)) (clamp 0 i32_max (i32_or_max (template_timeout_seconds t)))
    (run_as_user t) (approval_required t) (timestamptz (template_created_at t)).

Definition stored_operation (o : NodeOperationRecord) : NodeOperationRecord :=
  mkOperation (operation_id o) (op_node_id o) (op_template_id o) (event_id o)
    (jsonb (input_params o)) (exec_status o) (requested_by o) (approved_by o) (exit_code o)
    (stdout_log o) (stderr_log o) (timestamptz <$> started_at o) (timestamptz <$> finished_at o)
    (timestamptz (op_created_at o)).

Definition site_agrees (r s : SiteRecord) : Prop :=
  r = stored_site (bindings r) s ∧ bindings r ≡ₚ bindings s.

Definition release_agrees (x : Result ReleaseRecord string) (s : ReleaseRecord) : Prop :=
  ∃ targets, x = Ok (stored_release targets s) ∧ ∀ n, n ∈ targets ↔ n ∈ target_node_ids s.

Definition order_agrees (r : Result CertificateOrderRecord string) (o : CertificateOrderRecord) :
    Prop :=
  ∃ expires, r = Ok (stored_order expires o).

(** ** Sites and releases as the methods assemble them *)

Definition read_site (u : Uuid) (d : PgTables) : option SiteRecord :=
  (λ row, site_record row (select_bindings u d)) <$> select_site u d.

Definition read_release (u : Uuid) (d : PgTables) : option (Result ReleaseRecord string) :=
  (λ entry,
     let? b := bundle_from_value (rl_manifest_json entry.2) in
     Ok (release_record entry b (select_acks u d))) <$> select_release u d.

(** The operations the tables have: those of nodes that are there. *)
Definition live_operation (m : MemoryState) (u : Uuid) : option NodeOperationRecord :=
  o ← node_operations m !! u;
  if decide (is_Some (nodes m !! op_node_id o)) then Some o else None.

(** ** Agreement *)

Record agree (d : PgTables) (m : MemoryState) : Prop := {
  ag_nodes : ∀ u, select_node u d = stored_node <$> nodes m !! u;
  ag_sites : ∀ u, option_Forall2 site_agrees (read_site u d) (sites m !! u);
  ag_releases : ∀ u, option_Forall2 release_agrees (read_release u d) (releases m !! u);
  ag_latest : ∀ n, select_latest_release n d = latest_release_by_node m !! n;
  ag_providers : ∀ u, pg_dns_providers d !! u = stored_provider <$> dns_providers m !! u;
  ag_zones : ∀ u, pg_dns_zones d !! u = stored_zone <$> dns_zones m !! u;
  ag_orders : ∀ u, option_Forall2 order_agrees (select_order u d) (certificate_orders m !! u);
  ag_users : ∀ u, pg_admin_users d !! u = stored_user <$> admin_users m !! u;
  ag_sessions : ∀ h, pg_admin_sessions d !! h = stored_session <$> admin_sessions m !! h;
  ag_templates : ∀ u, select_template u d = stored_template <$> operation_templates m !! u;
  ag_operations : ∀ u, pg_node_operations d !! u = stored_operation <$> live_operation m u;
}.

(** Two heartbeats of a node, and two releases for one node, have different times,
    so the latest ones do not depend on the order of the rows. *)
Record times_distinct (d : PgTables) : Prop := {
  heartbeat_times : ∀ h h', h ∈ pg_node_heartbeats d → h' ∈ pg_node_heartbeats d →
    hr_node_id h = hr_node_id h' → hr_reported_at h = hr_reported_at h' → h = h';
  release_times : ∀ n r r' x x',
    present (pg_node_release_status d) (r, n) → present (pg_node_release_status d) (r', n) →
    pg_config_releases d !! r = Some x → pg_config_releases d !! r' = Some x' →
    rl_created_at x = rl_created_at x' → r = r';
}.
End Stored.

(** ** The first row under an [ORDER BY] *)

Section HeadSort.
Context {A : Type}.
Implicit Types (f : A → Z) (l : list A).

Lemma head_elem l x : head l = Some x → x ∈ l.
Proof. destruct l; [done|]. intros [= ->]. by left. Qed.

Lemma head_sorted_le (cmp : A → A → comparison) `{!CmpLaws cmp} l x y :
  head (sort_by cmp l) = Some x → y ∈ l → cmp x y ≠ Gt.
Proof.
  intros Hx Hy. rewrite <-(elem_of_sort_by cmp) in Hy.
  pose proof (sort_by_sorted cmp l) as Hs. destruct (sort_by cmp l) as [|z k]; [done|].
  simplify_eq/=. apply elem_of_cons in Hy as [->|Hy]; [by rewrite cmp_refl|].
  inversion_clear Hs as [|? ? ? Hall]. rewrite Forall_forall in Hall. auto.
Qed.

Lemma head_sort_None (cmp : A → A → comparison) l : head (sort_by cmp l) = None ↔ l = [].
Proof.
  pose proof (sort_by_length cmp l). destruct (sort_by cmp l), l; simpl in *; naive_solver.
Qed.

(** [ORDER BY f DESC LIMIT 1] and [ORDER BY f LIMIT 1] where [f] tells rows apart. *)
Lemma head_sort_desc f l x :
  (∀ y z, y ∈ l → z ∈ l → f y = f z → y = z) →
  head (sort_by (cmp_rev (cmp_on f Z.compare)) l) = Some x ↔
  x ∈ l ∧ ∀ y, y ∈ l → (f y ≤ f x)%Z.
Proof.
  intros Hf. assert (∀ x, head (sort_by (cmp_rev (cmp_on f Z.compare)) l) = Some x →
    x ∈ l ∧ ∀ y, y ∈ l → (f y ≤ f x)%Z) as Hmax.
  { intros z Hz. split.
    - eapply elem_of_sort_by. by eapply head_elem.
    - intros y Hy. exact (head_sorted_le _ l z y Hz Hy). }
  split; [apply Hmax|]. intros [Hx Hle].
  destruct (head _) as [z|] eqn:Hz.
  - destruct (Hmax _ eq_refl) as [Hzl Hzle]. f_equal. apply Hf; [done..|].
    specialize (Hle z Hzl). specialize (Hzle x Hx). lia.
  - apply head_sort_None in Hz as ->. by apply elem_of_nil in Hx.
Qed.

Lemma head_sort_asc_min f l x :
  head (sort_by (cmp_on f Z.compare) l) = Some x → x ∈ l ∧ ∀ y, y ∈ l → (f x ≤ f y)%Z.
Proof.
  intros Hx. split.
  - eapply elem_of_sort_by. by eapply head_elem.
  - intros y Hy. exact (head_sorted_le _ l x y Hx Hy).
Qed.
End HeadSort.

(** ** Rows against records *)

Section Entries.
Context `{EX : !Extern, EL : !ExternLaws, Countable K}.

Lemma map_to_list_agree {R A V} (P : A → V → Prop) (f : K * R → A) (t : gmap K R) (m : gmap K V) :
  (∀ k, option_Forall2 P ((λ r, f (k, r)) <$> t !! k) (m !! k)) →
  ∃ l, f <$> map_to_list t ≡ₚ l ∧ Forall2 P l (map_to_list m).*2.
Proof.
  revert m. induction t as [|k r t Hk IH] using map_ind; intros m Hm.
  - assert (m = ∅) as ->.
    { apply map_eq. intros k. specialize (Hm k). rewrite lookup_empty in *. by inversion Hm. }
    exists []. rewrite !map_to_list_empty. split; [done|constructor].
  - pose proof (Hm k) as Hmk. rewrite lookup_insert_eq in Hmk.
    destruct (m !! k) as [v|] eqn:Hv; inversion Hmk as [? ? HP|]; subst.
    destruct (IH (delete k m)) as (l & Hl & HP2).
    { intros j. specialize (Hm j). destruct (decide (j = k)) as [->|].
      - rewrite Hk, lookup_delete_eq. constructor.
      - by rewrite lookup_insert_ne in Hm; [rewrite lookup_delete_ne|]. }
    pose proof (map_to_list_insert (delete k m) k v (lookup_delete_eq _ _)) as Hp.
    rewrite insert_delete_id in Hp by done. apply (fmap_Permutation snd) in Hp.
    assert (Forall2 P (f (k, r) :: l) ((k, v) :: map_to_list (delete k m)).*2) as HP3
      by (by constructor).
    apply Forall2_flip in HP3.
    destruct (Permutation_Forall2 (symmetry Hp) HP3) as (l' & Hl' & HP').
    exists l'. split; [|by apply Forall2_flip].
    rewrite <-Hl'. rewrite map_to_list_insert by done. simpl. by rewrite Hl.
Qed.
End Entries.

Section Listed.
Context `{EX : !Extern, EL : !ExternLaws, Countable K}.

Lemma entries_agree {R A V} (P : A → V → Prop) (f : K * R → A) (t : gmap K R) (m : gmap K V) :
  (∀ k, option_Forall2 P ((λ r, f (k, r)) <$> t !! k) (m !! k)) →
  ∃ l, f <$> entries t ≡ₚ l ∧ Forall2 P l (values m).
Proof.
  intros Hm. destruct (map_to_list_agree P f t m Hm) as (l & Hl & HP).
  apply Forall2_flip in HP. unfold values.
  destruct (Permutation_Forall2 (symmetry (hash_iter_perm _ (map_to_list m).*2)) HP)
    as (l' & Hl' & HP').
  exists l'. split; [|by apply Forall2_flip]. unfold entries. by rewrite hash_iter_perm, <-Hl', Hl.
Qed.

(** The same where the rows determine the records. *)
Lemma entries_agree_eq {R A V} (f : K * R → A) (g : V → A) (t : gmap K R) (m : gmap K V) :
  (∀ k, (λ r, f (k, r)) <$> t !! k = g <$> m !! k) → f <$> entries t ≡ₚ g <$> values m.
Proof.
  intros Hm. destruct (entries_agree (λ a v, a = g v) f t m) as (l & -> & HP).
  - intros k. rewrite Hm. destruct (m !! k); by constructor.
  - clear -HP. induction HP; simpl; [done|]. subst. by f_equiv.
Qed.

Lemma values_agree {R V} (g : V → R) (t : gmap K R) (m : gmap K V) :
  (∀ k, t !! k = g <$> m !! k) → values t ≡ₚ g <$> values m.
Proof.
  intros Hm. rewrite <-(entries_agree_eq snd g t m).
  - unfold values, entries. by rewrite !hash_iter_perm.
  - intros k. rewrite <-Hm. by destruct (t !! k).
Qed.

(** A query by key sees only the rows of those keys. *)
Lemma filter_entries_perm {R} (Q : K * R → Prop) `{!∀ e, Decision (Q e)} (t t' : gmap K R) :
  (∀ k r, Q (k, r) → t !! k = t' !! k) → filter Q (entries t) ≡ₚ filter Q (entries t').
Proof.
  intros Ht. apply NoDup_Permutation; [apply NoDup_filter, NoDup_entries..|].
  intros [k r]. rewrite !list_elem_of_filter, !elem_of_entries. naive_solver congruence.
Qed.

Lemma entries_key_inj {R} (t : gmap K R) e e' :
  e ∈ entries t → e' ∈ entries t → e.1 = e'.1 → e = e'.
Proof.
  destruct e as [k r], e' as [k' r']. rewrite !elem_of_entries. simpl. intros. by simplify_eq.
Qed.

(** [SELECT ... WHERE name = $1] on a unique column. *)
Lemma find_entries_unique {R} (Q : K * R → Prop) `{!∀ e, Decision (Q e)} (t : gmap K R) k r :
  (∀ k' r', t !! k' = Some r' → Q (k', r') → k' = k) →
  find_where Q (entries t) = Some (k, r) ↔ t !! k = Some r ∧ Q (k, r).
Proof.
  intros Hu. split.
  - intros [Hin HP]%find_where_Some. by apply elem_of_entries in Hin.
  - intros [Hk HP]. apply find_where_unique; [by apply elem_of_entries|done|].
    intros [k' r'] Hin HP'. apply elem_of_entries in Hin.
    pose proof (Hu _ _ Hin HP'). by simplify_eq.
Qed.
End Listed.

(** ** What the queries return *)

Section QueryFacts.
Context `{EX : !Extern, EL : !ExternLaws, PX : !PgExtern, CO : !Collation}.
Implicit Types d : PgTables.

Lemma lookup_select_acks r d n :
  select_acks r d !! n = ack_record <$> pg_node_release_status d !! (r, n).
Proof.
  unfold select_acks. set (l := filter _ _).
  assert (NoDup ((λ e, (e.1.2, ack_record e.2)) <$> l).*1) as Hnd.
  { rewrite <-list_fmap_compose. apply NoDup_fmap_2_strong; [|apply NoDup_filter, NoDup_entries].
    intros [[r1 n1] x1] [[r2 n2] x2] [H1 He1]%list_elem_of_filter [H2 He2]%list_elem_of_filter.
    simpl in *. intros ->. subst. by apply (entries_key_inj (pg_node_release_status d)). }
  apply option_eq. intros a. rewrite <-elem_of_list_to_map by done.
  rewrite list_elem_of_fmap, fmap_Some. split.
  - intros ([[r' n'] x] & [= -> ->] & [Hr Hin]%list_elem_of_filter). simpl in *. subst.
    apply elem_of_entries in Hin. eauto.
  - intros (x & Hx & ->). exists ((r, n), x). split; [done|].
    apply list_elem_of_filter. by rewrite elem_of_entries.
Qed.

Lemma select_acks_ext r d d' :
  (∀ n, pg_node_release_status d !! (r, n) = pg_node_release_status d' !! (r, n)) →
  select_acks r d = select_acks r d'.
Proof. intros H. apply map_eq. intros n. by rewrite !lookup_select_acks, H. Qed.

Lemma select_bindings_perm u d d' :
  (∀ n, pg_site_node_bindings d !! (u, n) = pg_site_node_bindings d' !! (u, n)) →
  select_bindings u d ≡ₚ select_bindings u d'.
Proof.
  intros H. unfold select_bindings. rewrite !sort_by_perm. f_equiv.
  apply filter_entries_perm. intros [s n] r Hs. simpl in Hs. subst. apply H.
Qed.

Lemma elem_of_pg_bindings u d b :
  b ∈ select_bindings u d ↔
  ∃ x, pg_site_node_bindings d !! (u, binding_node_id b) = Some x
       ∧ binding_role b = bn_binding_role x ∧ binding_priority b = bn_priority x.
Proof.
  unfold select_bindings. rewrite list_elem_of_fmap. setoid_rewrite elem_of_sort_by.
  setoid_rewrite list_elem_of_filter. destruct b as [n role prio]. simpl. split.
  - intros ([[s n'] x] & [= -> -> ->] & Hs & Hin). simpl in *. subst.
    apply elem_of_entries in Hin. eauto.
  - intros (x & Hx & -> & ->). exists ((u, n), x). by rewrite elem_of_entries.
Qed.

Lemma NoDup_select_bindings u d : NoDup (binding_node_id <$> select_bindings u d).
Proof.
  unfold select_bindings. rewrite <-list_fmap_compose. set (l := sort_by _ _).
  assert (∀ e, e ∈ l → e.1.1 = u ∧ e ∈ entries (pg_site_node_bindings d)) as Hl.
  { intros e. unfold l. by rewrite elem_of_sort_by, list_elem_of_filter. }
  apply NoDup_fmap_2_strong.
  - intros [[s1 n1] x1] [[s2 n2] x2] [? H1]%Hl [? H2]%Hl. simpl in *. intros ->. subst.
    by apply (entries_key_inj (pg_site_node_bindings d)).
  - unfold l. rewrite sort_by_perm. apply NoDup_filter, NoDup_entries.
Qed.

Lemma latest_config_Some u d v c :
  latest_config u d = Some (v, c) ↔
  (∃ x, pg_site_configs d !! (u, v) = Some x ∧ c = cf_config_json x)
  ∧ ∀ v', present (pg_site_configs d) (u, v') → (v' ≤ v)%Z.
Proof.
  unfold latest_config. set (l := filter _ _).
  assert (∀ e, e ∈ l ↔ e.1.1 = u ∧ pg_site_configs d !! e.1 = Some e.2) as Hl.
  { intros [k x]. unfold l. by rewrite list_elem_of_filter, elem_of_entries. }
  assert (∀ y z, y ∈ l → z ∈ l → y.1.2 = z.1.2 → y = z) as Hinj.
  { intros [[? ?] ?] [[? ?] ?] [? H1]%Hl [? H2]%Hl ?. simpl in *. by simplify_eq. }
  rewrite fmap_Some. setoid_rewrite (head_sort_desc (λ e, e.1.2) l _ Hinj). split.
  - intros ([[u' v'] x] & [Hin Hmax] & [= -> ->]). apply Hl in Hin as [Hu Hx]. simpl in *. subst.
    split; [eauto|]. intros v1 [x1 Hx1].
    assert (((u, v1), x1) ∈ l) as Hin1 by (by apply Hl). by specialize (Hmax _ Hin1).
  - intros [(x & Hx & ->) Hmax]. exists ((u, v), x). split; [|done]. split; [by apply Hl|].
    intros [[u1 v1] x1] [Hu1 Hx1]%Hl. simpl in *. subst. apply Hmax. by exists x1.
Qed.

Lemma latest_config_ext u d d' :
  (∀ v, pg_site_configs d !! (u, v) = pg_site_configs d' !! (u, v)) →
  latest_config u d = latest_config u d'.
Proof.
  intros H. apply option_eq. intros [v c]. rewrite !latest_config_Some. unfold present.
  by setoid_rewrite H.
Qed.

Lemma latest_heartbeat_Some d u h :
  times_distinct d →
  latest_heartbeat d u = Some h ↔
  h ∈ pg_node_heartbeats d ∧ hr_node_id h = u
  ∧ ∀ h', h' ∈ pg_node_heartbeats d → hr_node_id h' = u → (hr_reported_at h' ≤ hr_reported_at h)%Z.
Proof.
  intros [Hd _]. unfold latest_heartbeat.
  assert (∀ h, h ∈ filter (λ h, hr_node_id h = u) (hash_iter (pg_node_heartbeats d)) ↔
    hr_node_id h = u ∧ h ∈ pg_node_heartbeats d) as Hl.
  { intros h'. by rewrite list_elem_of_filter, elem_of_hash_iter. }
  rewrite head_sort_desc; [setoid_rewrite Hl; naive_solver|].
  intros y z [? ?]%Hl [? ?]%Hl. apply Hd; [done..|congruence].
Qed.

Lemma select_latest_release_Some d n r :
  times_distinct d →
  select_latest_release n d = Some r ↔
  ∃ x, present (pg_node_release_status d) (r, n) ∧ pg_config_releases d !! r = Some x
  ∧ ∀ r' x', present (pg_node_release_status d) (r', n) → pg_config_releases d !! r' = Some x' →
    (rl_created_at x' ≤ rl_created_at x)%Z.
Proof.
  intros [_ Hd]. unfold select_latest_release. set (l := filter_map _ _).
  assert (∀ p, p ∈ l ↔ ∃ x, present (pg_node_release_status d) (p.1, n)
    ∧ pg_config_releases d !! p.1 = Some x ∧ p.2 = rl_created_at x) as Hl.
  { intros [r1 c1]. unfold l, filter_map. rewrite list_elem_of_omap. unfold present. split.
    - intros ([[r2 n2] y] & [Hn Hin]%list_elem_of_filter & Hx). simpl in *. subst.
      apply elem_of_entries in Hin. apply fmap_Some in Hx as (x & Hx & [= -> ->]). eauto.
    - intros (x & [y Hy] & Hx & Hc). simpl in *. subst. exists ((r1, n), y). rewrite list_elem_of_filter, elem_of_entries.
      simpl. by rewrite Hx. }
  rewrite fmap_Some. setoid_rewrite head_sort_desc; [split|].
  - intros ([r1 c1] & [Hin Hmax] & ->). apply Hl in Hin as (x & Hp & Hx & Hc). simpl in *. subst. exists x.
    split_and!; [done..|]. intros r' x' Hp' Hx'.
    assert ((r', rl_created_at x') ∈ l) as Hin' by (apply Hl; eauto). by specialize (Hmax _ Hin').
  - intros (x & Hp & Hx & Hmax). exists (r, rl_created_at x). split; [|done].
    split; [apply Hl; eauto|]. intros [r1 c1] (x1 & ? & ? & Hc)%Hl. simpl in *. subst. eauto.
  - intros [r1 c1] [r2 c2] (x1 & ? & ? & H1)%Hl (x2 & ? & ? & H2)%Hl. simpl in *. intros ->. subst.
    f_equal. by eapply Hd.
Qed.
End QueryFacts.
