(* ===== verification/PgWrites.v ===== *)
(** * The two repositories: writes

    Every method of [HubRepository] that writes, on PostgreSQL, refines the in-memory
    one: if the tables agree with the state and the call fits ([fits], what the
    service establishes before it calls), a successful call leaves tables that agree
    with the new state, and a failed one leaves the tables as they were. *)

From stdpp Require Import prelude strings pretty gmap sorting.
From Stdlib Require Import Ascii.
From S2P Require Import Prelude RustStr Json Extern AppError Domain SiteConfig ConfigCompiler Records Store HubReleases Io Sql Postgres PgAgree.

(** ** Calls *)

Inductive Write : Type → Type :=
  | SaveNode (n : NodeRecord) : Write unit
  | DeleteNode (u : Uuid) : Write unit
  | RecordHeartbeat (h : HeartbeatRecord) : Write unit
  | SaveSite (s : SiteRecord) : Write unit
  | DeleteSite (u : Uuid) : Write unit
  | RetargetPolicies (site primary standby : Uuid) : Write nat
  | SaveRelease (r : ReleaseRecord) : Write unit
  | AckRelease (r n : Uuid) (a : NodeAckRecord) : Write unit
  | SaveProvider (p : DnsProviderRecord) : Write unit
  | DeleteProvider (u : Uuid) : Write unit
  | SaveZone (z : DnsZoneRecord) : Write unit
  | DeleteZone (u : Uuid) : Write unit
  | SaveCertificate (c : CertificateRecord) : Write unit
  | SaveOrder (o : CertificateOrderRecord) : Write unit
  | SaveUser (u : AdminUserRecord) : Write unit
  | TouchUser (u : Uuid) (t : DateTime) : Write unit
  | SaveSession (s : AdminSessionRecord) : Write unit
  | TouchSession (h : string) (t : DateTime) : Write unit
  | DeleteSession (h : string) : Write unit
  | DeleteSessions (u : Uuid) (exclude : option string) : Write unit
  | SaveTemplate (t : OperationTemplateRecord) : Write unit
  | DeleteTemplate (u : Uuid) : Write unit
  | SaveOperation (o : NodeOperationRecord) : Write unit
  | ClaimNext (n : Uuid) : Write (option ClaimedNodeOperation)
  | UpdateOperation (o : NodeOperationRecord) : Write unit.

Section Calls.
Context {N : Type} `{EX : !Extern, PX : !PgExtern, CO : !Collation, DBE : !DbExtern}.

Definition pg_write {A} (w : Write A) : Pg N A :=
  match w with
  | SaveNode n => Postgres.save_node n
  | DeleteNode u => Postgres.delete_node u
  | RecordHeartbeat h => Postgres.record_heartbeat h
  | SaveSite s => Postgres.save_site s
  | DeleteSite u => Postgres.delete_site u
  | RetargetPolicies u p q => Postgres.update_active_failover_policy_targets u p q
  | SaveRelease r => Postgres.save_release r
  | AckRelease r n a => Postgres.update_release_ack r n a
  | SaveProvider p => Postgres.save_dns_provider p
  | DeleteProvider u => Postgres.delete_dns_provider u
  | SaveZone z => Postgres.save_dns_zone z
  | DeleteZone u => Postgres.delete_dns_zone u
  | SaveCertificate c => Postgres.save_certificate c
  | SaveOrder o => Postgres.save_certificate_order o
  | SaveUser u => Postgres.save_admin_user u
  | TouchUser u t => Postgres.touch_admin_user_login u t
  | SaveSession s => Postgres.save_admin_session s
  | TouchSession h t => Postgres.touch_admin_session h t
  | DeleteSession h => Postgres.delete_admin_session h
  | DeleteSessions u e => Postgres.delete_admin_sessions_for_user u e
  | SaveTemplate t => Postgres.save_operation_template t
  | DeleteTemplate u => Postgres.delete_operation_template u
  | SaveOperation o => Postgres.save_node_operation o
  | ClaimNext n => Postgres.claim_next_node_operation n
  | UpdateOperation o => Postgres.update_node_operation o
  end.

(** The same call in memory, at the time the call reads from the clock. *)
Definition mem_write {A} (w : Write A) (now : DateTime) (m : MemoryState) : A * MemoryState :=
  match w with
  | SaveNode n => (tt, Store.save_node n m)
  | DeleteNode u => (tt, Store.delete_node u m)
  | RecordHeartbeat h => (tt, Store.record_heartbeat h m)
  | SaveSite s => (tt, Store.save_site s m)
  | DeleteSite u => (tt, Store.delete_site u m)
  | RetargetPolicies u p q =>
      (Z.to_nat (Store.update_active_failover_policy_targets u p q m), m)
  | SaveRelease r => (tt, Store.save_release r m)
  | AckRelease r n a => (tt, Store.update_release_ack r n a m)
  | SaveProvider p => (tt, Store.save_dns_provider p m)
  | DeleteProvider u => (tt, Store.delete_dns_provider u m)
  | SaveZone z => (tt, Store.save_dns_zone z m)
  | DeleteZone u => (tt, Store.delete_dns_zone u m)
  | SaveCertificate c => (tt, Store.save_certificate c m)
  | SaveOrder o => (tt, Store.save_certificate_order o m)
  | SaveUser u => (tt, Store.save_admin_user u m)
  | TouchUser u t => (tt, Store.touch_admin_user_login u t m)
  | SaveSession s => (tt, Store.save_admin_session s m)
  | TouchSession h t => (tt, Store.touch_admin_session h t m)
  | DeleteSession h => (tt, Store.delete_admin_session h m)
  | DeleteSessions u e => (tt, Store.delete_admin_sessions_for_user u e m)
  | SaveTemplate t => (tt, Store.save_operation_template t m)
  | DeleteTemplate u => (tt, Store.delete_operation_template u m)
  | SaveOperation o => (tt, Store.save_node_operation o m)
  | ClaimNext n => Store.claim_next_node_operation n now m
  | UpdateOperation o => (tt, Store.update_node_operation o m)
  end.

(** ** Calls that fit

    Beside the conditions of [repo_step]: columns an upsert leaves are not changed,
    and deletions leave no reference behind. *)

(** The runtime figures are those of the last heartbeat: [save_node] does not store
    them. *)
Definition runtime_reported (n : NodeRecord) (d : PgTables) : Prop :=
  let hb := latest_heartbeat d (id (identity n)) in
  active_config_version (runtime n) = (hb ≫= hr_active_config_version)
  ∧ Z.max (i32_or_max (site_count (runtime n))) 0 = Z.max (default 0%Z (hr_site_count <$> hb)) 0
  ∧ clamp 0 100 (health_score (runtime n)) = clamp 0 100 (default 100%Z (hr_health_score <$> hb)).

(** The columns of an operation that [save_node_operation] and
    [update_node_operation] leave. *)
Definition same_request (o o' : NodeOperationRecord) : Prop :=
  op_node_id o = op_node_id o' ∧ op_template_id o = op_template_id o' ∧ event_id o = event_id o'
  ∧ timestamptz (op_created_at o) = timestamptz (op_created_at o').

Definition fits {A} (w : Write A) (d : PgTables) (m : MemoryState) : Prop :=
  match w with
  | SaveNode n =>
      saveable (nodes m) (node_ids_by_code m) n ∧ runtime_reported n d
      ∧ (nodes m !! id (identity n) = None →
         map_Forall (λ _ o, op_node_id o ≠ id (identity n)) (node_operations m))
  | DeleteNode u =>
      map_Forall (λ _ r, is_Some (ack_status r !! u) →
        release_status r = aggregate_release_status (delete u (ack_status r))) (releases m)
      ∧ map_Forall (λ _ o, event_id o = None) (pg_node_operations d)
  | RecordHeartbeat h =>
      Forall (λ r, hr_node_id r = hb_node_id h →
        (hr_reported_at r < timestamptz (reported_at h))%Z) (pg_node_heartbeats d)
  | SaveSite s =>
      saveable (sites m) (site_ids_by_code m) s ∧ (1 ≤ site_version s)%Z
      ∧ ∀ s', sites m !! site_id s = Some s' → (1 ≤ site_version s' ≤ site_version s)%Z
  | SaveRelease r =>
      releases m !! release_id r = None ∧ release_ids_by_version m !! release_version r = None
      ∧ release_ok r ∧ bundle_from_value (jsonb (bundle_json (bundle r))) = Ok (bundle r)
      ∧ map_Forall (λ _ r', (∃ n, n ∈ target_node_ids r ∧ is_Some (ack_status r' !! n)) →
          (timestamptz (release_created_at r') < timestamptz (release_created_at r))%Z) (releases m)
  | AckRelease r n _ => ∀ rel, releases m !! r = Some rel → n ∈ target_node_ids rel
  | SaveProvider p =>
      saveable (dns_providers m) (dns_provider_ids_by_name m) p
      ∧ ∀ p', dns_providers m !! provider_id p = Some p' →
          timestamptz (provider_created_at p') = timestamptz (provider_created_at p)
  | DeleteProvider u => map_Forall (λ _ z, zone_provider_id z ≠ u) (dns_zones m)
  | SaveZone z =>
      (∀ u z', dns_zones m !! u = Some z' → zone_provider_id z' = zone_provider_id z →
         zone_name z' = zone_name z → u = zone_id z)
      ∧ ∀ z', dns_zones m !! zone_id z = Some z' →
          zone_provider_id z' = zone_provider_id z ∧ zone_name z' = zone_name z
          ∧ timestamptz (zone_created_at z') = timestamptz (zone_created_at z)
  | DeleteZone u => map_Forall (λ _ o, order_zone_id o ≠ u) (certificate_orders m)
  | SaveOrder o =>
      ∀ o', certificate_orders m !! order_id o = Some o' →
        timestamptz (order_created_at o') = timestamptz (order_created_at o)
  | SaveUser u =>
      saveable (admin_users m) (admin_user_ids_by_username m) u
      ∧ ∀ u', admin_users m !! user_id u = Some u' →
          timestamptz (user_created_at u') = timestamptz (user_created_at u)
  | SaveSession s =>
      ∀ s', admin_sessions m !! session_token_hash s = Some s' →
        session_id s' = session_id s
        ∧ timestamptz (session_created_at s') = timestamptz (session_created_at s)
  | SaveTemplate t =>
      saveable (operation_templates m) (operation_template_ids_by_name m) t
      ∧ ∀ t', operation_templates m !! template_id t = Some t' →
          timestamptz (template_created_at t') = timestamptz (template_created_at t)
  | SaveOperation o =>
      is_Some (operation_templates m !! op_template_id o)
      ∧ ∀ o', node_operations m !! operation_id o = Some o' → same_request o' o
  | ClaimNext n =>
      is_Some (nodes m !! n)
      ∧ map_Forall (λ u o, claimable n o →
          started_at o = None
          ∧ map_Forall (λ u' o', claimable n o' →
              timestamptz (op_created_at o) = timestamptz (op_created_at o') → u = u')
              (node_operations m)) (node_operations m)
  | UpdateOperation o =>
      ∃ o', node_operations m !! operation_id o = Some o' ∧ same_request o' o
            ∧ input_params o' = input_params o ∧ requested_by o' = requested_by o
  | _ => True
  end.

(** ** Results *)

Definition claimed_agrees (a b : ClaimedNodeOperation) : Prop :=
  operation a = set_started_at (started_at (operation b)) (stored_operation (operation b))
  ∧ template a = stored_template (template b).

(** The in-memory repository keeps no failover policies, so it counts none. *)
Definition result_agrees {A} (w : Write A) : A → A → Prop :=
  match w with
  | ClaimNext _ => option_Forall2 claimed_agrees
  | _ => λ _ _, True
  end.

(** The acknowledgement is written before the status of the release, in statements of
    their own. *)
Definition atomic {A} (w : Write A) : Prop :=
  match w with AckRelease _ _ _ => False | _ => True end.
End Calls.

(** ** Tables whose rows are records *)

(** Splits the agreement of the new tables; what the statement does not touch is
    discharged at once. *)
Ltac agree_split H := destruct H; split; try assumption.

Section Simple.
Context `{EX : !Extern, EL : !ExternLaws, PX : !PgExtern, CO : !Collation}.
Implicit Types (d : PgTables) (m : MemoryState).

Lemma lookup_insert_agree `{Countable K} {A B} (f : A → B) (t : gmap K B) (m : gmap K A) k x y :
  (∀ j, t !! j = f <$> m !! j) → y = f x → ∀ j, <[k := y]> t !! j = f <$> <[k := x]> m !! j.
Proof.
  intros Ht -> j. destruct (decide (k = j)) as [->|].
  - by rewrite !lookup_insert_eq.
  - by rewrite !lookup_insert_ne.
Qed.

Lemma lookup_delete_agree `{Countable K} {A B} (f : A → B) (t : gmap K B) (m : gmap K A) k :
  (∀ j, t !! j = f <$> m !! j) → ∀ j, delete k t !! j = f <$> delete k m !! j.
Proof.
  intros Ht j. destruct (decide (k = j)) as [->|].
  - by rewrite !lookup_delete_eq.
  - by rewrite !lookup_delete_ne.
Qed.

Lemma lookup_alter_agree `{Countable K} {A B} (f : A → B) (t : gmap K B) (m : gmap K A) g h k :
  (∀ j, t !! j = f <$> m !! j) → (∀ x, h (f x) = f (g x)) →
  ∀ j, alter h k t !! j = f <$> alter g k m !! j.
Proof.
  intros Ht Hg j. destruct (decide (k = j)) as [->|].
  - rewrite !lookup_alter_eq, Ht. destruct (m !! j); simpl; [|done]. by rewrite Hg.
  - by rewrite !lookup_alter_ne.
Qed.

Lemma agree_save_provider d m p :
  agree d m →
  (∀ p', dns_providers m !! provider_id p = Some p' →
     timestamptz (provider_created_at p') = timestamptz (provider_created_at p)) →
  agree (upsert_provider p d) (Store.save_dns_provider p m).
Proof.
  intros Hag Hc. agree_split Hag. apply lookup_insert_agree; [done|]. unfold stored_provider.
  f_equal. rewrite ag_providers. destruct (dns_providers m !! provider_id p) eqn:Hp; simpl; auto.
Qed.

(** Deleting the zones of a provider that has none. *)
Lemma foldl_delete_nil {A} (t : gmap Uuid A) l : l = [] → foldl (λ acc k, delete k acc) t l = t.
Proof. by intros ->. Qed.

Lemma detach_zone_id d zones o :
  (∀ u, present (pg_dns_zones d) u → or_zone_id o = Some u → present zones u) →
  order_row_ok d o → detach_zone zones o = o.
Proof.
  intros Hz (_ & _ & Ho). unfold detach_zone. rewrite decide_True; [done|].
  unfold present_opt in *. destruct (or_zone_id o); [by apply Hz|done].
Qed.


Lemma fmap_id_on `{Countable K} {A} (f : A → A) (t : gmap K A) :
  (∀ k x, t !! k = Some x → f x = x) → f <$> t = t.
Proof.
  intros Hf. apply map_eq. intros k. rewrite lookup_fmap. destruct (t !! k) eqn:Hk; simpl; [|done].
  f_equal. eauto.
Qed.

Lemma filter_all `{Countable K} {A} (P : K * A → Prop) `{!∀ x, Decision (P x)} (t : gmap K A) :
  map_Forall (λ k x, P (k, x)) t → filter P t = t.
Proof.
  intros Ht. apply map_eq. intros k. apply option_eq. intros x.
  rewrite map_lookup_filter_Some. naive_solver.
Qed.

(** Zones that are all kept leave the orders alone. *)
Lemma set_zones_detaching_kept d zones :
  map_Forall (λ _ o, order_row_ok d o) (pg_certificate_orders d) →
  (∀ u o, present (pg_dns_zones d) u → pg_certificate_orders d !! o ≫= or_zone_id = Some u →
     present zones u) →
  pg_certificate_orders (set_zones_detaching zones d) = pg_certificate_orders d.
Proof.
  intros Hok Hz. simpl. apply fmap_id_on. intros u o Ho.
  apply (detach_zone_id d); [|by eapply Hok]. intros z Hp Hoz. apply (Hz z u); [done|].
  by rewrite Ho.
Qed.

Lemma orders_refer d : pg_ok d → map_Forall (λ _ o, order_row_ok d o) (pg_certificate_orders d).
Proof. by intros (_ & _ & (_ & _ & _ & _ & _ & ? & _) & _). Qed.

(** The orders are read through their rows and the certificates. *)
Lemma ag_orders_ext d d' m :
  pg_certificates d' = pg_certificates d → pg_certificate_orders d' = pg_certificate_orders d →
  agree d m → ∀ u, option_Forall2 order_agrees (select_order u d') (certificate_orders m !! u).
Proof.
  intros Hc Ho Hag u. pose proof (ag_orders d m Hag u) as H. unfold select_order, order_record in *.
  by rewrite Hc, Ho.
Qed.

Lemma agree_delete_provider d m u :
  pg_ok d → agree d m → map_Forall (λ _ z, zone_provider_id z ≠ u) (dns_zones m) →
  agree (delete_provider_row u d) (Store.delete_dns_provider u m).
Proof.
  intros Hok Hag Hz. unfold delete_provider_row, Store.delete_dns_provider.
  rewrite (ag_providers d m Hag u). destruct (dns_providers m !! u) as [p|]; simpl; [|done].
  assert (filter (λ e, zone_provider_id e.2 ≠ u) (pg_dns_zones d) = pg_dns_zones d) as Hf.
  { apply filter_all. intros k z. rewrite (ag_zones d m Hag). intros (z' & Hz' & ->)%fmap_Some.
    exact (Hz _ _ Hz'). }
  rewrite Hf, foldl_delete_nil.
  2: { apply elem_of_nil_inv. intros z.
       rewrite list_elem_of_fmap. setoid_rewrite list_elem_of_filter. setoid_rewrite elem_of_values.
       intros (z' & _ & Hp & k & Hk). exact (Hz _ _ Hk Hp). }
  split; try apply Hag.
  - by apply lookup_delete_agree, Hag.
  - apply (ag_orders_ext d _ m); [done| |done].
    apply (set_zones_detaching_kept (set_pg_dns_providers _ d)); [|by intros]. exact (orders_refer d Hok).
Qed.

Lemma agree_save_zone d m z d' :
  pg_ok d → agree d m →
  (∀ u z', dns_zones m !! u = Some z' → zone_provider_id z' = zone_provider_id z →
     zone_name z' = zone_name z → u = zone_id z) →
  (∀ z', dns_zones m !! zone_id z = Some z' →
     zone_provider_id z' = zone_provider_id z ∧ zone_name z' = zone_name z
     ∧ timestamptz (zone_created_at z') = timestamptz (zone_created_at z)) →
  map_Forall (λ u z, zone_id z = u) (dns_zones m) →
  upsert_zone z d = Some d' → agree d' (Store.save_dns_zone z m).
Proof.
  intros Hok Hag Huniq Hsame Hkey. unfold upsert_zone.
  destruct (find_where _ _) as [[u row]|] eqn:Hf.
  - intros [= <-]. apply find_where_Some in Hf as [Hin [Hp Hn]]. apply elem_of_entries in Hin.
    simpl in *. rewrite (ag_zones d m Hag) in Hin. apply fmap_Some in Hin as (z' & Hz' & ->).
    assert (u = zone_id z) as -> by eauto. destruct (Hsame _ Hz') as (? & ? & ?).
    pose proof (Hkey _ _ Hz') as Hid. agree_split Hag. apply lookup_insert_agree; [done|].
    unfold stored_zone. simpl in *. congruence.
  - destruct (decide _) as [Hnone|]; [|done]. intros [= <-]. agree_split Hag.
    by apply lookup_insert_agree.
Qed.

Lemma agree_delete_zone d m u :
  pg_ok d → agree d m → map_Forall (λ _ o, order_zone_id o ≠ u) (certificate_orders m) →
  agree (delete_zone_row u d) (Store.delete_dns_zone u m).
Proof.
  intros Hok Hag Hfree. unfold delete_zone_row.
  assert (∀ j, delete u (pg_dns_zones d) !! j = stored_zone <$> delete u (dns_zones m) !! j) as Hdel
    by apply lookup_delete_agree, Hag.
  destruct (pg_dns_zones d !! u) as [z|] eqn:Hu.
  - split; try apply Hag; [done|]. apply (ag_orders_ext d _ m); [done| |done].
    apply (set_zones_detaching_kept d); [by apply orders_refer|]. intros z' k Hp Hz'.
    unfold present. rewrite lookup_delete_ne; [done|]. intros <-.
    pose proof (ag_orders d m Hag k) as Hk. unfold select_order, order_record in Hk.
    destruct (pg_certificate_orders d !! k) as [o|]; [|done]. simpl in *. rewrite Hz' in Hk.
    inversion Hk as [x y [e He] Hx Hy|]. simplify_eq/=. symmetry in Hy. by apply (Hfree _ _ Hy).
  - rewrite delete_id in Hdel by done. destruct Hag; by split.
Qed.

Lemma agree_save_certificate d m c :
  agree d m → agree (upsert_certificate c d) (Store.save_certificate c m).
Proof.
  intros Hag. agree_split Hag. intros u. specialize (ag_orders u).
  unfold select_order, order_record in *. simpl in *.
  inversion ag_orders as [r o [e He] Hr Ho|Hr Ho].
  - destruct (pg_certificate_orders d !! u) as [x|]; [|done]. simpl in *. simplify_eq.
    constructor. destruct (or_zone_id x); [|done]. simpl in *. simplify_eq/=. eexists.
    f_equal. unfold stored_order. by f_equal.
  - destruct (pg_certificate_orders d !! u); [done|constructor].
Qed.

Lemma agree_save_order d m o :
  agree d m →
  (∀ o', certificate_orders m !! order_id o = Some o' →
     timestamptz (order_created_at o') = timestamptz (order_created_at o)) →
  agree (upsert_order o d) (Store.save_certificate_order o m).
Proof.
  intros Hag Hc. agree_split Hag. intros u. unfold select_order, order_record in *. simpl in *.
  destruct (decide (order_id o = u)) as [<-|].
  - rewrite !lookup_insert_eq. simpl. constructor. specialize (ag_orders (order_id o)).
    eexists. f_equal. unfold stored_order. f_equal.
    inversion ag_orders as [r o' [e He] Hr Ho|Hr Ho]; symmetry in Ho;
      destruct (pg_certificate_orders d !! order_id o) as [x|]; try done. simpl in *.
    destruct (or_zone_id x); simplify_eq/=. by rewrite <-(Hc _ Ho).
  - by rewrite !lookup_insert_ne.
Qed.

Lemma agree_save_user d m x d' :
  agree d m → repo_ok m → saveable (admin_users m) (admin_user_ids_by_username m) x →
  (∀ x', admin_users m !! user_id x = Some x' →
     timestamptz (user_created_at x') = timestamptz (user_created_at x)) →
  upsert_user x d = Some d' → agree d' (Store.save_admin_user x m).
Proof.
  intros Hag Hm [Hclash Hren] Hc. unfold upsert_user.
  destruct (find_where _ _) as [[u row]|] eqn:Hf.
  - intros [= <-]. apply find_where_Some in Hf as [Hin Hn]. apply elem_of_entries in Hin.
    simpl in *. rewrite (ag_users d m Hag) in Hin. apply fmap_Some in Hin as (x' & Hx' & ->).
    simpl in Hn. destruct (index_complete _ _ (users_ok _ Hm) _ _ Hx') as [Hid Hidx]. simpl in *.
    rewrite Hn in Hidx. pose proof (Hclash _ Hidx) as ->. simpl in *. agree_split Hag.
    apply lookup_insert_agree; [done|]. unfold stored_user. simpl. specialize (Hc _ Hx'). congruence.
  - destruct (decide _) as [Hnone|]; [|done]. intros [= <-]. agree_split Hag.
    by apply lookup_insert_agree.
Qed.

Lemma agree_touch_user d m u t :
  agree d m →
  agree (set_pg_admin_users (alter (set_last_login_at (Some (timestamptz t))) u (pg_admin_users d)) d)
    (Store.touch_admin_user_login u t m).
Proof. intros Hag. agree_split Hag. by apply lookup_alter_agree. Qed.

Lemma agree_save_session d m x :
  agree d m →
  (∀ x', admin_sessions m !! session_token_hash x = Some x' →
     session_id x' = session_id x
     ∧ timestamptz (session_created_at x') = timestamptz (session_created_at x)) →
  agree (upsert_session x d) (Store.save_admin_session x m).
Proof.
  intros Hag Hc. agree_split Hag. apply lookup_insert_agree; [done|]. unfold stored_session.
  rewrite ag_sessions. destruct (admin_sessions m !! session_token_hash x) as [x'|] eqn:Hx; [|done].
  simpl. destruct (Hc _ eq_refl) as [-> ->]. done.
Qed.

Lemma agree_touch_session d m h t :
  agree d m →
  agree (set_pg_admin_sessions
           (alter (set_session_last_seen_at (timestamptz t)) h (pg_admin_sessions d)) d)
    (Store.touch_admin_session h t m).
Proof. intros Hag. agree_split Hag. by apply lookup_alter_agree. Qed.

Lemma agree_delete_session d m h :
  agree d m →
  agree (set_pg_admin_sessions (delete h (pg_admin_sessions d)) d) (Store.delete_admin_session h m).
Proof. intros Hag. agree_split Hag. by apply lookup_delete_agree. Qed.

Lemma agree_filter_sessions d m u e (P : string * AdminSessionRecord → Prop)
    `{!∀ x, Decision (P x)} :
  agree d m → (∀ h x, P (h, stored_session x) ↔ session_user_id x ≠ u ∨ Some h = e) →
  agree (set_pg_admin_sessions (filter P (pg_admin_sessions d)) d)
    (Store.delete_admin_sessions_for_user u e m).
Proof.
  intros Hag HP. agree_split Hag. intros h. simpl. apply option_eq. intros x.
  rewrite fmap_Some. setoid_rewrite map_lookup_filter_Some. rewrite ag_sessions, fmap_Some. simpl.
  naive_solver.
Qed.

Lemma agree_save_template d m t :
  agree d m →
  (∀ t', operation_templates m !! template_id t = Some t' →
     timestamptz (template_created_at t') = timestamptz (template_created_at t)) →
  agree (upsert_template t d) (Store.save_operation_template t m).
Proof.
  intros Hag Hc. agree_split Hag. intros u. unfold select_template in *. simpl in *.
  destruct (decide (template_id t = u)) as [<-|]; [|by rewrite !lookup_insert_ne].
  rewrite !lookup_insert_eq. simpl. f_equal. unfold stored_template, template_record. simpl.
  f_equal. specialize (ag_templates (template_id t)).
  destruct (pg_operation_templates d !! template_id t), (operation_templates m !! template_id t)
    eqn:Ht; simplify_eq/=; [|done]. rewrite <-(Hc _ eq_refl). by inversion ag_templates.
Qed.
End Simple.

(** ** Operations *)

Section Operations.
Context `{EX : !Extern, EL : !ExternLaws, PX : !PgExtern, CO : !Collation}.
Implicit Types (d : PgTables) (m : MemoryState).

Lemma node_present d m u : agree d m → present (pg_nodes d) u ↔ is_Some (nodes m !! u).
Proof.
  intros Hag. pose proof (ag_nodes d m Hag u) as H. unfold select_node, present in *.
  destruct (pg_nodes d !! u), (nodes m !! u); naive_solver.
Qed.

Lemma template_present d m u :
  agree d m → present (pg_operation_templates d) u ↔ is_Some (operation_templates m !! u).
Proof.
  intros Hag. pose proof (ag_templates d m Hag u) as H. unfold select_template, present in *.
  destruct (pg_operation_templates d !! u), (operation_templates m !! u); naive_solver.
Qed.

Lemma operations_refer d :
  pg_ok d → map_Forall (λ _ o, operation_row_ok d o) (pg_node_operations d).
Proof. by intros (_ & _ & _ & _ & _ & (_ & _ & _ & _ & ?) & _). Qed.

Lemma live_operation_Some m u o :
  live_operation m u = Some o ↔ node_operations m !! u = Some o ∧ is_Some (nodes m !! op_node_id o).
Proof.
  unfold live_operation. rewrite bind_Some. split.
  - intros (o' & ? & H). case_decide; [|done]. by simplify_eq.
  - intros [? ?]. exists o. by rewrite decide_True.
Qed.

Lemma live_operation_None m u :
  live_operation m u = None ↔
  ∀ o, node_operations m !! u = Some o → ¬ is_Some (nodes m !! op_node_id o).
Proof.
  rewrite eq_None_not_Some. split.
  - intros Hn o Ho Hl. apply Hn. exists o. by apply live_operation_Some.
  - intros Hn [o [Ho Hl]%live_operation_Some]. by apply (Hn o).
Qed.

(** Writing one operation. *)
Lemma live_operation_insert m u o v :
  live_operation (set_node_operations (<[u := o]> (node_operations m)) m) v =
  if decide (u = v) then (if decide (is_Some (nodes m !! op_node_id o)) then Some o else None)
  else live_operation m v.
Proof.
  unfold live_operation. simpl. case_decide; subst.
  - by rewrite lookup_insert_eq.
  - by rewrite lookup_insert_ne.
Qed.

Lemma agree_delete_template d m u :
  agree d m → pg_ok (set_pg_operation_templates (delete u (pg_operation_templates d)) d) →
  agree (set_pg_operation_templates (delete u (pg_operation_templates d)) d)
    (Store.delete_operation_template u m).
Proof.
  intros Hag Hok. unfold Store.delete_operation_template.
  destruct (operation_templates m !! u) as [t|] eqn:Ht.
  2: { rewrite delete_id; [by destruct Hag|]. apply eq_None_not_Some.
       intros H. apply (template_present d m u Hag) in H as [? ?]. naive_solver. }
  pose proof (operations_refer _ Hok) as Href. simpl in Href.
  agree_split Hag.
  - intros v. unfold select_template in *. simpl. specialize (ag_templates v).
    destruct (decide (u = v)) as [->|]; [by rewrite !lookup_delete_eq|by rewrite !lookup_delete_ne].
  - intros v. simpl. rewrite ag_operations. f_equal. apply option_eq. intros o.
    rewrite !live_operation_Some. simpl. rewrite map_lookup_filter_Some. simpl.
    split; [|naive_solver]. intros [Ho Hl]. split; [|done]. split; [done|]. intros <-.
    assert (pg_node_operations d !! v = Some (stored_operation o)) as Hrow.
    { rewrite ag_operations. apply fmap_Some. exists o. by rewrite live_operation_Some. }
    destruct (Href _ _ Hrow) as (_ & [x Hx] & _). simpl in Hx. by rewrite lookup_delete_eq in Hx.
Qed.

Lemma agree_save_operation d m o :
  agree d m → pg_ok (upsert_operation o d) →
  (∀ o', node_operations m !! operation_id o = Some o' → same_request o' o) →
  agree (upsert_operation o d) (Store.save_node_operation o m).
Proof.
  intros Hag Hok Hsame. pose proof (operations_refer _ Hok) as Href. simpl in Href.
  unfold upsert_operation in *. set (row := match _ with Some _ => _ | None => _ end) in *.
  assert (is_Some (nodes m !! op_node_id o) ∧ row = stored_operation o) as [Hl Hrow].
  { destruct (Href (operation_id o) row) as (Hp & _); [by rewrite lookup_insert_eq|]. simpl in Hp.
    apply (node_present d m _ Hag) in Hp. unfold row in *. rewrite (ag_operations d m Hag) in *.
    destruct (live_operation m (operation_id o)) as [o'|] eqn:Hlive; simpl in *.
    - apply live_operation_Some in Hlive as [Ho' Hl']. destruct (Hsame _ Ho') as (H1 & H2 & H3 & H4).
      split; [by rewrite <-H1|]. unfold operation_row, stored_operation. simpl.
      by rewrite H1, H2, H3, H4.
    - done. }
  agree_split Hag. intros v. unfold Store.save_node_operation. rewrite live_operation_insert. simpl.
  case_decide; subst; [|by rewrite lookup_insert_ne].
  by rewrite lookup_insert_eq, decide_True, Hrow.
Qed.

Lemma agree_update_operation d m o o' :
  agree d m → node_operations m !! operation_id o = Some o' → same_request o' o →
  operation_id o' = operation_id o →
  input_params o' = input_params o → requested_by o' = requested_by o →
  agree (set_pg_node_operations
           (alter (report_operation o) (operation_id o) (pg_node_operations d)) d)
    (Store.update_node_operation o m).
Proof.
  intros Hag Ho' (H1 & H2 & H3 & H4) H5 H6 H7. agree_split Hag. intros v.
  unfold Store.update_node_operation. rewrite live_operation_insert. simpl.
  case_decide as Hv; subst; [|by rewrite lookup_alter_ne].
  rewrite lookup_alter_eq, ag_operations. unfold live_operation. rewrite Ho'. simpl. rewrite H1.
  case_decide; simpl; [|done]. f_equal. unfold report_operation, stored_operation. simpl.
  by rewrite H1, H2, H3, H4, H5, H6, H7.
Qed.

(** *** Claims *)

Lemma elem_of_claim_rows n d o t :
  (o, t) ∈ filter_map (λ o, pair o <$> pg_operation_templates d !! op_template_id o)
             (filter (claimable n) (values (pg_node_operations d))) ↔
  claimable n o ∧ (∃ u, pg_node_operations d !! u = Some o)
  ∧ pg_operation_templates d !! op_template_id o = Some t.
Proof.
  unfold filter_map. rewrite list_elem_of_omap. setoid_rewrite list_elem_of_filter.
  setoid_rewrite elem_of_values. setoid_rewrite fmap_Some. naive_solver.
Qed.

Lemma claimable_stored n o : claimable n (stored_operation o) ↔ claimable n o.
Proof. done. Qed.

(** Both repositories pick the same operation. *)
Lemma claim_pick d m n :
  pg_ok d → agree d m → repo_ok m → fits (ClaimNext n) d m →
  match select_claimable n d with
  | None => filter (claimable n) (values (node_operations m)) = []
  | Some (o, t) => ∃ o' t',
      min_by (cmp_on op_created_at Z.compare)
        (filter (claimable n) (values (node_operations m))) = Some o'
      ∧ o = stored_operation o' ∧ operation_templates m !! op_template_id o' = Some t'
      ∧ template_record t = stored_template t'
  end.
Proof.
  intros Hok Hag Hm [Hn Hfit].
  assert (∀ u o, node_operations m !! u = Some o → claimable n o →
    pg_node_operations d !! u = Some (stored_operation o)) as Hrow.
  { intros u o Ho [Hnode _]. rewrite (ag_operations d m Hag). apply fmap_Some. exists o.
    rewrite live_operation_Some. by subst. }
  destruct (select_claimable n d) as [[o t]|] eqn:Hsel.
  - apply head_sort_asc_min in Hsel as [Hin Hmin].
    apply elem_of_claim_rows in Hin as (Hc & [u Hu] & Ht).
    rewrite (ag_operations d m Hag) in Hu. apply fmap_Some in Hu as (o1 & Ho1 & ->).
    apply live_operation_Some in Ho1 as [Ho1 _].
    destruct (operations_templates _ Hm _ _ Ho1) as [t' Ht'].
    exists o1, t'. split_and!; [|done..|].
    2: { pose proof (ag_templates d m Hag (op_template_id o1)) as Hag_t. unfold select_template in Hag_t.
         simpl in Ht. rewrite Ht, Ht' in Hag_t. by apply (inj Some) in Hag_t. }
    destruct (min_by _ _) as [o2|] eqn:Hm2.
    2: { apply min_by_None in Hm2. exfalso. eapply (elem_of_nil o1). rewrite <-Hm2.
         apply list_elem_of_filter. rewrite elem_of_values. eauto. }
    pose proof (min_by_elem _ _ _ Hm2) as [Hc2 [u2 Ho2]%elem_of_values]%list_elem_of_filter.
    f_equal. assert (u2 = u) as ->; [|by simplify_eq].
    destruct (Hfit _ _ Ho2 Hc2) as [_ Hdist]. apply (Hdist u o1 Ho1 Hc). apply Z.le_antisymm.
    + apply timestamptz_mono. eapply (min_by_le (cmp_on op_created_at Z.compare)); [exact Hm2|].
      apply list_elem_of_filter. rewrite elem_of_values. eauto.
    + destruct (operations_refer _ Hok _ _ (Hrow _ _ Ho2 Hc2)) as (_ & [t2 Ht2] & _).
      apply (Hmin (stored_operation o2, t2)), elem_of_claim_rows. eauto.
  - apply head_sort_None in Hsel. apply elem_of_nil_inv. intros o [Hc [u Ho]%elem_of_values]%list_elem_of_filter.
    destruct (operations_refer _ Hok _ _ (Hrow _ _ Ho Hc)) as (_ & [t Ht] & _).
    eapply (elem_of_nil (stored_operation o, t)). rewrite <-Hsel. apply elem_of_claim_rows. eauto.
Qed.

Lemma agree_start_operation d m n o now :
  agree d m → node_operations m !! operation_id o = Some o → op_node_id o = n →
  is_Some (nodes m !! n) → started_at o = None →
  agree (set_pg_node_operations
           (alter (start_operation now) (operation_id o) (pg_node_operations d)) d)
    (set_node_operations
       (<[operation_id o := set_started_at (Some now) (set_exec_status "running" o)]>
          (node_operations m)) m).
Proof.
  intros Hag Ho <- Hn Hs. agree_split Hag. intros v. rewrite live_operation_insert. simpl.
  case_decide; subst; [|by rewrite lookup_alter_ne].
  rewrite lookup_alter_eq, ag_operations, decide_True by done. unfold live_operation. rewrite Ho.
  simpl. rewrite decide_True by done. simpl. unfold start_operation. simpl. by rewrite Hs.
Qed.
End Operations.

(** ** Sites *)

Section Sites.
Context `{EX : !Extern, EL : !ExternLaws, PX : !PgExtern, CO : !Collation}.
Implicit Types (d : PgTables) (m : MemoryState).

Lemma site_present d m u : agree d m → present (pg_sites d) u ↔ is_Some (sites m !! u).
Proof.
  intros Hag. pose proof (ag_sites d m Hag u) as H. unfold read_site, select_site, present in *.
  destruct (pg_sites d !! u), (sites m !! u); inversion H; naive_solver.
Qed.

(** A site is read through its row, its configurations and its bindings. *)
Lemma read_site_ext d d' u x :
  pg_sites d' !! u = pg_sites d !! u →
  (∀ v, pg_site_configs d' !! (u, v) = pg_site_configs d !! (u, v)) →
  (∀ n, pg_site_node_bindings d' !! (u, n) = pg_site_node_bindings d !! (u, n)) →
  option_Forall2 site_agrees (read_site u d) x → option_Forall2 site_agrees (read_site u d') x.
Proof.
  intros Hs Hc Hb. unfold read_site, select_site. rewrite Hs, (latest_config_ext u d' d Hc).
  destruct (pg_sites d !! u); simpl; inversion 1 as [r q [Heq Hp]|]; subst; constructor.
  split; [exact (f_equal (set_bindings (select_bindings u d')) Heq)|]. simpl in *. by rewrite (select_bindings_perm u d' d Hb).
Qed.

Lemma latest_config_None u d v : latest_config u d = None → ¬ present (pg_site_configs d) (u, v).
Proof.
  intros Hnil%fmap_None%head_sort_None [x Hx]. eapply (elem_of_nil ((u, v), x)).
  rewrite <-Hnil. apply list_elem_of_filter. by rewrite elem_of_entries.
Qed.

(** The versions stored for a site are at most that of its record. *)
Lemma config_versions_le d m s v :
  pg_ok d → agree d m → fits (SaveSite s) d m → present (pg_site_configs d) (site_id s, v) →
  (v ≤ i32_or_max (site_version s))%Z.
Proof.
  intros Hok Hag (_ & Hpos & Hver) Hp. pose proof (i32_or_max_pos _ Hpos) as Hpos'.
  assert (is_Some (sites m !! site_id s)) as [s' Hs'].
  { apply (site_present d m _ Hag). destruct Hok as (_ & (_ & _ & Hc & _) & _).
    destruct Hp as [x Hx]. by apply Hc in Hx. }
  destruct (Hver _ Hs') as [Hpos1 Hle].
  pose proof (i32_or_max_mono (site_version s') (site_version s) ltac:(lia)) as Hmono.
  pose proof (ag_sites d m Hag (site_id s)) as H. rewrite Hs' in H.
  inversion H as [r x [Heq _] Hr Hx|]. unfold read_site, select_site in Hr.
  destruct (pg_sites d !! site_id s); [|done]. apply (f_equal site_version) in Heq.
  injection Hr as Hr. subst r. simpl in Heq.
  destruct (latest_config (site_id s) d) as [[v' c]|] eqn:Hl.
  - apply latest_config_Some in Hl as [_ Hmax]. specialize (Hmax _ Hp).
    simpl in Heq. lia.
  - by apply (latest_config_None _ _ v) in Hl.
Qed.

(** *** Bindings *)

Definition put_bindings (u : Uuid) (bs : list SiteBindingRecord) (d : PgTables) : PgTables :=
  set_pg_site_node_bindings
    (foldl (λ t b, <[(u, binding_node_id b) := binding_row b]> t) (pg_site_node_bindings d) bs) d.

Lemma lookup_put_bindings (u : Uuid) (bs : list SiteBindingRecord)
    (t : gmap (Uuid * Uuid) BindingRow) (k : Uuid * Uuid) :
  NoDup (binding_node_id <$> bs) →
  (∀ b, b ∈ bs → t !! (u, binding_node_id b) = None) →
  ∀ x, foldl (λ t b, <[(u, binding_node_id b) := binding_row b]> t) t bs !! k = Some x ↔
  t !! k = Some x ∨ ∃ b, b ∈ bs ∧ k = (u, binding_node_id b) ∧ x = binding_row b.
Proof.
  revert t. induction bs as [|b bs IH]; intros t Hnd Hfree x; simpl.
  { split; [by left|]. intros [?|(b & ?%elem_of_nil & _)]; done. }
  apply NoDup_cons in Hnd as [Hb Hnd]. rewrite IH; [|done|].
  - rewrite lookup_insert_Some. setoid_rewrite elem_of_cons. split.
    + intros [[[<- <-]|[? ?]]|(b' & ? & ? & ?)]; eauto 10.
    + intros [Hk|(b' & [->|?] & -> & ->)]; eauto 10.
      left. right. split; [|done]. intros <-. rewrite Hfree in Hk; [done|]. by left.
  - intros b' Hb'. rewrite lookup_insert_ne; [apply Hfree; by right|]. intros [= Heq].
    apply Hb. rewrite Heq. by apply list_elem_of_fmap_2.
Qed.

Lemma lookup_delete_bindings u d k :
  pg_site_node_bindings (delete_bindings u d) !! k =
  if decide (k.1 = u) then None else pg_site_node_bindings d !! k.
Proof.
  simpl. apply option_eq. intros x. rewrite map_lookup_filter_Some. simpl.
  case_decide; naive_solver.
Qed.

Lemma select_put_bindings u bs d :
  NoDup (binding_node_id <$> bs) →
  select_bindings u (put_bindings u bs (delete_bindings u d)) ≡ₚ bs.
Proof.
  intros Hnd. set (d0 := delete_bindings u d).
  assert (∀ n, pg_site_node_bindings d0 !! (u, n) = None) as Hnone.
  { intros n. unfold d0. by rewrite lookup_delete_bindings, decide_True. }
  apply NoDup_Permutation.
  - eapply NoDup_fmap_1, NoDup_select_bindings.
  - by eapply NoDup_fmap_1.
  - intros b. rewrite elem_of_pg_bindings.
    change (pg_site_node_bindings (put_bindings u bs d0)) with
      (foldl (λ t b, <[(u, binding_node_id b) := binding_row b]> t) (pg_site_node_bindings d0) bs).
    pose proof (lookup_put_bindings u bs (pg_site_node_bindings d0) (u, binding_node_id b) Hnd
      (λ _ _, Hnone _)) as Hput. split.
    + intros (x & [Hx|(b' & Hb' & [= Hn] & ->)]%Hput & Hr & Hp); [by rewrite Hnone in Hx|].
      destruct b, b'. simpl in *. by subst.
    + intros Hb. exists (binding_row b). split; [|done]. apply Hput. eauto.
Qed.

Lemma agree_save_site d m s :
  pg_ok d → agree d m → fits (SaveSite s) d m → NoDup (binding_node_id <$> bindings s) →
  agree (put_bindings (site_id s) (bindings s)
           (delete_bindings (site_id s) (upsert_config s (upsert_site s d))))
    (Store.save_site s m).
Proof.
  intros Hok Hag Hfit Hnd. set (d' := put_bindings _ _ _). split; try apply Hag.
  intros u. simpl. destruct (decide (site_id s = u)) as [<-|Hne].
  - rewrite lookup_insert_eq. unfold read_site, select_site. simpl. rewrite lookup_insert_eq. simpl.
    assert (latest_config (site_id s) d' =
            Some (i32_or_max (site_version s), jsonb (site_config s))) as ->.
    { apply latest_config_Some. simpl. split.
      - rewrite lookup_insert_eq. eauto.
      - intros v [x Hx]. apply lookup_insert_Some in Hx as [[[= <-] _]|[_ Hx]]; [done|].
        exact (config_versions_le d m s v Hok Hag Hfit (ex_intro _ x Hx)). }
    constructor. split; [|by apply select_put_bindings]. unfold stored_site. simpl.
    by rewrite decode_protocol_name, decode_site_status_name.
  - rewrite lookup_insert_ne by done. apply (read_site_ext d); [..|apply Hag]; simpl.
    + by rewrite lookup_insert_ne.
    + intros v. rewrite lookup_insert_ne; [done|]. by intros [= ? _].
    + intros n. apply option_eq. intros x. setoid_rewrite lookup_put_bindings; [|done|].
      * setoid_rewrite map_lookup_filter_Some. simpl. naive_solver.
      * intros b _. apply map_lookup_filter_None_2. right. simpl. naive_solver.
Qed.

(** *** Deletion *)

Lemma agree_delete_site d m u :
  agree d m → agree (delete_site_row u d) (Store.delete_site u m).
Proof.
  intros Hag. unfold delete_site_row, Store.delete_site. pose proof (site_present d m u Hag) as Hp.
  unfold present in Hp. destruct (pg_sites d !! u) as [row|] eqn:Hrow, (sites m !! u) as [s|] eqn:Hs;
    [|exfalso; naive_solver..|done].
  split; try apply Hag.
  - intros v. simpl. destruct (decide (u = v)) as [<-|].
    + rewrite lookup_delete_eq. unfold read_site, select_site. simpl. rewrite lookup_delete_eq.
      constructor.
    + rewrite lookup_delete_ne by done. apply (read_site_ext d); [..|apply Hag]; simpl.
      * by rewrite lookup_delete_ne.
      * intros k. apply option_eq. intros x. rewrite map_lookup_filter_Some. simpl. naive_solver.
      * intros k. apply option_eq. intros x. rewrite map_lookup_filter_Some. simpl. naive_solver.
  - intros k. pose proof (ag_orders d m Hag k) as H. unfold select_order, order_record in *. simpl.
    rewrite !lookup_fmap.
    destruct (pg_certificate_orders d !! k) as [o|], (certificate_orders m !! k) as [o'|];
      inversion H as [r x [e He] |]; subst; constructor.
    unfold detach_order_row, detach_order. destruct o as [si ? [z|]]; simplify_eq/=.
    case_decide; eexists; by rewrite <-?He.
Qed.
End Sites.

(** ** Nodes *)

Section Nodes.
Context `{EX : !Extern, EL : !ExternLaws, PX : !PgExtern, CO : !Collation}.
Implicit Types (d : PgTables) (m : MemoryState).

Lemma cast_inet_stored o x : cast_inet o = Some x → x = o ≫= inet_text.
Proof.
  unfold cast_inet. destruct o as [s|]; simpl; [|by intros [= <-]].
  destruct (inet_text s); [|done]. by intros [= <-].
Qed.

Lemma times_distinct_ext d d' :
  pg_node_heartbeats d' = pg_node_heartbeats d → pg_config_releases d' = pg_config_releases d →
  pg_node_release_status d' = pg_node_release_status d → times_distinct d → times_distinct d'.
Proof. intros H1 H2 H3 [? ?]. split; by rewrite ?H1, ?H2, ?H3. Qed.

Lemma live_operation_ext m m' v :
  node_operations m' = node_operations m →
  (∀ o, node_operations m !! v = Some o →
     is_Some (nodes m' !! op_node_id o) ↔ is_Some (nodes m !! op_node_id o)) →
  live_operation m' v = live_operation m v.
Proof.
  intros Ho Hn. apply option_eq. intros o. rewrite !live_operation_Some, Ho. naive_solver.
Qed.

Lemma agree_save_node d m n d1 :
  agree d m → fits (SaveNode n) d m → upsert_node n d = Some d1 →
  agree (upsert_credential n d1) (Store.save_node n m).
Proof.
  intros Hag (_ & (Hr1 & Hr2 & Hr3) & Hnew) Hup. unfold upsert_node in Hup.
  destruct (cast_inet (public_ip n)) as [pub|] eqn:Hpub; [|done].
  destruct (cast_inet (private_ip n)) as [priv|] eqn:Hpriv; [|done]. simpl in Hup.
  injection Hup as <-. apply cast_inet_stored in Hpub as ->. apply cast_inet_stored in Hpriv as ->.
  agree_split Hag.
  - intros u. unfold select_node, node_record in *. simpl.
    destruct (decide (id (identity n) = u)) as [<-|].
    + rewrite !lookup_insert_eq. simpl. f_equal. unfold stored_node, stored_runtime.
      rewrite decode_node_status_name, Hr1, Hr2, Hr3. by destruct (identity n).
    + rewrite !lookup_insert_ne by done. apply ag_nodes.
  - intros v. simpl. rewrite ag_operations. f_equal. symmetry. apply live_operation_ext; [done|].
    intros o Ho. simpl. destruct (decide (id (identity n) = op_node_id o)) as [Heq|].
    + rewrite <-Heq, lookup_insert_eq. split; [|done]. intros _.
      destruct (nodes m !! id (identity n)) eqn:Hn; [done|]. by destruct (Hnew eq_refl _ _ Ho).
    + by rewrite lookup_insert_ne.
Qed.

Lemma decode_maintenance raw : decode_node_status raw = Maintenance ↔ raw = "maintenance".
Proof.
  unfold decode_node_status. split; [|by intros ->]. repeat case_decide; naive_solver.
Qed.

(** A heartbeat newer than the others of its node is the latest one. *)
Lemma latest_heartbeat_cons d h u :
  times_distinct d → times_distinct (set_pg_node_heartbeats (h :: pg_node_heartbeats d) d) →
  Forall (λ r, hr_node_id r = hr_node_id h → (hr_reported_at r < hr_reported_at h)%Z)
    (pg_node_heartbeats d) →
  latest_heartbeat (set_pg_node_heartbeats (h :: pg_node_heartbeats d) d) u =
  if decide (hr_node_id h = u) then Some h else latest_heartbeat d u.
Proof.
  intros Hd Hd' Hnew. rewrite Forall_forall in Hnew. case_decide as Hu.
  - apply latest_heartbeat_Some; [done|]. simpl. split_and!; [by left|done|].
    intros h' [->|Hin]%elem_of_cons Hh'; [done|]. specialize (Hnew h' Hin ltac:(congruence)). lia.
  - apply option_eq. intros x. rewrite !latest_heartbeat_Some by done. simpl.
    setoid_rewrite elem_of_cons. naive_solver.
Qed.

Lemma times_distinct_heartbeat d h :
  times_distinct d →
  Forall (λ r, hr_node_id r = hr_node_id h → (hr_reported_at r < hr_reported_at h)%Z)
    (pg_node_heartbeats d) →
  times_distinct (set_pg_node_heartbeats (h :: pg_node_heartbeats d) d).
Proof.
  intros [Hh Hr] Hnew. rewrite Forall_forall in Hnew. split; [|exact Hr]. simpl.
  intros x y [->|Hx]%elem_of_cons [->|Hy]%elem_of_cons; [done|..|by apply Hh].
  - intros He Ht. specialize (Hnew y Hy (symmetry He)). lia.
  - intros He Ht. specialize (Hnew x Hx He). lia.
Qed.

Lemma agree_heartbeat d m h d1 :
  times_distinct d → agree d m → fits (RecordHeartbeat h) d m → insert_heartbeat h d = Some d1 →
  agree (touch_node h d1) (Store.record_heartbeat h m) ∧ times_distinct (touch_node h d1).
Proof.
  intros Hd Hag Hfit Hins. unfold insert_heartbeat in Hins.
  destruct (numeric_5_2 (cpu_usage h)) as [cpu|]; [|done].
  destruct (numeric_5_2 (mem_usage h)) as [mem|]; [|done].
  destruct (numeric_5_2 (disk_usage h)) as [disk|]; [|done]. simpl in Hins. injection Hins as <-.
  set (row := mkHeartbeatRow _ _ _ _ _ _ _ _ _). set (d1 := set_pg_node_heartbeats _ d).
  assert (times_distinct d1) as Hd1 by (by apply times_distinct_heartbeat).
  split; [|by eapply times_distinct_ext; [..|exact Hd1]].
  assert (∀ u, latest_heartbeat (touch_node h d1) u =
    if decide (hb_node_id h = u) then Some row else latest_heartbeat d u) as Hlat.
  { intros u. by apply (latest_heartbeat_cons d row u). }
  agree_split Hag.
  - intros u. unfold select_node, node_record in *. rewrite Hlat. simpl. specialize (ag_nodes u).
    destruct (decide (hb_node_id h = u)) as [<-|]; [|by rewrite !lookup_alter_ne].
    rewrite !lookup_alter_eq.
    destruct (pg_nodes d !! hb_node_id h) as [r|], (nodes m !! hb_node_id h) as [n|];
      try done. apply (inj Some) in ag_nodes. simpl. f_equal.
    pose proof (f_equal identity ag_nodes) as Hid. pose proof (f_equal labels ag_nodes) as H1.
    pose proof (f_equal hostname ag_nodes) as H2. pose proof (f_equal public_ip ag_nodes) as H3.
    pose proof (f_equal private_ip ag_nodes) as H4.
    pose proof (f_equal bootstrap_token ag_nodes) as H5. simpl in *.
    unfold stored_node, apply_heartbeat. simpl. rewrite <-Hid, H1, H2, H3, H4, H5. simpl. f_equal.
    pose proof (decode_maintenance (nd_status r)) as Hm. unfold set_status. simpl.
    destruct (decide (nd_status r = "maintenance")) as [->|Hne]; [done|].
    by rewrite decide_False by (by rewrite Hm).
  - intros v. simpl. rewrite ag_operations. f_equal. symmetry. apply live_operation_ext; [done|].
    intros o Ho. simpl. by rewrite lookup_alter_is_Some.
Qed.
End Nodes.

(** ** Releases *)

Section Releases.
Context `{EX : !Extern, EL : !ExternLaws, PX : !PgExtern, CO : !Collation}.
Implicit Types (d : PgTables) (m : MemoryState).

Lemma aggregate_stored (acks : gmap Uuid NodeAckRecord) :
  aggregate_release_status (stored_ack <$> acks) = aggregate_release_status acks.
Proof.
  rewrite !aggregate_release_status_spec_aux. unfold release_status_spec.
  assert (∀ P : NodeAckRecord → Prop, (∀ a, P (stored_ack a) ↔ P a) →
    map_Exists (λ _ a, P a) (stored_ack <$> acks) ↔ map_Exists (λ _ a, P a) acks) as HE.
  { intros P HP. unfold map_Exists. setoid_rewrite lookup_fmap. setoid_rewrite fmap_Some.
    naive_solver. }
  assert (∀ P : NodeAckRecord → Prop, (∀ a, P (stored_ack a) ↔ P a) →
    map_Forall (λ _ a, P a) (stored_ack <$> acks) ↔ map_Forall (λ _ a, P a) acks) as HF.
  { intros P HP. unfold map_Forall. setoid_rewrite lookup_fmap. setoid_rewrite fmap_Some.
    naive_solver. }
  pose proof (fmap_empty_iff stored_ack acks) as H0.
  pose proof (HE (λ a, apply_status a = "failed") ltac:(done)) as H1.
  pose proof (HF (λ a, apply_status a = "success") ltac:(done)) as H2.
  pose proof (HE ack_in_progress ltac:(done)) as H3.
  clear HE HF. repeat case_decide; tauto.
Qed.

Lemma read_release_Some u d x :
  read_release u d = Some x ↔
  ∃ row, pg_config_releases d !! u = Some row
  ∧ x = (let? b := bundle_from_value (rl_manifest_json row) in
         Ok (release_record (u, row) b (select_acks u d))).
Proof.
  unfold read_release, select_release. destruct (pg_config_releases d !! u); simpl; naive_solver.
Qed.

(** The row and the acknowledgements of a release against its record. *)
Lemma release_row_agrees d m u row s :
  agree d m → pg_config_releases d !! u = Some row → releases m !! u = Some s →
  bundle_from_value (rl_manifest_json row) = Ok (bundle s) ∧ u = release_id s
  ∧ rl_scope_type row = scope_type s ∧ rl_scope_id row = scope_id s
  ∧ rl_release_type row = release_type s ∧ rl_release_version row = release_version s
  ∧ default EmptyString (rl_reason row) = reason s ∧ rl_status row = release_status s
  ∧ rl_created_at row = timestamptz (release_created_at s)
  ∧ select_acks u d = stored_ack <$> ack_status s.
Proof.
  intros Hag Hrow Hs. pose proof (ag_releases d m Hag u) as H. rewrite Hs in H.
  inversion H as [x y (targets & -> & _) Hx|]. subst. symmetry in Hx.
  apply read_release_Some in Hx as (row' & Hrow' & Heq). simplify_eq.
  destruct (bundle_from_value _) as [b|]; [|done]. simpl in Heq.
  injection Heq. intros. split_and!; congruence.
Qed.

Lemma release_present d m u :
  agree d m → present (pg_config_releases d) u ↔ is_Some (releases m !! u).
Proof.
  intros Hag. pose proof (ag_releases d m Hag u) as H. unfold read_release, select_release in H.
  unfold present. destruct (pg_config_releases d !! u), (releases m !! u); inversion H; naive_solver.
Qed.

(** The converse: a row and acknowledgements like those of a record are read as it. *)
Lemma release_agrees_intro d u row s :
  bundle_from_value (rl_manifest_json row) = Ok (bundle s) → u = release_id s →
  rl_scope_type row = scope_type s → rl_scope_id row = scope_id s →
  rl_release_type row = release_type s → rl_release_version row = release_version s →
  default EmptyString (rl_reason row) = reason s → rl_status row = release_status s →
  rl_created_at row = timestamptz (release_created_at s) →
  select_acks u d = stored_ack <$> ack_status s → release_ok s →
  pg_config_releases d !! u = Some row →
  option_Forall2 release_agrees (read_release u d) (Some s).
Proof.
  intros Hb -> H1 H2 H3 H4 H5 H6 H7 Ha [Hdom _] Hrow.
  assert (read_release (release_id s) d =
    Some (Ok (release_record (release_id s, row) (bundle s) (stored_ack <$> ack_status s)))) as ->.
  { apply read_release_Some. exists row. split; [done|]. by rewrite Hb, Ha. }
  constructor. exists (entries (stored_ack <$> ack_status s)).*1. split.
  - f_equal. unfold release_record, stored_release. by rewrite H1, H2, H3, H4, H5, H6, H7.
  - intros n. rewrite list_elem_of_fmap.
    trans (n ∈ dom (ack_status s)); [|rewrite Hdom; apply elem_of_list_to_set].
    rewrite elem_of_dom. split.
    + intros ([n' a] & -> & Ha'). apply elem_of_entries in Ha'. rewrite lookup_fmap in Ha'.
      apply fmap_Some in Ha' as (a0 & ? & _). by exists a0.
    + intros [a Hn]. exists (n, stored_ack a). split; [done|]. apply elem_of_entries.
      by rewrite lookup_fmap, Hn.
Qed.

Lemma read_release_ext d d' u :
  pg_config_releases d' !! u = pg_config_releases d !! u →
  (∀ n, pg_node_release_status d' !! (u, n) = pg_node_release_status d !! (u, n)) →
  read_release u d' = read_release u d.
Proof.
  intros Hr Hn. unfold read_release, select_release. by rewrite Hr, (select_acks_ext u d' d Hn).
Qed.

(** The times of the releases, by their rows. *)
Definition release_time (d : PgTables) (r : Uuid) : option DateTime :=
  rl_created_at <$> pg_config_releases d !! r.

Lemma times_distinct_sub d d' :
  pg_node_heartbeats d' ⊆ pg_node_heartbeats d →
  (∀ r n, present (pg_node_release_status d') (r, n) →
     present (pg_node_release_status d) (r, n) ∧ release_time d' r = release_time d r) →
  times_distinct d → times_distinct d'.
Proof.
  intros Hh Hr [H1 H2]. split.
  - intros h h' Hin Hin'. apply H1; by apply Hh.
  - intros n r r' x x' Hp Hp' Hx Hx' Hc.
    destruct (Hr _ _ Hp) as [Hq Ht], (Hr _ _ Hp') as [Hq' Ht']. unfold release_time in *.
    rewrite Hx in Ht. rewrite Hx' in Ht'. simpl in *. symmetry in Ht, Ht'.
    apply fmap_Some in Ht as (y & Hy & ?), Ht' as (y' & Hy' & ?).
    apply (H2 n r r' y y'); [done..|congruence].
Qed.

Lemma select_latest_ext d d' n :
  times_distinct d → times_distinct d' →
  (∀ r, present (pg_node_release_status d') (r, n) ↔ present (pg_node_release_status d) (r, n)) →
  (∀ r, present (pg_node_release_status d) (r, n) → release_time d' r = release_time d r) →
  select_latest_release n d' = select_latest_release n d.
Proof.
  intros Hd Hd' Hp Ht. apply option_eq. intros r. rewrite !select_latest_release_Some by done.
  unfold release_time in Ht. split.
  - intros (x & Hpr & Hx & Hmax). apply Hp in Hpr. pose proof (Ht _ Hpr) as Hrx. rewrite Hx in Hrx.
    symmetry in Hrx. apply fmap_Some in Hrx as (y & Hy & Hc). exists y. split_and!; [done..|].
    intros r' y' Hp' Hy'. pose proof (Ht _ Hp') as Hr'. rewrite Hy' in Hr'.
    apply fmap_Some in Hr' as (x' & Hx' & Hc'). rewrite <-Hc, Hc'. apply (Hmax r'); [|done].
    by apply Hp.
  - intros (x & Hpr & Hx & Hmax). pose proof (Ht _ Hpr) as Hrx. rewrite Hx in Hrx.
    apply fmap_Some in Hrx as (y & Hy & Hc). exists y. split_and!; [by apply Hp|done|].
    intros r' y' Hp' Hy'. apply Hp in Hp'. pose proof (Ht _ Hp') as Hr'. rewrite Hy' in Hr'.
    symmetry in Hr'. apply fmap_Some in Hr' as (x' & Hx' & Hc'). rewrite Hc', <-Hc. by apply (Hmax r').
Qed.

Lemma release_rows_refer d r n :
  pg_ok d → present (pg_node_release_status d) (r, n) →
  present (pg_config_releases d) r ∧ present (pg_nodes d) n.
Proof.
  intros (_ & _ & _ & (_ & _ & Hr) & _) [x Hx]. destruct (Hr _ _ Hx) as (? & ? & _). done.
Qed.

(** *** Publication *)

Definition target_row (r : ReleaseRecord) (n : Uuid) : NodeReleaseRow :=
  node_release_row (release_version r) (default (mkAck "pending" None None None) (ack_status r !! n)).

Definition put_node_releases (r : ReleaseRecord) (targets : list Uuid) (d : PgTables) : PgTables :=
  set_pg_node_release_status
    (foldl (λ t n, <[(release_id r, n) := target_row r n]> t) (pg_node_release_status d) targets) d.

Lemma lookup_put_node_releases (r : ReleaseRecord) (targets : list Uuid)
    (t : gmap (Uuid * Uuid) NodeReleaseRow) (k : Uuid * Uuid) :
  foldl (λ t n, <[(release_id r, n) := target_row r n]> t) t targets !! k =
  if decide (k.1 = release_id r ∧ k.2 ∈ targets) then Some (target_row r k.2) else t !! k.
Proof.
  revert t. induction targets as [|n targets IH]; intros t; simpl.
  { rewrite decide_False; [done|]. intros [_ ?%elem_of_nil]. done. }
  rewrite IH. destruct k as [u v]. simpl.
  destruct (decide (u = release_id r ∧ v ∈ targets)) as [[-> Hv]|Hn].
  - rewrite decide_True; [done|]. split; [done|by right].
  - destruct (decide (u = release_id r ∧ v = n)) as [[-> ->]|Hne].
    + rewrite lookup_insert_eq, decide_True; [done|]. split; [done|by left].
    + rewrite lookup_insert_ne by naive_solver. rewrite decide_False; [done|].
      rewrite elem_of_cons. naive_solver.
Qed.

(** A release newer than the others of its targets. *)
Lemma release_newer d m r n r' x' :
  agree d m → pg_ok d → fits (SaveRelease r) d m → n ∈ target_node_ids r →
  present (pg_node_release_status d) (r', n) → pg_config_releases d !! r' = Some x' →
  (rl_created_at x' < timestamptz (release_created_at r))%Z.
Proof.
  intros Hag Hok (_ & _ & _ & _ & Hnew) Hn [y Hy] Hx'.
  assert (is_Some (releases m !! r')) as [s Hs].
  { apply (release_present d m r' Hag). by exists x'. }
  destruct (release_row_agrees d m r' x' s Hag Hx' Hs) as (_ & _ & _ & _ & _ & _ & _ & _ & -> & Ha).
  apply (Hnew _ _ Hs). exists n. split; [done|].
  apply (f_equal (lookup n)) in Ha. rewrite lookup_select_acks, Hy, lookup_fmap in Ha. simpl in Ha.
  symmetry in Ha. apply fmap_Some in Ha as (a & ? & _). by exists a.
Qed.

Lemma select_put_acks r d :
  release_ok r → (∀ n, pg_node_release_status d !! (release_id r, n) = None) →
  select_acks (release_id r) (put_node_releases r (target_node_ids r) (upsert_release r d)) =
  stored_ack <$> ack_status r.
Proof.
  intros [Hdom _] Hnone. apply map_eq. intros n. rewrite lookup_select_acks, lookup_fmap. simpl.
  rewrite lookup_put_node_releases. simpl. unfold target_row.
  assert (is_Some (ack_status r !! n) ↔ n ∈ target_node_ids r) as Hn.
  { by rewrite <-elem_of_dom, Hdom, elem_of_list_to_set. }
  destruct (decide _) as [[_ Hin]|Hout].
  - apply Hn in Hin as [a ->]. done.
  - rewrite Hnone. destruct (ack_status r !! n); [|done]. exfalso. apply Hout. naive_solver.
Qed.

Lemma release_rows_free d r n :
  pg_ok d → pg_config_releases d !! r = None → pg_node_release_status d !! (r, n) = None.
Proof.
  intros Hok Hr. apply eq_None_not_Some. intros Hp.
  destruct (release_rows_refer d r n Hok Hp) as [[x Hx] _]. congruence.
Qed.

(** The rows after a publication: the new ones, and the old ones untouched. *)
Lemma published_rows d r :
  pg_ok d → pg_config_releases d !! release_id r = None →
  let d' := put_node_releases r (target_node_ids r) (upsert_release r d) in
  ∀ u n, pg_node_release_status d' !! (u, n) =
    if decide (u = release_id r)
    then (if decide (n ∈ target_node_ids r) then Some (target_row r n) else None)
    else pg_node_release_status d !! (u, n).
Proof.
  intros Hok Hnone d' u n. simpl. rewrite lookup_put_node_releases. simpl.
  destruct (decide (u = release_id r)) as [->|Hne].
  - destruct (decide (n ∈ target_node_ids r)).
    + by rewrite decide_True.
    + rewrite decide_False by tauto. by apply release_rows_free.
  - by rewrite decide_False by tauto.
Qed.

Lemma published_time d r u :
  pg_config_releases d !! release_id r = None →
  let d' := put_node_releases r (target_node_ids r) (upsert_release r d) in
  release_time d' u =
    if decide (u = release_id r) then Some (timestamptz (release_created_at r)) else release_time d u.
Proof.
  intros Hnone. unfold release_time. simpl. rewrite Hnone. case_decide; subst.
  - by rewrite lookup_insert_eq.
  - by rewrite lookup_insert_ne.
Qed.

Lemma times_distinct_published d m r :
  pg_ok d → times_distinct d → agree d m → fits (SaveRelease r) d m →
  pg_config_releases d !! release_id r = None →
  times_distinct (put_node_releases r (target_node_ids r) (upsert_release r d)).
Proof.
  intros Hok Hd Hag Hfit Hnone. set (d' := put_node_releases _ _ _).
  pose proof (published_rows d r Hok Hnone) as Hrows. fold d' in Hrows. cbv zeta in Hrows.
  pose proof (λ u, published_time d r u Hnone) as Htime. fold d' in Htime. cbv zeta in Htime.
  assert (∀ n u x, present (pg_node_release_status d') (release_id r, n) → u ≠ release_id r →
    present (pg_node_release_status d') (u, n) → pg_config_releases d' !! u = Some x →
    rl_created_at x ≠ timestamptz (release_created_at r)) as Hnew.
  { intros n u x Hp Hu Hq Hx. unfold present in Hp, Hq. rewrite Hrows in Hp, Hq.
    rewrite decide_True in Hp by done. rewrite decide_False in Hq by done.
    destruct (decide (n ∈ target_node_ids r)) as [Hn|]; [|by destruct Hp].
    simpl in Hx. rewrite lookup_insert_ne in Hx by done.
    pose proof (release_newer d m r n u x Hag Hok Hfit Hn Hq Hx). lia. }
  assert (∀ x, pg_config_releases d' !! release_id r = Some x →
    rl_created_at x = timestamptz (release_created_at r)) as Hself.
  { intros x Hx. specialize (Htime (release_id r)). unfold release_time in Htime.
    rewrite Hx, decide_True in Htime by done. by injection Htime. }
  split; [apply Hd|]. intros n u v x y Hp Hq Hx Hy Hc.
  destruct (decide (u = release_id r)) as [->|Hu], (decide (v = release_id r)) as [->|Hv]; [done|..].
  - destruct (Hnew n v y Hp Hv Hq Hy). rewrite <-(Hself _ Hx). done.
  - destruct (Hnew n u x Hq Hu Hp Hx). rewrite <-(Hself _ Hy). done.
  - unfold present in Hp, Hq. rewrite Hrows, decide_False in Hp by done.
    rewrite Hrows, decide_False in Hq by done. simpl in Hx, Hy.
    rewrite lookup_insert_ne in Hx by done. rewrite lookup_insert_ne in Hy by done. by apply (release_times _ Hd n u v x y).
Qed.

Lemma agree_save_release d m r :
  pg_ok d → times_distinct d → agree d m → fits (SaveRelease r) d m →
  let d' := put_node_releases r (target_node_ids r) (upsert_release r d) in
  agree d' (Store.save_release r m) ∧ times_distinct d'.
Proof.
  intros Hok Hd Hag Hfit d'. pose proof Hfit as (Hfresh & _ & Hrok & Hb & _).
  assert (pg_config_releases d !! release_id r = None) as Hnone.
  { apply eq_None_not_Some. intros H. apply (release_present d m _ Hag) in H as [? ?]. congruence. }
  pose proof (times_distinct_published d m r Hok Hd Hag Hfit Hnone) as Hd'. fold d' in Hd'.
  split; [|done]. split; try apply Hag.
  - intros u. simpl. destruct (decide (release_id r = u)) as [<-|].
    + rewrite lookup_insert_eq.
      apply (release_agrees_intro _ _ (release_row r (timestamptz (release_created_at r)))); try done.
      * apply select_put_acks; [done|]. intros k. by apply release_rows_free.
      * simpl. by rewrite lookup_insert_eq, Hnone.
    + rewrite lookup_insert_ne by done. rewrite (read_release_ext d); [apply Hag|..].
      * simpl. by rewrite lookup_insert_ne.
      * intros k. unfold d'. rewrite (published_rows d r Hok Hnone). by rewrite decide_False.
  - intros n. simpl. rewrite lookup_latest_foldl. case_decide as Hn.
    + apply select_latest_release_Some; [done|].
      exists (release_row r (timestamptz (release_created_at r))). split_and!.
      * unfold present, d'. rewrite (published_rows d r Hok Hnone).
        rewrite !decide_True by done. done.
      * simpl. by rewrite lookup_insert_eq, Hnone.
      * intros u x Hp Hx. simpl in Hx |- *. destruct (decide (release_id r = u)) as [<-|Hne].
        { rewrite lookup_insert_eq in Hx. injection Hx as <-. simpl. by rewrite Hnone. }
        rewrite lookup_insert_ne in Hx by done. unfold present, d' in Hp.
        rewrite (published_rows d r Hok Hnone), decide_False in Hp by done.
        pose proof (release_newer d m r n u x Hag Hok Hfit Hn Hp Hx). lia.
    + rewrite <-(ag_latest d m Hag n). apply select_latest_ext; [done..| |].
      * intros u. unfold present, d'. rewrite (published_rows d r Hok Hnone).
        case_decide; [|done]. subst. rewrite decide_False, release_rows_free by done. done.
      * intros u [x Hx]. unfold d'. rewrite published_time by done. rewrite decide_False; [done|].
        intros ->. by rewrite release_rows_free in Hx.
Qed.
End Releases.

(** *** Acknowledgements *)

Section Acks.
Context `{EX : !Extern, EL : !ExternLaws, PX : !PgExtern, CO : !Collation}.
Implicit Types (d : PgTables) (m : MemoryState).

Definition acked (r n : Uuid) (a : NodeAckRecord) (d : PgTables) : PgTables :=
  let d1 := update_ack_row r n a d in
  update_release_row_status r (aggregate_release_status (select_acks r d1)) d1.

Lemma present_alter `{Countable K} {A} (f : A → A) k j (t : gmap K A) :
  present (alter f k t) j ↔ present t j.
Proof. unfold present. apply lookup_alter_is_Some. Qed.

Lemma acked_time r n a d u : release_time (acked r n a d) u = release_time d u.
Proof.
  unfold release_time. simpl. destruct (decide (r = u)) as [<-|].
  - rewrite lookup_alter_eq. by destruct (pg_config_releases d !! r).
  - by rewrite lookup_alter_ne.
Qed.

Lemma times_distinct_acked r n a d : times_distinct d → times_distinct (acked r n a d).
Proof.
  apply times_distinct_sub; [done|]. intros u v Hp. split; [|apply acked_time].
  by apply present_alter in Hp.
Qed.

Lemma select_acked r n a d :
  present (pg_node_release_status d) (r, n) →
  select_acks r (update_ack_row r n a d) = <[n := stored_ack a]> (select_acks r d).
Proof.
  intros [x Hx]. apply map_eq. intros k. rewrite lookup_select_acks. simpl.
  destruct (decide (n = k)) as [<-|Hne].
  - by rewrite lookup_alter_eq, Hx, lookup_insert_eq.
  - rewrite lookup_alter_ne by congruence. by rewrite lookup_insert_ne, lookup_select_acks.
Qed.

Lemma agree_ack d m r n a :
  pg_ok d → times_distinct d → agree d m → repo_ok m → fits (AckRelease r n a) d m →
  agree (acked r n a d) (Store.update_release_ack r n a m).
Proof.
  intros Hok Hd Hag Hm Hfit. split; try apply Hag.
  - intros u. simpl. destruct (decide (r = u)) as [<-|Hne].
    + rewrite lookup_alter_eq. pose proof (release_present d m r Hag) as Hp.
      destruct (releases m !! r) as [s|] eqn:Hs; simpl.
      * destruct (proj2 Hp) as [row Hrow]; [done|].
        destruct (release_row_agrees d m r row s Hag Hrow Hs)
          as (H1 & H2 & H3 & H4 & H5 & H6 & H7 & H8 & H9 & Ha).
        pose proof (releases_ok _ Hm _ _ Hs) as Hrok. simpl in Hrok. specialize (Hfit _ Hs).
        assert (select_acks r (update_ack_row r n a d) = stored_ack <$> <[n := a]> (ack_status s))
          as Hacks.
        { rewrite select_acked, Ha, fmap_insert; [done|].
          assert (is_Some (select_acks r d !! n)) as [y Hy].
          { rewrite Ha, lookup_fmap, fmap_is_Some, <-elem_of_dom, (release_acks _ Hrok).
            by apply elem_of_list_to_set. }
          rewrite lookup_select_acks in Hy. apply fmap_Some in Hy as (z & ? & _). by exists z. }
        set (status := aggregate_release_status (select_acks r (update_ack_row r n a d))).
        apply (release_agrees_intro _ _ (set_rl_status status row)); try done.
        -- unfold status. rewrite Hacks. apply aggregate_stored.
        -- by apply ack_release_record_ok.
        -- simpl. by rewrite lookup_alter_eq, Hrow.
      * assert (pg_config_releases d !! r = None) as Hnone.
        { apply eq_None_not_Some. intros [? ?]%Hp. congruence. }
        unfold read_release, select_release. simpl. rewrite lookup_alter_eq, Hnone. constructor.
    + rewrite lookup_alter_ne by done. rewrite (read_release_ext d); [apply Hag|..]; simpl.
      * by rewrite lookup_alter_ne.
      * intros k. by rewrite lookup_alter_ne by congruence.
  - intros v. simpl. rewrite <-(ag_latest d m Hag v).
    apply select_latest_ext; [done|by apply times_distinct_acked|..].
    + intros u. apply present_alter.
    + intros u _. apply acked_time.
Qed.
End Acks.

(** ** Deletion of a node *)

Section DeleteNode.
Context `{EX : !Extern, EL : !ExternLaws, PX : !PgExtern, CO : !Collation}.
Implicit Types (d : PgTables) (m : MemoryState).

Lemma lookup_filter_node {A} (u : Uuid) (Q : (Uuid * Uuid) * A → Prop) `{!∀ e, Decision (Q e)}
    (t : gmap (Uuid * Uuid) A) v n :
  (∀ e, Q e ↔ e.1.2 ≠ u) →
  filter Q t !! (v, n) = if decide (n ≠ u) then t !! (v, n) else None.
Proof.
  intros HQ. apply option_eq. intros x. rewrite map_lookup_filter_Some, HQ. simpl.
  case_decide; naive_solver.
Qed.

Lemma latest_heartbeat_filter d d' u v :
  times_distinct d → times_distinct d' → u ≠ v →
  pg_node_heartbeats d' = filter (λ h, hr_node_id h ≠ u) (pg_node_heartbeats d) →
  latest_heartbeat d' v = latest_heartbeat d v.
Proof.
  intros Hd Hd' Huv Hf. apply option_eq. intros h. rewrite !latest_heartbeat_Some by done.
  rewrite Hf. setoid_rewrite list_elem_of_filter. naive_solver.
Qed.

Lemma select_bindings_unbind d d' u v :
  (∀ n, pg_site_node_bindings d' !! (v, n) =
        if decide (n ≠ u) then pg_site_node_bindings d !! (v, n) else None) →
  select_bindings v d' ≡ₚ filter (λ b, binding_node_id b ≠ u) (select_bindings v d).
Proof.
  intros Hb. apply NoDup_Permutation.
  - eapply NoDup_fmap_1, NoDup_select_bindings.
  - eapply NoDup_filter, NoDup_fmap_1, NoDup_select_bindings.
  - intros b. rewrite list_elem_of_filter, !elem_of_pg_bindings, Hb.
    destruct (decide (binding_node_id b ≠ u)); naive_solver.
Qed.

Lemma select_acks_delete d d' u r :
  (∀ n, pg_node_release_status d' !! (r, n) =
        if decide (n ≠ u) then pg_node_release_status d !! (r, n) else None) →
  select_acks r d' = delete u (select_acks r d).
Proof.
  intros Hr. apply map_eq. intros n. rewrite lookup_select_acks, Hr.
  destruct (decide (n ≠ u)) as [Hn|Hn].
  - by rewrite lookup_delete_ne, lookup_select_acks.
  - apply dec_stable in Hn as ->. by rewrite lookup_delete_eq.
Qed.

(** A release without one of its targets. *)
Lemma untarget_node_status u s :
  release_ok s →
  (is_Some (ack_status s !! u) →
   release_status s = aggregate_release_status (delete u (ack_status s))) →
  release_status (untarget_node u s) = release_status s.
Proof.
  intros Hok Hs. simpl. destruct (ack_status s !! u) eqn:Hu.
  - symmetry. by apply Hs.
  - rewrite delete_id by done. symmetry. apply Hok.
Qed.

Lemma ag_nodes_deleted d m u r :
  times_distinct d → times_distinct (delete_node_row u d) → agree d m → pg_nodes d !! u = Some r →
  ∀ v, select_node v (delete_node_row u d) = stored_node <$> delete u (nodes m) !! v.
Proof.
  intros Hd Hd' Hag Hu v. pose proof (ag_nodes d m Hag v) as H. revert Hd'.
  unfold delete_node_row. rewrite Hu. set (d' := set_pg_node_operations _ _). intros Hd'.
  unfold select_node, node_record in *. simpl.
  destruct (decide (u = v)) as [<-|Hne]; [by rewrite !lookup_delete_eq|].
  rewrite !lookup_delete_ne by done. rewrite <-H.
  by rewrite (latest_heartbeat_filter d d' u v Hd Hd' Hne).
Qed.

Lemma ag_sites_unbound d m u r :
  agree d m → pg_nodes d !! u = Some r →
  ∀ v, option_Forall2 site_agrees (read_site v (delete_node_row u d))
         ((unbind_node u <$> sites m) !! v).
Proof.
  intros Hag Hu v. pose proof (ag_sites d m Hag v) as H. unfold delete_node_row. rewrite Hu.
  set (d' := set_pg_node_operations _ _). rewrite lookup_fmap. unfold read_site, select_site in *.
  simpl. destruct (pg_sites d !! v), (sites m !! v);
    inversion H as [x y [Heq Hp]|]; subst; constructor.
  split; [exact (f_equal (set_bindings (select_bindings v d')) Heq)|]. simpl in *.
  rewrite (select_bindings_unbind d d' u v), Hp; [done|]. intros n.
  by apply lookup_filter_node.
Qed.

Lemma ag_releases_untargeted d m u r :
  agree d m → repo_ok m → pg_nodes d !! u = Some r →
  map_Forall (λ _ r, is_Some (ack_status r !! u) →
    release_status r = aggregate_release_status (delete u (ack_status r))) (releases m) →
  ∀ v, option_Forall2 release_agrees (read_release v (delete_node_row u d))
         ((untarget_node u <$> releases m) !! v).
Proof.
  intros Hag Hm Hu Hst v. pose proof (release_present d m v Hag) as Hp. rewrite lookup_fmap.
  assert (∀ n, pg_node_release_status (delete_node_row u d) !! (v, n) =
    if decide (n ≠ u) then pg_node_release_status d !! (v, n) else None) as Hrows.
  { intros n. unfold delete_node_row. rewrite Hu. by apply lookup_filter_node. }
  pose proof (select_acks_delete d _ u v Hrows) as Hacks. clear Hrows.
  assert (pg_config_releases (delete_node_row u d) = pg_config_releases d) as Hrel
    by (unfold delete_node_row; by rewrite Hu).
  destruct (releases m !! v) as [s|] eqn:Hs; simpl.
  - destruct (proj2 Hp) as [row Hrow]; [done|].
    destruct (release_row_agrees d m v row s Hag Hrow Hs)
      as (H1 & H2 & H3 & H4 & H5 & H6 & H7 & H8 & H9 & Ha).
    pose proof (releases_ok _ Hm _ _ Hs) as Hrok. simpl in Hrok.
    apply (release_agrees_intro _ _ row); try done.
    + rewrite untarget_node_status; [done|done|]. exact (Hst _ _ Hs).
    + rewrite Hacks, Ha. simpl. by rewrite fmap_delete.
    + by apply untarget_node_ok.
    + by rewrite Hrel.
  - unfold read_release, select_release. rewrite Hrel.
    destruct (pg_config_releases d !! v) eqn:Hv; [|constructor].
    destruct (proj1 Hp) as [? ?]; [by eexists|done].
Qed.

Lemma times_distinct_deleted d u : times_distinct d → times_distinct (delete_node_row u d).
Proof.
  intros Hd. unfold delete_node_row. destruct (pg_nodes d !! u) as [row|]; [|done].
  apply (times_distinct_sub d); [..|done]; simpl.
  - intros h. rewrite list_elem_of_filter. tauto.
  - intros r n [x Hx]. rewrite (lookup_filter_node u) in Hx by done.
    case_decide; [|done]. split; [by exists x|done].
Qed.

Lemma agree_delete_node d m u :
  times_distinct d → agree d m → repo_ok m → fits (DeleteNode u) d m →
  agree (delete_node_row u d) (Store.delete_node u m).
Proof.
  intros Hd Hag Hm [Hst Hev]. pose proof (node_present d m u Hag) as Hp. unfold present in Hp.
  pose proof (times_distinct_deleted d u Hd) as Hd'. unfold Store.delete_node.
  destruct (pg_nodes d !! u) as [r|] eqn:Hu.
  2: { unfold delete_node_row. rewrite Hu. destruct (nodes m !! u); [|done].
       destruct (proj2 Hp) as [? ?]; [by eexists|done]. }
  destruct (proj1 Hp) as [nd Hnd]; [done|]. rewrite Hnd.
  pose proof (ag_nodes_deleted d m u r Hd Hd' Hag Hu) as Hnodes.
  pose proof (ag_sites_unbound d m u r Hag Hu) as Hsites.
  pose proof (ag_releases_untargeted d m u r Hag Hm Hu Hst) as Hrels.
  split; [exact Hnodes|exact Hsites|exact Hrels|..].
  all: clear Hnodes Hsites Hrels; revert Hd'; unfold delete_node_row; rewrite Hu; intros Hd'.
  2-7: apply Hag.
  - intros n. simpl. destruct (decide (u = n)) as [<-|Hne].
    + rewrite lookup_delete_eq. apply eq_None_not_Some.
      intros [v (x & [y Hy] & _)%select_latest_release_Some]; [|done]. simpl in Hy.
      rewrite (lookup_filter_node u) in Hy by done. by rewrite decide_False in Hy by auto.
    + rewrite lookup_delete_ne by done. rewrite <-(ag_latest d m Hag n).
      apply select_latest_ext; [done..| |done]. intros v. unfold present. simpl.
      rewrite (lookup_filter_node u) by done. by rewrite decide_True by auto.
  - intros v. simpl. rewrite lookup_fmap.
    trans (filter (λ e, op_node_id e.2 ≠ u) (pg_node_operations d) !! v).
    { destruct (filter _ _ !! v) as [o|] eqn:Ho; simpl; [|done]. f_equal. unfold detach_event.
      apply map_lookup_filter_Some in Ho as [Ho _]. by rewrite (Hev _ _ Ho). }
    apply option_eq. intros o. rewrite map_lookup_filter_Some, fmap_Some. simpl.
    rewrite (ag_operations d m Hag), fmap_Some. setoid_rewrite live_operation_Some. simpl. split.
    + intros [(o' & [Ho' Hl] & ->) Hne]. exists o'. simpl in Hne. by rewrite lookup_delete_ne by auto.
    + intros (o' & [Ho' Hl] & ->). apply lookup_delete_is_Some in Hl as [? ?]. split; [|by auto].
      eauto.
Qed.
End DeleteNode.

(** ** Every write refines *)

Section Refinement.
Context {N : Type} `{EX : !Extern, EL : !ExternLaws, PX : !PgExtern, CO : !Collation, DBE : !DbExtern}.
Implicit Types (d : PgTables) (m : MemoryState).

(** Tables within the schema that agree with a state within its invariant. *)
Record linked d m : Prop := {
  linked_schema : pg_ok d;
  linked_times : times_distinct d;
  linked_agree : agree d m;
  linked_repo : repo_ok m;
}.

Definition write_post {A} (w : Write A) (now : DateTime) d m (r : Result A string) d' : Prop :=
  match r with
  | Ok a => linked d' (mem_write w now m).2 ∧ result_agrees w a (mem_write w now m).1
  | Err _ => atomic w → d' = d
  end.

Lemma mem_write_ok {A} (w : Write A) d now m :
  repo_ok m → fits w d m → repo_ok (mem_write w now m).2.
Proof.
  intros Hm Hfit. destruct w; simpl in Hfit |- *; try done; eapply repo_step_ok; try done;
    try (constructor; naive_solver).
  - constructor. destruct Hfit as (o' & Ho' & (_ & Heq & _) & _). rewrite <-Heq.
    exact (operations_templates _ Hm _ _ Ho').
Qed.

(** One statement. *)
Lemma refine_execute (w : Write unit) now d m f :
  linked d m → fits w d m → (∀ a b, result_agrees w a b) →
  (pg_ok (f d) → times_distinct (f d) ∧ agree (f d) (mem_write w now m).2) →
  dbt (N := N) d (execute f) (write_post w now d m).
Proof.
  intros Hl Hfit Hres Hf. sql1; [done..|]. destruct Hf as [? ?]; [done|].
  split; [|done]. split; [done..|]. apply (mem_write_ok w d); [apply Hl|done].
Qed.

Lemma refine_try_execute (w : Write unit) now d m f :
  linked d m → fits w d m → (∀ a b, result_agrees w a b) →
  (∀ d', f d = Some d' → times_distinct d' ∧ agree d' (mem_write w now m).2) →
  dbt (N := N) d (try_execute f) (write_post w now d m).
Proof.
  intros Hl Hfit Hres Hf. sql1; [done|]. edestruct Hf as [? ?]; [done|].
  split; [|done]. split; [done..|]. apply (mem_write_ok w d); [apply Hl|done].
Qed.

(** A transaction: what its body leaves on success is what is left. *)
Lemma refine_transaction (w : Write unit) now d m body :
  linked d m → fits w d m → (∀ a b, result_agrees w a b) →
  dbt (N := N) d body (λ r d', match r with
    | Ok _ => pg_ok d' ∧ times_distinct d' ∧ agree d' (mem_write w now m).2
    | Err _ => True
    end) →
  dbt (N := N) d (transaction body) (write_post w now d m).
Proof.
  intros Hl Hfit Hres Hb. sql1; [done|]. eapply dbt_mono; [exact Hb|].
  intros [a|e] d' H; [|done]. destruct H as (? & ? & ?). split; [|done].
  split; [done..|]. apply (mem_write_ok w d); [apply Hl|done].
Qed.

Lemma dbt_insert_bindings u bs d :
  pg_ok d →
  dbt (N := N) d (insert_bindings u bs) (λ r d', match r with
    | Ok _ => d' = put_bindings u bs d ∧ NoDup (binding_node_id <$> bs) ∧ pg_ok d'
              ∧ ∀ b, b ∈ bs → pg_site_node_bindings d !! (u, binding_node_id b) = None
    | Err _ => True
    end).
Proof.
  revert d. induction bs as [|b bs IH]; intros d Hok; simpl.
  - apply dbt_ret. split_and!; [by destruct d|constructor|done|]. by intros b ?%elem_of_nil.
  - sql1. sql1; [done|]. eapply dbt_mono; [by apply IH|]. intros [a|e] d'; [|done].
    intros (-> & Hnd & Hok' & Hfree). simpl in Hfree. split_and!; [done| |done|].
    + apply NoDup_cons. split; [|done]. intros (b' & Heq & Hb')%list_elem_of_fmap.
      specialize (Hfree _ Hb'). by rewrite <-Heq, lookup_insert_eq in Hfree.
    + intros b' [->|Hb']%elem_of_cons; [done|]. specialize (Hfree _ Hb').
      by apply lookup_insert_None in Hfree as [? _].
Qed.

Lemma dbt_save_node_releases r targets d :
  pg_ok d →
  dbt (N := N) d (save_node_releases r targets) (λ x d', match x with
    | Ok _ => d' = put_node_releases r targets d ∧ pg_ok d'
    | Err _ => True
    end).
Proof.
  revert d. induction targets as [|n targets IH]; intros d Hok; simpl.
  - apply dbt_ret. split; [by destruct d|done].
  - sql1. sql1; [done..|]. eapply dbt_mono; [by apply IH|]. by intros [a|e] d'.
Qed.

(** The in-memory repository claims the operation that PostgreSQL picks. *)
Lemma mem_claim m n now o t :
  repo_ok m →
  min_by (cmp_on op_created_at Z.compare)
    (filter (claimable n) (values (node_operations m))) = Some o →
  operation_templates m !! op_template_id o = Some t →
  node_operations m !! operation_id o = Some o ∧ claimable n o
  ∧ Store.claim_next_node_operation n now m =
    (Some (mkClaimed (set_started_at (Some now) (set_exec_status "running" o)) t),
     set_node_operations
       (<[operation_id o := set_started_at (Some now) (set_exec_status "running" o)]>
          (node_operations m)) m).
Proof.
  intros Hm Hmin Ht.
  pose proof (min_by_elem _ _ _ Hmin) as [Hc [u Hu]%elem_of_values]%list_elem_of_filter.
  pose proof (operations_keyed _ Hm _ _ Hu) as Hid. simpl in Hid. subst u. split_and!; [done..|].
  unfold Store.claim_next_node_operation. rewrite Hmin. simpl. rewrite Hu. simpl. by rewrite Ht.
Qed.

Lemma claim_refines (s : Db PgTables N) m n :
  linked (db s) m → fits (ClaimNext n) (db s) m →
  wp (claim_next_node_operation n) s
    (λ r s', write_post (ClaimNext n) (clock (env_clock (env s))) (db s) m r (db s')).
Proof.
  intros Hl Hfit. pose proof Hl as [Hok Hd Hag Hm]. pose proof Hfit as [Hn Hc].
  pose proof (claim_pick (db s) m n Hok Hag Hm Hfit) as Hpick. set (now := clock _).
  apply wp_transaction; [by intros e s' ? ?|]. wp1. apply wp_query; [done|]. simpl.
  destruct (select_claimable n (db s)) as [[o t]|].
  - destruct Hpick as (o' & t' & Hmin & -> & Ht' & Ht).
    destruct (mem_claim m n now o' t' Hm Hmin Ht') as (Hu & [Hnode Hst] & Hmem).
    destruct (Hc _ _ Hu (conj Hnode Hst)) as [Hs _].
    wp1. apply wp_utc_now. simpl. wp1. apply wp_execute; [done|]. simpl. intros Hok'. wp1. simpl.
    pose proof (mem_write_ok (ClaimNext n) (db s) now m Hm Hfit) as Hm'. simpl in Hm'.
    rewrite Hmem in Hm' |- *. split.
    + split; [done|by apply (times_distinct_ext (db s))|by apply (agree_start_operation _ m n)|done].
    + constructor. split; [done|]. simpl. by rewrite Ht.
  - wp1. simpl. unfold Store.claim_next_node_operation. rewrite Hpick. by split; [|constructor].
Qed.

Lemma save_site_refines now d m s :
  linked d m → fits (SaveSite s) d m → dbt (N := N) d (save_site s) (write_post (SaveSite s) now d m).
Proof.
  intros Hl Hfit. apply refine_transaction; [done..|]. pose proof Hl as [Hok Hd Hag Hm].
  sqls; try done. eapply dbt_mono; [by apply dbt_insert_bindings|]. intros [a|e] d'; [|done].
  intros (-> & Hnd & Hok' & _). split_and!; [done|by apply (times_distinct_ext d)|].
  by apply agree_save_site.
Qed.

Lemma save_release_refines now d m r :
  linked d m → fits (SaveRelease r) d m →
  dbt (N := N) d (save_release r) (write_post (SaveRelease r) now d m).
Proof.
  intros Hl Hfit. apply refine_transaction; [done..|]. pose proof Hl as [Hok Hd Hag Hm].
  sqls; try done. eapply dbt_mono; [by apply dbt_save_node_releases|]. intros [a|e] d'; [|done].
  intros [-> Hok']. split; [done|]. apply and_comm. by apply agree_save_release.
Qed.

Lemma update_release_ack_refines now d m r n a :
  linked d m → fits (AckRelease r n a) d m →
  dbt (N := N) d (update_release_ack r n a) (write_post (AckRelease r n a) now d m).
Proof.
  intros Hl Hfit. pose proof Hl as [Hok Hd Hag Hm]. unfold update_release_ack, load_release_acks.
  sqls; try (by intros []). split; [|done].
  split; [done|by apply times_distinct_acked|..].
  - by apply agree_ack.
  - by apply (mem_write_ok (AckRelease r n a) d now).
Qed.

(** The statements that write neither heartbeats nor releases keep their times. *)
Ltac keep_times d :=
  apply (times_distinct_ext d); [..|done];
  unfold delete_site_row, delete_provider_row, delete_zone_row, upsert_node, upsert_zone,
    upsert_user in *; simpl in *; repeat case_match; by simplify_eq/=.

Lemma save_node_refines now d m n :
  linked d m → fits (SaveNode n) d m → dbt (N := N) d (save_node n) (write_post (SaveNode n) now d m).
Proof.
  intros Hl Hfit. apply refine_transaction; [done..|]. pose proof Hl as [Hok Hd Hag Hm].
  sqls; try done. split_and!; [done| |by eapply agree_save_node].
  unfold upsert_node in *. destruct (cast_inet (public_ip n)); [|done].
  destruct (cast_inet (private_ip n)); [|done]. simplify_eq/=. by apply (times_distinct_ext d).
Qed.

Lemma record_heartbeat_refines now d m h :
  linked d m → fits (RecordHeartbeat h) d m →
  dbt (N := N) d (record_heartbeat h) (write_post (RecordHeartbeat h) now d m).
Proof.
  intros Hl Hfit. apply refine_transaction; [done..|]. pose proof Hl as [Hok Hd Hag Hm].
  sqls; try done. split; [done|]. apply and_comm. by eapply agree_heartbeat.
Qed.

Lemma delete_sessions_refines now d m u e :
  linked d m →
  dbt (N := N) d (delete_admin_sessions_for_user u e) (write_post (DeleteSessions u e) now d m).
Proof.
  intros Hl. pose proof Hl as [Hok Hd Hag Hm]. unfold delete_admin_sessions_for_user.
  destruct e as [h|]; (apply refine_execute; [done..|]); intros _;
    (split; [by apply (times_distinct_ext d)|]); apply agree_filter_sessions; try done;
    intros k x; simpl; [|naive_solver]. destruct (decide (k = h)); naive_solver.
Qed.

Lemma retarget_refines now d m u p q :
  linked d m →
  dbt (N := N) d (update_active_failover_policy_targets u p q)
    (write_post (RetargetPolicies u p q) now d m).
Proof.
  intros [Hok Hd Hag Hm]. unfold update_active_failover_policy_targets. sql1; [done|].
  simplify_eq/=. split; [|done]. split; [done|by apply (times_distinct_ext d)|..|done].
  by destruct Hag.
Qed.

Lemma write_refines_dbt {A} (w : Write A) now d m :
  linked d m → fits w d m → match w with ClaimNext _ => False | _ => True end →
  dbt (N := N) d (pg_write w) (write_post w now d m).
Proof.
  intros Hl Hfit Hw. pose proof Hl as [Hok Hd Hag Hm].
  destruct w; try done; clear Hw; simpl pg_write;
    auto using save_node_refines, record_heartbeat_refines, save_site_refines, retarget_refines,
      save_release_refines, update_release_ack_refines, delete_sessions_refines;
    (first [apply refine_execute | apply refine_try_execute]; [done..|]; intros; simpl in Hfit;
     split; [first [by apply times_distinct_deleted | keep_times d]|]; simpl);
    auto using agree_delete_node, agree_delete_site, agree_delete_provider, agree_delete_zone,
      agree_save_certificate, agree_save_order, agree_touch_user, agree_save_session,
      agree_touch_session, agree_delete_session, agree_delete_template.
  - by apply agree_save_provider; [|apply Hfit].
  - by eapply agree_save_zone; [done|done|apply Hfit|apply Hfit|apply Hm|].
  - by eapply agree_save_user; [done|done|apply Hfit|apply Hfit|].
  - by apply agree_save_template; [|apply Hfit].
  - by apply agree_save_operation; [| |apply Hfit].
  - destruct Hfit as (o' & Ho' & Hsame & ? & ?).
    eapply agree_update_operation; [done..| |done|done]. exact (operations_keyed _ Hm _ _ Ho').
Qed.

Lemma write_refines_wp {A} (w : Write A) (s : Db PgTables N) m :
  linked (db s) m → fits w (db s) m →
  wp (pg_write w) s (λ r s', write_post w (clock (env_clock (env s))) (db s) m r (db s')).
Proof.
  intros Hl Hfit.
  destruct w; try (by apply claim_refines);
    exact (write_refines_dbt _ (clock (env_clock (env s))) (db s) m Hl Hfit I s eq_refl).
Qed.

(** C5: Whatever the database answers, a write that fits either fails and, but for the
    acknowledgement of a release, leaves the tables as they were, or succeeds and
    leaves tables that agree with what the in-memory repository makes of the call at
    that time. *)
Theorem pg_writes_refine {A} (w : Write A) (s : Db PgTables N) m :
  linked (db s) m → fits w (db s) m →
  let '(r, s') := pg_write w s in
  match r with
  | Ok a =>
      let '(b, m') := mem_write w (clock (env_clock (env s))) m in
      linked (db s') m' ∧ result_agrees w a b
  | Err _ => atomic w → db s' = db s
  end.
Proof.
  intros Hl Hfit. pose proof (write_refines_wp w s m Hl Hfit) as H. unfold wp, write_post in H.
  destruct (pg_write w s) as [[a|e] s']; [|done]. by destruct (mem_write w _ m).
Qed.
End Refinement.
