(* ===== verification/PgReads.v ===== *)
(** * The two repositories: reads

    Every method of [HubRepository] that reads gives, on tables that agree with a
    state, what the in-memory repository gives on that state: the stored form of the
    same records, lists up to their order.  The only errors are the database's own:
    rows that agree are always decoded. *)

From stdpp Require Import prelude strings pretty gmap sorting.
From Stdlib Require Import Ascii.
From S2P Require Import Prelude RustStr Json Extern AppError Domain SiteConfig ConfigCompiler Records Store HubReleases Io Sql Postgres PgAgree PgWrites.

(** ** Calls *)

Inductive Read : Type → Type :=
  | GetNode (u : Uuid) : Read (option NodeRecord)
  | NodeIdByCode (code : string) : Read (option Uuid)
  | ListNodes : Read (list NodeRecord)
  | DeleteGuard (u : Uuid) : Read NodeDeleteGuard
  | GetSite (u : Uuid) : Read (option SiteRecord)
  | SiteIdByCode (code : string) : Read (option Uuid)
  | ListSites : Read (list SiteRecord)
  | GetRelease (u : Uuid) : Read (option ReleaseRecord)
  | ReleaseByVersion (version : string) : Read (option ReleaseRecord)
  | ListReleases : Read (list ReleaseRecord)
  | LatestRelease (n : Uuid) : Read (option Uuid)
  | GetProvider (u : Uuid) : Read (option DnsProviderRecord)
  | ProviderByName (name : string) : Read (option DnsProviderRecord)
  | ListProviders : Read (list DnsProviderRecord)
  | GetZone (u : Uuid) : Read (option DnsZoneRecord)
  | ZoneByProviderName (p : Uuid) (name : string) : Read (option DnsZoneRecord)
  | ListZones : Read (list DnsZoneRecord)
  | GetOrder (u : Uuid) : Read (option CertificateOrderRecord)
  | ListOrders : Read (list CertificateOrderRecord)
  | UserByName (name : string) : Read (option AdminUserRecord)
  | SessionByToken (h : string) : Read (option AdminSessionContext)
  | GetTemplate (u : Uuid) : Read (option OperationTemplateRecord)
  | TemplateByName (name : string) : Read (option OperationTemplateRecord)
  | ListTemplates : Read (list OperationTemplateRecord)
  | GetOperation (u : Uuid) : Read (option NodeOperationRecord)
  | ListOperations (n : Uuid) : Read (list NodeOperationRecord).

Section Calls.
Context {N : Type} `{EX : !Extern, PX : !PgExtern, CO : !Collation, DBE : !DbExtern}.

Definition pg_read {A} (q : Read A) : Pg N A :=
  match q with
  | GetNode u => Postgres.node u
  | NodeIdByCode c => Postgres.node_id_by_code c
  | ListNodes => Postgres.list_nodes
  | DeleteGuard u => Postgres.node_delete_guard u
  | GetSite u => Postgres.site u
  | SiteIdByCode c => Postgres.site_id_by_code c
  | ListSites => Postgres.list_sites
  | GetRelease u => Postgres.release u
  | ReleaseByVersion v => Postgres.release_by_version v
  | ListReleases => Postgres.list_releases
  | LatestRelease n => Postgres.latest_release_id_for_node n
  | GetProvider u => Postgres.dns_provider u
  | ProviderByName c => Postgres.dns_provider_by_name c
  | ListProviders => Postgres.list_dns_providers
  | GetZone u => Postgres.dns_zone u
  | ZoneByProviderName p c => Postgres.dns_zone_by_provider_name p c
  | ListZones => Postgres.list_dns_zones
  | GetOrder u => Postgres.certificate_order u
  | ListOrders => Postgres.list_certificate_orders
  | UserByName c => Postgres.admin_user_by_username c
  | SessionByToken h => Postgres.admin_session_by_token_hash h
  | GetTemplate u => Postgres.operation_template u
  | TemplateByName c => Postgres.operation_template_by_name c
  | ListTemplates => Postgres.list_operation_templates
  | GetOperation u => Postgres.node_operation u
  | ListOperations n => Postgres.list_node_operations n
  end.

Definition mem_read {A} (q : Read A) (m : MemoryState) : A :=
  match q with
  | GetNode u => Store.node m u
  | NodeIdByCode c => Store.node_id_by_code m c
  | ListNodes => Store.list_nodes m
  | DeleteGuard u => Store.node_delete_guard m u
  | GetSite u => Store.site m u
  | SiteIdByCode c => Store.site_id_by_code m c
  | ListSites => Store.list_sites m
  | GetRelease u => Store.release m u
  | ReleaseByVersion v => Store.release_by_version m v
  | ListReleases => Store.list_releases m
  | LatestRelease n => Store.latest_release_id_for_node m n
  | GetProvider u => Store.dns_provider m u
  | ProviderByName c => Store.dns_provider_by_name m c
  | ListProviders => Store.list_dns_providers m
  | GetZone u => Store.dns_zone m u
  | ZoneByProviderName p c => Store.dns_zone_by_provider_name m p c
  | ListZones => Store.list_dns_zones m
  | GetOrder u => Store.certificate_order m u
  | ListOrders => Store.list_certificate_orders m
  | UserByName c => Store.admin_user_by_username m c
  | SessionByToken h => Store.admin_session_by_token_hash m h
  | GetTemplate u => Store.operation_template m u
  | TemplateByName c => Store.operation_template_by_name m c
  | ListTemplates => Store.list_operation_templates m
  | GetOperation u => Store.node_operation m u
  | ListOperations n => Store.list_node_operations m n
  end.

(** ** Answers *)

Definition stored_context (c : AdminSessionContext) : AdminSessionContext :=
  mkSessionContext (ctx_user_id c) (ctx_username c) (ctx_display_name c) (ctx_status c)
    (timestamptz (ctx_expires_at c)).

(** Lists of records that agree one by one, in some order. *)
Definition lists_agree {A B} (P : A → B → Prop) (l : list A) (k : list B) : Prop :=
  ∃ l', l ≡ₚ l' ∧ Forall2 P l' k.

(** The answer [a] of PostgreSQL to [q], against the answer [b] of the memory.
    Operations of deleted nodes are only in memory. *)
Definition read_agrees {A} (q : Read A) (m : MemoryState) : A → A → Prop :=
  match q with
  | GetNode _ => λ a (b : option NodeRecord), a = stored_node <$> b
  | NodeIdByCode _ | SiteIdByCode _ | LatestRelease _ => λ a b, a = b
  | ListNodes => λ a (b : list NodeRecord), a ≡ₚ stored_node <$> b
  | DeleteGuard _ => λ a b, bound_site_codes a ≡ₚ bound_site_codes b
  | GetSite _ => option_Forall2 site_agrees
  | ListSites => lists_agree site_agrees
  | GetRelease _ | ReleaseByVersion _ => option_Forall2 (λ a, release_agrees (Ok a))
  | ListReleases => lists_agree (λ a, release_agrees (Ok a))
  | GetProvider _ | ProviderByName _ => λ a (b : option DnsProviderRecord), a = stored_provider <$> b
  | ListProviders => λ a (b : list DnsProviderRecord), a ≡ₚ stored_provider <$> b
  | GetZone _ | ZoneByProviderName _ _ => λ a (b : option DnsZoneRecord), a = stored_zone <$> b
  | ListZones => λ a (b : list DnsZoneRecord), a ≡ₚ stored_zone <$> b
  | GetOrder _ => option_Forall2 (λ a, order_agrees (Ok a))
  | ListOrders => lists_agree (λ a, order_agrees (Ok a))
  | UserByName _ => λ a (b : option AdminUserRecord), a = stored_user <$> b
  | SessionByToken _ => λ a (b : option AdminSessionContext), a = stored_context <$> b
  | GetTemplate _ | TemplateByName _ => λ a (b : option OperationTemplateRecord), a = stored_template <$> b
  | ListTemplates => λ a (b : list OperationTemplateRecord), a ≡ₚ stored_template <$> b
  | GetOperation u => λ a (_ : option NodeOperationRecord), a = stored_operation <$> live_operation m u
  | ListOperations n => λ a (b : list NodeOperationRecord), is_Some (nodes m !! n) → a ≡ₚ stored_operation <$> b
  end.
End Calls.

(** ** Lookup by name *)

Section ByName.
Context `{EX : !Extern, EL : !ExternLaws}.

Lemma find_entry_agree `{!Indexed V} {R} (key : R → string) (t : gmap Uuid R) (m : gmap Uuid V)
    (idx : gmap string Uuid) c :
  index_ok m idx → (∀ u, key <$> t !! u = rkey <$> m !! u) →
  find_where (λ e, key e.2 = c) (entries t) = (u ← idx !! c; pair u <$> t !! u).
Proof.
  intros [Hc Hs] Ht.
  assert (∀ u r, t !! u = Some r → key r = c → idx !! c = Some u) as Hrow.
  { intros u r Hr Hk. specialize (Ht u). rewrite Hr in Ht. symmetry in Ht.
    apply fmap_Some in Ht as (v & Hv & Hkey). destruct (Hc _ _ Hv) as [_ Hidx]. congruence. }
  apply option_eq. intros [u r]. rewrite bind_Some. split.
  - intros [Hin Hk]%find_where_Some. apply elem_of_entries in Hin. simpl in Hk. exists u.
    rewrite Hin. eauto.
  - intros (u' & Hidx & (r' & Hr & [= <- <-])%fmap_Some). apply find_entries_unique.
    + intros k' r2 Hr2 Hk. pose proof (Hrow _ _ Hr2 Hk). congruence.
    + split; [done|]. destruct (Hs _ _ Hidx) as (v & Hv & <-). specialize (Ht u).
      rewrite Hr, Hv in Ht. by injection Ht.
Qed.

Lemma find_id_agree `{!Indexed V} {R} (key : R → string) (t : gmap Uuid R) (m : gmap Uuid V)
    (idx : gmap string Uuid) c :
  index_ok m idx → (∀ u, key <$> t !! u = rkey <$> m !! u) →
  fst <$> find_where (λ e, key e.2 = c) (entries t) = idx !! c.
Proof.
  intros Hi Ht. rewrite (find_entry_agree key t m idx c Hi Ht).
  destruct (idx !! c) as [u|] eqn:Hu; simpl; [|done].
  destruct (index_sound _ _ Hi _ _ Hu) as (v & Hv & _). specialize (Ht u). rewrite Hv in Ht.
  by destruct (t !! u).
Qed.

Lemma find_value_agree `{!Indexed V} {R A} (key : R → string) (g : R → A) (f : V → A)
    (t : gmap Uuid R) (m : gmap Uuid V) (idx : gmap string Uuid) c :
  index_ok m idx → (∀ u, key <$> t !! u = rkey <$> m !! u) → (∀ u, g <$> t !! u = f <$> m !! u) →
  g <$> find_where (λ r, key r = c) (values t) = f <$> (u ← idx !! c; m !! u).
Proof.
  intros Hi Ht Hg.
  assert (find_where (λ r, key r = c) (values t) = (u ← idx !! c; t !! u)) as ->.
  { destruct Hi as [Hc Hs].
    assert (∀ u r, t !! u = Some r → key r = c → idx !! c = Some u) as Hrow.
    { intros u r Hr Hk. specialize (Ht u). rewrite Hr in Ht. symmetry in Ht.
      apply fmap_Some in Ht as (v & Hv & Hkey). destruct (Hc _ _ Hv) as [_ Hidx]. congruence. }
    apply option_eq. intros r. rewrite bind_Some. split.
    - intros [[u Hu]%elem_of_values Hk]%find_where_Some. eauto.
    - intros (u & Hidx & Hr). apply (find_values_unique _ _ u); [done|..].
      + destruct (Hs _ _ Hidx) as (v & Hv & <-). specialize (Ht u). rewrite Hr, Hv in Ht.
        by injection Ht.
      + intros k' r' Hr' Hk. pose proof (Hrow _ _ Hr' Hk). congruence. }
  destruct (idx !! c); simpl; [apply Hg|done].
Qed.
End ByName.

(** ** Lists *)

Lemma filter_fmap_eq {A B} (f : A → B) (P : B → Prop) (Q : A → Prop)
    `{!∀ x, Decision (P x), !∀ x, Decision (Q x)} (l : list A) :
  (∀ x, P (f x) ↔ Q x) → filter P (f <$> l) = f <$> filter Q l.
Proof.
  intros HPQ. induction l as [|x l IH]; [done|]. rewrite fmap_cons, !filter_cons, IH.
  destruct (decide (P (f x))), (decide (Q x)); naive_solver.
Qed.

Lemma ok_lists_agree {A B} (P : Result A string → B → Prop) l l0 k :
  (∀ r b, P r b → is_ok r = true) → Ok <$> l ≡ₚ l0 → Forall2 P l0 k →
  lists_agree (λ a, P (Ok a)) l k.
Proof.
  intros Hok Hl HP. exists (omap ok l0). split.
  - rewrite <-Hl. clear. induction l as [|x l IH]; simpl; [done|]. by constructor.
  - clear Hl. induction HP as [|r b l0 k Hrb _ IH]; simpl; [constructor|].
    specialize (Hok _ _ Hrb). destruct r; [|done]. by constructor.
Qed.

Lemma try_map_total {A B E} (f : A → Result B E) l :
  (∀ x, x ∈ l → is_ok (f x) = true) → ∃ k, try_map f l = Ok k ∧ Ok <$> k = f <$> l.
Proof.
  induction l as [|x l IH]; intros Hf; simpl; [by exists []|].
  destruct IH as (k & -> & Hk); [set_solver|]. pose proof (Hf x ltac:(left)) as Hx.
  destruct (f x) as [y|]; [|done]. exists (y :: k). split; [done|]. by rewrite !fmap_cons, Hk.
Qed.

Section Queries.
Context `{EX : !Extern, EL : !ExternLaws, PX : !PgExtern, CO : !Collation}.
Implicit Types (d : PgTables) (m : MemoryState).

Lemma values_filter_live (P : NodeOperationRecord → Prop) `{!∀ o, Decision (P o)} m :
  (∀ o, P o → is_Some (nodes m !! op_node_id o)) →
  filter P (values (filter (λ e, is_Some (nodes m !! op_node_id e.2)) (node_operations m)))
  ≡ₚ filter P (values (node_operations m)).
Proof.
  intros HP. unfold values. rewrite !hash_iter_perm.
  rewrite !(filter_fmap_eq snd P (λ e, P e.2)) by done. f_equiv.
  apply NoDup_Permutation; [apply NoDup_filter, NoDup_map_to_list..|].
  intros [u o]. rewrite !list_elem_of_filter, !elem_of_map_to_list, map_lookup_filter_Some. simpl.
  naive_solver.
Qed.

Lemma select_operations_agree d m n :
  agree d m → is_Some (nodes m !! n) →
  select_operations n d ≡ₚ stored_operation <$> Store.list_node_operations m n.
Proof.
  intros Hag Hn. unfold select_operations, Store.list_node_operations. rewrite !sort_by_perm.
  rewrite <-(values_filter_live (λ o, op_node_id o = n) m) by (by intros o ->).
  rewrite <-(filter_fmap_eq stored_operation (λ o, op_node_id o = n) _) by done. f_equiv.
  apply values_agree. intros u. rewrite (ag_operations d m Hag). f_equal. apply option_eq. intros o.
  by rewrite live_operation_Some, map_lookup_filter_Some.
Qed.

Lemma select_nodes_agree d m : agree d m → select_nodes d ≡ₚ stored_node <$> values (nodes m).
Proof.
  intros Hag. unfold select_nodes. rewrite sort_by_perm. apply entries_agree_eq. apply (ag_nodes d m Hag).
Qed.

Lemma select_templates_agree d m :
  agree d m → select_templates d ≡ₚ stored_template <$> values (operation_templates m).
Proof.
  intros Hag. unfold select_templates. rewrite sort_by_perm.
  rewrite <-(entries_agree_eq (λ e, template_record e.2) stored_template
    (pg_operation_templates d) (operation_templates m) (ag_templates d m Hag)).
  unfold values, entries. by rewrite !hash_iter_perm, <-list_fmap_compose.
Qed.

Lemma site_bindings_rows d m u s n :
  agree d m → sites m !! u = Some s →
  binds_node n s ↔ present (pg_site_node_bindings d) (u, n).
Proof.
  intros Hag Hs. pose proof (ag_sites d m Hag u) as H. rewrite Hs in H.
  inversion H as [r x [_ Hp] Hr|]. subst. symmetry in Hr. unfold read_site in Hr.
  apply fmap_Some in Hr as ([[u' row] sc] & _ & ->). simpl in Hp. unfold binds_node.
  rewrite <-Hp, Exists_exists. split.
  - intros (b & [y [Hy _]]%elem_of_pg_bindings & <-). by exists y.
  - intros [y Hy]. exists (mkBinding n (bn_binding_role y) (bn_priority y)). split; [|done].
    apply elem_of_pg_bindings. eauto.
Qed.

Lemma site_code_row d m u :
  agree d m → si_site_code <$> pg_sites d !! u = site_code <$> sites m !! u.
Proof.
  intros Hag. pose proof (ag_sites d m Hag u) as H. unfold read_site, select_site in H.
  destruct (pg_sites d !! u), (sites m !! u); inversion H as [x y [Heq _]|]; subst; [|done].
  simpl. f_equal. by apply (f_equal site_code) in Heq.
Qed.

Lemma bound_codes_agree d m n :
  agree d m →
  select_bound_site_codes n d ≡ₚ
  sort_dedup (site_code <$> filter (binds_node n) (values (sites m))).
Proof.
  intros Hag. unfold select_bound_site_codes. rewrite sort_by_perm.
  destruct (sort_dedup_spec (site_code <$> filter (binds_node n) (values (sites m))))
    as (Hnd & _ & Hin).
  apply NoDup_Permutation; [apply NoDup_remove_dups|done|]. intros c.
  rewrite elem_of_remove_dups, Hin. unfold filter_map.
  rewrite list_elem_of_omap, list_elem_of_fmap. setoid_rewrite list_elem_of_filter. split.
  - intros ([[u n'] b] & [Hn' Hb] & Hc). simpl in *. subst n'. apply elem_of_entries in Hb.
    rewrite (site_code_row d m u Hag) in Hc. apply fmap_Some in Hc as (s & Hs & ->). exists s.
    split_and!; [done| |apply elem_of_values; eauto]. apply (site_bindings_rows d m u); [done..|].
    by exists b.
  - intros (s & -> & Hb & [u Hs]%elem_of_values).
    destruct (proj1 (site_bindings_rows d m u s n Hag Hs) Hb) as [b Hrow]. exists ((u, n), b).
    rewrite elem_of_entries. simpl. split; [done|]. by rewrite (site_code_row d m u Hag), Hs.
Qed.

Lemma node_code_row d m u :
  agree d m → nd_node_code <$> pg_nodes d !! u = (λ n, node_code (identity n)) <$> nodes m !! u.
Proof.
  intros Hag. pose proof (ag_nodes d m Hag u) as H. unfold select_node in H.
  destruct (pg_nodes d !! u), (nodes m !! u); try done. apply (inj Some) in H. simpl. f_equal.
  by apply (f_equal (λ n, node_code (identity n))) in H.
Qed.

Lemma release_version_row d m u :
  agree d m → rl_release_version <$> pg_config_releases d !! u = release_version <$> releases m !! u.
Proof.
  intros Hag. pose proof (release_present d m u Hag) as Hp. unfold present in Hp.
  destruct (pg_config_releases d !! u) as [row|] eqn:Hrow, (releases m !! u) as [s|] eqn:Hs; simpl.
  - f_equal. by apply (release_row_agrees d m u row s Hag Hrow Hs).
  - destruct (proj1 Hp); [by eexists|done].
  - destruct (proj2 Hp); [by eexists|done].
  - done.
Qed.

Lemma zone_by_name_agree d m p name :
  pg_ok d → agree d m →
  find_where (λ z, zone_provider_id z = p ∧ zone_name z = name) (values (pg_dns_zones d)) =
  stored_zone <$> Store.dns_zone_by_provider_name m p name.
Proof.
  intros (_ & _ & _ & _ & (_ & _ & _ & Hu) & _) Hag. unfold Store.dns_zone_by_provider_name.
  destruct (find_where _ (values (dns_zones m))) as [z|] eqn:Hf; simpl.
  - apply find_where_Some in Hf as [[u Hz]%elem_of_values [Hp Hn]].
    assert (pg_dns_zones d !! u = Some (stored_zone z)) as Hrow by (by rewrite (ag_zones d m Hag), Hz).
    apply (find_values_unique _ _ u); [done..|]. intros v z' Hz' [Hp' Hn'].
    assert (v = u) as ->; [|congruence]. eapply (unique_on_eq _ _ _ _ _ _ Hu Hz' Hrow). simpl. congruence.
  - rewrite find_where_None in Hf |- *. rewrite Forall_forall in Hf |- *.
    intros z [u Hz]%elem_of_values. rewrite (ag_zones d m Hag) in Hz.
    apply fmap_Some in Hz as (z' & Hz' & ->). apply (Hf z'). apply elem_of_values. eauto.
Qed.

Lemma session_agree d m h :
  agree d m → repo_ok m →
  select_session h d = stored_context <$> Store.admin_session_by_token_hash m h.
Proof.
  intros Hag Hm. unfold select_session, Store.admin_session_by_token_hash.
  rewrite (ag_sessions d m Hag). destruct (admin_sessions m !! h) as [s|]; simpl; [|done].
  rewrite (ag_users d m Hag). destruct (admin_users m !! session_user_id s) as [u|] eqn:Hu; simpl; [|done].
  destruct (index_complete _ _ (users_ok _ Hm) _ _ Hu) as [Hid _]. simpl in Hid.
  unfold stored_context. simpl. by rewrite Hid.
Qed.
End Queries.

(** ** Every read agrees *)

Section Reads.
Context {N : Type} `{EX : !Extern, EL : !ExternLaws, PX : !PgExtern, CO : !Collation, DBE : !DbExtern}.
Implicit Types (d : PgTables) (m : MemoryState).

(** A read of tables [d]: the tables stay, errors are the database's. *)
Definition reads {A} d (P : A → Prop) (r : Result A string) d' : Prop :=
  d' = d ∧ match r with Ok a => P a | Err e => ∃ i, db_error i = Some e end.

Lemma reads_query {A} d (f : PgTables → A) P : P (f d) → dbt (N := N) d (query f) (reads d P).
Proof. intros HP. sql1; split; eauto. Qed.

Lemma reads_bind {A B} d (a : Pg N A) (k : A → Pg N B) P Q :
  dbt d a (reads d P) → (∀ x, P x → dbt d (k x) (reads d Q)) → dbt d (bind a k) (reads d Q).
Proof.
  intros Ha Hk. sql1. eapply dbt_mono; [exact Ha|]. intros [x|e] d' [-> H]; [by apply Hk|].
  by split.
Qed.

Lemma reads_ret {A} d (x : A) P : P x → dbt (N := N) d (ret x) (reads d P).
Proof. intros HP. by apply dbt_ret. Qed.

Lemma reads_mono {A} d (a : Pg N A) (P Q : A → Prop) :
  dbt d a (reads d P) → (∀ x, P x → Q x) → dbt d a (reads d Q).
Proof. intros Ha HPQ. eapply dbt_mono; [exact Ha|]. intros [x|e] d' [-> H]; split; auto. Qed.

Lemma reads_site d m u :
  agree d m → dbt (N := N) d (site u) (reads d (λ a, option_Forall2 site_agrees a (sites m !! u))).
Proof.
  intros Hag. pose proof (ag_sites d m Hag u) as H. unfold read_site in H.
  eapply reads_bind; [by apply (reads_query d _ (λ x, x = select_site u d))|]. intros x ->.
  destruct (select_site u d) as [row|]; [|by apply reads_ret].
  eapply reads_bind; [by apply (reads_query d _ (λ x, x = select_bindings u d))|]. intros b ->.
  by apply reads_ret.
Qed.

Lemma reads_load_sites d rows :
  dbt (N := N) d (load_sites rows)
    (reads d (λ l, l = (λ row, site_record row (select_bindings row.1.1 d)) <$> rows)).
Proof.
  induction rows as [|row rows IH]; simpl; [by apply reads_ret|].
  eapply reads_bind; [by apply (reads_query d _ (λ x, x = select_bindings row.1.1 d))|]. intros b ->.
  eapply reads_bind; [exact IH|]. intros l ->. by apply reads_ret.
Qed.

Lemma reads_sites d m :
  agree d m →
  dbt (N := N) d list_sites (reads d (λ a, lists_agree site_agrees a (values (sites m)))).
Proof.
  intros Hag. eapply reads_bind; [by apply (reads_query d _ (λ x, x = select_sites d))|].
  intros rows ->. eapply reads_mono; [apply reads_load_sites|]. intros l ->.
  unfold select_sites. rewrite <-list_fmap_compose.
  destruct (entries_agree site_agrees (λ e, site_record (e.1, e.2, latest_config e.1 d)
    (select_bindings e.1 d)) (pg_sites d) (sites m)) as (l & Hl & HP).
  { intros u. pose proof (ag_sites d m Hag u) as H. unfold read_site, select_site in H.
    by destruct (pg_sites d !! u). }
  exists l. split; [|done]. rewrite <-Hl, sort_by_perm. done.
Qed.

(** *** Releases *)

Definition read_entry d (e : Uuid * ReleaseRow) : Result ReleaseRecord string :=
  let? b := bundle_from_value (rl_manifest_json e.2) in Ok (release_record e b (select_acks e.1 d)).

Lemma reads_load_release d e :
  is_ok (read_entry d e) = true →
  dbt (N := N) d (load_release e) (reads d (λ x, read_entry d e = Ok x)).
Proof.
  unfold read_entry, load_release. intros Hok. sql1. sql1; [|by rewrite H in Hok].
  eapply reads_bind; [by apply (reads_query d _ (λ x, x = select_acks e.1 d))|]. intros acks ->.
  apply reads_ret. by rewrite H.
Qed.

Lemma reads_load_releases d rows :
  (∀ e, e ∈ rows → is_ok (read_entry d e) = true) →
  dbt (N := N) d (load_releases rows) (reads d (λ l, Ok <$> l = read_entry d <$> rows)).
Proof.
  induction rows as [|e rows IH]; intros Hok; simpl; [by apply reads_ret|].
  eapply reads_bind; [apply reads_load_release, Hok; left|]. intros x Hx.
  eapply reads_bind; [apply IH; set_solver|]. intros l Hl. apply reads_ret.
  by rewrite fmap_cons, Hl, Hx.
Qed.

Lemma release_entry_agrees d m u row :
  agree d m → pg_config_releases d !! u = Some row →
  option_Forall2 release_agrees (Some (read_entry d (u, row))) (releases m !! u).
Proof.
  intros Hag Hrow. pose proof (ag_releases d m Hag u) as H. unfold read_release, select_release in H.
  rewrite Hrow in H. exact H.
Qed.

Lemma release_agrees_ok r s : release_agrees r s → is_ok r = true.
Proof. by intros (targets & -> & _). Qed.

Lemma reads_optional_release d m u :
  agree d m →
  dbt (N := N) d (load_optional_release (pair u <$> pg_config_releases d !! u))
    (reads d (λ a, option_Forall2 (λ a, release_agrees (Ok a)) a (releases m !! u))).
Proof.
  intros Hag. pose proof (release_present d m u Hag) as Hp. unfold present in Hp.
  destruct (pg_config_releases d !! u) as [row|] eqn:Hrow; simpl.
  - pose proof (release_entry_agrees d m u row Hag Hrow) as H.
    inversion H as [? s Hr Hx Hs|]; subst. eapply reads_bind.
    + apply reads_load_release. by eapply release_agrees_ok.
    + intros x Hx. apply reads_ret. constructor. by rewrite <-Hx.
  - apply reads_ret. destruct (releases m !! u); [|constructor].
    destruct (proj2 Hp); [by eexists|done].
Qed.

Lemma reads_releases d m :
  agree d m →
  dbt (N := N) d list_releases
    (reads d (λ a, lists_agree (λ a, release_agrees (Ok a)) a (values (releases m)))).
Proof.
  intros Hag. eapply reads_bind; [by apply (reads_query d _ (λ x, x = select_releases d))|].
  intros rows ->. eapply reads_mono; [apply reads_load_releases|].
  - intros [u row] Hin. unfold select_releases in Hin.
    rewrite elem_of_sort_by, elem_of_entries in Hin.
    pose proof (release_entry_agrees d m u row Hag Hin) as H. inversion H. by eapply release_agrees_ok.
  - intros l Hl.
    destruct (entries_agree release_agrees (read_entry d) (pg_config_releases d) (releases m))
      as (l0 & Hl0 & HP).
    { intros u. pose proof (ag_releases d m Hag u) as H. unfold read_release, select_release in H.
      by destruct (pg_config_releases d !! u). }
    eapply (ok_lists_agree release_agrees l l0); [by intros ? ?; apply release_agrees_ok| |done].
    rewrite Hl, <-Hl0. unfold select_releases. by rewrite sort_by_perm.
Qed.

(** *** Orders *)

Lemma order_agrees_ok r o : order_agrees r o → is_ok r = true.
Proof. by intros [e ->]. Qed.

Lemma reads_order d m u :
  agree d m →
  dbt (N := N) d (certificate_order u)
    (reads d (λ a, option_Forall2 (λ a, order_agrees (Ok a)) a (certificate_orders m !! u))).
Proof.
  intros Hag. pose proof (ag_orders d m Hag u) as H.
  eapply reads_bind; [by apply (reads_query d _ (λ x, x = select_order u d))|]. intros x ->.
  destruct (select_order u d) as [r|].
  2: { destruct (certificate_orders m !! u); [by inversion H|]. apply reads_ret. constructor. }
  inversion H as [? o [e Hr]|]. subst r. sql1. sql1; simplify_eq. apply reads_ret. constructor.
  by exists e.
Qed.

Lemma reads_orders d m :
  agree d m →
  dbt (N := N) d list_certificate_orders
    (reads d (λ a, lists_agree (λ a, order_agrees (Ok a)) a (values (certificate_orders m)))).
Proof.
  intros Hag. eapply reads_bind; [by apply (reads_query d _ (λ x, x = select_orders d))|].
  intros rows ->. unfold select_orders. set (rows := sort_by _ _).
  destruct (try_map_total (order_record d) rows) as (l & Hl & Hok).
  { intros [u o] Hin. unfold rows in Hin. rewrite elem_of_sort_by, elem_of_entries in Hin.
    pose proof (ag_orders d m Hag u) as H. unfold select_order in H. rewrite Hin in H. simpl in H.
    inversion H. by eapply order_agrees_ok. }
  rewrite Hl. apply reads_ret.
  destruct (entries_agree order_agrees (order_record d) (pg_certificate_orders d)
    (certificate_orders m) (ag_orders d m Hag)) as (l0 & Hl0 & HP).
  eapply (ok_lists_agree order_agrees l l0); [by intros ? ?; apply order_agrees_ok| |done].
  rewrite Hok, <-Hl0. unfold rows. by rewrite sort_by_perm.
Qed.

Lemma reads_delete_guard d m u :
  agree d m →
  dbt (N := N) d (node_delete_guard u)
    (reads d (λ a, bound_site_codes a ≡ₚ bound_site_codes (Store.node_delete_guard m u))).
Proof.
  intros Hag. eapply reads_bind; [by apply (reads_query d _ (λ x, x = select_bound_site_codes u d))|].
  intros codes ->. eapply (reads_bind _ _ _ (λ _, True)); [by apply reads_query|]. intros n _.
  apply reads_ret. by apply bound_codes_agree.
Qed.

Lemma reads_release_by_version d m v :
  agree d m → repo_ok m →
  dbt (N := N) d (release_by_version v)
    (reads d (λ a, option_Forall2 (λ a, release_agrees (Ok a)) a (Store.release_by_version m v))).
Proof.
  intros Hag Hm.
  eapply reads_bind; [by apply (reads_query d _ (λ x, x = select_release_by_version v d))|].
  intros x ->. unfold select_release_by_version, Store.release_by_version.
  rewrite (find_entry_agree rl_release_version _ (releases m) (release_ids_by_version m)).
  - destruct (release_ids_by_version m !! v) as [u|]; simpl.
    + by apply reads_optional_release.
    + apply reads_ret. constructor.
  - apply Hm.
  - intros u. by apply release_version_row.
Qed.

Lemma reads_agree_dbt {A} (q : Read A) d m :
  linked d m → dbt (N := N) d (pg_read q) (reads d (λ a, read_agrees q m a (mem_read q m))).
Proof.
  intros [Hok Hd Hag Hm]. destruct q; simpl;
    try first [by apply reads_site | by apply reads_sites | by apply reads_releases
      | by apply reads_order | by apply reads_orders | by apply reads_delete_guard
      | by apply reads_release_by_version | apply reads_query].
  - apply Hag.
  - apply (find_id_agree nd_node_code _ (nodes m)); [apply Hm|]. intros u. by apply node_code_row.
  - by apply select_nodes_agree.
  - apply (find_id_agree si_site_code _ (sites m)); [apply Hm|]. intros u. by apply site_code_row.
  - eapply reads_bind; [by apply (reads_query d _ (λ x, x = select_release u d))|]. intros x ->.
    by apply reads_optional_release.
  - apply Hag.
  - apply Hag.
  - rewrite <-(option_fmap_id (find_where _ _)).
    apply (find_value_agree provider_name Datatypes.id stored_provider _ _ _ name (providers_ok _ Hm));
      intros u; rewrite (ag_providers d m Hag); by destruct (dns_providers m !! u).
  - rewrite sort_by_perm. apply values_agree, Hag.
  - apply Hag.
  - by apply zone_by_name_agree.
  - rewrite sort_by_perm. apply values_agree, Hag.
  - rewrite <-(option_fmap_id (find_where _ _)).
    apply (find_value_agree username Datatypes.id stored_user _ _ _ name (users_ok _ Hm));
      intros u; rewrite (ag_users d m Hag); by destruct (admin_users m !! u).
  - by apply session_agree.
  - apply Hag.
  - apply (find_value_agree template_name template_record stored_template _ _ _ name (templates_ok _ Hm));
      intros u; pose proof (ag_templates d m Hag u) as H; unfold select_template in H; [|done].
    apply (f_equal (fmap template_name)) in H. rewrite <-!option_fmap_compose in H. exact H.
  - by apply select_templates_agree.
  - apply Hag.
  - by apply select_operations_agree.
Qed.

(** On tables that agree with a state every read leaves the tables alone, fails only
    with an error of the database, and otherwise answers what the in-memory
    repository answers on the state: the stored form of the same records. *)
Theorem pg_reads_agree {A} (q : Read A) (s : Db PgTables N) m :
  linked (db s) m →
  let '(r, s') := pg_read q s in
  db s' = db s
  ∧ match r with
    | Ok a => read_agrees q m a (mem_read q m)
    | Err e => ∃ i, db_error i = Some e
    end.
Proof. intros Hl. exact (reads_agree_dbt q (db s) m Hl s eq_refl). Qed.
End Reads.
