(* ===== verification/PgRuns.v ===== *)
(** * The two repositories: runs

    A hub on PostgreSQL beside the same hub in memory: after any sequence of calls
    that fit, the reads of the two agree.  Then the calls that do not fit, on concrete
    tables: what the two repositories make different of them. *)

From stdpp Require Import prelude strings pretty gmap sorting.
From Stdlib Require Import Ascii.
From S2P Require Import Prelude RustStr Json Extern AppError Domain SiteConfig ConfigCompiler Records Store HubReleases Io Sql Postgres PgAgree PgWrites PgReads.

Section Runs.
Context {N : Type} `{EX : !Extern, EL : !ExternLaws, PX : !PgExtern, CO : !Collation, DBE : !DbExtern}.

(** Attempts to store an acknowledgement of a node for a release that all failed, with
    reads between them; the acknowledgements may differ. *)
Inductive failed_acks (r n : Uuid) (s : Db PgTables N) : Db PgTables N → Prop :=
  | failed_none : failed_acks r n s s
  | failed_more a e s1 s2 :
      failed_acks r n s s1 → pg_write (AckRelease r n a) s1 = (Err e, s2) → failed_acks r n s s2
  | failed_read A (q : Read A) s1 : failed_acks r n s s1 → failed_acks r n s (pg_read q s1).2.

(** The database after a sequence of calls, and the state the same calls lead to in
    memory; calls that fail are not made there.  An acknowledgement is two statements
    outside a transaction: when it fails between them, the run goes on once a later
    attempt for the same release and node has succeeded. *)
Inductive mirrored : Db PgTables N → MemoryState → Prop :=
  | mirrored_start s : db s = empty_tables → mirrored s empty_state
  | mirrored_write A (w : Write A) s m a s' :
      mirrored s m → fits w (db s) m → pg_write w s = (Ok a, s') →
      mirrored s' (mem_write w (clock (env_clock (env s))) m).2
  | mirrored_failed A (w : Write A) s m e s' :
      mirrored s m → fits w (db s) m → pg_write w s = (Err e, s') → atomic w ∨ db s' = db s →
      mirrored s' m
  | mirrored_ack_repeated r n a s m s1 s' :
      mirrored s m → fits (AckRelease r n a) (db s) m → failed_acks r n s s1 →
      pg_write (AckRelease r n a) s1 = (Ok tt, s') →
      mirrored s' (Store.update_release_ack r n a m)
  | mirrored_read A (q : Read A) s m : mirrored s m → mirrored (pg_read q s).2 m.

Lemma linked_empty : linked empty_tables empty_state.
Proof.
  split.
  - apply (bool_decide_eq_true_1 (pg_ok empty_tables)). by vm_compute.
  - split; [by intros h h' ?%elem_of_nil|]. by intros n r r' x x' [? ?].
  - split; intros u; try done; try constructor.
    simpl. apply eq_None_not_Some. intros [r Hr]. apply fmap_Some in Hr as (? & Hr & _).
    apply head_elem in Hr. rewrite elem_of_sort_by in Hr. unfold filter_map in Hr.
    apply list_elem_of_omap in Hr as ([k y] & [_ Hy]%list_elem_of_filter & _).
    by apply elem_of_entries in Hy.
  - apply repo_ok_empty.
Qed.

Lemma ack_statements r n a d :
  dbt (N := N) d (update_release_ack r n a) (λ x d', match x with
    | Ok _ => d' = acked r n a d ∧ pg_ok d'
    | Err _ => d' = d ∨ d' = update_ack_row r n a d end).
Proof. unfold update_release_ack, load_release_acks. sqls; auto. Qed.

(** An acknowledgement replaces the one before it. *)
Lemma update_ack_row_twice r n a a' d :
  update_ack_row r n a (update_ack_row r n a' d) = update_ack_row r n a d.
Proof.
  unfold update_ack_row, set_pg_node_release_status. simpl. f_equal. apply map_eq.
  intros k. destruct (decide (k = (r, n))) as [->|Hk].
  - rewrite !lookup_alter_eq. by destruct (pg_node_release_status d !! (r, n)).
  - by rewrite !lookup_alter_ne.
Qed.

(** What a write does to the tables it is made on. *)
Lemma dbt_at {A} (d : PgTables) (m : Pg N A) (s : Db PgTables N) (Q : Result A string → PgTables → Prop) :
  dbt d m Q → db s = d → Q (m s).1 (db (m s).2).
Proof. intros Hm Hs. specialize (Hm s Hs). by destruct (m s). Qed.

(** A read changes no table. *)
Lemma load_release_keeps e d : dbt (N := N) d (load_release e) (λ _ d', d' = d).
Proof. unfold load_release, load_release_acks. by sqls. Qed.

Lemma load_sites_keeps rows d : dbt (N := N) d (load_sites rows) (λ _ d', d' = d).
Proof.
  induction rows as [|row rows IH]; simpl; [by sqls|]. unfold load_site_bindings. sqls; [done|].
  eapply dbt_mono; [exact IH|]. intros [l|e] d' ->; by sqls.
Qed.

Lemma load_releases_keeps rows d : dbt (N := N) d (load_releases rows) (λ _ d', d' = d).
Proof.
  induction rows as [|row rows IH]; simpl; [by sqls|]. sql1.
  eapply dbt_mono; [apply load_release_keeps|]. intros [x|e] d' ->; [|done]. sql1.
  eapply dbt_mono; [exact IH|]. intros [l|e] d' ->; by sqls.
Qed.

Lemma read_keeps {A} (q : Read A) d : dbt (N := N) d (pg_read q) (λ _ d', d' = d).
Proof.
  destruct q; simpl; try (apply dbt_query; done); try (sqls; done);
    unfold node_delete_guard, site, list_sites, load_site_bindings, release, release_by_version, list_releases,
      certificate_order, list_certificate_orders, load_optional_release; sqls; try done.
  all: try apply load_sites_keeps; try apply load_releases_keeps.
  all: match goal with |- dbt _ (match ?x with _ => _ end) _ => destruct x; sqls; try done end.
  all: eapply dbt_mono; [apply load_release_keeps|]; intros [x|e] d' ->; by sqls.
Qed.

Lemma read_keeps_tables {A} (q : Read A) (s : Db PgTables N) : db (pg_read q s).2 = db s.
Proof. exact (dbt_at _ _ s _ (read_keeps q (db s)) eq_refl). Qed.

Lemma failed_acks_undone r n a s s1 : failed_acks r n s s1 → acked r n a (db s1) = acked r n a (db s).
Proof.
  induction 1 as [|a' e s1 s2 _ IH Hw|A q s1 _ IH]; [done|..].
  - pose proof (dbt_at _ _ s1 _ (ack_statements r n a' (db s1)) eq_refl) as H. simpl in Hw.
    rewrite Hw in H. simpl in H. destruct H as [->| ->]; [done|]. rewrite <-IH. unfold acked.
    by rewrite update_ack_row_twice.
  - by rewrite read_keeps_tables.
Qed.

Lemma linked_acked r n a d m :
  linked d m → fits (AckRelease r n a) d m → pg_ok (acked r n a d) →
  linked (acked r n a d) (Store.update_release_ack r n a m).
Proof.
  intros Hl Hfit Hok'. pose proof Hl as [Hok Hd Hag Hm].
  split; [done|by apply times_distinct_acked|by apply agree_ack|].
  by apply (mem_write_ok (AckRelease r n a) d 0).
Qed.

Lemma mirrored_linked s m : mirrored s m → linked (db s) m.
Proof.
  induction 1 as [s Hs|A w s m a s' _ IH Hfit Hw|A w s m e s' _ IH Hfit Hw Hat
    |r n a s m s1 s' _ IH Hfit Hfailed Hw|A q s m _ IH].
  - rewrite Hs. apply linked_empty.
  - pose proof (write_refines_wp w s m IH Hfit) as H. unfold wp in H. rewrite Hw in H. apply H.
  - pose proof (write_refines_wp w s m IH Hfit) as H. unfold wp in H. rewrite Hw in H.
    destruct Hat as [Hat|Hat]; [by rewrite (H Hat)|by rewrite Hat].
  - pose proof (dbt_at _ _ s1 _ (ack_statements r n a (db s1)) eq_refl) as H. simpl in Hw.
    rewrite Hw in H. destruct H as [Hs' Hok]. simpl in Hs', Hok. rewrite Hs' in Hok |- *.
    rewrite (failed_acks_undone r n a s s1) in Hok |- * by done. by apply linked_acked.
  - by rewrite read_keeps_tables.
Qed.

End Runs.

(** ** A concrete database *)

Module Demo.
(** A database without failures; addresses are printed with their mask. *)
Definition pg : PgExtern := {|
  inet_text a := Some (if contains a "/" then a else a +:+ "/32");
  numeric_5_2 z := Some z;
  jsonb v := v;
  bundle_from_value _ := Err "invalid type";
|}.
Definition collation : Collation := String.compare.
Definition no_errors : DbExtern := λ _, None.
#[global] Existing Instances pg collation no_errors.

Definition start : Db PgTables unit := mkDb empty_tables 0 (mkEnv tt 0 0).

Definition node1 : NodeRecord := {|
  identity := mkNodeIdentity 1 "edge-1" "Edge 1" "eu" "fra" Online;
  runtime := mkNodeRuntimeState None None 0 100;
  labels := jobj [];
  hostname := None;
  public_ip := Some "203.0.113.10";
  private_ip := None;
  bootstrap_token := None;
  pingora_version := None;
  agent_version := None;
|}.

Definition template1 : OperationTemplateRecord :=
  mkTemplateRecord 10 "reload" "service_reload" "systemctl reload pingora" (VArray []) 60 "root"
    false 1000.
Definition operation1 : NodeOperationRecord :=
  mkOperation 20 1 10 None (jobj []) "approved" "admin" None None None None None None 2000.

Definition after1 := (pg_write (SaveNode node1) start).2.
Definition after2 := (pg_write (SaveTemplate template1) after1).2.
Definition after3 := (pg_write (SaveOperation operation1) after2).2.
Definition after4 := (pg_write (ClaimNext 1) after3).2.

Definition state1 := Store.save_node node1 empty_state.
Definition state2 := Store.save_operation_template template1 state1.
Definition state3 := Store.save_node_operation operation1 state2.
Definition state4 := (mem_write (ClaimNext 1) (clock 0) state3).2.

Lemma fits1 : fits (SaveNode node1) (db start) empty_state.
Proof.
  split_and!; [by apply saveable_fresh|by split_and!|]. intros _. apply map_Forall_empty.
Qed.

Lemma fits2 : fits (SaveTemplate template1) (db after1) state1.
Proof. split; [by apply saveable_fresh|done]. Qed.

Lemma fits3 : fits (SaveOperation operation1) (db after2) state2.
Proof. split; [by eexists|done]. Qed.

Lemma fits4 : fits (ClaimNext 1) (db after3) state3.
Proof.
  split; [by eexists|]. change (node_operations state3) with ({[20%Z := operation1]} : gmap _ _).
  intros u o [<- <-]%lookup_singleton_Some _. split; [done|].
  by intros u' o' [<- <-]%lookup_singleton_Some.
Qed.

Lemma run4 : mirrored after4 state4.
Proof.
  eapply (mirrored_write _ (ClaimNext 1) after3 state3); [|apply fits4|by vm_compute].
  eapply (mirrored_write _ (SaveOperation operation1) after2 state2); [|apply fits3|by vm_compute].
  eapply (mirrored_write _ (SaveTemplate template1) after1 state1); [|apply fits2|by vm_compute].
  eapply (mirrored_write _ (SaveNode node1) start empty_state); [|apply fits1|by vm_compute].
  by apply mirrored_start.
Qed.
End Demo.

Lemma demo_run3 : linked (db Demo.after3) Demo.state3.
Proof.
  apply (mirrored_linked Demo.after3).
  eapply (mirrored_write _ (SaveOperation Demo.operation1) Demo.after2 Demo.state2);
    [|apply Demo.fits3|by vm_compute].
  eapply (mirrored_write _ (SaveTemplate Demo.template1) Demo.after1 Demo.state1);
    [|apply Demo.fits2|by vm_compute].
  eapply (mirrored_write _ (SaveNode Demo.node1) Demo.start empty_state);
    [|apply Demo.fits1|by vm_compute].
  by apply mirrored_start.
Qed.

(** A claim of the approved operation. *)
Lemma pg_writes_refine_witness :
  let '(r, s') := pg_write (ClaimNext 1) Demo.after3 in
  (∃ c, r = Ok (Some c) ∧ exec_status (operation c) = "running")
  ∧ match r with
    | Ok a =>
        let '(b, m') := mem_write (ClaimNext 1) (clock (env_clock (env Demo.after3))) Demo.state3 in
        linked (db s') m' ∧ result_agrees (ClaimNext 1) a b
    | Err _ => atomic (ClaimNext 1) → db s' = db Demo.after3
    end.
Proof.
  pose proof (pg_writes_refine (ClaimNext 1) Demo.after3 Demo.state3 demo_run3 Demo.fits4) as H.
  destruct (pg_write (ClaimNext 1) Demo.after3) as [r s'] eqn:Hr. split; [|exact H].
  vm_compute in Hr. injection Hr as <- <-. by eexists.
Defined.


(** ** Where the two differ *)

Section Divergences.
Context {N : Type} `{EX : !Extern, EL : !ExternLaws, PX : !PgExtern, CO : !Collation, DBE : !DbExtern}.
Implicit Types (d : PgTables) (s : Db PgTables N).

(** A node as [save_node] leaves it, with the figures of a heartbeat. *)
Definition saved_node (hb : option HeartbeatRow) (n : NodeRecord) : NodeRecord := {|
  identity := identity n;
  runtime := {|
    active_config_version := hb ≫= hr_active_config_version;
    last_seen_at := timestamptz <$> last_seen_at (runtime n);
    site_count := Z.max (default 0%Z (hr_site_count <$> hb)) 0;
    health_score := clamp 0 100 (default 100%Z (hr_health_score <$> hb));
  |};
  labels := jsonb (labels n);
  hostname := hostname n;
  public_ip := public_ip n ≫= inet_text;
  private_ip := private_ip n ≫= inet_text;
  bootstrap_token := bootstrap_token n;
  pingora_version := pingora_version n;
  agent_version := agent_version n;
|}.

(** [save_node] stores neither the configuration version nor the figures of a node:
    those read back are those of the last heartbeat, whatever the record said, and the
    addresses are read back as [inet] prints them. *)
Theorem saved_node_reads_back n s :
  let '(r, s') := save_node n s in
  match r with
  | Ok _ => select_node (id (identity n)) (db s') =
            Some (saved_node (latest_heartbeat (db s) (id (identity n))) n)
  | Err _ => db s' = db s
  end.
Proof.
  enough (dbt (N := N) (db s) (save_node n) (λ r d', match r with
    | Ok _ => select_node (id (identity n)) d' =
              Some (saved_node (latest_heartbeat (db s) (id (identity n))) n)
    | Err _ => d' = db s end)) as H.
  { specialize (H s eq_refl). destruct (save_node n s) as [[]]; exact H. }
  unfold save_node. sql1; [done|]. sqls; try done. unfold upsert_node in *.
  destruct (cast_inet (public_ip n)) as [pub|] eqn:Hpub; [|done].
  destruct (cast_inet (private_ip n)) as [priv|] eqn:Hpriv; [|done]. simplify_eq/=.
  apply cast_inet_stored in Hpub as ->. apply cast_inet_stored in Hpriv as ->.
  unfold select_node, node_record. simpl. rewrite !lookup_insert_eq. simpl.
  rewrite decode_node_status_name. unfold saved_node. by destruct (identity n).
Qed.

(** An acknowledgement that fails may have been stored, without the status of the
    release that goes with it. *)
Theorem failed_ack_partial r n a s :
  let '(x, s') := update_release_ack r n a s in
  match x with
  | Ok _ => db s' = acked r n a (db s)
  | Err _ => db s' = db s ∨ db s' = update_ack_row r n a (db s)
  end.
Proof.
  pose proof (ack_statements r n a (db s) s eq_refl) as H.
  destruct (update_release_ack r n a s) as [[]]; [apply H|done].
Qed.

(** A template that an operation names cannot be deleted; the in-memory repository
    deletes it with its operations. *)
Theorem template_deletion_restricted t s o x :
  pg_node_operations (db s) !! o = Some x → op_template_id x = t →
  let '(r, s') := delete_operation_template t s in is_ok r = false ∧ db s' = db s.
Proof.
  intros Hx <-.
  enough (dbt (N := N) (db s) (delete_operation_template (op_template_id x))
    (λ r d', is_ok r = false ∧ d' = db s)) as H by exact (H s eq_refl).
  unfold delete_operation_template. sql1; [done..|]. exfalso. revert select (schema_ok _).
  intros Hok. destruct (operations_refer _ Hok o x Hx) as (_ & [y Hy] & _). simpl in Hy.
  by rewrite lookup_delete_eq in Hy.
Qed.

(** Deleting a node takes its rows from the releases and leaves their statuses. *)
Lemma deleted_node_keeps_statuses u d :
  pg_config_releases (delete_node_row u d) = pg_config_releases d.
Proof. unfold delete_node_row. by destruct (pg_nodes d !! u). Qed.
End Divergences.

(** *** On the concrete database *)

(** The address of a node comes back with a mask. *)
Example masked_address :
  (public_ip <$> (ok (pg_read (GetNode 1) Demo.after1).1 ≫= Datatypes.id),
   public_ip <$> mem_read (GetNode 1) Demo.state1)
  = (Some (Some "203.0.113.10/32"), Some (Some "203.0.113.10")).
Proof. by vm_compute. Qed.

Module Acked.
Definition node2 : NodeRecord :=
  set_identity (mkNodeIdentity 2 "edge-2" "Edge 2" "eu" "fra" Online) Demo.node1.
Definition bundle1 : CompiledConfigBundle :=
  mkBundle (mkReleaseManifest 30 "r1" "site" "h" 0 [] [] []) (jobj []) [] "sig".
Definition release1 : ReleaseRecord :=
  mkReleaseRecord 30 "site" None "publish" "r1" "first" "pending" bundle1 [1; 2]%Z
    {[1%Z := mkAck "success" (Some "r1") None None; 2%Z := mkAck "pending" None None None]} 5000.

Definition published := (pg_write (SaveRelease release1) (pg_write (SaveNode node2) Demo.after1).2).2.
Definition published_state :=
  Store.save_release release1 (Store.save_node node2 Demo.state1).

(** The last target that had not applied a release is deleted: in memory the release
    becomes a success, in the database it stays pending. *)
Example deleted_target_stale_status :
  (rl_status <$> pg_config_releases (db (pg_write (DeleteNode 2) published).2) !! 30%Z,
   release_status <$> releases (Store.delete_node 2 published_state) !! 30%Z)
  = (Some "pending", Some "success").
Proof. by vm_compute. Qed.

(** The statement after the acknowledgement fails: the acknowledgement is there, the
    release still says it is pending. *)
Definition failing : DbExtern := λ i, if decide (i = 2) then Some "connection closed" else None.
Example interrupted_ack :
  let s := mkDb (db published) 0 (env published) in
  let '(r, s') := update_release_ack (DBE := failing) 30 2 (mkAck "success" (Some "r1") None None) s in
  is_ok r = false
  ∧ rl_status <$> pg_config_releases (db s') !! 30%Z = Some "pending"
  ∧ aggregate_release_status (select_acks 30 (db s')) = "success".
Proof. by vm_compute. Qed.

(** The node reports again: the status follows. *)
Example repeated_ack :
  let s := mkDb (db published) 0 (env published) in
  let ack := mkAck "success" (Some "r1") None None in
  let '(r1, s1) := update_release_ack (DBE := failing) 30 2 ack s in
  let '(r2, s2) := update_release_ack (DBE := failing) 30 2 ack s1 in
  is_ok r1 = false ∧ is_ok r2 = true
  ∧ rl_status <$> pg_config_releases (db s2) !! 30%Z = Some "success".
Proof. by vm_compute. Qed.
End Acked.

(** The template of an operation. *)
Lemma template_deletion_restricted_witness :
  let '(r, s') := delete_operation_template 10 Demo.after3 in is_ok r = false ∧ db s' = db Demo.after3.
Proof.
  apply (template_deletion_restricted 10 Demo.after3 20 Demo.operation1); by vm_compute.
Defined.
