(* ===== verification/RedisTokens.v ===== *)
(** * Node tokens in Redis (apps/hub-api/src/token_store.rs)

    [RedisTokenStore]: the four kinds of keys, and the methods of the token store as
    sequences of commands.  A command may fail for any reason, before or after the
    server carried it out, so that a method may stop half-way.  A key is gone once
    its time to live has passed on the server; the server's clock is the hub's (a
    constant difference cancels out, since only times to live are ever compared).

    [token_run] relates the keys to the in-memory store after the same calls, with the set
    of nodes for which a call stopped half-way, and [redis_leases_refine] shows that for
    all other nodes the two answer alike until a lease runs out; the last part shows what
    calls that stop half-way leave behind for their node. *)

From stdpp Require Import prelude strings pretty gmap.
From Stdlib Require Import Ascii.
From S2P Require Import Prelude RustStr Json Extern TokenStore Hub Io.

(** ** The server *)

Inductive StoreError :=
| Sqlx (error : string)
| Serde (error : string)
| Redis (error : string).

(** The failures by the number of the command, with whether the command was carried
    out all the same, and serde's text of a lease. *)
Class RedisExtern := {
  redis_fault : nat → option (bool * string);
  lease_to_string : TokenLease → Result string string;
  lease_from_str : string → Result TokenLease string;
}.

(** A lease is read back from its text. *)
Class LeaseLaws `{!RedisExtern} : Prop :=
  lease_roundtrip : ∀ l text, lease_to_string l = Ok text → lease_from_str text = Ok l.

(** The value of a key and the time until which it is kept. *)
Abbreviation Keys := (gmap string (string * DateTime)).

Record RedisState := mkRedis {
  redis_keys : Keys;
  redis_command : nat;
  redis_env : Env unit;
}.

Abbreviation Rd := (IoE StoreError RedisState).

(** What [GET] finds at a time. *)
Definition live (now : DateTime) (ks : Keys) (k : string) : option string :=
  '(v, until) ← ks !! k; if decide (now ≤ until)%Z then Some v else None.

Section Commands.
Context `{EX : !Extern, RX : !RedisExtern}.

Definition redis_env_run {A} (m : Io (Env unit) A) : Rd A := λ s,
  let '(r, e) := m (redis_env s) in
  (match r with Ok a => Ok a | Err x => Err (Redis x) end,
   mkRedis (redis_keys s) (redis_command s) e).

(** A command with its error mapped to [StoreError::Redis]. *)
Definition send {A} (f : DateTime → Keys → A * Keys) : Rd A := λ s,
  let e := redis_env s in
  let '(a, ks) := f (clock (env_clock e)) (redis_keys s) in
  let e' := mkEnv tt (env_rng e) (S (env_clock e)) in
  match redis_fault (redis_command s) with
  | None => (Ok a, mkRedis ks (S (redis_command s)) e')
  | Some (carried_out, error) =>
      (Err (Redis error),
       mkRedis (if carried_out : bool then ks else redis_keys s) (S (redis_command s)) e')
  end.

Definition connect : Rd unit := send (λ _ ks, (tt, ks)).
Definition get (k : string) : Rd (option string) := send (λ now ks, (live now ks k, ks)).
Definition del (k : string) : Rd nat :=
  send (λ now ks, (match live now ks k with Some _ => 1 | None => 0 end, delete k ks)).
Definition set_ex (k v : string) (ttl : Z) : Rd unit :=
  send (λ now ks, (tt, <[k := (v, now + seconds ttl)%Z]> ks)).

(** [chrono::Duration::num_seconds]. *)
Definition num_seconds (ttl : Z) : Z := Z.quot ttl 1000000000.
End Commands.

(** ** The token store *)

Section Store.
Context `{EX : !Extern, RX : !RedisExtern} (key_prefix : string).

Definition access_key (token : string) : string := key_prefix +:+ ":node:access:" +:+ token.
Definition refresh_key (token : string) : string := key_prefix +:+ ":node:refresh:" +:+ token.
Definition current_access_key (node_id : Uuid) : string :=
  key_prefix +:+ ":node:current_access:" +:+ uuid_to_string node_id.
Definition current_refresh_key (node_id : Uuid) : string :=
  key_prefix +:+ ":node:current_refresh:" +:+ uuid_to_string node_id.

(** [if let Some(token) = token { conn.del(key(token)) }]. *)
Definition del_token (key : string → string) (token : option string) : Rd unit :=
  match token with
  | Some token => do! del (key token) in ret tt
  | None => ret tt
  end.

Definition redis_issue_tokens (node_id : Uuid) (ttl : Z) : Rd IssuedTokens :=
  do! connect in
  let! previous_access := get (current_access_key node_id) in
  let! previous_refresh := get (current_refresh_key node_id) in
  do! del_token access_key previous_access in
  do! del_token refresh_key previous_refresh in
  let! a := redis_env_run new_v4 in
  let! r := redis_env_run new_v4 in
  let access_token := access_token_of a in
  let refresh_token := refresh_token_of r in
  let! now := redis_env_run utc_now in
  let expires_at := (now + ttl)%Z in
  let lease := mkLease node_id expires_at in
  let ttl_seconds := Z.max (num_seconds ttl) 1 in
  let! serialized := lift (match lease_to_string lease with Ok x => Ok x | Err e => Err (Serde e) end) in
  do! set_ex (access_key access_token) serialized ttl_seconds in
  do! set_ex (refresh_key refresh_token) serialized ttl_seconds in
  do! set_ex (current_access_key node_id) access_token ttl_seconds in
  do! set_ex (current_refresh_key node_id) refresh_token ttl_seconds in
  ret (mkIssued access_token refresh_token expires_at).

(** [raw.map(|value| serde_json::from_str(&value)).transpose()]. *)
Definition read_lease (raw : option string) : Result (option TokenLease) StoreError :=
  match raw with
  | None => Ok None
  | Some text =>
      match lease_from_str text with
      | Ok l => Ok (Some l)
      | Err e => Err (Serde e)
      end
  end.

Definition redis_access_lease (access_token : string) : Rd (option TokenLease) :=
  do! connect in
  let! raw := get (access_key access_token) in
  lift (read_lease raw).

Definition redis_refresh_lease (refresh_token : string) : Rd (option TokenLease) :=
  do! connect in
  let! raw := get (refresh_key refresh_token) in
  lift (read_lease raw).

Definition redis_revoke_tokens (node_id : Uuid) : Rd unit :=
  do! connect in
  let! current_access := get (current_access_key node_id) in
  let! current_refresh := get (current_refresh_key node_id) in
  do! del (current_access_key node_id) in
  do! del (current_refresh_key node_id) in
  do! del_token access_key current_access in
  do! del_token refresh_key current_refresh in
  ret tt.
End Store.

(** ** Keys by kind *)

(** Access and refresh tokens are kept alike. *)
Inductive Kind := OfAccess | OfRefresh.
#[export] Instance Kind_eq_dec : EqDecision Kind.
Proof. solve_decision. Defined.

Definition live_tokens (kd : Kind) (t : MemoryTokenState) : gmap string TokenLease :=
  match kd with OfAccess => access t | OfRefresh => refresh t end.
Definition current_tokens (kd : Kind) (t : MemoryTokenState) : gmap Uuid string :=
  match kd with OfAccess => current_access_by_node t | OfRefresh => current_refresh_by_node t end.
Definition issued_token (kd : Kind) (i : IssuedTokens) : string :=
  match kd with OfAccess => access_token i | OfRefresh => refresh_token i end.

(** A store without a key, if there is one to remove. *)
Definition drop_token (key : string → string) (token : option string) (ks : Keys) : Keys :=
  match token with Some token => delete (key token) ks | None => ks end.

Section Runs.
Context `{EX : !Extern, EL : !ExternLaws, SC : !SteadyClock, RX : !RedisExtern} (key_prefix : string).
Implicit Types (s : RedisState) (ks : Keys) (t : MemoryTokenState).

Definition token_key (kd : Kind) : string → string :=
  match kd with OfAccess => access_key key_prefix | OfRefresh => refresh_key key_prefix end.
Definition current_key (kd : Kind) : Uuid → string :=
  match kd with OfAccess => current_access_key key_prefix | OfRefresh => current_refresh_key key_prefix end.
Definition now_at s : DateTime := clock (env_clock (redis_env s)).

Lemma token_key_inj kd kd' x y : token_key kd x = token_key kd' y → kd = kd' ∧ x = y.
Proof.
  destruct kd, kd'; simpl; unfold access_key, refresh_key; intros H%(inj (String.append _));
    by simplify_eq/=.
Qed.
Lemma current_key_inj kd kd' m n : current_key kd m = current_key kd' n → kd = kd' ∧ m = n.
Proof.
  destruct kd, kd'; simpl; unfold current_access_key, current_refresh_key;
    intros H%(inj (String.append _)); simplify_eq/=; by split; [|apply uuid_to_string_inj].
Qed.
Lemma token_key_ne_current kd kd' x n : token_key kd x ≠ current_key kd' n.
Proof.
  destruct kd, kd'; simpl; unfold access_key, refresh_key, current_access_key, current_refresh_key;
    intros H%(inj (String.append _)); by simplify_eq/=.
Qed.

Lemma lookup_drop_token kd kd' o ks x :
  drop_token (token_key kd) o ks !! token_key kd' x
  = if decide (kd = kd' ∧ o = Some x) then None else ks !! token_key kd' x.
Proof.
  unfold drop_token. destruct o as [y|]; [|by rewrite decide_False by naive_solver].
  case_decide as H.
  - destruct H as [-> [= ->]]. apply lookup_delete_eq.
  - rewrite lookup_delete_ne; [done|]. intros [-> ->]%token_key_inj. by apply H.
Qed.
Lemma lookup_drop_current kd kd' o ks n :
  drop_token (token_key kd) o ks !! current_key kd' n = ks !! current_key kd' n.
Proof.
  unfold drop_token. destruct o as [y|]; [|done]. rewrite lookup_delete_ne; [done|].
  apply token_key_ne_current.
Qed.

Lemma lookup_insert_token kd kd' x y p ks :
  <[token_key kd x := p]> ks !! token_key kd' y
  = if decide (kd = kd' ∧ x = y) then Some p else ks !! token_key kd' y.
Proof.
  case_decide as H; [destruct H as [-> ->]; apply lookup_insert_eq|].
  rewrite lookup_insert_ne; [done|]. by intros ?%token_key_inj.
Qed.
Lemma lookup_insert_current kd kd' m n p ks :
  <[current_key kd m := p]> ks !! current_key kd' n
  = if decide (kd = kd' ∧ m = n) then Some p else ks !! current_key kd' n.
Proof.
  case_decide as H; [destruct H as [-> ->]; apply lookup_insert_eq|].
  rewrite lookup_insert_ne; [done|]. by intros ?%current_key_inj.
Qed.
Lemma lookup_insert_token_current kd kd' x n p ks :
  <[token_key kd x := p]> ks !! current_key kd' n = ks !! current_key kd' n.
Proof. apply lookup_insert_ne, token_key_ne_current. Qed.
Lemma lookup_insert_current_token kd kd' x n p ks :
  <[current_key kd n := p]> ks !! token_key kd' x = ks !! token_key kd' x.
Proof. apply lookup_insert_ne. intros H. by eapply token_key_ne_current. Qed.
Lemma lookup_delete_current kd kd' m n ks :
  delete (current_key kd m) ks !! current_key kd' n
  = if decide (kd = kd' ∧ m = n) then None else ks !! current_key kd' n.
Proof.
  case_decide as H; [destruct H as [-> ->]; apply lookup_delete_eq|].
  rewrite lookup_delete_ne; [done|]. by intros ?%current_key_inj.
Qed.
Lemma lookup_delete_current_token kd kd' x n ks :
  delete (current_key kd n) ks !! token_key kd' x = ks !! token_key kd' x.
Proof. apply lookup_delete_ne. intros H. by eapply token_key_ne_current. Qed.

(** ** Steps of a program *)

Lemma clock_step i j : i ≤ j → (clock i ≤ clock j)%Z.
Proof. apply clock_mono. Qed.

(** What every step keeps: time goes on and no value is drawn. *)
Definition later s s' : Prop :=
  env_clock (redis_env s) ≤ env_clock (redis_env s') ∧ env_rng (redis_env s') = env_rng (redis_env s).

Lemma wp_send {A} (f : DateTime → Keys → A * Keys) s Q :
  (∀ s', later s s' → redis_keys s' = (f (now_at s) (redis_keys s)).2 →
         Q (Ok (f (now_at s) (redis_keys s)).1) s') →
  (∀ b e s', redis_fault (redis_command s) = Some (b, e) → later s s' →
         redis_keys s' = redis_keys s ∨ redis_keys s' = (f (now_at s) (redis_keys s)).2 →
         Q (Err (Redis e)) s') →
  wp (send f) s Q.
Proof.
  intros Hok Herr. unfold wp, send, now_at, later in *.
  destruct (f (clock (env_clock (redis_env s))) (redis_keys s)) as [a ks].
  destruct (redis_fault (redis_command s)) as [[[] e]|];
    [eapply Herr|eapply Herr|apply Hok]; simpl; auto with lia.
Qed.

Lemma wp_del_token kd o s Q :
  (∀ s', later s s' → redis_keys s' = drop_token (token_key kd) o (redis_keys s) → Q (Ok tt) s') →
  (∀ b e s', redis_fault (redis_command s) = Some (b, e) → later s s' →
           redis_keys s' = redis_keys s ∨ redis_keys s' = drop_token (token_key kd) o (redis_keys s) →
           Q (Err (Redis e)) s') →
  wp (del_token (token_key kd) o) s Q.
Proof.
  intros Hok Herr. unfold del_token. destruct o as [x|].
  - apply wp_bind, wp_send; [|done]. intros s' Hl Hks. apply wp_ret. by apply Hok.
  - apply wp_ret, Hok; [|done]. by split.
Qed.

(** ** Successful calls *)

(** What a successful call that gives [tok] to node [n] does to one kind of keys:
    [tg], [ts], [tc] are the times at which the current token was looked up, the new
    token stored and its name stored. *)
Definition kind_issued (kd : Kind) (n : Uuid) (tok text : string) (d : Z) (from upto : DateTime)
    (ks ks' : Keys) : Prop :=
  ∃ tg ts tc,
    (from ≤ tg ∧ tg ≤ upto ∧ ts ≤ tc)%Z
    ∧ (upto ≤ ts)%Z
    ∧ (∀ x, ks' !! token_key kd x
            = if decide (x = tok) then Some (text, ts + d)%Z
              else if decide (live tg ks (current_key kd n) = Some x) then None
              else ks !! token_key kd x)
    ∧ ∀ m, ks' !! current_key kd m
           = if decide (m = n) then Some (tok, tc + d)%Z else ks !! current_key kd m.

Definition issued_step (n : Uuid) (ttl : Z) s (i : IssuedTokens) s' : Prop :=
  ∃ now text,
    let k := env_rng (redis_env s) in
    i = mkIssued (access_token_of (rng k)) (refresh_token_of (rng (S k))) (now + ttl)
    ∧ lease_to_string (mkLease n (now + ttl)) = Ok text
    ∧ env_rng (redis_env s') = S (S k)
    ∧ env_clock (redis_env s) ≤ env_clock (redis_env s') ∧ (now ≤ now_at s')%Z
    ∧ ∀ kd, kind_issued kd n (issued_token kd i) text (seconds (Z.max (num_seconds ttl) 1))
              (now_at s) now (redis_keys s) (redis_keys s').

Definition kind_revoked (kd : Kind) (n : Uuid) (from upto : DateTime) (ks ks' : Keys) : Prop :=
  ∃ tg,
    (from ≤ tg ≤ upto)%Z
    ∧ (∀ x, ks' !! token_key kd x
            = if decide (live tg ks (current_key kd n) = Some x) then None else ks !! token_key kd x)
    ∧ ∀ m, ks' !! current_key kd m = if decide (m = n) then None else ks !! current_key kd m.

Lemma wp_draw s (Q : Result Uuid StoreError → RedisState → Prop) :
  (∀ s', redis_keys s' = redis_keys s → env_clock (redis_env s') = env_clock (redis_env s) →
         env_rng (redis_env s') = S (env_rng (redis_env s)) → Q (Ok (rng (env_rng (redis_env s)))) s') →
  wp (redis_env_run new_v4) s Q.
Proof. intros H. by apply H. Qed.
Lemma wp_hub_now s (Q : Result DateTime StoreError → RedisState → Prop) :
  (∀ s', later s s' → redis_keys s' = redis_keys s → Q (Ok (now_at s)) s') →
  wp (redis_env_run utc_now) s Q.
Proof. intros H. apply H; [split; simpl; lia|done]. Qed.

(** One step: the state after it, or the end of a failed call. *)
Ltac rd1 :=
  lazymatch goal with
  | |- wp (bind _ _) _ _ => apply wp_bind
  | |- wp connect _ _ => unfold connect; rd1
  | |- wp (get _) _ _ => unfold get; rd1
  | |- wp (del _) _ _ => unfold del; rd1
  | |- wp (set_ex _ _ _) _ _ => unfold set_ex; rd1
  | |- wp (send _) _ _ => apply wp_send; [intros ? [? ?] ?|intros ? ? ? ? [? ?] ?]
  | |- wp (redis_env_run new_v4) _ _ => apply wp_draw; intros ? ? ? ?
  | |- wp (redis_env_run utc_now) _ _ => apply wp_hub_now; intros ? [? ?] ?
  | |- wp (del_token (access_key _) _) _ _ =>
      apply (wp_del_token OfAccess); [intros ? [? ?] ?|intros ? ? ? ? [? ?] ?]
  | |- wp (del_token (refresh_key _) _) _ _ =>
      apply (wp_del_token OfRefresh); [intros ? [? ?] ?|intros ? ? ? ? [? ?] ?]
  | |- wp (lift _) _ _ => apply wp_lift; intros
  | |- wp (ret _) _ _ => apply wp_ret
  end.
Ltac rds := repeat (rd1; cbn beta iota; simpl fst in *; simpl snd in *; try done).

(** The keys of a kind after a chain of commands. *)
Ltac key_rewrites :=
  repeat match goal with H : redis_keys _ = _ |- _ => rewrite H; clear H end;
  change (access_key key_prefix) with (token_key OfAccess);
  change (refresh_key key_prefix) with (token_key OfRefresh);
  change (current_access_key key_prefix) with (current_key OfAccess);
  change (current_refresh_key key_prefix) with (current_key OfRefresh);
  rewrite ?lookup_drop_token, ?lookup_drop_current, ?lookup_insert_current,
    ?lookup_insert_current_token, ?lookup_insert_token, ?lookup_insert_token_current,
    ?lookup_drop_token, ?lookup_drop_current, ?lookup_delete_current, ?lookup_delete_current_token.
Ltac key_lookups := key_rewrites; repeat case_decide; naive_solver.
Ltac times := unfold now_at in *; repeat split; try apply clock_step; lia.

Lemma redis_issue_step n ttl s :
  wp (redis_issue_tokens key_prefix n ttl) s
    (λ r s', match r with Ok i => issued_step n ttl s i s' | Err _ => True end).
Proof.
  unfold redis_issue_tokens. rds.
  rename select (match lease_to_string _ with _ => _ end = _) into Htext.
  destruct (lease_to_string _) as [text|] eqn:Hl; simplify_eq.
  assert (env_rng (redis_env s'3) = env_rng (redis_env s)) as Hrng by lia.
  assert (env_rng (redis_env s'4) = S (env_rng (redis_env s))) as Hrng' by lia.
  exists (now_at s'5), a. rewrite Hrng, Hrng' in *. split_and!; [done|exact Hl|lia|lia|times|].
  intros [].
  - exists (now_at s'), (now_at s'6), (now_at s'8). split_and!; [times..| |]; intros; key_lookups.
  - exists (now_at s'0), (now_at s'7), (now_at s'9). split_and!; [times..| |]; intros; key_lookups.
Qed.

Lemma redis_revoke_step n s :
  wp (redis_revoke_tokens key_prefix n) s
    (λ r s', match r with
             | Ok _ => later s s' ∧ ∀ kd, kind_revoked kd n (now_at s) (now_at s') (redis_keys s) (redis_keys s')
             | Err _ => True
             end).
Proof.
  unfold redis_revoke_tokens. rds. split; [split; lia|]. intros [].
  - exists (now_at s'). split_and!; [times..| |]; intros; key_lookups.
  - exists (now_at s'0). split_and!; [times..| |]; intros; key_lookups.
Qed.

(** ** Calls, however they end *)

Definition drawn_token (kd : Kind) (i : nat) : string :=
  match kd with OfAccess => access_token_of (rng i) | OfRefresh => refresh_token_of (rng i) end.

Lemma drawn_token_inj kd i j : drawn_token kd i = drawn_token kd j → i = j.
Proof.
  destruct kd; simpl; intros H; apply rng_inj;
    [by apply access_token_of_inj|by apply refresh_token_of_inj].
Qed.

(** What a call for node [n] may have done to one kind of keys when it stops, successfully or
    not, between the draws [k] and [k']: the name of the node's current token is the old
    one, none, or a token drawn in the call; a token's key is as it was, or it was named
    as the current one of the node and is gone, or it was drawn in the call and holds a
    lease of the node. *)
Record kind_touched (kd : Kind) (n : Uuid) (k k' : nat) (ks ks' : Keys) : Prop := mkKindTouched {
  kt_others : ∀ m, m ≠ n → ks' !! current_key kd m = ks !! current_key kd m;
  kt_current : ∀ x u, ks' !! current_key kd n = Some (x, u) →
    ks !! current_key kd n = Some (x, u) ∨ ∃ j, k ≤ j < k' ∧ x = drawn_token kd j;
  kt_token : ∀ x, ks' !! token_key kd x = ks !! token_key kd x
    ∨ (ks' !! token_key kd x = None ∧ fst <$> ks !! current_key kd n = Some x)
    ∨ ∃ j text u l, k ≤ j < k' ∧ x = drawn_token kd j ∧ ks' !! token_key kd x = Some (text, u)
        ∧ lease_to_string l = Ok text ∧ lease_node_id l = n;
}.

Definition touched (n : Uuid) s s' : Prop :=
  env_clock (redis_env s) ≤ env_clock (redis_env s')
  ∧ env_rng (redis_env s) ≤ env_rng (redis_env s')
  ∧ ∀ kd, kind_touched kd n (env_rng (redis_env s)) (env_rng (redis_env s'))
            (redis_keys s) (redis_keys s').

Lemma live_named tg ks k x : live tg ks k = Some x → fst <$> ks !! k = Some x.
Proof. unfold live. destruct (ks !! k) as [[v u]|]; simpl; [|done]. case_decide; congruence. Qed.

(** The keys of one kind under the commands of a call. *)
Lemma kind_touched_refl kd n k k' ks : kind_touched kd n k k' ks ks.
Proof. split; auto. Qed.

Lemma kind_touched_drop kd kd' n k k' o ks ks' :
  kind_touched kd n k k' ks ks' → (∀ x, o = Some x → fst <$> ks !! current_key kd' n = Some x) →
  kind_touched kd n k k' ks (drop_token (token_key kd') o ks').
Proof.
  intros [Ho Hc Ht] Hname. split.
  - intros m Hm. rewrite lookup_drop_current. auto.
  - intros x u. rewrite lookup_drop_current. auto.
  - intros x. rewrite lookup_drop_token. case_decide as Hx; [|auto].
    destruct Hx as [-> ->]. right. left. auto.
Qed.

Lemma kind_touched_unname kd kd' n k k' ks ks' :
  kind_touched kd n k k' ks ks' → kind_touched kd n k k' ks (delete (current_key kd' n) ks').
Proof.
  intros [Ho Hc Ht]. split.
  - intros m Hm. rewrite lookup_delete_current, decide_False by naive_solver. auto.
  - intros x u. rewrite lookup_delete_current. case_decide; [done|auto].
  - intros x. rewrite lookup_delete_current_token. auto.
Qed.

Lemma kind_touched_store kd kd' n k k' j text u l ks ks' :
  kind_touched kd n k k' ks ks' → k ≤ j < k' → lease_to_string l = Ok text → lease_node_id l = n →
  kind_touched kd n k k' ks (<[token_key kd' (drawn_token kd' j) := (text, u)]> ks').
Proof.
  intros [Ho Hc Ht] Hj Htext Hn. split.
  - intros m Hm. rewrite lookup_insert_token_current. auto.
  - intros x v. rewrite lookup_insert_token_current. auto.
  - intros x. rewrite lookup_insert_token. case_decide as Hx; [|auto].
    destruct Hx as [-> <-], Hj. right. right. by exists j, text, u, l.
Qed.

Lemma kind_touched_name kd kd' n k k' j u ks ks' :
  kind_touched kd n k k' ks ks' → k ≤ j < k' →
  kind_touched kd n k k' ks (<[current_key kd' n := (drawn_token kd' j, u)]> ks').
Proof.
  intros [Ho Hc Ht] Hj. split.
  - intros m Hm. rewrite lookup_insert_current, decide_False by naive_solver. auto.
  - intros x v. rewrite lookup_insert_current. case_decide as Hx; [|auto].
    destruct Hx as [-> _]. intros [= <- <-]. right. eauto.
  - intros x. rewrite lookup_insert_current_token. auto.
Qed.

Ltac touching :=
  first
    [ apply kind_touched_refl
    | apply (kind_touched_drop _ OfAccess); [|by intros x ?%live_named]
    | apply (kind_touched_drop _ OfRefresh); [|by intros x ?%live_named]
    | apply (kind_touched_unname _ OfAccess) | apply (kind_touched_unname _ OfRefresh)
    | eapply (kind_touched_name _ OfAccess); [|lia] | eapply (kind_touched_name _ OfRefresh); [|lia]
    | eapply (kind_touched_store _ OfAccess); [|lia|eassumption|done]
    | eapply (kind_touched_store _ OfRefresh); [|lia|eassumption|done] ].
Ltac touch :=
  split; [lia|split; [lia|]]; intros kd; destruct_or?;
  repeat match goal with H : redis_keys _ = _ |- _ => rewrite H; clear H end; repeat touching.

Lemma redis_revoke_touches n s : wp (redis_revoke_tokens key_prefix n) s (λ _ s', touched n s s').
Proof. unfold redis_revoke_tokens. rds. all: touch. Qed.

Lemma redis_issue_touches n ttl s : wp (redis_issue_tokens key_prefix n ttl) s (λ _ s', touched n s s').
Proof.
  unfold redis_issue_tokens. rds.
  all: try match goal with H : match lease_to_string ?l with _ => _ end = _ |- _ =>
    destruct (lease_to_string l) eqn:?; simplify_eq end.
  all: repeat match goal with H : env_rng (redis_env ?a) = _ |- context [rng (env_rng (redis_env ?a))] =>
    rewrite H end.
  all: touch.
Qed.

(** ** Agreement with the in-memory store *)

(** One kind of keys at a time [now] and after [k] draws, up to the nodes of [D], for which a call
    was cut short.  For any other node: the current tokens are the same, and every token
    the in-memory store knows is stored with its lease, for no longer than the name of
    the current token and to within a second of the expiry or beyond.  Any other stored
    token is past its time or holds a lease of a node of [D].  The current token of a
    node, whichever it is, is no token of another node and none still to be drawn. *)
Record kind_agrees (kd : Kind) (D : gset Uuid) (now : DateTime) (k : nat) (ks : Keys)
    (current : gmap Uuid string) (tokens : gmap string TokenLease) : Prop := mkKindAgrees {
  ka_current : ∀ n, n ∉ D → fst <$> ks !! current_key kd n = current !! n;
  ka_stored : ∀ x l, tokens !! x = Some l → lease_node_id l ∉ D → ∃ text u u',
    ks !! token_key kd x = Some (text, u) ∧ lease_to_string l = Ok text
    ∧ ks !! current_key kd (lease_node_id l) = Some (x, u')
    ∧ (u ≤ u')%Z ∧ (lease_expires_at l < u + seconds 1)%Z;
  ka_other : ∀ x text u, ks !! token_key kd x = Some (text, u) →
    (∃ l, tokens !! x = Some l ∧ lease_node_id l ∉ D) ∨ (u < now)%Z
    ∨ ∃ l, lease_to_string l = Ok text ∧ lease_node_id l ∈ D;
  ka_owner : ∀ n x u l, ks !! current_key kd n = Some (x, u) → tokens !! x = Some l → lease_node_id l = n;
  ka_named : ∀ n x u i, ks !! current_key kd n = Some (x, u) → k ≤ i → x ≠ drawn_token kd i;
}.

Lemma remove_current_fst n current tokens : (remove_current n current tokens).1 = delete n current.
Proof. unfold remove_current. by destruct (current !! n). Qed.

Section OneKind.
Context (kd : Kind) (D : gset Uuid) (now : DateTime) (k : nat) (ks : Keys).
Context (current : gmap Uuid string) (tokens : gmap string TokenLease).
Hypothesis Ha : kind_agrees kd D now k ks current tokens.

Lemma kind_agrees_later now' k' :
  (now ≤ now')%Z → k ≤ k' → kind_agrees kd D now' k' ks current tokens.
Proof.
  intros Ht Hk. destruct Ha as [Hc Hs Ho Hw Hn]. split; [done|done| |done|].
  - intros x text u Hx. destruct (Ho x text u Hx) as [?|[?|?]]; [by left|right; left; lia|by right; right].
  - intros n x u i Hx Hi. apply (Hn n x u i Hx). lia.
Qed.

(** The token that is deleted is one the in-memory store drops. *)
Lemma dropped_is_owned tg n x l :
  live tg ks (current_key kd n) = Some x → tokens !! x = Some l → lease_node_id l = n.
Proof.
  intros Hlive%live_named. destruct (ks !! current_key kd n) as [[y u]|] eqn:Hc; [|done].
  injection Hlive as ->. by eapply ka_owner.
Qed.

Lemma owned_elsewhere tg n x l :
  tokens !! x = Some l → lease_node_id l ≠ n → live tg ks (current_key kd n) ≠ Some x.
Proof. intros Hl Hn Hx. apply Hn. by eapply dropped_is_owned. Qed.

(** A token that is kept though it is the node's is past its time. *)
Lemma kept_is_lapsed tg n x text u l :
  live tg ks (current_key kd n) ≠ Some x → ks !! token_key kd x = Some (text, u) →
  tokens !! x = Some l → lease_node_id l = n → n ∉ D → (u < tg)%Z.
Proof.
  intros Hlive Hx Hl <- Hn. destruct (ka_stored _ _ _ _ _ _ _ Ha x l Hl Hn) as (? & ? & u' & Hx' & _ & Hc & ? & _).
  simplify_eq. unfold live in Hlive. rewrite Hc in Hlive. simpl in Hlive. case_decide; [done|lia].
Qed.

(** A stored token that a call for [n] at time [tg] does not delete. *)
Lemma kept_other tg n x text u :
  (now ≤ tg)%Z → live tg ks (current_key kd n) ≠ Some x → ks !! token_key kd x = Some (text, u) →
  (∃ l, drop_node n (tokens !! x) = Some l ∧ lease_node_id l ∉ D) ∨ (u < tg)%Z
  ∨ ∃ l, lease_to_string l = Ok text ∧ lease_node_id l ∈ D.
Proof.
  intros Htg Hlive Hx. destruct (ka_other _ _ _ _ _ _ _ Ha x text u Hx) as [(l & Hl & Hn)|[?|?]];
    [|right; left; lia|by right; right].
  destruct (decide (lease_node_id l = n)) as [Heq|Hne].
  - right. left. subst n. by eapply kept_is_lapsed.
  - left. exists l. rewrite Hl. simpl. by rewrite decide_False.
Qed.

Lemma kind_agrees_revoke now' k' ks' n :
  current_ok current tokens → kind_revoked kd n now now' ks ks' → k ≤ k' →
  kind_agrees kd D now' k' ks' (remove_current n current tokens).1 (remove_current n current tokens).2.
Proof.
  intros Hok (tg & ? & Htok & Hcur) Hk. split.
  - intros m Hm. rewrite Hcur, remove_current_fst. case_decide as Hmn.
    + subst. by rewrite lookup_delete_eq.
    + rewrite lookup_delete_ne by done. by apply Ha.
  - intros x l. rewrite remove_current_lookup by done. intros [Hl Hn]%drop_node_Some Hd.
    destruct (ka_stored _ _ _ _ _ _ _ Ha x l Hl Hd) as (text & u & u' & ?). exists text, u, u'.
    rewrite Htok, Hcur, (decide_False (P := lease_node_id l = n)), decide_False; [done| |done].
    by eapply owned_elsewhere.
  - intros x text u. rewrite Htok, remove_current_lookup by done. case_decide as Hx; [done|]. intros Hk'.
    destruct (kept_other tg n x text u ltac:(lia) Hx Hk') as [?|[?|?]]; [by left|right; left; lia|by right; right].
  - intros m x u l. rewrite Hcur, remove_current_lookup by done. case_decide; [done|].
    intros Hm [Hl _]%drop_node_Some. by eapply ka_owner.
  - intros m x u i. rewrite Hcur. case_decide; [done|]. intros Hm Hi.
    apply (ka_named _ _ _ _ _ _ _ Ha m x u i Hm). lia.
Qed.

Lemma kind_agrees_issue upto now' k' j ks' n text d l :
  let x := drawn_token kd j in
  current_ok current tokens → kind_issued kd n x text d now upto ks ks' → (upto ≤ now')%Z →
  k ≤ j < k' → lease_node_id l = n → lease_to_string l = Ok text →
  (lease_expires_at l < upto + d + seconds 1)%Z →
  kind_agrees kd D now' k' ks' (<[n := x]> (remove_current n current tokens).1)
    (<[x := l]> (remove_current n current tokens).2).
Proof.
  intros x Hok (tg & ts & tc & ? & ? & Htok & Hcur) ? Hj Hn Htext ?. split.
  - intros m Hm. rewrite Hcur, remove_current_fst. case_decide as Hmn.
    + subst. by rewrite lookup_insert_eq.
    + rewrite lookup_insert_ne, lookup_delete_ne by done. by apply Ha.
  - intros y l'. rewrite lookup_insert_Some, remove_current_lookup by done.
    intros [[<- <-]|[Hy [Hl Hk]%drop_node_Some]] Hd.
    + exists text, (ts + d)%Z, (tc + d)%Z. rewrite Htok, Hcur, !decide_True by done.
      split_and!; [done..|lia|lia].
    + destruct (ka_stored _ _ _ _ _ _ _ Ha y l' Hl Hd) as (text' & u & u' & ?). exists text', u, u'.
      rewrite Htok, Hcur, (decide_False (P := y = x)), (decide_False (P := lease_node_id l' = n)),
        decide_False; [done| |done|done]. by eapply owned_elsewhere.
  - intros y text' u. rewrite Htok. case_decide as Hy.
    + intros [= <- <-]. subst y. rewrite lookup_insert_eq. destruct (decide (n ∈ D)) as [HD|HD].
      * right. right. exists l. by rewrite Hn.
      * left. exists l. by rewrite Hn.
    + rewrite lookup_insert_ne, remove_current_lookup by done. case_decide as Hx; [done|]. intros Hk'.
      destruct (kept_other tg n y text' u ltac:(lia) Hx Hk') as [?|[?|?]]; [by left|right; left; lia|by right; right].
  - intros m y u l'. rewrite Hcur. case_decide as Hm.
    + intros [= <- <-]. rewrite lookup_insert_eq. intros [= <-]. congruence.
    + intros Hc. rewrite lookup_insert_ne, remove_current_lookup by
        (done || apply not_eq_sym, (ka_named _ _ _ _ _ _ _ Ha m y u j Hc); lia).
      intros [Hl _]%drop_node_Some. by eapply ka_owner.
  - intros m y u i. rewrite Hcur. case_decide.
    + intros [= <- <-] Hi ?%drawn_token_inj. lia.
    + intros Hm Hi. apply (ka_named _ _ _ _ _ _ _ Ha m y u i Hm). lia.
Qed.

(** A call for [n] that was cut short. *)
Lemma kind_agrees_touched now' k' ks' n :
  kind_touched kd n k k' ks ks' → (now ≤ now')%Z → k ≤ k' →
  (∀ i, k ≤ i → tokens !! drawn_token kd i = None) →
  kind_agrees kd ({[n]} ∪ D) now' k' ks' current tokens.
Proof.
  intros [Hto Htc Htt] Hnow Hk Hfresh. split.
  - intros m Hm. rewrite Hto by set_solver. apply Ha. set_solver.
  - intros x l Hl Hd. destruct (ka_stored _ _ _ _ _ _ _ Ha x l Hl) as (text & u & u' & Hx & Ht & Hc & ? & ?); [set_solver|].
    exists text, u, u'. rewrite Hto by set_solver. split_and!; try done. destruct (Htt x) as [->|[[_ Hn]|Hn]]; [done|..].
    + destruct (ks !! current_key kd n) as [[y v]|] eqn:Hcn; [|done]. injection Hn as ->.
      exfalso. apply Hd. rewrite (ka_owner _ _ _ _ _ _ _ Ha n x v l Hcn Hl). set_solver.
    + destruct Hn as (j & ? & ? & ? & Hj & -> & _). rewrite Hfresh in Hl by lia. done.
  - intros x text u Hx. destruct (Htt x) as [Heq|[[Hnone _]|Hn]].
    + rewrite Heq in Hx. destruct (ka_other _ _ _ _ _ _ _ Ha x text u Hx) as [(l & Hl & Hd)|[?|(l & ? & ?)]].
      * destruct (decide (lease_node_id l = n)) as [Hln|Hln].
        -- right. right. destruct (ka_stored _ _ _ _ _ _ _ Ha x l Hl Hd) as (? & ? & ? & Hx' & ? & _).
           simplify_eq. exists l. split; [done|set_solver].
        -- left. exists l. split; [done|set_solver].
      * right. left. lia.
      * right. right. exists l. split; [done|set_solver].
    + by rewrite Hnone in Hx.
    + destruct Hn as (j & text' & u' & l & Hj & -> & Hx' & Ht & Hl). rewrite Hx' in Hx. simplify_eq.
      right. right. exists l. split; [done|set_solver].
  - intros m x u l Hm Hl. destruct (decide (m = n)) as [->|Hne].
    + apply Htc in Hm as [Hm|(j & Hj & ->)]; [by eapply ka_owner|]. rewrite Hfresh in Hl by lia. done.
    + rewrite Hto in Hm by done. by eapply ka_owner.
  - intros m x u i Hm Hi. destruct (decide (m = n)) as [->|Hne].
    + apply Htc in Hm as [Hm|(j & Hj & ->)]; [apply (ka_named _ _ _ _ _ _ _ Ha n x u i Hm); lia|].
      intros ?%drawn_token_inj. lia.
    + rewrite Hto in Hm by done. apply (ka_named _ _ _ _ _ _ _ Ha m x u i Hm). lia.
Qed.
End OneKind.

(** The two stores after the same calls, and the nodes for which a call was cut short: a call
    that succeeded is made on both; a call for a node that failed, having changed
    whatever it had changed by then, is not made in memory, and the node joins the set;
    reads, and draws and times elsewhere, change no key. *)
Inductive token_run : RedisState → MemoryTokenState → gset Uuid → Prop :=
| run_empty s : redis_keys s = ∅ → token_run s no_tokens ∅
| run_issue s t D n ttl i s' :
    token_run s t D → redis_issue_tokens key_prefix n ttl s = (Ok i, s') →
    token_run s' (issue_tokens n (access_token i) (refresh_token i) (token_expires_at i) t).2 D
| run_revoke s t D n s' :
    token_run s t D → redis_revoke_tokens key_prefix n s = (Ok tt, s') →
    token_run s' (revoke_tokens n t) D
| run_issue_cut s t D n ttl e s' :
    token_run s t D → redis_issue_tokens key_prefix n ttl s = (Err e, s') → token_run s' t ({[n]} ∪ D)
| run_revoke_cut s t D n e s' :
    token_run s t D → redis_revoke_tokens key_prefix n s = (Err e, s') → token_run s' t ({[n]} ∪ D)
| run_unchanged s t D s' :
    token_run s t D → redis_keys s' = redis_keys s →
    env_clock (redis_env s) ≤ env_clock (redis_env s') →
    env_rng (redis_env s) ≤ env_rng (redis_env s') → token_run s' t D.

Record token_agrees (D : gset Uuid) s t : Prop := mkTokenAgrees {
  ta_kind : ∀ kd, kind_agrees kd D (now_at s) (env_rng (redis_env s)) (redis_keys s)
                    (current_tokens kd t) (live_tokens kd t);
  ta_ok : ∀ kd, current_ok (current_tokens kd t) (live_tokens kd t);
  ta_fresh : ∀ kd i, env_rng (redis_env s) ≤ i → live_tokens kd t !! drawn_token kd i = None;
}.

Lemma revoke_by_kind kd n t :
  (current_tokens kd (memory_revoke_tokens n t), live_tokens kd (memory_revoke_tokens n t))
  = remove_current n (current_tokens kd t) (live_tokens kd t).
Proof.
  unfold memory_revoke_tokens. destruct (remove_current n (current_access_by_node t) _) eqn:Ea.
  destruct (remove_current n (current_refresh_by_node t) _) eqn:Er. by destruct kd; simpl.
Qed.

Lemma issue_by_kind kd n i t :
  let t' := (memory_issue_tokens n (access_token i) (refresh_token i) (token_expires_at i) t).2 in
  let '(current, tokens) := remove_current n (current_tokens kd t) (live_tokens kd t) in
  current_tokens kd t' = <[n := issued_token kd i]> current
  ∧ live_tokens kd t' = <[issued_token kd i := mkLease n (token_expires_at i)]> tokens.
Proof.
  unfold memory_issue_tokens. destruct (remove_current n (current_access_by_node t) _) eqn:Ea.
  destruct (remove_current n (current_refresh_by_node t) _) eqn:Er.
  destruct kd; simpl in *; by rewrite ?Ea, ?Er.
Qed.

Lemma ttl_within_a_second ttl : (ttl < seconds (Z.max (num_seconds ttl) 1) + seconds 1)%Z.
Proof. unfold seconds, num_seconds. Z.to_euclidean_division_equations. lia. Qed.

Lemma token_agrees_revoke D s t n s' :
  token_agrees D s t → redis_revoke_tokens key_prefix n s = (Ok tt, s') →
  token_agrees D s' (revoke_tokens n t).
Proof.
  intros [Hk Hok Hf] Hrun. destruct (wp_run _ _ _ _ _ (redis_revoke_step n s) Hrun) as [[Hc Hr] Hkd].
  simpl. split; intros kd; pose proof (revoke_by_kind kd n t) as Hrev;
    pose proof (remove_current_lookup n (current_tokens kd t) (live_tokens kd t)) as Hlook;
    pose proof (kind_agrees_revoke kd _ _ _ _ _ _ (Hk kd) _ (env_rng (redis_env s')) _ n (Hok kd) (Hkd kd)
      ltac:(lia)) as Hag;
    pose proof (remove_current_ok n _ _ (Hok kd)) as Hnew; rewrite <-Hrev in *; simpl in *;
    [done|by destruct Hnew|].
  intros i Hi. rewrite Hlook by done. apply drop_node_None, Hf. lia.
Qed.

Lemma token_agrees_issue D s t n ttl i s' :
  token_agrees D s t → redis_issue_tokens key_prefix n ttl s = (Ok i, s') →
  token_agrees D s' (issue_tokens n (access_token i) (refresh_token i) (token_expires_at i) t).2.
Proof.
  intros [Hk Hok Hf] Hrun.
  destruct (wp_run _ _ _ _ _ (redis_issue_step n ttl s) Hrun) as (now & text & Hi & Htext & Hr & Hc & Hn & Hkd).
  assert (∀ kd, ∃ j, issued_token kd i = drawn_token kd j
    ∧ env_rng (redis_env s) ≤ j < env_rng (redis_env s')) as Hdrawn.
  { rewrite Hi, Hr. intros []; eexists; (split; [reflexivity|lia]). }
  assert (token_expires_at i = now + ttl)%Z as Hexp by (by rewrite Hi).
  simpl. split; intros kd; destruct (Hdrawn kd) as (j & Hj & Hlt); specialize (Hkd kd); rewrite Hj in Hkd;
    pose proof (issue_by_kind kd n i t) as Hiss;
    pose proof (remove_current_lookup n (current_tokens kd t) (live_tokens kd t)) as Hlook;
    pose proof (kind_agrees_issue kd _ _ _ _ _ _ (Hk kd) _ _ _ _ _ _ _ _ (mkLease n (token_expires_at i))
      (Hok kd) Hkd Hn Hlt) as Hag;
    pose proof (remove_current_ok n _ _ (Hok kd)) as Hnew;
    destruct (remove_current n (current_tokens kd t) (live_tokens kd t)) as [c l];
    destruct Hiss as [Hi1 Hi2]; rewrite ?Hi1, ?Hi2, ?Hj; simpl in *.
  - apply Hag; [done|by rewrite Hexp|]. rewrite Hexp. pose proof (ttl_within_a_second ttl). lia.
  - destruct Hnew as [Hc1 Hc2]. apply current_ok_insert; [done..|]. rewrite Hlook by done.
    apply drop_node_None. apply Hf. lia.
  - intros k Hge. rewrite lookup_insert_ne.
    + rewrite Hlook by done. apply drop_node_None, Hf. lia.
    + intros ?%drawn_token_inj. lia.
Qed.

Lemma token_agrees_touched D s t n s' :
  token_agrees D s t → touched n s s' → token_agrees ({[n]} ∪ D) s' t.
Proof.
  intros [Hk Hok Hf] (Hc & Hr & Hkd). split; [|done|intros; apply Hf; lia].
  intros kd. eapply kind_agrees_touched; [apply Hk|apply Hkd| |done|apply Hf]. by apply clock_step.
Qed.

Lemma token_run_agrees s t D : token_run s t D → token_agrees D s t.
Proof.
  induction 1 as [s Hs|s t D n ttl i s' _ IH Hrun|s t D n s' _ IH Hrun|s t D n ttl e s' _ IH Hrun
    |s t D n e s' _ IH Hrun|s t D s' _ [Hk Hok Hf] Hs Hc Hr].
  - split; [|by intros [] ??; simpl; rewrite !lookup_empty|by intros []].
    intros kd. rewrite Hs. by destruct kd; split; simpl; intros *; rewrite ?lookup_empty.
  - by eapply token_agrees_issue.
  - by eapply token_agrees_revoke.
  - eapply token_agrees_touched; [exact IH|exact (wp_run _ _ _ _ _ (redis_issue_touches n ttl s) Hrun)].
  - eapply token_agrees_touched; [exact IH|exact (wp_run _ _ _ _ _ (redis_revoke_touches n s) Hrun)].
  - split; [|done|intros; apply Hf; lia]. intros kd. rewrite Hs.
    eapply kind_agrees_later; [apply Hk| |done]. by apply clock_step.
Qed.

(** ** Reads *)

(** What a read may answer, leases of the nodes of [D] apart: a lease the in-memory store
    has, or none for a lease that has less than a second left. *)
Definition lease_answer (D : gset Uuid) (stored answer : option TokenLease) (now : DateTime) : Prop :=
  (∀ l, answer = Some l → stored = Some l ∨ lease_node_id l ∈ D)
  ∧ ∀ l, stored = Some l →
      answer = Some l ∨ (lease_expires_at l < now + seconds 1)%Z ∨ lease_node_id l ∈ D.

Lemma live_read `{!LeaseLaws} kd D now k tg now' ks current tokens x :
  kind_agrees kd D now k ks current tokens → (now ≤ tg ≤ now')%Z →
  ∃ answer, read_lease (live tg ks (token_key kd x)) = Ok answer
            ∧ lease_answer D (tokens !! x) answer now'.
Proof.
  intros Ha Htg. unfold live. destruct (ks !! token_key kd x) as [[text u]|] eqn:Hx; simpl.
  - destruct (ka_other _ _ _ _ _ _ _ Ha x text u Hx) as [(l & Hl & Hd)|[Hu|(l & Ht & Hd)]].
    + destruct (ka_stored _ _ _ _ _ _ _ Ha x l Hl Hd) as (? & ? & ? & Hx' & Htext & _ & _ & Hexp).
      simplify_eq. rewrite Hl. case_decide; simpl.
      * rewrite (lease_roundtrip _ _ Htext). exists (Some l). split; [done|]. split; naive_solver.
      * exists None. split; [done|]. split; [done|]. intros ? [= <-]. right. left. lia.
    + rewrite decide_False by lia. exists None. split; [done|]. split; [done|]. intros l Hl.
      destruct (decide (lease_node_id l ∈ D)) as [?|Hd]; [by right; right|].
      destruct (ka_stored _ _ _ _ _ _ _ Ha x l Hl Hd) as (? & ? & ? & Hx' & _ & _ & _ & Hexp).
      simplify_eq. right. left. lia.
    + assert (∀ l', tokens !! x = Some l' → lease_node_id l' ∉ D → l' = l) as Hsame.
      { intros l' Hl' Hd'. destruct (ka_stored _ _ _ _ _ _ _ Ha x l' Hl' Hd') as (? & ? & ? & Hx' & Htext & _).
        simplify_eq. pose proof (lease_roundtrip _ _ Htext). pose proof (lease_roundtrip _ _ Ht). congruence. }
      assert (∀ l', tokens !! x = Some l' → lease_node_id l' ∈ D) as HD.
      { intros l' Hl'. apply dec_stable. intros Hd'. by rewrite (Hsame l' Hl' Hd') in Hd'. }
      case_decide; simpl; [rewrite (lease_roundtrip _ _ Ht); exists (Some l)|exists None]; split; try done;
        split; naive_solver.
  - exists None. split; [done|]. split; [done|]. intros l Hl.
    destruct (decide (lease_node_id l ∈ D)) as [?|Hd]; [by right; right|].
    destruct (ka_stored _ _ _ _ _ _ _ Ha x l Hl Hd) as (? & ? & ? & Hx' & _). congruence.
Qed.

Lemma kind_read `{!LeaseLaws} kd D x s t :
  token_agrees D s t →
  wp (do! connect in let! raw := get (token_key kd x) in lift (read_lease raw)) s
    (λ r s', match r with
             | Ok answer => lease_answer D (live_tokens kd t !! x) answer (now_at s')
             | Err e => ∃ i b m, redis_fault i = Some (b, m) ∧ e = Redis m
             end).
Proof.
  intros [Hk _ _]. rd1. rd1; [|eauto]. rd1. rd1; [|eauto]. simpl in *.
  destruct (live_read kd D (now_at s) _ (now_at s') (now_at s'0) (redis_keys s) _ _ x (Hk kd))
    as (answer & Hread & Hans); [times|].
  replace (redis_keys s') with (redis_keys s) by done. rewrite Hread. exact Hans.
Qed.

(** C6: After any calls for tokens, each of which may fail at any command, before or after
    the server carried it out: a read of a token fails only with an error of Redis, and
    answers as the in-memory store does after the calls that succeeded, except that a
    lease is not answered any more when less than a second of it is left, and except for
    the leases of nodes for which an issue or a revocation was cut short.  For such a node
    nothing is claimed (its revoked token may go on being answered); the other nodes are
    not affected by it.  Assumed: leases are read back from their text, and the clock
    does not run backwards. *)
Theorem redis_leases_refine `{!LeaseLaws} s t D x :
  token_run s t D →
  let '(a, sa) := redis_access_lease key_prefix x s in
  let '(r, sr) := redis_refresh_lease key_prefix x s in
  match a with
  | Ok answer => lease_answer D (access_lease t x) answer (now_at sa)
  | Err e => ∃ i b m, redis_fault i = Some (b, m) ∧ e = Redis m
  end
  ∧ match r with
    | Ok answer => lease_answer D (refresh_lease t x) answer (now_at sr)
    | Err e => ∃ i b m, redis_fault i = Some (b, m) ∧ e = Redis m
    end.
Proof.
  intros Hrun%token_run_agrees. pose proof (kind_read OfAccess D x s t Hrun) as Ha.
  pose proof (kind_read OfRefresh D x s t Hrun) as Hr. unfold wp in Ha, Hr.
  unfold redis_access_lease, redis_refresh_lease. simpl token_key in *.
  destruct ((do! connect in let! raw := get (access_key key_prefix x) in _) s).
  destruct ((do! connect in let! raw := get (refresh_key key_prefix x) in _) s).
  split; [apply Ha|apply Hr].
Qed.

(** ** Calls that fail *)

(** A run up to a fault at its sixth command. *)
Ltac runs Hf He Hx Hy :=
  pose proof (Hf 0 ltac:(lia)) as F0; pose proof (Hf 1 ltac:(lia)) as F1;
  pose proof (Hf 2 ltac:(lia)) as F2; pose proof (Hf 3 ltac:(lia)) as F3;
  pose proof (Hf 4 ltac:(lia)) as F4;
  unfold connect, get, del_token, del, set_ex, send, lift, bind, ret; simpl in *;
  repeat (first [rewrite F0|rewrite F1|rewrite F2|rewrite F3|rewrite F4|rewrite He|rewrite Hx|rewrite Hy];
          simpl).

(** [revoke_tokens] forgets which tokens a node has before it deletes them: when the
    call is cut short in between, calling it again succeeds and the token is still
    accepted for the rest of its time. *)
Theorem interrupted_revoke_keeps_token s n x text u e :
  live (clock (S (env_clock (redis_env s)))) (redis_keys s) (current_access_key key_prefix n) = Some x →
  redis_keys s !! access_key key_prefix x = Some (text, u) →
  (∀ i, i < 5 → redis_fault (i + redis_command s) = None) →
  redis_fault (5 + redis_command s) = Some (false, e) →
  let '(r, s1) := redis_revoke_tokens key_prefix n s in
  r = Err (Redis e)
  ∧ ∀ s2, redis_revoke_tokens key_prefix n s1 = (Ok tt, s2) →
          redis_keys s2 !! access_key key_prefix x = Some (text, u).
Proof.
  intros Hcur Hx Hf He. destruct (redis_revoke_tokens key_prefix n s) as [r s1] eqn:Hrun.
  assert (r = Err (Redis e) ∧ redis_keys s1 = delete (current_refresh_key key_prefix n)
    (delete (current_access_key key_prefix n) (redis_keys s))) as [-> Hs1].
  { revert Hrun. unfold redis_revoke_tokens. runs Hf He Hcur Hcur. by intros [= <- <-]. }
  split; [done|]. intros s2 Hrun2.
  destruct (wp_run _ _ _ _ _ (redis_revoke_step n s1) Hrun2) as [_ Hkd].
  destruct (Hkd OfAccess) as (tg & _ & Htok & _). specialize (Htok x). simpl in Htok.
  rewrite Htok, Hs1. rewrite decide_False.
  - change (delete (current_key OfRefresh n) (delete (current_key OfAccess n) (redis_keys s))
      !! token_key OfAccess x = Some (text, u)).
    by rewrite !lookup_delete_current_token.
  - unfold live.
    change (current_access_key key_prefix n) with (current_key OfAccess n).
    change (current_refresh_key key_prefix n) with (current_key OfRefresh n).
    rewrite !lookup_delete_current. by rewrite decide_False, decide_True by naive_solver.
Qed.

(** [issue_tokens] deletes the tokens a node has before it stores the new ones: when the
    call is cut short in between, the node is left with no token at all. *)
Theorem interrupted_issue_drops_tokens s n ttl x y e :
  live (clock (S (env_clock (redis_env s)))) (redis_keys s) (current_access_key key_prefix n) = Some x →
  live (clock (S (S (env_clock (redis_env s))))) (redis_keys s) (current_refresh_key key_prefix n)
    = Some y →
  (∀ i, i < 5 → redis_fault (i + redis_command s) = None) →
  redis_fault (5 + redis_command s) = Some (false, e) →
  let '(r, s1) := redis_issue_tokens key_prefix n ttl s in
  is_ok r = false
  ∧ redis_keys s1 = delete (refresh_key key_prefix y) (delete (access_key key_prefix x) (redis_keys s)).
Proof.
  intros Hx Hy Hf He. unfold redis_issue_tokens. runs Hf He Hx Hy.
  by destruct (lease_to_string _).
Qed.
End Runs.

(** ** A concrete server *)

Module RedisDemo.
(** Leases printed in binary. *)
Fixpoint pos_text (p : positive) : string :=
  match p with
  | xH => "e"
  | xO p => String "0"%char (pos_text p)
  | xI p => String "1"%char (pos_text p)
  end.
Fixpoint text_pos (s : string) : option positive :=
  match s with
  | EmptyString => None
  | String c s' =>
      if Ascii.eqb c "e"%char then Some xH
      else if Ascii.eqb c "0"%char then xO <$> text_pos s'
      else xI <$> text_pos s'
  end.
Lemma text_pos_text p : text_pos (pos_text p) = Some p.
Proof. induction p as [p IH|p IH|]; cbn; rewrite ?IH; reflexivity. Qed.

(** A server that loses its twentieth command. *)
Definition demo_redis : RedisExtern := {|
  redis_fault i := if decide (i = 19) then Some (false, "connection lost") else None;
  lease_to_string l := Ok (pos_text (encode (lease_node_id l, lease_expires_at l)));
  lease_from_str s :=
    match text_pos s ≫= decode (A := Z * Z) with
    | Some (n, t) => Ok (mkLease n t)
    | None => Err "invalid lease"
    end;
|}.
#[local] Existing Instance demo_redis.
#[local] Instance demo_lease_laws : LeaseLaws.
Proof.
  intros [n t] text [= <-]. change (lease_from_str _) with
    (match text_pos (pos_text (encode (n, t))) ≫= decode (A := Z * Z) with
     | Some (n, t) => Ok (mkLease n t) | None => Err "invalid lease" end).
  rewrite text_pos_text. change (Some (encode (n, t)) ≫= decode (A := Z * Z)) with
    (decode (A := Z * Z) (encode (n, t))). by rewrite decode_encode.
Qed.

(** Nodes 7 and 8 receive tokens. *)
Definition start : RedisState := mkRedis ∅ 0 (mkEnv tt 0 0).
Definition after7 : RedisState := (redis_issue_tokens "mesh" 7 (hours 24) start).2.
Definition after8 : RedisState := (redis_issue_tokens "mesh" 8 (hours 24) after7).2.
Definition both : MemoryTokenState :=
  (issue_tokens 8 "node-at-1002" "node-rt-1003" (11 + hours 24)%Z
     (issue_tokens 7 "node-at-1000" "node-rt-1001" (3 + hours 24)%Z no_tokens).2).2.

Lemma run_both : token_run "mesh" after8 both ∅.
Proof.
  refine (run_issue "mesh" after7 _ ∅ 8 (hours 24)
    (mkIssued "node-at-1002" "node-rt-1003" (11 + hours 24)%Z) after8 _ _).
  - refine (run_issue "mesh" start _ ∅ 7 (hours 24)
      (mkIssued "node-at-1000" "node-rt-1001" (3 + hours 24)%Z) after7 (run_empty _ _ _) _);
      vm_compute; reflexivity.
  - vm_compute. reflexivity.
Qed.

(** The revocation of node 8 is cut short by the lost command: node 8 is in doubt, and the
    token of node 7 is answered as before. *)
Definition cut8 : RedisState := (redis_revoke_tokens "mesh" 8 after8).2.

Lemma redis_leases_refine_witness :
  token_run "mesh" cut8 both {[8%Z]}
  ∧ let '(a, sa) := redis_access_lease "mesh" "node-at-1000" cut8 in
    let '(r, sr) := redis_refresh_lease "mesh" "node-at-1000" cut8 in
    match a with
    | Ok answer => lease_answer {[8%Z]} (access_lease both "node-at-1000") answer (now_at sa)
    | Err e => ∃ i b m, redis_fault i = Some (b, m) ∧ e = Redis m
    end
    ∧ match r with
      | Ok answer => lease_answer {[8%Z]} (refresh_lease both "node-at-1000") answer (now_at sr)
      | Err e => ∃ i b m, redis_fault i = Some (b, m) ∧ e = Redis m
      end.
Proof.
  assert (token_run "mesh" cut8 both {[8%Z]}) as Hrun.
  { rewrite <-(right_id_L ∅ (∪) {[8%Z]}).
    apply (run_revoke_cut "mesh" after8 both ∅ 8 (Redis "connection lost") cut8 run_both).
    vm_compute. reflexivity. }
  split; [exact Hrun|]. exact (redis_leases_refine "mesh" cut8 both {[8%Z]} "node-at-1000" Hrun).
Defined.

Lemma interrupted_revoke_keeps_token_witness :
  let '(r, s1) := redis_revoke_tokens "mesh" 8 after8 in
  r = Err (Redis "connection lost")
  ∧ ∀ s2, redis_revoke_tokens "mesh" 8 s1 = (Ok tt, s2) →
          redis_keys s2 !! access_key "mesh" "node-at-1002"
          = Some (pos_text (encode (8, 11 + hours 24)%Z), 12 + hours 24)%Z.
Proof.
  apply (interrupted_revoke_keeps_token "mesh" after8 8 "node-at-1002"
    (pos_text (encode (8, 11 + hours 24)%Z)) (12 + hours 24)%Z "connection lost").
  - vm_compute. reflexivity.
  - vm_compute. reflexivity.
  - intros i Hi. change (redis_command after8) with 14. simpl. by rewrite decide_False by lia.
  - vm_compute. reflexivity.
Defined.

Lemma interrupted_issue_drops_tokens_witness :
  let '(r, s1) := redis_issue_tokens "mesh" 8 (hours 24) after8 in
  is_ok r = false
  ∧ redis_keys s1 = delete (refresh_key "mesh" "node-rt-1003")
                      (delete (access_key "mesh" "node-at-1002") (redis_keys after8)).
Proof.
  apply (interrupted_issue_drops_tokens "mesh" after8 8 (hours 24) "node-at-1002" "node-rt-1003"
    "connection lost").
  - vm_compute. reflexivity.
  - vm_compute. reflexivity.
  - intros i Hi. change (redis_command after8) with 14. simpl. by rewrite decide_False by lia.
  - vm_compute. reflexivity.
Defined.

(** The revocation is repeated with success, and the token still has its lease. *)
Example revoked_token_accepted :
  let s1 := (redis_revoke_tokens "mesh" 8 after8).2 in
  let '(r, s2) := redis_revoke_tokens "mesh" 8 s1 in
  r = Ok tt
  ∧ (redis_access_lease "mesh" "node-at-1002" s2).1 = Ok (Some (mkLease 8 (11 + hours 24)%Z))
  ∧ (redis_access_lease "mesh" "node-at-1000" s2).1 = Ok (Some (mkLease 7 (3 + hours 24)%Z)).
Proof. vm_compute. auto. Qed.
(** An issue in two parts: the look-ups of the node's current tokens, and the rest. *)
Definition issue_lookups (n : Uuid) : Rd (option string * option string) :=
  do! connect in
  let! previous_access := get (current_access_key "mesh" n) in
  let! previous_refresh := get (current_refresh_key "mesh" n) in
  ret (previous_access, previous_refresh).
Definition issue_rest (n : Uuid) (ttl : Z) (previous : option string * option string) : Rd IssuedTokens :=
  do! del_token (access_key "mesh") previous.1 in
  do! del_token (refresh_key "mesh") previous.2 in
  let! a := redis_env_run new_v4 in
  let! r := redis_env_run new_v4 in
  let! now := redis_env_run utc_now in
  let lease := mkLease n (now + ttl) in
  let ttl_seconds := Z.max (num_seconds ttl) 1 in
  let! serialized := lift (match lease_to_string lease with Ok x => Ok x | Err e => Err (Serde e) end) in
  do! set_ex (access_key "mesh" (access_token_of a)) serialized ttl_seconds in
  do! set_ex (refresh_key "mesh" (refresh_token_of r)) serialized ttl_seconds in
  do! set_ex (current_access_key "mesh" n) (access_token_of a) ttl_seconds in
  do! set_ex (current_refresh_key "mesh" n) (refresh_token_of r) ttl_seconds in
  ret (mkIssued (access_token_of a) (refresh_token_of r) (now + ttl)%Z).

Lemma issue_in_two n ttl s :
  redis_issue_tokens "mesh" n ttl s = (let! previous := issue_lookups n in issue_rest n ttl previous) s.
Proof.
  unfold redis_issue_tokens, issue_lookups, bind, ret. destruct (connect s) as [[]]; [|done].
  destruct (get _ _) as [[]]; [|done]. by destruct (get _ _) as [[]].
Qed.

(** Two issues for a node that overlap: both look the old tokens up before either deletes
    them, and both pairs of new tokens are live afterwards, in a store of which the
    in-memory one keeps a single pair. *)
Example overlapping_issues :
  let s := mkRedis (redis_keys after8) 20 (redis_env after8) in
  let '(p1, s) := issue_lookups 8 s in
  let '(p2, s) := issue_lookups 8 s in
  let '(i1, s) := (let! p := lift p1 in issue_rest 8 (hours 24) p) s in
  let '(i2, s) := (let! p := lift p2 in issue_rest 8 (hours 24) p) s in
  is_ok i1 = true ∧ is_ok i2 = true
  ∧ (λ tok, match (redis_access_lease "mesh" tok s).1 with
            | Ok (Some l) => Some (lease_node_id l) | _ => None end) <$> ["node-at-1004"; "node-at-1006"]
    = [Some 8%Z; Some 8%Z]
  ∧ (λ tok, match (redis_refresh_lease "mesh" tok s).1 with
            | Ok (Some l) => Some (lease_node_id l) | _ => None end) <$> ["node-rt-1005"; "node-rt-1007"]
    = [Some 8%Z; Some 8%Z].
Proof. vm_compute. auto. Qed.
End RedisDemo.
