(* ===== verification/HubStart.v ===== *)
(** * The start of the hub (apps/hub-api/src/main.rs and service.rs)

    [main] up to the point where it serves requests: the configuration from the
    environment, its check, the choice of the stores and the administrator named in
    the environment.  Opening the connections is a parameter.  On the in-memory
    stores the state the server starts in is that of [HubInv]. *)

From stdpp Require Import prelude strings pretty gmap.
From S2P Require Import Prelude RustStr Json Extern AppError Domain Records Store TokenStore Hub HubAdmin HubNodes HubDns Http HubInv WorkerEnv.

Definition CERT_AUTO_RENEW_BEFORE_DAYS : Z := 30.

(** The stores of a service; the connections themselves are not kept. *)
Inductive Backend :=
| MemoryStores
| PostgresRedis (postgres_url : string) (redis_url redis_prefix : string).

Record HubService := mkService {
  stores : Backend;
  service_release_counter : Z;
  service_auto_renew_before_days : Z;
}.

(** [PgPoolOptions::connect] and [redis::Client::open]. *)
Class StartExtern := {
  pg_connect : string → Z → Result unit string;
  redis_open : string → Result unit string;
}.

(** The texts of [ConfigError]. *)
Definition config_error_text (e : ConfigError) : string :=
  match e with
  | EmptyBindAddress => "bind address must not be empty"
  | EmptyEtcdEndpoints => "at least one etcd endpoint is required"
  | InvalidStorageBackend => "storage backend must be one of: memory, postgres_redis"
  | InvalidCertificateAutoRenewBeforeDays => "certificate auto-renew-before days must be at least 1"
  end.

Section Start.
Context `{EV : !EnvVars, SX : !StartExtern}.

(** [HubConfig::default()] with the variables that are set. *)
Definition config_from_env : HubConfig :=
  let c := default_hub_config in {|
    bind_address := default (bind_address c) (env_var "PINGORAHUB_BIND");
    postgres_url := default (postgres_url c) (env_var "PINGORAHUB_POSTGRES_URL");
    max_connections := max_connections c;
    redis_url := default (redis_url c) (env_var "PINGORAHUB_REDIS_URL");
    etcd_endpoints := etcd_endpoints c;
    etcd_prefix := etcd_prefix c;
    backend := default (backend c) (env_var "PINGORAHUB_STORAGE_BACKEND");
    redis_key_prefix := default (redis_key_prefix c) (env_var "PINGORAHUB_REDIS_KEY_PREFIX");
    auto_renew_before_days :=
      match env_var "PINGORAHUB_CERT_AUTO_RENEW_BEFORE_DAYS" with
      | Some raw => Z.max (default 30%Z (parse_signed i64_min i64_max raw)) 1
      | None => auto_renew_before_days c
      end;
  |}.

Definition memory_service (d : Z) : HubService :=
  mkService MemoryStores 1 (normalize_cert_auto_renew_before_days d).

Definition from_config (config : HubConfig) : Result HubService string :=
  if decide (backend config = "memory") then Ok (memory_service (auto_renew_before_days config))
  else if decide (backend config = "postgres_redis") then
    match pg_connect (postgres_url config) (max_connections config) with
    | Err e => Err e
    | Ok _ =>
        match redis_open (redis_url config) with
        | Err e => Err e
        | Ok _ => Ok (mkService (PostgresRedis (postgres_url config) (redis_url config)
                                   (redis_key_prefix config)) 1
                        (normalize_cert_auto_renew_before_days (auto_renew_before_days config)))
        end
    end
  else Ok (memory_service CERT_AUTO_RENEW_BEFORE_DAYS).

(** The check and the service, as [main] makes them. *)
Definition open_service : Result HubService string :=
  match validate config_from_env with
  | Err e => Err (config_error_text e)
  | Ok _ => from_config config_from_env
  end.

Section Seed.
Context {T : Type} `{EX : !Extern, NT : !NodeTokenStore T}.

(** The administrator of the environment, if both variables are set. *)
Definition seed_admin : Hub T unit :=
  match env_var "PINGORAHUB_BOOTSTRAP_ADMIN_USERNAME",
        env_var "PINGORAHUB_BOOTSTRAP_ADMIN_PASSWORD" with
  | Some name, Some password =>
      let display := default "Administrator" (env_var "PINGORAHUB_BOOTSTRAP_ADMIN_DISPLAY_NAME") in
      do! ensure_admin_user name display password in
      ret tt
  | _, _ => ret tt
  end.

(** [main] on the in-memory stores: the state in which requests are served, or the
    error the process ends with. *)
Definition start_memory (service : HubService) : Result (World T) string :=
  match seed_admin (new_memory (service_auto_renew_before_days service)) with
  | (Ok _, w) => Ok w
  | (Err e, _) => Err (message e)
  end.
End Seed.
End Start.

(** ** Facts *)

Section Facts.
Context `{EV : !EnvVars, SX : !StartExtern}.

(** The check of the configuration can only refuse the address and the name of the
    stores: the horizon read from the environment is at least a day, whatever the
    variable holds. *)
Lemma env_config_valid :
  is_ok (validate config_from_env) = true ↔
  trim (bind_address config_from_env) ≠ ""
  ∧ backend config_from_env ∈ ["memory"; "postgres_redis"].
Proof.
  assert (validate config_from_env = Ok tt ↔ is_ok (validate config_from_env) = true) as Hok.
  { by destruct (validate config_from_env) as [[]|]. }
  rewrite <-Hok, validate_Ok, !elem_of_cons, elem_of_nil. split; [naive_solver|].
  intros (Hb & Hk). split_and!; [done|done|naive_solver|]. unfold config_from_env. simpl.
  destruct (env_var _); lia.
Qed.

(** A service that opens uses the stores the configuration names: the last branch of
    [from_config], which would quietly keep everything in memory, is never taken. *)
Theorem opened_service_uses_named_stores service :
  open_service = Ok service →
  let config := config_from_env in
  service_auto_renew_before_days service = auto_renew_before_days config
  ∧ (1 ≤ service_auto_renew_before_days service)%Z
  ∧ match stores service with
    | MemoryStores => backend config = "memory"
    | PostgresRedis url rurl prefix =>
        backend config = "postgres_redis" ∧ url = postgres_url config ∧ rurl = redis_url config
        ∧ prefix = redis_key_prefix config ∧ is_ok (pg_connect url (max_connections config)) = true
        ∧ is_ok (redis_open rurl) = true
    end.
Proof.
  unfold open_service. generalize config_from_env. intros config.
  destruct (validate config) as [[]|] eqn:Hv; [|done].
  apply validate_Ok in Hv as (_ & _ & Hb & Hd). unfold from_config, memory_service.
  assert (normalize_cert_auto_renew_before_days (auto_renew_before_days config)
          = auto_renew_before_days config) as ->
    by (unfold normalize_cert_auto_renew_before_days; lia).
  case_decide; [by intros [= <-]|]. case_decide; [|naive_solver].
  destruct (pg_connect _ _) eqn:H1; [|done]. destruct (redis_open _) eqn:H2; [|done].
  intros [= <-]. simpl. by rewrite H1, H2.
Qed.

Context {T : Type} `{EX : !Extern, DX : !DnsExtern, HX : !HttpExtern, NT : !NodeTokenStore T}.
Context `{EL : !ExternLaws, TL : !TokenLaws T}.

(** A hub that starts in memory starts in a state its invariant covers, and the
    administrator of the environment can sign in. *)
Theorem started_hub_serves service (w : World T) :
  start_memory service = Ok w →
  hub_reachable config_from_env w
  ∧ ∀ name password,
      env_var "PINGORAHUB_BOOTSTRAP_ADMIN_USERNAME" = Some name →
      env_var "PINGORAHUB_BOOTSTRAP_ADMIN_PASSWORD" = Some password →
      ∃ answer token w', login_admin (mkLogin name password) w = (Ok (answer, token), w').
Proof.
  unfold start_memory, seed_admin. set (w0 := new_memory _).
  assert (hub_reachable config_from_env w0) as H0 by apply hub_boot.
  destruct (env_var "PINGORAHUB_BOOTSTRAP_ADMIN_USERNAME") as [u|];
    [|by intros [= <-]; split; [|done]].
  destruct (env_var "PINGORAHUB_BOOTSTRAP_ADMIN_PASSWORD") as [p|];
    [|by intros [= <-]; split; [|done]].
  set (d := default _ _). unfold bind, ret.
  pose proof (hub_seed config_from_env u d p w0 H0) as Hseed.
  destruct (ensure_admin_user u d p w0) as [[b|e] w1] eqn:He; [|done]. intros [= <-]. split.
  { by apply Hseed. }
  intros ? ? [= <-] [= <-]. destruct b; [by eapply ensure_admin_user_login|]. exfalso.
  revert He. unfold ensure_admin_user, bind, lift, read.
  destruct (normalize_admin_username u); [|done]. simpl.
  repeat case_match; by intros [=].
Qed.
End Facts.

(** ** Example *)

Module StartDemo.
#[local] Instance vars : EnvVars := λ name,
  if decide (name = "PINGORAHUB_BOOTSTRAP_ADMIN_USERNAME") then Some "root"
  else if decide (name = "PINGORAHUB_BOOTSTRAP_ADMIN_PASSWORD") then Some "secret1"
  else if decide (name = "PINGORAHUB_CERT_AUTO_RENEW_BEFORE_DAYS") then Some "-4"
  else None.
#[local] Instance no_servers : StartExtern :=
  {| pg_connect _ _ := Err "connection refused"; redis_open _ := Ok tt |}.

(** The default stores need no server, and the horizon is raised to a day. *)
Example opened : open_service = Ok (memory_service 1).
Proof. vm_compute. reflexivity. Qed.

Definition started : World MemoryTokenState :=
  (seed_admin (new_memory 1)).2.

Lemma started_hub_serves_witness :
  start_memory (memory_service 1) = Ok started
  ∧ ∃ answer token w', login_admin (mkLogin "root" "secret1") started = (Ok (answer, token), w').
Proof.
  split; [vm_compute; reflexivity|].
  assert (start_memory (memory_service 1) = Ok started) as H by (vm_compute; reflexivity).
  destruct (started_hub_serves (memory_service 1) started H) as [_ Hlogin].
  by apply Hlogin; vm_compute.
Defined.
End StartDemo.
