(* ===== verification/Deployed.v ===== *)
(** * Node sessions on PostgreSQL and Redis (apps/hub-api/src/service.rs)

    The handlers that use both stores, as a deployed hub runs them: the repository of
    [Postgres], the tokens of [RedisTokens], and [map_store_error] between them and the
    answers.  Each store may fail at any of its statements or commands; there is no
    transaction around the two, so the order in which a handler uses them matters. *)

From stdpp Require Import prelude strings pretty gmap.
From S2P Require Import Prelude RustStr Json Extern AppError Domain SiteConfig ConfigCompiler Records Store TokenStore Hub HubNodes HubReleases Io Sql Postgres PgAgree PgReads PgRuns RedisTokens.

(** The Redis server beside the database. *)
Record Server := mkServer {
  server_keys : Keys;
  server_command : nat;
}.

Abbreviation Deployed := (Db PgTables Server).
Abbreviation Dep := (IoE AppError Deployed).

(** [StoreError]'s [Display] and [map_store_error]. *)
Definition store_error_text (e : StoreError) : string :=
  match e with
  | Sqlx e => "sqlx error: " +:+ e
  | Serde e => "serialization error: " +:+ e
  | Redis e => "redis error: " +:+ e
  end.
Definition map_store_error (e : StoreError) : AppError := internal (store_error_text e).

(** A call of the repository, beside whatever else the hub keeps. *)
Definition on_db {N A} (m : Pg N A) : IoE AppError (Db PgTables N) A := λ s,
  let '(r, s') := m s in (map_err (λ e, map_store_error (Sqlx e)) r, s').

(** [ok_or_else]. *)
Definition some_or {S A} (o : option A) (e : AppError) : IoE AppError S A :=
  match o with Some a => ret a | None => fail e end.

Section Handlers.
Context `{EX : !Extern, PX : !PgExtern, CO : !Collation, DBE : !DbExtern, RX : !RedisExtern}.
Context (key_prefix : string).

(** A call of the token store. *)
Definition redis_of (s : Deployed) : RedisState :=
  mkRedis (server_keys (env_net (env s))) (server_command (env_net (env s)))
    (mkEnv tt (env_rng (env s)) (env_clock (env s))).
Definition with_redis (r : RedisState) (s : Deployed) : Deployed :=
  mkDb (db s) (statement s)
    (mkEnv (mkServer (redis_keys r) (redis_command r)) (env_rng (redis_env r)) (env_clock (redis_env r))).
Definition on_redis {A} (m : Rd A) : Dep A := λ s,
  let '(r, s') := m (redis_of s) in (map_err map_store_error r, with_redis s' s).

Definition now_utc : Dep DateTime := on_redis (redis_env_run utc_now).

Definition dep_issue_node_tokens (node_id : Uuid) : Dep IssuedTokens :=
  on_redis (redis_issue_tokens key_prefix node_id (hours 24)).

Definition dep_register_node (request : NodeRegisterRequest) : Dep NodeTokensResponse :=
  let! found := on_db (node_id_by_code (reg_node_code request)) in
  let! node_id := some_or found (not_found "node_code not found") in
  let! found := on_db (node node_id) in
  let! n := some_or found (not_found "node not found") in
  let! expected := some_or (bootstrap_token n)
    (unauthorized "bootstrap token already used or unavailable") in
  do! require (bool_decide (expected = hash_bootstrap_token (reg_bootstrap_token request)))
        (unauthorized "invalid bootstrap token") in
  let! issued := dep_issue_node_tokens node_id in
  let! now := now_utc in
  do! on_db (save_node (registered request now n)) in
  ret (tokens_response node_id issued).

Definition dep_refresh_node_token (request : NodeRefreshRequest) : Dep NodeTokensResponse :=
  let! found := on_redis (redis_refresh_lease key_prefix (refresh_req_token request)) in
  let! lease := some_or found (unauthorized "invalid refresh token") in
  do! require (bool_decide (lease_node_id lease = refresh_node_id request))
        (unauthorized "refresh token does not match node") in
  let! issued := dep_issue_node_tokens (refresh_node_id request) in
  ret (tokens_response (refresh_node_id request) issued).

Definition dep_authorize_node (node_id : Uuid) (access_token : string) : Dep unit :=
  let! found := on_redis (redis_access_lease key_prefix access_token) in
  let! lease := some_or found (unauthorized "invalid access token") in
  do! require (bool_decide (lease_node_id lease = node_id))
        (unauthorized "access token does not match node") in
  let! now := now_utc in
  do! require (negb (lease_expires_at lease <? now)%Z) (unauthorized "access token expired") in
  let! found := on_db (node node_id) in
  require (negb (bool_decide (found = None))) (not_found "node not found").

Definition dep_delete_node (node_id : Uuid) : Dep DeleteNodeResponse :=
  let! found := on_db (node node_id) in
  let! n := some_or found (not_found "node not found") in
  let! guard := on_db (node_delete_guard node_id) in
  do! require (bool_decide (bound_site_codes guard = []))
        (conflict ("node is still bound to site(s): " +:+ join ", " (bound_site_codes guard))) in
  do! require (bool_decide (failover_policy_count guard = 0))
        (conflict ("node is still referenced by " +:+ pretty (failover_policy_count guard)
                   +:+ " failover policy entries")) in
  do! on_redis (redis_revoke_tokens key_prefix node_id) in
  do! on_db (delete_node node_id) in
  ret (mkDeleteNodeResponse node_id (node_code (identity n)) true).

Definition dep_node_heartbeat (request : NodeHeartbeatRequest) : Dep NodeHeartbeatResponse :=
  let! found := on_db (node (beat_node_id request)) in
  do! require (negb (bool_decide (found = None))) (not_found "node not found") in
  let! now := now_utc in
  do! on_db (record_heartbeat {|
    hb_node_id := beat_node_id request;
    hb_pingora_version := beat_pingora_version request;
    hb_agent_version := beat_agent_version request;
    hb_active_config_version := beat_active_config_version request;
    hb_site_count := beat_site_count request;
    cpu_usage := beat_cpu_usage request;
    mem_usage := beat_mem_usage request;
    disk_usage := beat_disk_usage request;
    hb_health_score := beat_health_score request;
    reported_at := now;
  |}) in
  let! now := now_utc in
  ret (mkHeartbeatResponse now 15).
End Handlers.

(** ** Rules *)

Section Rules.
Context `{EX : !Extern, PX : !PgExtern, CO : !Collation, DBE : !DbExtern, RX : !RedisExtern}.
Implicit Types s : Deployed.

Lemma wp_on_db {N A} (m : Pg N A) (s : Db PgTables N) Q :
  dbt (db s) m (λ r d', ∀ s' : Db PgTables N, db s' = d' → Q (map_err (λ e, map_store_error (Sqlx e)) r) s') →
  wp (on_db m) s Q.
Proof. intros H. specialize (H s eq_refl). unfold wp, on_db. destruct (m s). by apply H. Qed.

Lemma wp_on_redis {A} (m : Rd A) s Q :
  (∀ r s', db s' = db s → Q r s') → wp (on_redis m) s Q.
Proof. intros H. unfold wp, on_redis. destruct (m (redis_of s)). by apply H. Qed.

Lemma wp_some_or {S A} (o : option A) e (s : S) (Q : Result A AppError → S → Prop) :
  (∀ a, o = Some a → Q (Ok a) s) → (o = None → Q (Err e) s) → wp (some_or o e) s Q.
Proof. intros H1 H2. unfold wp, some_or. destruct o; [by apply H1|by apply H2]. Qed.

Lemma redis_of_with_redis r s : redis_of (with_redis r s) = r.
Proof. by destruct r as [ks c [[] rng clk]]. Qed.

(** What a successful call did. *)
Lemma on_db_Ok {N A} (m : Pg N A) (s : Db PgTables N) a (s' : Db PgTables N) : on_db m s = (Ok a, s') → m s = (Ok a, s').
Proof. unfold on_db. destruct (m s) as [[b|e] s1]; [|done]. by intros [= -> ->]. Qed.
Lemma on_redis_Ok {A} (m : Rd A) s a s' :
  on_redis m s = (Ok a, s') → ∃ r, m (redis_of s) = (Ok a, r) ∧ s' = with_redis r s.
Proof. unfold on_redis. destruct (m (redis_of s)) as [[b|e] r]; [|done]. intros [= -> <-]. eauto. Qed.
Lemma some_or_Ok {S A} (o : option A) e (s : S) a (s' : S) : some_or o e s = (Ok a, s') → o = Some a ∧ s' = s.
Proof. unfold some_or. destruct o; [|done]. by intros [= -> ->]. Qed.
Lemma dep_require_Ok {S} b e (s : S) x (s' : S) : require (E := AppError) b e s = (Ok x, s') → b = true ∧ s' = s.
Proof. unfold require. destruct b; [|done]. by intros [= _ ->]. Qed.
Lemma query_Ok {N A} (f : PgTables → A) (s : Db PgTables N) a (s' : Db PgTables N) :
  query f s = (Ok a, s') → a = f (db s) ∧ s' = next_statement s.
Proof. unfold query. destruct (db_error _); [done|]. by intros [= <- <-]. Qed.

(** Statements leave the rest of the state alone. *)
Definition quiet {A} (m : Pg Server A) : Prop := ∀ s, env (m s).2 = env s.
Lemma quiet_query {A} (f : PgTables → A) : quiet (query f).
Proof. intros s. unfold query. by destruct (db_error _). Qed.
Lemma quiet_execute f : quiet (execute f).
Proof. intros s. unfold execute. destruct (db_error _); [done|]. by case_decide. Qed.
Lemma quiet_bind {A B} (m : Pg Server A) (k : A → Pg Server B) :
  quiet m → (∀ a, quiet (k a)) → quiet (bind m k).
Proof.
  intros Hm Hk s. unfold bind. specialize (Hm s). destruct (m s) as [[a|e] s1]; [|done].
  rewrite Hk. exact Hm.
Qed.
Lemma quiet_ret {A} (a : A) : quiet (ret a).
Proof. done. Qed.
Lemma quiet_try_execute f : quiet (try_execute f).
Proof.
  intros s. unfold try_execute, execute_returning. destruct (pair tt <$> f (db s)) as [[[] d]|]; [|done].
  apply quiet_bind; [apply quiet_execute|intros; apply quiet_ret].
Qed.
Lemma quiet_transaction {A} (m : Pg Server A) : quiet m → quiet (transaction m).
Proof.
  intros Hm s. unfold transaction.
  assert (quiet (let! _ := query (λ _, tt) in let! a := m in let! _ := query (λ _, tt) in ret a)) as H.
  { apply quiet_bind; [apply quiet_query|intros _]. apply quiet_bind; [done|intros a].
    apply quiet_bind; [apply quiet_query|intros _]. apply quiet_ret. }
  specialize (H s). destruct ((let! _ := query _ in _) s) as [[]]; exact H.
Qed.
Lemma quiet_save_node n : quiet (save_node n).
Proof.
  apply quiet_transaction, quiet_bind; [apply quiet_try_execute|intros _; apply quiet_execute].
Qed.
End Rules.

(** One step of a handler. *)
Ltac dep1 :=
  lazymatch goal with
  | |- wp (bind _ _) _ _ => apply wp_bind
  | |- wp (on_db _) _ _ => apply wp_on_db
  | |- wp (on_redis _) _ _ => apply wp_on_redis; intros ? ? ?
  | |- wp (some_or _ _) _ _ => apply wp_some_or; intros
  | |- wp now_utc _ _ => unfold now_utc; dep1
  | |- wp (dep_issue_node_tokens _ _) _ _ => unfold dep_issue_node_tokens; dep1
  | |- wp (require _ _) _ _ => apply wp_require; intros
  | |- wp (ret _) _ _ => apply wp_ret
  end.

Section Facts.
Context `{EX : !Extern, PX : !PgExtern, CO : !Collation, DBE : !DbExtern, RX : !RedisExtern}.
Context (key_prefix : string).
Implicit Types s : Deployed.

Definition keeps_tables_on_error {A} (m : Dep A) : Prop :=
  ∀ s, match m s with (Err _, s') => db s' = db s | (Ok _, _) => True end.

Lemma keeps_tables_wp {A} (m : Dep A) :
  (∀ s, wp m s (λ r s', match r with Err _ => db s' = db s | Ok _ => True end)) →
  keeps_tables_on_error m.
Proof. intros H s. specialize (H s). unfold wp in H. by destruct (m s) as [[]]. Qed.

(** C37: Registration, token refresh, authorisation and heartbeat of a node, and the
    deletion of a node by an administrator: each of these five, when it is refused or
    fails, in the database or in the token server and at whichever call, leaves the
    tables of the database as they were.  (Keys of the token server may have changed;
    acknowledgements and operations are not among the five.) *)
Theorem failed_node_requests_keep_tables :
  (∀ request, keeps_tables_on_error (dep_register_node key_prefix request))
  ∧ (∀ request, keeps_tables_on_error (dep_refresh_node_token key_prefix request))
  ∧ (∀ u token, keeps_tables_on_error (dep_authorize_node key_prefix u token))
  ∧ (∀ u, keeps_tables_on_error (dep_delete_node key_prefix u))
  ∧ (∀ request, keeps_tables_on_error (dep_node_heartbeat request)).
Proof.
  split_and!; intros; apply keeps_tables_wp; intros s;
    unfold dep_register_node, dep_refresh_node_token, dep_authorize_node, dep_delete_node,
      dep_node_heartbeat, node_id_by_code, node, node_delete_guard, delete_node, save_node,
      record_heartbeat.
  all: repeat first
    [ done | congruence
    | progress (cbn [map_err]; cbv beta iota)
    | match goal with |- ∀ _, _ => intros end
    | match goal with |- context [match ?r with Ok _ => _ | Err _ => _ end] => is_var r; destruct r end
    | dep1 | sql1 ].
Qed.
End Facts.

(** ** Registration *)

Section Register.
Context `{EX : !Extern, PX : !PgExtern, CO : !Collation, DBE : !DbExtern, RX : !RedisExtern}.
Context `{EL : !ExternLaws, SC : !SteadyClock} (key_prefix : string).
Implicit Types s : Deployed.

Lemma select_node_id_Some code d u :
  select_node_id code d = Some u → ∃ r, pg_nodes d !! u = Some r ∧ nd_node_code r = code.
Proof.
  unfold select_node_id. destruct (find_where _ _) as [[k r]|] eqn:Hf; [|done]. intros [= <-].
  apply find_where_Some in Hf as [Hin Hc]. exists r. by apply elem_of_entries in Hin.
Qed.

Lemma select_node_id_row d u r :
  pg_ok d → pg_nodes d !! u = Some r → select_node_id (nd_node_code r) d = Some u.
Proof.
  intros [[Huniq _] _] Hr. unfold select_node_id.
  enough (find_where (λ e, nd_node_code e.2 = nd_node_code r) (entries (pg_nodes d)) = Some (u, r))
    as -> by done.
  apply find_entries_unique; [|done]. intros k' r' Hk' Hc. by eapply (unique_on_eq nd_node_code).
Qed.

Lemma save_node_saved n s s' :
  save_node n s = (Ok tt, s') →
  pg_ok (db s')
  ∧ ∃ r c, pg_nodes (db s') !! id (identity n) = Some r ∧ nd_node_code r = node_code (identity n)
           ∧ pg_node_credentials (db s') !! id (identity n) = Some c
           ∧ cr_bootstrap_token_hash c = bootstrap_token n.
Proof.
  assert (dbt (N := Server) (db s) (save_node n) (λ x d', match x with
    | Ok _ => pg_ok d' ∧ ∃ r c, pg_nodes d' !! id (identity n) = Some r
        ∧ nd_node_code r = node_code (identity n)
        ∧ pg_node_credentials d' !! id (identity n) = Some c
        ∧ cr_bootstrap_token_hash c = bootstrap_token n
    | Err _ => True end)) as H.
  { unfold save_node. sql1; [done|]. sqls; try done. rename select (upsert_node _ _ = _) into Hup.
    unfold upsert_node in Hup. destruct (cast_inet (public_ip n)); [|done].
    destruct (cast_inet (private_ip n)); [|done]. simplify_eq/=. split; [done|].
    eexists _, _. split_and!; [apply lookup_insert_eq|done|apply lookup_insert_eq|done]. }
  intros Hs. pose proof (dbt_run _ _ _ s H eq_refl) as Hq. by rewrite Hs in Hq.
Qed.

(** The steps of a registration that succeeded. *)
Lemma dep_register_node_Ok request s resp s' :
  dep_register_node key_prefix request s = (Ok resp, s') →
  ∃ u n now issued r s3,
    select_node_id (reg_node_code request) (db s) = Some u
    ∧ select_node u (db s) = Some n
    ∧ redis_issue_tokens key_prefix u (hours 24) (redis_of s) = (Ok issued, r)
    ∧ redis_keys (redis_of s3) = redis_keys r
    ∧ save_node (registered request now n) s3 = (Ok tt, s')
    ∧ resp = tokens_response u issued.
Proof.
  unfold dep_register_node, node_id_by_code, node, dep_issue_node_tokens, now_utc. intros H.
  apply io_bind_Ok in H as (f1 & s1 & [-> ->]%on_db_Ok%query_Ok & H).
  apply io_bind_Ok in H as (u & s1 & [Hu ->]%some_or_Ok & H).
  apply io_bind_Ok in H as (f2 & s1 & [-> ->]%on_db_Ok%query_Ok & H).
  apply io_bind_Ok in H as (n & s1 & [Hn ->]%some_or_Ok & H).
  apply io_bind_Ok in H as (tok & s1 & [Htok ->]%some_or_Ok & H).
  apply io_bind_Ok in H as (? & s1 & [->%bool_decide_eq_true ->]%dep_require_Ok & H).
  apply io_bind_Ok in H as (issued & s1 & (r & Hissue & ->)%on_redis_Ok & H).
  apply io_bind_Ok in H as (now & s1 & (r' & Hnow & ->)%on_redis_Ok & H).
  apply io_bind_Ok in H as ([] & s1 & Hsave%on_db_Ok & [= <- <-]).
  rewrite redis_of_with_redis in Hnow. injection Hnow as <- <-.
  eexists u, n, _, issued, r, _. by split_and!; [exact Hu|exact Hn|exact Hissue| |exact Hsave|].
Qed.

Lemma select_node_identity u d n :
  select_node u d = Some n → id (identity n) = u ∧ ∃ r, pg_nodes d !! u = Some r
    ∧ node_code (identity n) = nd_node_code r.
Proof.
  unfold select_node. destruct (pg_nodes d !! u) as [r|]; [|done]. intros [= <-]. simpl. eauto.
Qed.

(** After a registration the node has no bootstrap token in the database. *)
Lemma registered_row request s resp s' :
  dep_register_node key_prefix request s = (Ok resp, s') →
  ∃ n, select_node_id (reg_node_code request) (db s') = Some (resp_node_id resp)
    ∧ select_node (resp_node_id resp) (db s') = Some n ∧ bootstrap_token n = None.
Proof.
  intros (u & n & now & issued & r & s3 & Hu & Hn & _ & _ & Hsave & ->)%dep_register_node_Ok.
  apply select_node_identity in Hn as (Hid & r0 & Hr0 & Hcode).
  apply select_node_id_Some in Hu as (r1 & Hr1 & Hreq). simplify_eq.
  apply save_node_saved in Hsave as (Hok & r' & c & Hr' & Hc' & Hc & Hnone).
  simpl in *. exists (node_record (db s') (id (identity n), r')). split_and!.
  - rewrite <-Hreq, <-Hcode, <-Hc'. by apply select_node_id_row.
  - unfold select_node. by rewrite Hr'.
  - simpl. by rewrite Hc.
Qed.

(** A bootstrap token registers a node once: whatever either store does, a second
    registration under the code of the node is refused. *)
Theorem deployed_register_single_use request request' s resp s' :
  dep_register_node key_prefix request s = (Ok resp, s') →
  reg_node_code request' = reg_node_code request →
  is_ok (dep_register_node key_prefix request' s').1 = false.
Proof.
  intros (n & Hu & Hn & Hnone)%registered_row Hcode.
  destruct (dep_register_node key_prefix request' s') as [[resp'|e] s''] eqn:Hreg; [|done].
  exfalso. unfold dep_register_node, node_id_by_code, node in Hreg.
  apply io_bind_Ok in Hreg as (f1 & s1 & [-> ->]%on_db_Ok%query_Ok & Hreg).
  apply io_bind_Ok in Hreg as (u & s1 & [Hu' ->]%some_or_Ok & Hreg).
  apply io_bind_Ok in Hreg as (f2 & s1 & [-> ->]%on_db_Ok%query_Ok & Hreg).
  apply io_bind_Ok in Hreg as (n' & s1 & [Hn' ->]%some_or_Ok & Hreg).
  apply io_bind_Ok in Hreg as (tok & s1 & [Htok ->]%some_or_Ok & Hreg).
  simpl in *. rewrite Hcode in Hu'. simplify_eq.
Qed.

(** The key of an access token after it was issued. *)
Lemma issued_access_key n ttl r issued r' :
  redis_issue_tokens key_prefix n ttl r = (Ok issued, r') →
  ∃ text u, redis_keys r' !! access_key key_prefix (access_token issued) = Some (text, u)
    ∧ lease_to_string (mkLease n (token_expires_at issued)) = Ok text
    ∧ (token_expires_at issued - ttl + seconds (num_seconds ttl) ≤ u)%Z.
Proof.
  intros H. destruct (wp_run _ _ _ _ _ (redis_issue_step key_prefix n ttl r) H)
    as (now & text & Hi & Htext & _ & _ & _ & Hkd).
  destruct (Hkd OfAccess) as (tg & ts & tc & ? & ? & Htok & _). specialize (Htok (access_token issued)).
  simpl in Htok. rewrite decide_True in Htok by done.
  assert (token_expires_at issued = now + ttl)%Z as Hexp by (by rewrite Hi).
  exists text, (ts + seconds (Z.max (num_seconds ttl) 1))%Z. rewrite Hexp. split_and!; [done..|].
  unfold seconds. lia.
Qed.

(** A key that is still live is read, or the server fails; the clock moves by two. *)
Lemma read_live_key `{!LeaseLaws} x r text u l :
  redis_keys r !! access_key key_prefix x = Some (text, u) → lease_to_string l = Ok text →
  (clock (S (env_clock (redis_env r))) ≤ u)%Z →
  let '(a, r') := redis_access_lease key_prefix x r in
  (a = Ok (Some l) ∧ env_clock (redis_env r') = S (S (env_clock (redis_env r))))
  ∨ ∃ e, a = Err (Redis e).
Proof.
  intros Hk Htext Hu. unfold redis_access_lease, connect, get, send, bind, lift. simpl.
  destruct (redis_fault (redis_command r)) as [[]|]; [by eauto|]. simpl.
  unfold live. rewrite Hk. simpl. rewrite decide_True by done. simpl.
  destruct (redis_fault (S (redis_command r))) as [[]|]; [by eauto|]. simpl.
  rewrite (lease_roundtrip _ _ Htext). by left.
Qed.

(** The access token a registration returns is accepted, until it expires: a check of it
    succeeds unless one of the stores fails. *)
Theorem registered_token_accepted `{!LeaseLaws} request s resp s' :
  dep_register_node key_prefix request s = (Ok resp, s') →
  (clock (S (S (env_clock (env s')))) ≤ resp_expires_at resp)%Z →
  let '(r, _) := dep_authorize_node key_prefix (resp_node_id resp) (resp_access_token resp) s' in
  r = Ok tt ∨ ∃ e, r = Err (map_store_error e).
Proof.
  intros Hreg Hclock. destruct (registered_row request s resp s' Hreg) as (n' & _ & Hn' & _).
  apply dep_register_node_Ok in Hreg as (u & n & now & issued & r & s3 & _ & _ & Hissue & Hkeys & Hsave & ->).
  simpl in *. apply issued_access_key in Hissue as (text & until & Hk & Htext & Huntil).
  pose proof (quiet_save_node (registered request now n) s3) as Henv. rewrite Hsave in Henv. simpl in Henv.
  assert (redis_keys (redis_of s') = redis_keys r) as Hkeys'.
  { rewrite <-Hkeys. unfold redis_of. by rewrite Henv. }
  pose proof (clock_mono (S (env_clock (env s'))) (S (S (env_clock (env s')))) ltac:(lia)) as Hmono.
  pose proof (read_live_key (access_token issued) (redis_of s') text until
    (mkLease u (token_expires_at issued))) as Hread.
  rewrite Hkeys' in Hread. specialize (Hread Hk Htext).
  assert (hours 24 = seconds (num_seconds (hours 24))) as Hday by done. simpl in Hread.
  specialize (Hread ltac:(lia)).
  unfold dep_authorize_node, bind, on_redis at 1.
  destruct (redis_access_lease key_prefix (access_token issued) (redis_of s')) as [a r'].
  destruct Hread as [[-> Hclk]|[e ->]]; [|by right; eexists]. simpl. rewrite bool_decide_true by done.
  unfold require. rewrite Hclk.
  rewrite (proj2 (Z.ltb_ge _ _)) by done. simpl. unfold on_db, node, query. simpl.
  destruct (db_error (statement s')) as [e|]; [by right; eexists (Sqlx e)|]. simpl. rewrite Hn'. by left.
Qed.

(** Once a node is deleted no token opens a request for it. *)
Theorem deleted_node_refused u s resp s' token :
  dep_delete_node key_prefix u s = (Ok resp, s') →
  is_ok (dep_authorize_node key_prefix u token s').1 = false.
Proof.
  unfold dep_delete_node, node, node_delete_guard, delete_node. intros H.
  apply io_bind_Ok in H as (f1 & s1 & [-> ->]%on_db_Ok%query_Ok & H).
  apply io_bind_Ok in H as (n & s1 & [Hn ->]%some_or_Ok & H).
  apply io_bind_Ok in H as (guard & s1 & _ & H).
  apply io_bind_Ok in H as (? & s2 & [_ ->]%dep_require_Ok & H).
  apply io_bind_Ok in H as (? & s3 & [_ ->]%dep_require_Ok & H).
  apply io_bind_Ok in H as (? & s4 & _ & H).
  apply io_bind_Ok in H as ([] & s5 & Hdel%on_db_Ok & [= _ <-]).
  assert (pg_nodes (db s5) !! u = None) as Hgone.
  { pose proof (dbt_run (db s4) (execute (N := Server) (delete_node_row u))
      (λ r d', r = Ok tt → pg_nodes d' !! u = None) s4) as Hq. rewrite Hdel in Hq. apply Hq; [|done..].
    apply dbt_execute; [done..|]. intros _ _. unfold delete_node_row.
    destruct (pg_nodes (db s4) !! u) eqn:Hu; [|done]. apply lookup_delete_eq. }
  assert (wp (dep_authorize_node key_prefix u token) s5 (λ r _, is_ok r = false)) as Hwp.
  { unfold dep_authorize_node, node.
    repeat first [done | progress (cbn [map_err]; cbv beta iota) | match goal with |- ∀ _, _ => intros end
      | match goal with |- context [match ?r with Ok _ => _ | Err _ => _ end] => is_var r; destruct r end
      | dep1 | sql1 ].
    exfalso. revert select (negb _ = true). unfold select_node.
    replace (db s'0) with (db s5) by congruence. by rewrite Hgone. }
  unfold wp in Hwp. by destruct (dep_authorize_node key_prefix u token s5).
Qed.
End Register.

(** ** A concrete deployment *)

Module DeployedDemo.
(** Redis loses its thirteenth command: the deletion of an access token. *)
Definition demo_tokens : RedisExtern := {|
  redis_fault i := if decide (i = 12) then Some (false, "connection lost") else None;
  lease_to_string := @lease_to_string RedisDemo.demo_redis;
  lease_from_str := @lease_from_str RedisDemo.demo_redis;
|}.
#[local] Existing Instance demo_tokens.
#[local] Instance demo_tokens_laws : LeaseLaws := RedisDemo.demo_lease_laws.

Definition node1 : NodeRecord :=
  set_bootstrap_token (Some (hash_bootstrap_token "boot-1")) Demo.node1.
Definition created : Deployed :=
  (save_node node1 (mkDb empty_tables 0 (mkEnv (mkServer ∅ 0) 0 0))).2.

Definition request : NodeRegisterRequest :=
  mkRegister "edge-1" "boot-1" "edge-1.local" None None "1.0".
Definition registration : Result NodeTokensResponse AppError * Deployed :=
  dep_register_node "mesh" request created.
Definition answer : NodeTokensResponse :=
  mkTokensResponse 1 "node-at-1000" "node-rt-1001" (3 + hours 24).

Lemma registration_Ok : registration = (Ok answer, registration.2).
Proof. vm_compute. reflexivity. Qed.

Lemma deployed_register_single_use_witness :
  is_ok registration.1 = true
  ∧ is_ok (dep_register_node "mesh" request registration.2).1 = false.
Proof.
  split; [vm_compute; reflexivity|].
  exact (deployed_register_single_use "mesh" request request created answer registration.2
    registration_Ok eq_refl).
Defined.

Lemma registered_token_accepted_witness :
  let '(r, _) := dep_authorize_node "mesh" 1 "node-at-1000" registration.2 in
  r = Ok tt ∨ ∃ e, r = Err (map_store_error e).
Proof.
  apply (registered_token_accepted "mesh" request created answer registration.2 registration_Ok).
  vm_compute. discriminate.
Defined.

(** The node is deleted, at the second attempt. *)
Definition attempt1 := dep_delete_node "mesh" 1 registration.2.
Definition attempt2 := dep_delete_node "mesh" 1 attempt1.2.

Lemma deleted_node_refused_witness :
  is_ok attempt2.1 = true
  ∧ is_ok (dep_authorize_node "mesh" 1 "node-at-1000" attempt2.2).1 = false.
Proof.
  split; [vm_compute; reflexivity|].
  apply (deleted_node_refused "mesh" 1 attempt1.2 (mkDeleteNodeResponse 1 "edge-1" true) attempt2.2).
  vm_compute. reflexivity.
Defined.

(** The first attempt was cut short by Redis, so the refresh token was never deleted: the
    node that no longer exists exchanges it for new tokens. *)
Example deleted_node_refreshes :
  attempt1.1 = Err (map_store_error (Redis "connection lost"))
  ∧ select_node 1 (db attempt2.2) = None
  ∧ is_ok (dep_refresh_node_token "mesh" (mkRefresh 1 "node-rt-1001") attempt2.2).1 = true.
Proof. vm_compute. auto. Qed.
End DeployedDemo.
