(* ===== verification/PgReleases.v ===== *)
(** * Releases on PostgreSQL (apps/hub-api/src/service.rs)

    The handlers that publish, switch and acknowledge releases, on the repository of
    [Postgres].  They make several calls, each of which may fail, and none of them is
    in a transaction with the others: the theorems say what a request that stops
    half-way leaves behind.  Beside the database the hub keeps the release counter. *)

From stdpp Require Import prelude strings pretty gmap.
From S2P Require Import Prelude RustStr Json Extern AppError Domain SiteConfig ConfigCompiler Records Store TokenStore Hub HubNodes HubReleases HubSites Io Sql Postgres PgAgree PgWrites PgReads PgRuns RedisTokens Deployed.

Abbreviation Hosted := (Db PgTables Z).
Abbreviation Rel := (IoE AppError Hosted).

Section Handlers.
Context `{EX : !Extern, PX : !PgExtern, CO : !Collation, DBE : !DbExtern}.

(** [Utc::now], [Uuid::new_v4] and [release_counter.fetch_add(1, ..)]. *)
Definition host_env {A} (m : Io (Env Z) A) : Rel A := λ s,
  let '(r, e) := m (env s) in (map_err internal r, mkDb (db s) (statement s) e).
Definition host_serial : Rel Z := λ s,
  let e := env s in
  (Ok (env_net e), mkDb (db s) (statement s) (set_env_net (wrap_u64 (env_net e + 1)) e)).

(** [release] and [list_releases] of the repository with the two kinds of errors they
    have: a statement that failed, a bundle that cannot be read. *)
Definition host_load_release (entry : Uuid * ReleaseRow) : Rel ReleaseRecord :=
  let! bundle := lift (map_err (λ e, map_store_error (Serde e))
                         (bundle_from_value (rl_manifest_json entry.2))) in
  let! acks := on_db (load_release_acks entry.1) in
  ret (release_record entry bundle acks).
Definition host_load_optional (row : option (Uuid * ReleaseRow)) : Rel (option ReleaseRecord) :=
  match row with
  | None => ret None
  | Some entry => let! r := host_load_release entry in ret (Some r)
  end.
Definition host_release (release_id : Uuid) : Rel (option ReleaseRecord) :=
  let! row := on_db (query (select_release release_id)) in host_load_optional row.
Definition host_release_by_version (version : string) : Rel (option ReleaseRecord) :=
  let! row := on_db (query (select_release_by_version version)) in host_load_optional row.
Fixpoint host_load_releases (rows : list (Uuid * ReleaseRow)) : Rel (list ReleaseRecord) :=
  match rows with
  | [] => ret []
  | entry :: rows' =>
      let! r := host_load_release entry in
      let! rs := host_load_releases rows' in
      ret (r :: rs)
  end.
Definition host_list_releases : Rel (list ReleaseRecord) :=
  let! rows := on_db (query select_releases) in host_load_releases rows.

Definition host_save_compiled_release (scope_type : string) (scope_id : option Uuid)
    (release_type reason : string) (bundle : CompiledConfigBundle)
    (target_node_ids : list Uuid) : Rel SavedRelease :=
  let rid := manifest_release_id (manifest bundle) in
  let version := manifest_release_version (manifest bundle) in
  let config_hash := manifest_config_hash (manifest bundle) in
  let acks := build_release_ack_status target_node_ids in
  let! now := host_env utc_now in
  let r := {|
    release_id := rid;
    scope_type := scope_type;
    scope_id := scope_id;
    release_type := release_type;
    release_version := version;
    reason := reason;
    release_status := aggregate_release_status acks;
    bundle := bundle;
    target_node_ids := target_node_ids;
    ack_status := acks;
    release_created_at := now;
  |} in
  do! on_db (save_release r) in
  ret (mkSavedRelease rid version config_hash target_node_ids).

Definition host_save_site_release (x : SiteRecord) (release_type reason : string) :
    Rel SavedRelease :=
  do! lift (validate_site_config (site_config x)) in
  let! serial := host_serial in
  let! now := host_env utc_now in
  let version := build_release_version "site" now serial in
  let node_ids := binding_node_id <$> bindings x in
  let! certs := on_db (site_certificates (site_id x)) in
  let targets :=
    (λ b, mkReleaseTarget (binding_node_id b) [site_id x]
            (bool_decide (binding_role b = "standby"))) <$> bindings x in
  let! rid := host_env new_v4 in
  let! created := host_env utc_now in
  let! b := lift (map_err internal
                    (compile_site_bundle (to_spec x) certs targets version rid created)) in
  host_save_compiled_release "site" (Some (site_id x)) release_type reason b node_ids.

Definition host_save_cleanup_release (x : SiteRecord) (detached : list Uuid) (reason : string) :
    Rel SavedRelease :=
  let! serial := host_serial in
  let! now := host_env utc_now in
  let version := build_release_version "cleanup" now serial in
  let targets := (λ n, mkReleaseTarget n [site_id x] false) <$> detached in
  let! rid := host_env new_v4 in
  let! created := host_env utc_now in
  let! b := lift (map_err internal
                    (compile_site_cleanup_bundle (to_spec x) targets version rid created)) in
  host_save_compiled_release "site_cleanup" (Some (site_id x)) "cleanup"
    ("cleanup detached nodes for " +:+ site_code x +:+ ": " +:+ reason) b detached.

Definition host_detached_node_ids (site_id : Uuid) (current : list Uuid) : Rel (list Uuid) :=
  let! rs := host_list_releases in
  ret (detached_of rs site_id current).

Definition host_create_release (request : CreateReleaseRequest) : Rel SavedRelease :=
  do! require (bool_decide (cr_scope_type request = "site"))
        (bad_request "only site scope is implemented in P0/P1") in
  let! found := on_db (site (cr_scope_id request)) in
  let! x := some_or found (not_found "site not found") in
  let node_ids := binding_node_id <$> bindings x in
  let! detached := host_detached_node_ids (site_id x) node_ids in
  do! require (negb (bool_decide (node_ids = [] ∧ detached = [])))
        (bad_request "site has no node bindings") in
  let! primary :=
    if decide (node_ids = []) then ret None
    else let! r := host_save_site_release x (cr_release_type request) (cr_reason request) in
         ret (Some r) in
  let! cleanup :=
    if decide (detached = []) then ret None
    else let! r := host_save_cleanup_release x detached (cr_reason request) in ret (Some r) in
  let x := set_site_status (if decide (is_Some primary) then Published else Draft) x in
  do! on_db (save_site x) in
  some_or (or_else primary cleanup) (internal "release creation produced no artifacts").

Definition host_latest_release (node_id : Uuid) : Rel LatestReleaseResponse :=
  let! found := on_db (latest_release_id_for_node node_id) in
  let! rid := some_or found (not_found "no release available for node") in
  let! found := host_release rid in
  let! r := some_or found (not_found "release not found") in
  ret {|
    lr_release_id := rid;
    lr_release_version := release_version r;
    lr_config_hash := manifest_config_hash (manifest (bundle r));
    download_url := "/api/node/config/package/" +:+ release_version r +:+ "?node_id="
                    +:+ uuid_to_string node_id;
  |}.

Definition host_config_package (node_id : Uuid) (version : string) : Rel ConfigPackageResponse :=
  let! found := host_release_by_version version in
  let! r := some_or found (not_found "release version not found") in
  do! require (bool_decide (node_id ∈ target_node_ids r))
        (unauthorized "node is not a target of this release") in
  ret {|
    cp_release_id := release_id r;
    cp_release_version := release_version r;
    cp_manifest := manifest_json (manifest (bundle r));
    cp_rendered_config := rendered_config (bundle r);
    cp_certificates := VArray (certificate_json <$> bundle_certificates (bundle r));
    cp_signature := signature (bundle r);
  |}.

Definition host_ack_release (rid : Uuid) (request : ReleaseAckRequest) : Rel ReleaseAckResponse :=
  let! found := host_release rid in
  let! r := some_or found (not_found "release not found") in
  do! require (bool_decide (ack_node_id request ∈ target_node_ids r))
        (unauthorized "node is not a target of this release") in
  let! now := host_env utc_now in
  let ack := mkAck (ack_apply_status request) (Some (ack_current_version request))
               (ack_req_message request) (Some now) in
  do! on_db (update_release_ack rid (ack_node_id request) ack) in
  let! found := on_db (node (ack_node_id request)) in
  do! match found with
      | Some n =>
          let! now := host_env utc_now in
          let run := set_active_config_version (Some (ack_current_version request)) (runtime n) in
          let n := set_runtime (set_last_seen_at (Some now) run) n in
          on_db (save_node n)
      | None => ret tt
      end in
  ret (mkAckResponse rid (ack_node_id request) (ack_apply_status request)).

Definition host_switch_target (request : SwitchSitePrimaryRequest) (current : option Uuid)
    (bs : list SiteBindingRecord) : Rel Uuid :=
  match sw_target_node_id request with
  | Some target =>
      let! found := on_db (node target) in
      do! require (negb (bool_decide (found = None))) (not_found "target node not found") in
      ret target
  | None =>
      some_or (default_switch_target current bs) (conflict "site has no standby node to switch to")
  end.

(** The site as a switch stores it. *)
Definition switched_site (target : Uuid) (current : option Uuid) (keep : bool) (x : SiteRecord) :
    SiteRecord :=
  let x := set_bindings (switched_bindings target current keep (bindings x)) x in
  let x := set_site_status Draft x in
  set_site_version (wrap_u32 (site_version x + 1)) x.

Definition host_switch_site_primary (sid : Uuid) (request : SwitchSitePrimaryRequest) :
    Rel SwitchSitePrimaryResponse :=
  let! found := on_db (site sid) in
  let! x := some_or found (not_found "site not found") in
  do! require (negb (bool_decide (bindings x = []))) (bad_request "site has no node bindings") in
  let current := binding_node_id <$> primary_site_binding x in
  let! target := host_switch_target request current (bindings x) in
  do! require (bool_decide (current ≠ Some target))
        (conflict "target node is already the primary node") in
  let x := switched_site target current (default true (sw_keep_previous_as_standby request)) x in
  let next_standby := select_next_failover_policy_standby (bindings x) target in
  do! on_db (save_site x) in
  do! match next_standby with
      | Some standby =>
          do! on_db (update_active_failover_policy_targets sid target standby) in ret tt
      | None => ret tt
      end in
  let! saved := host_create_release {|
    cr_scope_type := "site";
    cr_scope_id := sid;
    cr_release_type := "switch";
    cr_reason := default ("switch primary node for " +:+ site_code x +:+ " to "
                          +:+ uuid_to_string target) (sw_reason request);
  |} in
  ret {|
    sp_site_id := sid;
    sp_previous_primary_node_id := current;
    sp_current_primary_node_id := target;
    sp_next_standby_node_id := next_standby;
    sp_binding_count := length (bindings x);
    sp_release_id := saved_release_id saved;
    sp_release_version := saved_release_version saved;
  |}.
End Handlers.

(** ** What the calls leave *)

(** The tables with a release and the rows of its targets, and with a site. *)
Definition published `{!Extern, !PgExtern} (r : ReleaseRecord) (d : PgTables) : PgTables :=
  put_node_releases r (target_node_ids r) (upsert_release r d).
Definition publish `{!Extern, !PgExtern} (rs : list ReleaseRecord) (d : PgTables) : PgTables :=
  foldl (λ d r, published r d) d rs.
Definition stored_site `{!Extern, !PgExtern} (x : SiteRecord) (d : PgTables) : PgTables :=
  put_bindings (site_id x) (bindings x)
    (delete_bindings (site_id x) (upsert_config x (upsert_site x d))).

Section Calls.
Context {N : Type} `{EX : !Extern, PX : !PgExtern, CO : !Collation, DBE : !DbExtern}.
Implicit Types d : PgTables.

Lemma dbt_save_release r d :
  dbt (N := N) d (save_release r)
    (λ x d', match x with Ok _ => d' = published r d | Err _ => d' = d end).
Proof.
  unfold save_release. sql1; [done|]. sqls; try done.
  eapply dbt_mono; [by apply dbt_save_node_releases|]. intros [a|e] d'; [|done]. by intros [-> _].
Qed.

Lemma dbt_save_site x d :
  dbt (N := N) d (save_site x)
    (λ r d', match r with Ok _ => d' = stored_site x d | Err _ => d' = d end).
Proof.
  unfold save_site. sql1; [done|]. sqls; try done.
  eapply dbt_mono; [by apply dbt_insert_bindings|]. intros [a|e] d'; [|done]. by intros [-> _].
Qed.

Lemma dbt_site u d :
  dbt (N := N) d (site u)
    (λ r d', d' = d ∧ match r with Ok found => found = read_site u d | Err _ => True end).
Proof.
  unfold site, load_site_bindings, read_site. sqls; [done|]. destruct (select_site u d); sqls; done.
Qed.

Lemma read_site_id u d x : read_site u d = Some x → site_id x = u.
Proof.
  unfold read_site, select_site. destruct (pg_sites d !! u); [|done]. simpl. by intros [= <-].
Qed.

(** Reads leave the tables alone. *)
Definition read_only {A} (m : Pg N A) : Prop := ∀ d, dbt d m (λ _ d', d' = d).
Lemma read_only_query {A} (f : PgTables → A) : read_only (query f).
Proof. intros d. by sqls. Qed.
End Calls.

(** ** Rules *)

Section Rules.
Context `{EX : !Extern, PX : !PgExtern, CO : !Collation, DBE : !DbExtern}.
Implicit Types s : Hosted.

Lemma wp_on_read {A} (m : Pg Z A) s Q :
  read_only m → (∀ r s', db s' = db s → Q r s') → wp (on_db m) s Q.
Proof.
  intros Hm HQ. apply wp_on_db. eapply dbt_mono; [apply Hm|]. intros r d' -> s' Hs'. by apply HQ.
Qed.
Lemma wp_host_env {A} (m : Io (Env Z) A) s Q :
  (∀ r s', db s' = db s → Q r s') → wp (host_env m) s Q.
Proof. intros H. unfold wp, host_env. destruct (m (env s)). by apply H. Qed.
Lemma wp_host_serial s Q :
  (∀ i s', db s' = db s → Q (Ok i) s') → wp host_serial s Q.
Proof. intros H. unfold wp, host_serial. by apply H. Qed.
End Rules.

(** What is known after a step, for handlers that end at the first error. *)
Ltac host1 :=
  lazymatch goal with
  | |- wp (bind _ _) _ _ => apply wp_bind
  | |- wp (host_env _) _ _ => apply wp_host_env; intros [?|?] ? ?
  | |- wp host_serial _ _ => apply wp_host_serial; intros ? ? ?
  | |- wp (some_or _ _) _ _ => apply wp_some_or; intros
  | |- wp (require _ _) _ _ => apply wp_require; intros
  | |- wp (lift _) _ _ => apply wp_lift; intros
  | |- wp (on_db (query _)) _ _ => apply wp_on_read; [apply read_only_query|intros [?|?] ? ?]
  | |- wp (ret _) _ _ => apply wp_ret
  end.

Section Publication.
Context `{EX : !Extern, PX : !PgExtern, CO : !Collation, DBE : !DbExtern}.
Implicit Types s : Hosted.

Definition read_releases (d : PgTables) : list ReleaseRecord :=
  filter_map (λ e, ok (read_entry d e)) (select_releases d).

Lemma load_release_run entry s :
  wp (host_load_release entry) s
    (λ r s', db s' = db s ∧ match r with Ok x => read_entry (db s) entry = Ok x | Err _ => True end).
Proof.
  unfold host_load_release, load_release_acks, read_entry. host1. host1.
  - destruct (bundle_from_value _) eqn:Hb; [|done]. simplify_eq/=. host1.
    apply wp_on_db. sql1; intros s' Hs'; simpl; [by split|]. host1. by rewrite Hs'.
  - by split.
Qed.

Lemma load_releases_run rows s :
  wp (host_load_releases rows) s
    (λ r s', db s' = db s ∧ match r with
       | Ok l => l = filter_map (λ e, ok (read_entry (db s) e)) rows | Err _ => True end).
Proof.
  revert s. induction rows as [|e rows IH]; intros s; simpl; [by host1|]. host1.
  eapply wp_mono; [apply load_release_run|]. intros [x|?] s1 [Hs1 Hx]; [|by split]. host1.
  eapply wp_mono; [apply IH|]. intros [l|?] s2 [Hs2 Hl]; [|split; [congruence|done]]. host1.
  split; [congruence|]. rewrite Hx. simpl. by rewrite Hl, Hs1.
Qed.

Lemma detached_run u current s :
  wp (host_detached_node_ids u current) s
    (λ r s', db s' = db s ∧ match r with
       | Ok l => l = detached_of (read_releases (db s)) u current | Err _ => True end).
Proof.
  unfold host_detached_node_ids, host_list_releases. host1. host1.
  apply wp_on_db. sql1; intros s' Hs'; simpl; [by split|].
  eapply wp_mono; [apply load_releases_run|]. intros [l|?] s1 [Hs1 Hl]; [|split; [congruence|done]].
  host1. split; [congruence|]. by rewrite Hl, Hs'.
Qed.

(** A release is stored with all its targets, or not at all. *)
Definition new_release (u : Uuid) (sc : string) (targets : list Uuid) (id : Uuid) (r : ReleaseRecord) : Prop :=
  scope_type r = sc ∧ scope_id r = Some u ∧ target_node_ids r = targets ∧ release_id r = id
  ∧ ack_status r = build_release_ack_status targets.

Definition release_post (u : Uuid) (sc : string) (targets : list Uuid) s
    (x : Result SavedRelease AppError) s' : Prop :=
  match x with
  | Ok saved => ∃ r, new_release u sc targets (saved_release_id saved) r ∧ db s' = published r (db s)
  | Err _ => db s' = db s
  end.

Lemma save_compiled_run sc u ty why b targets s :
  wp (host_save_compiled_release sc (Some u) ty why b targets) s (release_post u sc targets s).
Proof.
  unfold host_save_compiled_release. host1. host1; [|done]. host1. apply wp_on_db.
  eapply dbt_mono; [apply dbt_save_release|]. intros [[]|e] d' -> s2 Hs2; simpl; [|congruence].
  host1. eexists. split; [|rewrite Hs2; f_equal; congruence]. by split_and!.
Qed.

Lemma read_only_site_certificates u : read_only (N := Z) (site_certificates u).
Proof. apply read_only_query. Qed.

Lemma save_site_release_run' x ty why s :
  wp (host_save_site_release x ty why) s
    (release_post (site_id x) "site" (binding_node_id <$> bindings x) s).
Proof.
  unfold host_save_site_release. host1. host1; [|done]. host1. host1. host1. host1; [|simpl; congruence].
  host1. apply wp_on_read; [apply read_only_site_certificates|]. intros [certs|e] s3 Hs3; simpl; [|congruence].
  do 2 (host1; host1; [|simpl; congruence]). host1. host1; [|simpl; congruence].
  eapply wp_mono; [apply save_compiled_run|]. unfold release_post. intros [saved|e] s9 H9; [|congruence].
  destruct H9 as (r & ? & ->). exists r. split; [done|]. f_equal. congruence.
Qed.

Lemma save_cleanup_run x detached why s :
  wp (host_save_cleanup_release x detached why) s (release_post (site_id x) "site_cleanup" detached s).
Proof.
  unfold host_save_cleanup_release. host1. host1. host1. host1; [|simpl; congruence].
  do 2 (host1; host1; [|simpl; congruence]). host1. host1; [|simpl; congruence].
  eapply wp_mono; [apply save_compiled_run|]. unfold release_post. intros [saved|e] s9 H9; [|congruence].
  destruct H9 as (r & ? & ->). exists r. split; [done|]. f_equal. congruence.
Qed.

(** ** Publishing a site *)

(** The releases a request asks for: one for the bound nodes, then one that cleans up
    the nodes the site left. *)
Definition planned (u : Uuid) (d : PgTables) : list (string * list Uuid) :=
  match read_site u d with
  | None => []
  | Some x =>
      let bound := binding_node_id <$> bindings x in
      let detached := detached_of (read_releases d) u bound in
      (if decide (bound = []) then [] else [("site", bound)])
      ++ (if decide (detached = []) then [] else [("site_cleanup", detached)])
  end.

(** What the plan is for: the site release for exactly the bound nodes and the cleanup for
    exactly the nodes the newest release of the site targeted and the site has left. *)
Definition plan_ok (u : Uuid) (d : PgTables) (plan : list (string * list Uuid)) : Prop :=
  ∀ x, read_site u d = Some x → ∃ left,
    let bound := binding_node_id <$> bindings x in
    left_behind (.∈ read_releases d) u bound left
    ∧ plan = (if decide (bound = []) then [] else [("site", bound)])
             ++ (if decide (left = []) then [] else [("site_cleanup", left)]).

Lemma planned_ok u d : plan_ok u d (planned u d).
Proof.
  intros x Hx. unfold planned. rewrite Hx. eexists. split; [apply detached_of_left_behind|done].
Qed.

Definition carries (u : Uuid) (p : string * list Uuid) (r : ReleaseRecord) : Prop :=
  new_release u p.1 p.2 (release_id r) r.

(** One of the two stages: the release is stored, or there is none to store. *)
Definition stage_post (u : Uuid) (sc : string) (targets : list Uuid) s
    (x : Result (option SavedRelease) AppError) s' : Prop :=
  match x with
  | Ok saved => ∃ rs, db s' = publish rs (db s)
      ∧ Forall2 (carries u) (if decide (targets = []) then [] else [(sc, targets)]) rs
      ∧ saved_release_id <$> saved = release_id <$> head rs
  | Err _ => db s' = db s
  end.

Lemma stage_run u sc targets (m : Rel SavedRelease) s :
  wp m s (release_post u sc targets s) →
  wp (if decide (targets = []) then ret None else let! r := m in ret (Some r)) s
    (stage_post u sc targets s).
Proof.
  intros Hm. destruct (decide (targets = [])) as [Ht|Ht].
  - host1. exists []. rewrite decide_True by done. by split_and!.
  - host1. eapply wp_mono; [exact Hm|]. intros [saved|e] s1; [|done]. intros (r & Hr & Hs1). host1.
    exists [r]. rewrite decide_False by done. split_and!; [done| |].
    + constructor; [|done]. destruct Hr as (? & ? & ? & ? & ?). by split_and!.
    + destruct Hr as (_ & _ & _ & Hid & _). simpl. by rewrite Hid.
Qed.

(** The first releases of a plan. *)
Definition carried_out (u : Uuid) (plan : list (string * list Uuid)) (rs : list ReleaseRecord) : Prop :=
  ∃ done left, plan = done ++ left ∧ Forall2 (carries u) done rs.

Lemma publish_app rs rs' d : publish (rs ++ rs') d = publish rs' (publish rs d).
Proof. unfold publish. by rewrite foldl_app. Qed.

Definition create_post (u : Uuid) (d : PgTables) (x : Result SavedRelease AppError) (d' : PgTables) : Prop :=
  match x with
  | Err _ => ∃ rs, carried_out u (planned u d) rs ∧ d' = publish rs d
  | Ok saved => ∃ rs site, Forall2 (carries u) (planned u d) rs
      ∧ release_id <$> head rs = Some (saved_release_id saved)
      ∧ read_site u d = Some site
      ∧ d' = stored_site (set_site_status (if decide (bindings site = []) then Draft else Published) site)
               (publish rs d)
  end.

Lemma carried_nothing u plan : carried_out u plan [].
Proof. exists [], plan. by split. Qed.

Lemma first_saved (primary cleanup : option SavedRelease) saved rs1 rs2 :
  saved_release_id <$> primary = release_id <$> head rs1 →
  saved_release_id <$> cleanup = release_id <$> head rs2 →
  or_else primary cleanup = Some saved →
  release_id <$> head (rs1 ++ rs2) = Some (saved_release_id saved).
Proof.
  intros Hp1 Hp2 Hs. destruct primary as [p|]; simpl in Hs; simplify_eq; by destruct rs1 as [|r1 rs1].
Qed.

Lemma none_saved u bound det (primary cleanup : option SavedRelease) rs1 rs2 :
  Forall2 (carries u) (if decide (bound = []) then [] else [("site", bound)]) rs1 →
  Forall2 (carries u) (if decide (det = []) then [] else [("site_cleanup", det)]) rs2 →
  saved_release_id <$> primary = release_id <$> head rs1 →
  saved_release_id <$> cleanup = release_id <$> head rs2 →
  or_else primary cleanup = None → bound = [] ∧ det = [].
Proof.
  intros Hc1 Hc2 Hp1 Hp2 Hn. destruct primary; [done|]. simpl in Hn. subst cleanup.
  destruct (decide (bound = [])); [|by inversion Hc1; subst].
  destruct (decide (det = [])); [done|by inversion Hc2; subst].
Qed.

Lemma primary_iff_bound u sc x rs (primary : option SavedRelease) :
  Forall2 (carries u) (if decide (binding_node_id <$> bindings x = []) then []
    else [(sc, binding_node_id <$> bindings x)]) rs →
  saved_release_id <$> primary = release_id <$> head rs →
  (if decide (is_Some primary) then Published else Draft)
  = (if decide (bindings x = []) then Draft else Published).
Proof.
  intros Hc Hp. destruct (decide (bindings x = [])) as [Hb|Hb].
  - rewrite Hb in Hc. rewrite decide_True in Hc by done. inversion Hc; subst.
    destruct primary; [done|]. by rewrite decide_False by (by intros []).
  - rewrite decide_False in Hc by (by intros ?%fmap_nil_inv). inversion Hc; subst.
    destruct primary; [|done]. by rewrite decide_True.
Qed.

Lemma create_release_run' request s :
  wp (host_create_release request) s (λ r s', create_post (cr_scope_id request) (db s) r (db s')).
Proof.
  unfold host_create_release. set (u := cr_scope_id request). host1. host1; cbn beta iota; cycle 1.
  { exists []. split; [apply carried_nothing|done]. }
  host1. apply wp_on_db. eapply dbt_mono; [apply dbt_site|]. intros [found|e] d1 [-> Hf] s1 Hs1; simpl; cycle 1.
  { exists []. split; [apply carried_nothing|done]. }
  host1. host1; cbn beta iota; cycle 1. { exists []. split; [apply carried_nothing|done]. }
  rename a into x. rename select (found = Some x) into Hx. rewrite Hx in Hf. symmetry in Hf.
  pose proof (read_site_id u (db s) x Hf) as Hid.
  host1. eapply wp_mono; [apply detached_run|]. intros [det|e] s2 [Hs2 Hdet]; cbn beta iota; cycle 1.
  { exists []. split; [apply carried_nothing|]. simpl. congruence. }
  rewrite Hid, Hs1 in Hdet. set (bound := binding_node_id <$> bindings x) in *.
  assert (planned u (db s) = (if decide (bound = []) then [] else [("site", bound)])
    ++ (if decide (det = []) then [] else [("site_cleanup", det)])) as Hplan.
  { unfold planned. rewrite Hf. by subst det. }
  host1. host1; cbn beta iota; cycle 1. { exists []. split; [apply carried_nothing|]. simpl. congruence. }
  host1. eapply wp_mono; [apply (stage_run u "site" bound); rewrite <-Hid; apply save_site_release_run'|].
  intros [primary|e] s3; simpl; cycle 1. { exists []. split; [apply carried_nothing|]. simpl. congruence. }
  intros (rs1 & Hs3 & Hc1 & Hp1). host1.
  eapply wp_mono; [apply (stage_run u "site_cleanup" det); rewrite <-Hid; apply save_cleanup_run|].
  intros [cleanup|e] s4; simpl; cycle 1.
  { intros Hs4. exists rs1. rewrite Hplan. split; [by eexists _, _|]. congruence. }
  intros (rs2 & Hs4 & Hc2 & Hp2). host1. apply wp_on_db.
  assert (db s4 = publish (rs1 ++ rs2) (db s)) as Hdb by (rewrite publish_app; congruence).
  assert (Forall2 (carries u) (planned u (db s)) (rs1 ++ rs2)) as Hall by (rewrite Hplan; by apply Forall2_app).
  eapply dbt_mono; [apply dbt_save_site|]. intros [[]|e] d5 -> s5 Hs5; simpl; cycle 1.
  { exists (rs1 ++ rs2). split; [|congruence]. exists (planned u (db s)), []. by rewrite app_nil_r. }
  apply wp_some_or; [intros saved Hsaved|intros Hnone].
  - exists (rs1 ++ rs2), x. split_and!; [done| |done|].
    + by eapply first_saved.
    + rewrite Hs5, Hdb. do 2 f_equal. by eapply primary_iff_bound.
  - exfalso. revert select (negb _ = true). rewrite negb_true_iff, bool_decide_eq_false. intros Hn. apply Hn.
    by apply (none_saved u bound det primary cleanup rs1 rs2).
Qed.

(** C38: However the database fails, a request to publish a site stores releases of its plan
    from the front, each with all its targets, and the site not before them all: the
    releases that are there after an error are the first ones of the plan, and a
    request that succeeds has stored the whole plan and the status of the site.  The plan
    is one release for exactly the bound nodes, then one that cleans up exactly the nodes
    the newest release of the site was for and that are not bound any more. *)
Theorem create_release_stages request s :
  plan_ok (cr_scope_id request) (db s) (planned (cr_scope_id request) (db s))
  ∧ let '(r, s') := host_create_release request s in
    create_post (cr_scope_id request) (db s) r (db s').
Proof.
  split; [apply planned_ok|].
  pose proof (create_release_run' request s) as H. unfold wp in H. by destruct (host_create_release request s).
Qed.

(** ** Switching the primary node *)

(** The tables once the site and the policies name the new primary. *)
Definition moved (sid target : Uuid) (x : SiteRecord) (d : PgTables) : PgTables :=
  match select_next_failover_policy_standby (bindings x) target with
  | Some standby => retarget_policies sid target standby (stored_site x d)
  | None => stored_site x d
  end.

Definition switched (request : SwitchSitePrimaryRequest) (target : Uuid) (x : SiteRecord) : SiteRecord :=
  switched_site target (binding_node_id <$> primary_site_binding x)
    (default true (sw_keep_previous_as_standby request)) x.

Definition switch_post (sid : Uuid) (request : SwitchSitePrimaryRequest) (d : PgTables)
    (r : Result SwitchSitePrimaryResponse AppError) (d' : PgTables) : Prop :=
  match r with
  | Err _ => d' = d
      ∨ ∃ x target, read_site sid d = Some x ∧
          let current := binding_node_id <$> primary_site_binding x in
          let x' := switched request target x in
          requested_target request current (bindings x) target ∧ current ≠ Some target ∧
          (d' = stored_site x' d ∨ ∃ rs, carried_out sid (planned sid (moved sid target x' d)) rs
                                         ∧ d' = publish rs (moved sid target x' d))
  | Ok resp => ∃ x saved, read_site sid d = Some x ∧
      let target := sp_current_primary_node_id resp in
      let x' := switched request target x in
      requested_target request (binding_node_id <$> primary_site_binding x) (bindings x) target
      ∧ sp_previous_primary_node_id resp = binding_node_id <$> primary_site_binding x
      ∧ sp_previous_primary_node_id resp ≠ Some target
      ∧ sp_next_standby_node_id resp = select_next_failover_policy_standby (bindings x') target
      ∧ policy_standby (bindings x') target (sp_next_standby_node_id resp)
      ∧ sp_release_id resp = saved_release_id saved
      ∧ create_post sid (moved sid target x' d) (Ok saved) d'
  end.

Lemma dbt_retarget {N} sid p q d :
  dbt (N := N) d (update_active_failover_policy_targets sid p q)
    (λ r d', match r with Ok _ => d' = retarget_policies sid p q d | Err _ => d' = d end).
Proof. unfold update_active_failover_policy_targets. sql1; [done|]. by simplify_eq. Qed.

Lemma host_switch_target_run request current bs s :
  wp (host_switch_target request current bs) s (λ r s', db s' = db s ∧
    match r with Ok target => requested_target request current bs target | Err _ => True end).
Proof.
  unfold host_switch_target, requested_target, node.
  destruct (sw_target_node_id request);
    [|by apply wp_some_or; [intros t Ht; split; [|apply default_target_next]|]].
  host1. host1; [|done]. host1. host1; [|done]. by host1.
Qed.

Lemma switch_run sid request s :
  wp (host_switch_site_primary sid request) s (λ r s', switch_post sid request (db s) r (db s')).
Proof.
  unfold host_switch_site_primary. host1. apply wp_on_db. eapply dbt_mono; [apply dbt_site|].
  intros [found|e] d1 [-> Hf] s1 Hs1; simpl; [|by left]. host1. apply wp_some_or; [|by left].
  intros x Hx. rewrite Hx in Hf. symmetry in Hf. host1. host1; [|by left]. host1.
  eapply wp_mono; [apply host_switch_target_run|].
  intros [target|e] s2 [Hs2 Htarget]; cbn beta iota; [|left; congruence].
  host1. host1; cbn beta iota; [|left; congruence]. rename select (bool_decide _ = true) into Hnew.
  apply bool_decide_eq_true in Hnew.
  change (switched_site target (binding_node_id <$> primary_site_binding x)
    (default true (sw_keep_previous_as_standby request)) x) with (switched request target x).
  set (x' := switched request target x). rewrite Hs1 in Hs2.
  host1. apply wp_on_db. eapply dbt_mono; [apply dbt_save_site|].
  intros [[]|e] d3 -> s3 Hs3; simpl; [|left; congruence]. rewrite Hs2 in Hs3.
  host1. eapply (wp_mono _ _ (λ r s4, match r with Ok _ => db s4 = moved sid target x' (db s)
                                     | Err _ => db s4 = db s3 end)).
  { unfold moved. destruct (select_next_failover_policy_standby _ _) as [st|]; [|by host1].
    host1. apply wp_on_db. eapply dbt_mono; [apply dbt_retarget|].
    intros [k|e] d4 -> s4 Hs4; simpl; [|done]. host1. by rewrite Hs4, Hs3. }
  intros [[]|e] s4 Hs4; simpl; [|right; exists x, target; split; [done|]; cbv zeta; split_and!; [done..|left; by rewrite Hs4, Hs3]].
  host1. eapply wp_mono; [apply create_release_run'|]. simpl. rewrite Hs4. intros [saved|e] s5 H5.
  - host1. exists x, saved. split; [done|]. cbv zeta. pose proof (select_standby_spec (bindings x') target).
    by split_and!.
  - right. exists x, target. split; [done|]. cbv zeta. split_and!; [done..|]. by right.
Qed.

Lemma policies_published rs d : pg_failover_policies (publish rs d) = pg_failover_policies d.
Proof. revert d. induction rs as [|r rs IH]; intros d; [done|]. exact (IH (published r d)). Qed.

(** C39: A switch stores the new bindings first, then the policies, then the releases: a
    request that fails leaves a prefix of these steps.  It goes to the node the request
    names or, when it names none, to the first standby other than the current primary (the
    first other bound node when there is no such standby).  After one that succeeds, when
    the site has a standby left, every active policy of the site names the new primary and
    the standby of least priority number; when it has none, the policies are as they were. *)
Theorem switch_stages sid request s :
  let '(r, s') := host_switch_site_primary sid request s in
  switch_post sid request (db s) r (db s')
  ∧ match r with
    | Ok resp =>
        match sp_next_standby_node_id resp with
        | Some standby => ∀ p row,
            pg_failover_policies (db s') !! p = Some row → active_policy_of sid row →
            fp_primary_node_id row = sp_current_primary_node_id resp ∧ fp_standby_node_id row = standby
        | None => pg_failover_policies (db s') = pg_failover_policies (db s)
        end
    | Err _ => True
    end.
Proof.
  pose proof (switch_run sid request s) as H. unfold wp in H.
  destruct (host_switch_site_primary sid request s) as [[resp|e] s']; [|done]. split; [done|].
  destruct H as (x & saved & Hx & _ & _ & _ & Hst & _ & _ & rs & y & _ & _ & _ & ->).
  change (pg_failover_policies (stored_site ?y ?d)) with (pg_failover_policies d).
  rewrite policies_published. unfold moved. rewrite <-Hst.
  destruct (sp_next_standby_node_id resp) as [standby|]; [|done]. intros p row Hrow Ha.
  simpl in Hrow. rewrite lookup_fmap in Hrow.
  destruct (pg_failover_policies (db s) !! p) as [row0|]; [|done]. injection Hrow as Hrow.
  case_decide; by subst.
Qed.

(** ** Acknowledgements *)

Definition ack_post (rid : Uuid) (request : ReleaseAckRequest) (d : PgTables)
    (r : Result ReleaseAckResponse AppError) s' : Prop :=
  match r with
  | Err _ => db s' = d ∨ ∃ now,
      let ack := mkAck (ack_apply_status request) (Some (ack_current_version request))
                   (ack_req_message request) (Some now) in
      db s' = update_ack_row rid (ack_node_id request) ack d
      ∨ db s' = acked rid (ack_node_id request) ack d
  | Ok resp => resp = mkAckResponse rid (ack_node_id request) (ack_apply_status request)
      ∧ ack_node_id request ∈ dom (select_acks rid d)
      ∧ ∃ now,
          let ack := mkAck (ack_apply_status request) (Some (ack_current_version request))
                       (ack_req_message request) (Some now) in
          pg_node_release_status (db s') = pg_node_release_status (acked rid (ack_node_id request) ack d)
          ∧ pg_config_releases (db s') = pg_config_releases (acked rid (ack_node_id request) ack d)
  end.

Lemma release_run rid s :
  wp (host_release rid) s (λ r s', db s' = db s ∧ match r with
    | Ok (Some x) => target_node_ids x = (entries (select_acks rid (db s))).*1 | _ => True end).
Proof.
  unfold host_release, select_release. host1. apply wp_on_db. sql1; intros s1 Hs1; simpl; [by split|].
  destruct (pg_config_releases (db s) !! rid) as [row|]; simpl; [|by host1; split]. host1.
  eapply wp_mono; [apply load_release_run|]. rewrite Hs1. intros [x|e] s2 [Hs2 Hx]; [|by split].
  host1. split; [done|]. unfold read_entry in Hx. simpl in Hx.
  destruct (bundle_from_value _); simpl in Hx; by simplify_eq/=.
Qed.

Lemma elem_of_targets n (acks : gmap Uuid NodeAckRecord) `{!ExternLaws} : n ∈ (entries acks).*1 → n ∈ dom acks.
Proof.
  intros ([k a] & -> & Hin)%list_elem_of_fmap. apply elem_of_entries in Hin. by apply elem_of_dom_2 in Hin.
Qed.

Lemma save_node_releases_kept {N} n d :
  dbt (N := N) d (save_node n) (λ x d', match x with
    | Ok _ => pg_node_release_status d' = pg_node_release_status d
              ∧ pg_config_releases d' = pg_config_releases d
    | Err _ => d' = d end).
Proof.
  unfold save_node. sql1; [done|]. sqls; try done. rename select (upsert_node _ _ = _) into Hup.
  unfold upsert_node in Hup. destruct (cast_inet (public_ip n)); [|done].
  destruct (cast_inet (private_ip n)); [|done]. by simplify_eq/=.
Qed.

(** A report that fails may have stored the acknowledgement, with or without the status
    of the release that goes with it; the node is written last. *)
Theorem ack_stages `{!ExternLaws} rid request s :
  let '(r, s') := host_ack_release rid request s in
  ack_post rid request (db s) r s'.
Proof.
  assert (wp (host_ack_release rid request) s (ack_post rid request (db s))) as Hwp;
    [|unfold wp in Hwp; by destruct (host_ack_release rid request s)].
  unfold host_ack_release. host1. eapply wp_mono; [apply release_run|].
  intros [found|e] s1 [Hs1 Hf]; cbn beta iota; [|by left]. host1. apply wp_some_or; [|by left].
  intros r ->. host1. host1; cbn beta iota; [|by left]. rename select (bool_decide _ = true) into Hin.
  apply bool_decide_eq_true in Hin. rewrite Hf in Hin.
  host1. apply wp_host_env. intros [now|e] s2 Hs2; cbn beta iota; [|left; congruence]. rewrite Hs1 in Hs2.
  set (ack := mkAck _ _ _ _). host1. apply wp_on_db. rewrite Hs2.
  eapply dbt_mono; [apply ack_statements|]. intros [[]|e] d3 Hd3 s3 <-; simpl; cycle 1.
  { destruct Hd3 as [->| ->]; [by left|]. right. exists now. by left. }
  destruct Hd3 as [Hd3 _]. assert (ack_post rid request (db s) (Err (internal "")) s3) as Herr by (right; exists now; by right).
  host1. apply wp_on_read; [apply read_only_query|]. intros [found|e] s4 Hs4; simpl; [|by rewrite Hs4].
  host1. eapply (wp_mono _ _ (λ r s5, match r with
    | Ok _ => pg_node_release_status (db s5) = pg_node_release_status (db s3)
              ∧ pg_config_releases (db s5) = pg_config_releases (db s3)
    | Err _ => db s5 = db s3 end)).
  { destruct found as [n|]; [|host1; by rewrite Hs4]. host1. host1; cbn beta iota; [|congruence].
    apply wp_on_db. eapply dbt_mono; [apply save_node_releases_kept|].
    intros [[]|e] d6 Hd6 s6 <-; simpl; [destruct Hd6; split|]; congruence. }
  intros [[]|e] s5 H5; simpl; [|by rewrite H5]. host1. split; [done|]. split; [by apply elem_of_targets|].
  exists now. rewrite Hd3 in H5. exact H5.
Qed.
End Publication.

(** ** A concrete run *)

Module HostDemo.
Definition node (u : Uuid) (code : string) : NodeRecord :=
  set_identity (mkNodeIdentity u code code "eu" "fra" Online) Demo.node1.
Definition shop : SiteRecord := set_bindings [mkBinding 1 "primary" 10; mkBinding 2 "standby" 20]
  (set_site_status Draft demo_site).
(** A database with two nodes and a site bound to them. *)
Definition prepared : Hosted :=
  ((do! save_node (node 1 "edge-1") in
    do! save_node (node 2 "edge-2") in
    save_site shop) (mkDb empty_tables 0 (mkEnv 1%Z 0 0))).2.
Definition publishing : CreateReleaseRequest := mkCreateRelease "site" 1004 "manual" "first".

Definition outcome (e : DbExtern) :=
  let '(r, s) := host_create_release (DBE := e) publishing prepared in
  (is_ok r, si_status <$> pg_sites (db s) !! 1004%Z,
   (λ n, bool_decide (is_Some (select_latest_release n (db s)))) <$> [1; 2]%Z).

(** Without failures the site is published and both nodes are told of a release; when
    the last call fails the request is answered with an error and the site stays a
    draft, and the nodes are told all the same. *)
Example published_run : outcome Demo.no_errors = (true, Some "published", [true; true]).
Proof. vm_compute. reflexivity. Qed.
Example interrupted_publication :
  outcome (λ i, if decide (statement prepared + 9 = i) then Some "connection closed" else None)
  = (false, Some "draft", [true; true]).
Proof. vm_compute. reflexivity. Qed.

(** A switch that fails once the bindings are stored cannot be repeated: the target is
    the primary node already, and no release tells the nodes. *)
Definition switching : SwitchSitePrimaryRequest := mkSwitch (Some 2%Z) None None.
Definition switch_twice (e : DbExtern) :=
  let '(r, s) := host_switch_site_primary (DBE := e) 1004 switching prepared in
  let '(again, s) := host_switch_site_primary (DBE := Demo.no_errors) 1004 switching s in
  (is_ok r, map_err message again, bool_decide (pg_config_releases (db s) = ∅)).
Example interrupted_switch :
  switch_twice (λ i, if decide (statement prepared + 9 < i) then Some "connection closed" else None)
  = (false, Err "target node is already the primary node", true).
Proof. vm_compute. reflexivity. Qed.
End HostDemo.
