(* ===== verification/Interleave.v ===== *)
(** * Requests that overlap (apps/hub-api/src/service.rs)

    The service answers requests concurrently.  The in-memory stores hold a lock for the
    time of one call, so the calls of different requests interleave while each is atomic.
    A [Task] is a handler that gives up control after every call; a pool of tasks makes
    steps in any order.  The checks between two calls are steps of their own, and the
    draws and the clock reading of [issue_node_tokens] belong to its step; so there are
    more schedules here than in the program, and what holds in all of them holds there.
    Waiting for a lock is not a step.  One step for [issue_node_tokens] is right for
    [MemoryTokenStore] only: the Redis store issues tokens with several commands (see
    [RedisTokens.RedisDemo.overlapping_issues]).

    The theorem says what holds in every order, the examples which guarantees of a handler
    that runs alone do not. *)

From stdpp Require Import prelude strings pretty gmap relations.
From S2P Require Import Prelude RustStr Json Extern AppError Domain Records Store TokenStore Hub HubNodes.

(** ** Tasks *)

(** What is left of a request: its answer, or a call, which changes the state and
    determines the rest. *)
Inductive Task (T A : Type) :=
  | Done (r : Fallible A)
  | Step (next : World T → Task T A) (effect : World T → World T).
Arguments Done {T A} r.
Arguments Step {T A} next effect.

Section Tasks.
Context {T : Type}.

Definition call {A} (m : Hub T A) : Task T A := Step (λ w, Done (m w).1) (λ w, (m w).2).

Fixpoint task_bind {A B} (t : Task T A) (k : A → Task T B) : Task T B :=
  match t with
  | Done (Ok a) => k a
  | Done (Err e) => Done (Err e)
  | Step next effect => Step (λ w, task_bind (next w) k) effect
  end.

(** A task that is never interrupted. *)
Fixpoint finish {A} (t : Task T A) (w : World T) : Fallible A * World T :=
  match t with
  | Done r => (r, w)
  | Step next effect => finish (next w) (effect w)
  end.

Lemma finish_bind {A B} (t : Task T A) (k : A → Task T B) w :
  finish (task_bind t k) w = bind (finish t) (λ a, finish (k a)) w.
Proof.
  revert w. unfold bind. induction t as [[a|e]|next IH effect]; intros w; [done|done|]. apply IH.
Qed.

Lemma finish_call {A} (m : Hub T A) w : finish (call m) w = m w.
Proof. simpl. by destruct (m w). Qed.

Lemma bind_ext {A B} (m m' : Hub T A) (k k' : A → Hub T B) w :
  (∀ w, m w = m' w) → (∀ a w, k a w = k' a w) → bind m k w = bind m' k' w.
Proof. intros Hm Hk. unfold bind. rewrite Hm. destruct (m' w) as [[a|e] w']; [apply Hk|done]. Qed.

End Tasks.

Notation "'await!' x := m 'in' k" := (task_bind (call m) (λ x, k))
  (at level 10, x pattern at level 0, m at level 100, k at level 200,
   format "'await!'  x  :=  m  'in' '//' k") : mesh_scope.
Notation "'step!' m 'in' k" := (task_bind (call m) (λ _, k))
  (at level 10, m at level 100, k at level 200, format "'step!'  m  'in' '//' k") : mesh_scope.

(** ** The requests of nodes and about nodes *)

Inductive NodeRequest :=
  | RqCreate (request : CreateNodeRequest)
  | RqRegister (request : NodeRegisterRequest)
  | RqRefresh (request : NodeRefreshRequest)
  | RqHeartbeat (access_token : string) (request : NodeHeartbeatRequest)
  | RqDelete (node_id : Uuid).

Inductive NodeAnswer :=
  | AnsCreated (response : CreateNodeResponse)
  | AnsTokens (response : NodeTokensResponse)
  | AnsHeartbeat (response : NodeHeartbeatResponse)
  | AnsDeleted (response : DeleteNodeResponse).

Section Requests.
Context {T : Type} `{EX : !Extern, NT : !NodeTokenStore T}.

(** The handlers of [HubNodes], call by call. *)
Definition create_task (request : CreateNodeRequest) : Task T NodeAnswer :=
  step! require (negb (is_empty (trim (req_node_code request)) || is_empty (trim (req_node_name request))))
        (bad_request "node_code and name are required") in
  await! existing := read (λ s, node_id_by_code s (req_node_code request)) in
  step! require (bool_decide (existing = None)) (conflict "node_code already exists") in
  await! node_id := new_v4 in
  await! boot := new_v4 in
  let bootstrap := "boot-" +:+ uuid_to_string boot in
  let node := {|
    identity := mkNodeIdentity node_id (req_node_code request) (req_node_name request)
                  (req_region request) (req_idc request) Pending;
    runtime := mkNodeRuntimeState None None 0 100;
    labels := req_labels request;
    hostname := None;
    public_ip := None;
    private_ip := None;
    bootstrap_token := Some (hash_bootstrap_token bootstrap);
    pingora_version := None;
    agent_version := None;
  |} in
  step! write (save_node node) in
  Done (Ok (AnsCreated (mkCreateNodeResponse node_id bootstrap))).

Definition register_task (request : NodeRegisterRequest) : Task T NodeAnswer :=
  await! found := read (λ s, node_id_by_code s (reg_node_code request)) in
  await! node_id := get_or found (not_found "node_code not found") in
  await! found := read (λ s, node s node_id) in
  await! n := get_or found (not_found "node not found") in
  await! expected := get_or (bootstrap_token n)
    (unauthorized "bootstrap token already used or unavailable") in
  step! require (bool_decide (expected = hash_bootstrap_token (reg_bootstrap_token request)))
        (unauthorized "invalid bootstrap token") in
  await! issued := issue_node_tokens node_id in
  await! now := utc_now in
  step! write (save_node (registered request now n)) in
  Done (Ok (AnsTokens (tokens_response node_id issued))).

Definition refresh_task (request : NodeRefreshRequest) : Task T NodeAnswer :=
  await! found := read_tokens (λ t, refresh_lease t (refresh_req_token request)) in
  await! lease := get_or found (unauthorized "invalid refresh token") in
  step! require (bool_decide (lease_node_id lease = refresh_node_id request))
        (unauthorized "refresh token does not match node") in
  await! issued := issue_node_tokens (refresh_node_id request) in
  Done (Ok (AnsTokens (tokens_response (refresh_node_id request) issued))).

Definition authorize_task (node_id : Uuid) (access_token : string) : Task T unit :=
  await! found := read_tokens (λ t, access_lease t access_token) in
  await! lease := get_or found (unauthorized "invalid access token") in
  step! require (bool_decide (lease_node_id lease = node_id))
        (unauthorized "access token does not match node") in
  await! now := utc_now in
  step! require (negb (lease_expires_at lease <? now)%Z) (unauthorized "access token expired") in
  await! found := read (λ s, node s node_id) in
  call (require (negb (bool_decide (found = None))) (not_found "node not found")).

Definition beat_task (request : NodeHeartbeatRequest) : Task T NodeHeartbeatResponse :=
  await! found := read (λ s, node s (beat_node_id request)) in
  step! require (negb (bool_decide (found = None))) (not_found "node not found") in
  await! now := utc_now in
  step! write (record_heartbeat {|
    hb_node_id := beat_node_id request;
    hb_pingora_version := beat_pingora_version request;
    hb_agent_version := beat_agent_version request;
    hb_active_config_version := beat_active_config_version request;
    hb_site_count := beat_site_count request;
    cpu_usage := beat_cpu_usage request;
    mem_usage := beat_mem_usage request;
    disk_usage := beat_disk_usage request;
    hb_health_score := beat_health_score request;
    reported_at := now;
  |}) in
  await! now := utc_now in
  Done (Ok (mkHeartbeatResponse now 15)).

(** The two as the endpoint calls them. *)
Definition heartbeat_task (access_token : string) (request : NodeHeartbeatRequest) :
    Task T NodeAnswer :=
  task_bind (authorize_task (beat_node_id request) access_token) (λ _,
    task_bind (beat_task request) (λ r, Done (Ok (AnsHeartbeat r)))).

Definition delete_task (node_id : Uuid) : Task T NodeAnswer :=
  await! found := read (λ s, node s node_id) in
  await! n := get_or found (not_found "node not found") in
  await! guard := read (λ s, node_delete_guard s node_id) in
  step! require (bool_decide (bound_site_codes guard = []))
        (conflict ("node is still bound to site(s): " +:+ join ", " (bound_site_codes guard))) in
  step! require (bool_decide (failover_policy_count guard = 0))
        (conflict ("node is still referenced by " +:+ pretty (failover_policy_count guard)
                   +:+ " failover policy entries")) in
  step! write_tokens (λ t, (tt, revoke_tokens node_id t)) in
  step! write (delete_node node_id) in
  Done (Ok (AnsDeleted (mkDeleteNodeResponse node_id (node_code (identity n)) true))).

Definition task_of (rq : NodeRequest) : Task T NodeAnswer :=
  match rq with
  | RqCreate request => create_task request
  | RqRegister request => register_task request
  | RqRefresh request => refresh_task request
  | RqHeartbeat access_token request => heartbeat_task access_token request
  | RqDelete node_id => delete_task node_id
  end.

(** The handlers that answer the requests when they run alone. *)
Definition handle (rq : NodeRequest) : Hub T NodeAnswer :=
  match rq with
  | RqCreate request => let! r := create_node request in ret (AnsCreated r)
  | RqRegister request => let! r := register_node request in ret (AnsTokens r)
  | RqRefresh request => let! r := refresh_node_token request in ret (AnsTokens r)
  | RqHeartbeat access_token request =>
      do! authorize_node (beat_node_id request) access_token in
      let! r := node_heartbeat request in ret (AnsHeartbeat r)
  | RqDelete node_id => let! r := hub_delete_node node_id in ret (AnsDeleted r)
  end.

(** Re-association of a handler followed by the rest of a request. *)
Lemma bind_assoc {A B C} (m : Hub T A) (k : A → Hub T B) (l : B → Hub T C) w :
  bind (bind m k) l w = bind m (λ a, bind (k a) l) w.
Proof. unfold bind. by destruct (m w) as [[a|e] w']. Qed.

Ltac finish_calls :=
  repeat first
    [ progress intros
    | rewrite bind_assoc
    | apply finish_call
    | rewrite finish_bind; apply bind_ext ].

Lemma finish_authorize u tok w : finish (authorize_task u tok) w = authorize_node u tok w.
Proof. unfold authorize_task, authorize_node. by finish_calls. Qed.
Lemma finish_beat request w : finish (beat_task request) w = node_heartbeat request w.
Proof. unfold beat_task, node_heartbeat. by finish_calls. Qed.

(** The steps of a request are those of its handler: an uninterrupted run of the task answers
    what the handler answers and leaves the same state. *)
Lemma uninterrupted_request rq w : finish (task_of rq) w = handle rq w.
Proof.
  destruct rq; unfold task_of, handle, create_task, register_task, refresh_task, heartbeat_task,
    delete_task, create_node, register_node, refresh_node_token, hub_delete_node; try by finish_calls.
  rewrite finish_bind. apply bind_ext; intros; [apply finish_authorize|].
  rewrite finish_bind. by apply bind_ext; intros; [apply finish_beat|].
Qed.
End Requests.

(** ** Pools *)

Section Pool.
Context {T : Type}.
Abbreviation Pool := (list (Task T NodeAnswer) * World T)%type.
Implicit Types (p : Pool) (w : World T).

(** One of the requests makes its next call. *)
Inductive pool_step : Pool → Pool → Prop :=
  | pool_step_at i next effect ts w :
      ts !! i = Some (Step next effect) → pool_step (ts, w) (<[i := next w]> ts, effect w).

(** The same as a function of the request whose turn it is; a turn of a request that is
    answered is lost. *)
Definition take_turn (p : Pool) (i : nat) : Pool :=
  match p.1 !! i with
  | Some (Step next effect) => (<[i := next p.2]> p.1, effect p.2)
  | _ => p
  end.
Definition run_schedule (p : Pool) (turns : list nat) : Pool := foldl take_turn p turns.

Lemma take_turn_steps p i : rtc pool_step p (take_turn p i).
Proof.
  destruct p as [ts w]. unfold take_turn. simpl.
  destruct (ts !! i) as [[r|next effect]|] eqn:Hi; [reflexivity| |reflexivity].
  by apply rtc_once, pool_step_at.
Qed.

Lemma run_schedule_steps turns p : rtc pool_step p (run_schedule p turns).
Proof.
  revert p. induction turns as [|i turns IH]; intros p; [reflexivity|]. simpl.
  etransitivity; [apply take_turn_steps|apply IH].
Qed.

(** What every call keeps, no interleaving breaks. *)
Inductive calls_keep {A} (I : World T → World T → Prop) : Task T A → Prop :=
  | keep_done r : calls_keep I (Done r)
  | keep_step next effect :
      (∀ w, I w (effect w)) → (∀ w, calls_keep I (next w)) → calls_keep I (Step next effect).

Lemma calls_keep_bind {A B} I (t : Task T A) (k : A → Task T B) :
  calls_keep I t → (∀ a, calls_keep I (k a)) → calls_keep I (task_bind t k).
Proof.
  intros H Hk. induction H as [[a|e]|next effect Heff _ IH]; simpl; [done|constructor|].
  by constructor.
Qed.

Lemma calls_keep_call {A} I (m : Hub T A) : (∀ w, I w (m w).2) → calls_keep I (call m).
Proof. intros H. constructor; [done|constructor]. Qed.

Lemma pool_keeps (I : World T → World T → Prop) `{!PreOrder I} p p' :
  Forall (calls_keep I) p.1 → rtc pool_step p p' → Forall (calls_keep I) p'.1 ∧ I p.2 p'.2.
Proof.
  intros Hts Hrun. induction Hrun as [p|p p1 p' Hstep _ IH]; [by split|].
  destruct Hstep as [i next effect ts w Hi]. simpl in *.
  assert (calls_keep I (Step next effect)) as Hs by (rewrite Forall_lookup in Hts; by eapply Hts).
  inversion Hs as [|? ? Heff Hnext]; subst.
  destruct IH as [Hts' HI]; [apply Forall_insert; [done|apply Hnext]|]. split; [done|]. etransitivity; [apply Heff|exact HI].
Qed.

End Pool.

(** Down to the calls of a task. *)
Ltac calls_keep_tac :=
  repeat first [apply calls_keep_bind; [|intros] | apply calls_keep_call; intros | apply keep_done].

(** ** In every order *)

Section EveryOrder.
Context {T : Type} `{EX : !Extern, EL : !ExternLaws, NT : !NodeTokenStore T, TL : !TokenLaws T}.
Implicit Types w : World T.

(** At most one access and one refresh token of a node are live, and the tokens still to
    be drawn are not. *)
Record single_tokens w : Prop := {
  single_ok : tokens_ok (tokens w);
  single_fresh_access :
    ∀ i, rng_next w ≤ i → access_lease (tokens w) (access_token_of (rng i)) = None;
  single_fresh_refresh :
    ∀ i, rng_next w ≤ i → refresh_lease (tokens w) (refresh_token_of (rng i)) = None;
  single_access : ∀ tok tok' l l',
    access_lease (tokens w) tok = Some l → access_lease (tokens w) tok' = Some l' →
    lease_node_id l = lease_node_id l' → tok = tok';
  single_refresh : ∀ tok tok' l l',
    refresh_lease (tokens w) tok = Some l → refresh_lease (tokens w) tok' = Some l' →
    lease_node_id l = lease_node_id l' → tok = tok';
}.
Definition keeps_single w w' : Prop := single_tokens w → single_tokens w'.

#[export] Instance keeps_single_preorder : PreOrder keeps_single.
Proof. split; unfold keeps_single; [by intros w|intros w1 w2 w3]; auto. Qed.

Lemma single_tokens_new d : single_tokens (new_memory d).
Proof.
  split; simpl; [apply no_tokens_ok|intros; apply no_tokens_access|intros; apply no_tokens_refresh|..].
  - intros tok tok' l l'. by rewrite no_tokens_access.
  - intros tok tok' l l'. by rewrite no_tokens_refresh.
Qed.

Lemma keeps_single_quiet w w' :
  tokens w' = tokens w → rng_next w ≤ rng_next w' → keeps_single w w'.
Proof.
  intros Ht Hn [Hok Ha Hr Hsa Hsr]. split; rewrite ?Ht; [done|..|done|done].
  - intros i Hi. apply Ha. lia.
  - intros i Hi. apply Hr. lia.
Qed.

(** One kind of tokens, after the tokens of a node are replaced or dropped. *)
Lemma single_dropped (old new : string → option TokenLease) n (fresh : option (string * DateTime)) :
  (∀ tok tok' l l', old tok = Some l → old tok' = Some l' → lease_node_id l = lease_node_id l' → tok = tok') →
  (∀ tok, new tok = match fresh with
                    | Some (a, e) => if decide (tok = a) then Some (mkLease n e) else drop_node n (old tok)
                    | None => drop_node n (old tok)
                    end) →
  ∀ tok tok' l l', new tok = Some l → new tok' = Some l' → lease_node_id l = lease_node_id l' → tok = tok'.
Proof.
  intros Hold Hnew tok tok' l l'. rewrite !Hnew. destruct fresh as [[a e]|].
  - repeat case_decide; simplify_eq; intros; simplify_eq/=;
      repeat match goal with H : drop_node _ _ = Some _ |- _ => apply drop_node_Some in H as [??] end;
      naive_solver.
  - intros [? _]%drop_node_Some [? _]%drop_node_Some. eauto.
Qed.

Lemma keeps_single_issue n w : keeps_single w (issue_node_tokens n w).2.
Proof.
  intros [Hok Ha Hr Hsa Hsr].
  unfold issue_node_tokens, bind, new_v4, utc_now, write_tokens. simpl.
  set (e := (clock (clock_next w) + hours 24)%Z).
  assert (access_lease (tokens w) (access_token_of (rng (rng_next w))) = None) as Hna by (apply Ha; lia).
  assert (refresh_lease (tokens w) (refresh_token_of (rng (S (rng_next w)))) = None) as Hnr
    by (apply Hr; lia).
  rewrite (surjective_pairing (issue_tokens _ _ _ _ _)). split; simpl.
  - by apply issue_ok.
  - intros i Hi. rewrite issue_access, decide_False
      by (done || (intros Heq%access_token_of_inj%rng_inj; lia)). apply drop_node_fresh, Ha. lia.
  - intros i Hi. rewrite issue_refresh, decide_False
      by (done || (intros Heq%refresh_token_of_inj%rng_inj; lia)). apply drop_node_fresh, Hr. lia.
  - eapply (single_dropped _ _ n (Some (_, e))); [exact Hsa|]. intros tok. by apply issue_access.
  - eapply (single_dropped _ _ n (Some (_, e))); [exact Hsr|]. intros tok. by apply issue_refresh.
Qed.

Lemma keeps_single_revoke n w :
  keeps_single w (write_tokens (λ t, (tt, revoke_tokens n t)) w).2.
Proof.
  intros [Hok Ha Hr Hsa Hsr]. split; simpl.
  - by apply revoke_ok.
  - intros i Hi. by rewrite revoke_access, Ha.
  - intros i Hi. by rewrite revoke_refresh, Hr.
  - eapply (single_dropped _ _ n None); [exact Hsa|]. intros tok. by apply revoke_access.
  - eapply (single_dropped _ _ n None); [exact Hsr|]. intros tok. by apply revoke_refresh.
Qed.

Lemma task_keeps_single rq : calls_keep keeps_single (task_of (T := T) rq).
Proof.
  destruct rq; unfold task_of, create_task, register_task, refresh_task, heartbeat_task,
    authorize_task, beat_task, delete_task; calls_keep_tac;
    first [apply keeps_single_issue|apply keeps_single_revoke
          |apply keeps_single_quiet; [done|simpl; lia]].
Qed.

(** What the state must show for a request to be answered: for a registration, a node with the
    hash of the bootstrap token presented; for a refresh and a heartbeat, a live token of
    the node it speaks for; for a creation, that the code is free; for a deletion, that no
    site and no policy uses the node. *)
Definition entitled (rq : NodeRequest) w (a : NodeAnswer) : Prop :=
  match rq, a with
  | RqRegister request, AnsTokens resp =>
      ∃ n, node (repo w) (resp_node_id resp) = Some n
        ∧ bootstrap_token n = Some (hash_bootstrap_token (reg_bootstrap_token request))
  | RqRefresh request, AnsTokens resp =>
      resp_node_id resp = refresh_node_id request
      ∧ ∃ l, refresh_lease (tokens w) (refresh_req_token request) = Some l
          ∧ lease_node_id l = refresh_node_id request
  | RqHeartbeat access_token request, AnsHeartbeat _ =>
      ∃ l, access_lease (tokens w) access_token = Some l ∧ lease_node_id l = beat_node_id request
  | RqCreate request, AnsCreated _ => node_id_by_code (repo w) (req_node_code request) = None
  | RqDelete u, AnsDeleted _ =>
      bound_site_codes (node_delete_guard (repo w) u) = []
      ∧ failover_policy_count (node_delete_guard (repo w) u) = 0
  | _, _ => False
  end.

(** Every answer of a task is one that [E] allows in a state in which the task made a step, or
    one that [S] allows already. *)
Fixpoint earned {A} (E : World T → A → Prop) (S : A → Prop) (t : Task T A) : Prop :=
  match t with
  | Done r => ∀ a, r = Ok a → S a
  | Step next _ => ∀ w, earned E (λ a, S a ∨ E w a) (next w)
  end.

Lemma earned_mono {A} E (S S' : A → Prop) t : (∀ a, S a → S' a) → earned E S t → earned E S' t.
Proof.
  revert S S'. induction t as [r|next IH effect]; intros S S' HS; simpl; [naive_solver|].
  intros Ht w. eapply IH; [|apply Ht]. naive_solver.
Qed.

(** Through the steps of a task to its answer. *)
Ltac answers :=
  repeat (simpl; match goal with
  | |- ∀ _ : World _, _ => intros ?
  | |- earned _ _ (match ?x with Ok _ => _ | Err _ => _ end) =>
      destruct x eqn:?; [|simpl; by intros ? [=]]
  | |- earned _ _ (task_bind (match ?x with Ok _ => _ | Err _ => _ end) _) =>
      destruct x eqn:?; [|simpl; by intros ? [=]]
  end);
  repeat match goal with
  | H : ok_or _ _ = Ok _ |- _ => apply ok_or_Ok in H
  | H : (if ?b then Ok tt else Err _) = Ok _ |- _ => destruct b eqn:?; [clear H|discriminate H]
  | H : bool_decide _ = true |- _ => apply bool_decide_eq_true in H
  end;
  intros ? [= <-]; simpl in *; simplify_eq; naive_solver.

Lemma task_earned rq : earned (entitled rq) (λ _, False) (task_of (T := T) rq).
Proof.
  destruct rq; unfold task_of, create_task, register_task, refresh_task, heartbeat_task, authorize_task,
    beat_task, delete_task; answers.
Qed.

(** What an answer was earned by is a state of the run. *)
Definition seen_on_the_way {P} (step : P → P → Prop) (p p' : P) (Q : P → Prop) : Prop :=
  ∃ p1, rtc step p p1 ∧ rtc step p1 p' ∧ Q p1.

Lemma pool_earned (rqs : list NodeRequest) w p i rq t :
  let start := (task_of (T := T) <$> rqs, w) in
  rtc pool_step start p → rqs !! i = Some rq → p.1 !! i = Some t →
  earned (entitled rq) (λ a, seen_on_the_way pool_step start p (λ p1, entitled rq p1.2 a)) t.
Proof.
  intros start Hrun. revert p Hrun i rq t.
  refine (rtc_ind_r (λ p, ∀ i rq t, rqs !! i = Some rq → p.1 !! i = Some t →
    earned (entitled rq) (λ a, seen_on_the_way pool_step start p (λ p1, entitled rq p1.2 a)) t) start _ _);
    [|intros p p' Hrun Hstep IH]; intros i rq t Hrq Ht.
  - simpl in Ht. rewrite list_lookup_fmap, Hrq in Ht. injection Ht as <-.
    eapply earned_mono; [|apply task_earned]. done.
  - assert (∀ a, seen_on_the_way pool_step start p (λ p1, entitled rq p1.2 a) →
      seen_on_the_way pool_step start p' (λ p1, entitled rq p1.2 a)) as Hon.
    { intros a (p1 & H1 & H2 & H3). exists p1. split_and!; [done|by eapply rtc_r|done]. }
    pose proof Hstep as Hs. destruct Hs as [j next effect ts wp Hj]. simpl in Ht.
    destruct (decide (i = j)) as [<-|Hne].
    + rewrite list_lookup_insert_eq in Ht by (by eapply lookup_lt_Some). injection Ht as <-.
      specialize (IH i rq _ Hrq Hj wp). eapply earned_mono; [|exact IH].
      intros a [Ha|Ha]; [by apply Hon|]. exists (ts, wp). split_and!; [done|by apply rtc_once|done].
    + rewrite list_lookup_insert_ne in Ht by done. eapply earned_mono; [exact Hon|]. by eapply IH.
Qed.
End EveryOrder.

(** C40: However the requests about nodes overlap on the in-memory stores: at every point of
    every schedule a node has at most one live access token and at most one live refresh
    token, so of all the tokens that registrations and refreshes hand out for it only one
    pair is accepted; and a request that was answered with success was entitled to it at
    some point of that schedule: a registration presented the bootstrap token stored for
    the node it got tokens for, a refresh or a heartbeat a live token of its node, the code
    of a created node was free, a deleted node was used by no site and no policy. *)
Theorem overlapping_requests_single_tokens `{EX : !Extern, EL : !ExternLaws} (rqs : list NodeRequest)
    (w : World MemoryTokenState) p :
  let start := (task_of <$> rqs, w) in
  single_tokens w → rtc pool_step start p →
  single_tokens p.2
  ∧ ∀ i rq a, rqs !! i = Some rq → p.1 !! i = Some (Done (Ok a)) →
      seen_on_the_way pool_step start p (λ p1, entitled rq p1.2 a).
Proof.
  intros start Hw Hrun. split.
  - eapply (pool_keeps keeps_single) in Hrun as [_ HI]; [by apply HI|].
    simpl. apply Forall_fmap, Forall_forall. intros rq _. apply task_keeps_single.
  - intros i rq a Hrq Ha. exact (pool_earned rqs w p i rq _ Hrun Hrq Ha a eq_refl).
Qed.

Section Deletions.
Context {T : Type} `{EX : !Extern, EL : !ExternLaws, NT : !NodeTokenStore T, TL : !TokenLaws T}.
Implicit Types w : World T.

(** Which nodes there are. *)
Definition no_new_nodes w w' : Prop := dom (nodes (repo w')) ⊆ dom (nodes (repo w)).

#[export] Instance no_new_nodes_preorder : PreOrder no_new_nodes.
Proof. split; unfold no_new_nodes; [by intros w|intros w1 w2 w3]; set_solver. Qed.

Definition makes_nodes (rq : NodeRequest) : bool :=
  match rq with RqCreate _ | RqRegister _ => true | _ => false end.

Lemma task_no_new_nodes rq :
  makes_nodes rq = false → calls_keep no_new_nodes (task_of (T := T) rq).
Proof.
  destruct rq; try done; intros _; unfold task_of, refresh_task, heartbeat_task, authorize_task,
    beat_task, delete_task; calls_keep_tac; unfold no_new_nodes; try done.
  - unfold issue_node_tokens, bind, new_v4, utc_now, write_tokens. simpl. by destruct (issue_tokens _ _ _ _ _).
  - simpl. by rewrite dom_alter_L.
  - simpl. unfold delete_node. destruct (nodes _ !! _); simpl; [rewrite dom_delete_L|]; set_solver.
Qed.

(** A deletion is not undone by the refreshes and heartbeats it overlaps with: without
    requests that create or register a node, no schedule adds one. *)
Theorem overlapping_requests_add_no_node rqs w p :
  Forall (λ rq, makes_nodes rq = false) rqs →
  rtc pool_step (task_of (T := T) <$> rqs, w) p → no_new_nodes w p.2.
Proof.
  intros Hrqs Hrun. eapply (pool_keeps no_new_nodes) in Hrun as [_ HI]; [exact HI|].
  simpl. apply Forall_fmap. eapply Forall_impl; [exact Hrqs|]. intros rq. apply task_no_new_nodes.
Qed.
End Deletions.

(** ** What overlapping requests break *)

Module Races.
Abbreviation Mem := MemoryTokenState.

(** The answers of two requests that alternate, and the state they leave. *)
Definition alternate (rq1 rq2 : NodeRequest) (w : World Mem) : list (Task Mem NodeAnswer) * World Mem :=
  run_schedule ([task_of rq1; task_of rq2], w) (mjoin (replicate 12 [0; 1])).
Definition answered (p : list (Task Mem NodeAnswer) * World Mem) : list (option bool) :=
  (λ t, match t with Done r => Some (is_ok r) | Step _ _ => None end) <$> p.1.

(** A bootstrap token is used twice: both registrations check it before either stores
    the node, both are answered with tokens, and those of the first are dead. *)
Definition other_host : NodeRegisterRequest :=
  mkRegister "edge-a" "boot-1001" "intruder.local" None None "0.1.0".
Example bootstrap_token_used_twice :
  let p := alternate (RqRegister demo_register) (RqRegister other_host) world1 in
  answered p = [Some true; Some true]
  ∧ hostname <$> nodes (repo p.2) !! 1000%Z = Some (Some "intruder.local")
  ∧ dom (access (tokens p.2)) = {["node-at-1004"]}.
Proof. split_and!; vm_compute; reflexivity. Qed.

(** Two nodes with one code: both requests find it free. *)
Example node_code_taken_twice :
  let p := alternate (RqCreate demo_create) (RqCreate demo_create) world0 in
  answered p = [Some true; Some true]
  ∧ (λ n, node_code (identity n)) <$> (map_to_list (nodes (repo p.2))).*2 = ["edge-a"; "edge-a"]
  ∧ size (node_ids_by_code (repo p.2)) = 1.
Proof. split_and!; vm_compute; reflexivity. Qed.

(** A deleted node comes back: the registration read it before, issues tokens and stores
    it after the deletion has been answered. *)
Example deleted_node_returns :
  let p := run_schedule ([task_of (RqRegister demo_register); task_of (RqDelete 1000)], world1)
             (replicate 6 0 ++ replicate 7 1 ++ replicate 3 0) in
  answered p = [Some true; Some true]
  ∧ is_Some (nodes (repo p.2) !! 1000%Z) ∧ dom (access (tokens p.2)) = {["node-at-1002"]}.
Proof. split_and!; vm_compute; [reflexivity|by eexists|reflexivity]. Qed.
End Races.

(** ** Witnesses *)

Lemma single_tokens_world1 : single_tokens world1.
Proof.
  assert (keeps_single world0 world1) as H by (apply keeps_single_quiet; [reflexivity|vm_compute; lia]).
  apply H, single_tokens_new.
Qed.

Lemma overlapping_requests_single_tokens_witness :
  let rqs := [RqRegister demo_register; RqRegister Races.other_host] in
  let p := Races.alternate (RqRegister demo_register) (RqRegister Races.other_host) world1 in
  single_tokens p.2
  ∧ ∃ p1, rtc pool_step (task_of <$> rqs, world1) p1 ∧ rtc pool_step p1 p
      ∧ ∃ n, node (repo p1.2) 1000 = Some n ∧ bootstrap_token n = Some (hash_bootstrap_token "boot-1001").
Proof.
  intros rqs p.
  destruct (overlapping_requests_single_tokens rqs world1 p single_tokens_world1 (run_schedule_steps _ _))
    as [Hsingle Hseen].
  split; [exact Hsingle|].
  assert (p.1 !! 1 = Some (Done (Ok (AnsTokens (mkTokensResponse 1000 "node-at-1004" "node-rt-1005"
    (resp_expires_at (tokens_response 1000 (mkIssued "" "" (1 + hours 24)))))))))
    as Hans by (vm_compute; reflexivity).
  exact (Hseen 1 _ _ eq_refl Hans).
Defined.

Lemma overlapping_requests_add_no_node_witness :
  no_new_nodes world2
    (Races.alternate (RqDelete 1000) (RqRefresh (mkRefresh 1000 "node-rt-1003")) world2).2.
Proof.
  apply (overlapping_requests_add_no_node [RqDelete 1000; RqRefresh (mkRefresh 1000 "node-rt-1003")] world2).
  - apply (bool_decide_unpack _). vm_compute. exact I.
  - apply run_schedule_steps.
Defined.
