(* ===== verification/TestsService.v ===== *)
(** * The tests of the service (apps/hub-api/src/service.rs, mod tests)

    The repository's own tests, translated call by call: a test is a computation of
    the hub that fails where the Rust test would panic, and [passes] runs it on a fresh
    service.  They check the model against what its authors expect of the code, in the
    environment of [demo_extern]. *)

From stdpp Require Import prelude strings pretty gmap.
From S2P Require Import Prelude RustStr Json Extern AppError Domain ConfigCompiler Records Store TokenStore Hub HubAdmin HubNodes HubOps HubReleases HubSites HubCerts HubStart.

(** ** Tests *)

Abbreviation Test := (Hub MemoryTokenState unit).

(** [assert!], [unwrap] on an option and [unwrap_err] on a result. *)
Definition assert (P : Prop) `{!Decision P} : Test :=
  require (bool_decide P) (internal "assertion failed").
Definition unwrap {A} (o : option A) : Hub MemoryTokenState A :=
  get_or o (internal "called unwrap on None").
Definition unwrap_err {A} (m : Hub MemoryTokenState A) : Hub MemoryTokenState AppError := λ w,
  match m w with
  | (Ok _, w') => (Err (internal "called unwrap_err on Ok"), w')
  | (Err e, w') => (Ok e, w')
  end.

(** [value[key]] and [value[index]] of [serde_json], null when there is no such entry. *)
Definition at_key (v : Value) (key : string) : Value := default VNull (get v key).
Definition at_index (v : Value) (i : nat) : Value :=
  default VNull (as_array v ≫= λ l, l !! i).

(** A test on the service with this horizon of renewals. *)
Definition passes_with (before_days : Z) (t : Test) : bool :=
  is_ok (t (new_memory before_days)).1.
Definition passes : Test → bool := passes_with CERT_AUTO_RENEW_BEFORE_DAYS.

(** ** The tests *)

Section Tests.
Context `{EX : !Extern}.
Local Abbreviation Hub := (Hub MemoryTokenState).

Definition sample_certificate_order (order_status : string) (error_message : option string) :
    Hub CertificateOrderRecord :=
  let! order_id := new_v4 in
  let! site_id := new_v4 in
  let! certificate_id := new_v4 in
  let! zone_id := new_v4 in
  let! created_at := utc_now in
  ret {|
    order_id := order_id;
    order_site_id := Some site_id;
    order_certificate_id := Some certificate_id;
    order_zone_id := zone_id;
    order_type := "issue";
    acme_provider := "letsencrypt";
    challenge_type := "dns-01";
    challenge_payload := jobj [
      ("record_name", VString "_acme-challenge.demo.example.com");
      ("record_value", VString "token-value");
      ("challenge_url", VString "https://example.invalid/challenge")];
    order_status := order_status;
    error_message := error_message;
    certificate_expires_at := None;
    order_created_at := created_at;
  |}.

Definition sample_node_record (code name : string) (status : NodeStatus) : Hub NodeRecord :=
  let! id := new_v4 in
  let! now := utc_now in
  ret {|
    identity := mkNodeIdentity id code name "cn-east" "lab" status;
    runtime := mkNodeRuntimeState None (Some now) 0 100;
    labels := jobj [];
    hostname := Some (code +:+ ".local");
    public_ip := None;
    private_ip := None;
    bootstrap_token := None;
    pingora_version := Some "0.5.0";
    agent_version := Some "0.1.0";
  |}.

(** [order.certificate_expires_at = Some(t)]. *)
Definition expiring_at (t : DateTime) (r : CertificateOrderRecord) : CertificateOrderRecord :=
  mkOrder (order_id r) (order_site_id r) (order_certificate_id r) (order_zone_id r) (order_type r)
    (acme_provider r) (challenge_type r) (challenge_payload r) (order_status r) (error_message r)
    (Some t) (order_created_at r).

(** [MemoryRepository::set_site_certificates]. *)
Definition set_site_certificates (site_id : Uuid) (certificates : list CertificateRef) : Test :=
  write (λ s, set_site_certificate_refs (<[site_id := certificates]> (site_certificate_refs s)) s).

Definition site_overview_and_detail_include_binding_node_names : Test :=
  let! primary := sample_node_record "edge-a" "Edge A" Online in
  let! standby := sample_node_record "edge-b" "Edge B" Suspect in
  do! write (save_node primary) in
  do! write (save_node standby) in
  let! sid := new_v4 in
  do! write (save_site {|
    site_id := sid;
    site_code := "friendly-site";
    site_name := "Friendly Site";
    site_domain := "friendly.example.com";
    site_listen_port := 443;
    site_protocol := Https;
    site_tls_enabled := true;
    site_status := Draft;
    site_version := 1;
    site_config := jobj [("upstreams", VArray [])];
    bindings := [mkBinding (id (identity primary)) "primary" 10;
                 mkBinding (id (identity standby)) "standby" 20];
  |}) in
  let! overviews := list_site_overviews in
  let! overview := unwrap (find_where (λ item, so_site_id item = sid) overviews) in
  do! assert (so_primary_node_id overview = Some (id (identity primary))) in
  do! assert (so_primary_node_code overview = Some "edge-a") in
  do! assert (so_primary_node_name overview = Some "Edge A") in
  do! assert (so_primary_node_status overview = Some "online") in
  let! detail := site_detail sid in
  let! standby_binding :=
    unwrap (find_where (λ b, item_node_id b = id (identity standby)) (sd_bindings detail)) in
  do! assert (item_node_code standby_binding = Some "edge-b") in
  do! assert (item_node_name standby_binding = Some "Edge B") in
  assert (item_node_status standby_binding = Some "suspect").

Definition retry_certificate_order_requeues_failed_orders : Test :=
  let! order := sample_certificate_order "dns_challenge_failed" (Some "boom") in
  do! write (save_certificate_order order) in
  let! response := retry_certificate_order (order_id order) in
  do! assert (oo_order_status response = "pending_dns_challenge") in
  do! assert (length <$> as_object (oo_challenge_payload response) = Some 0) in
  assert (oo_error_message response = None).

Definition reset_certificate_order_rejects_issued_orders : Test :=
  let! order := sample_certificate_order "issued" None in
  do! write (save_certificate_order order) in
  let! error := unwrap_err (reset_certificate_order (order_id order)) in
  assert (AppError.status error = 409%Z).

Definition certificate_order_overview_includes_next_renew_time : Test :=
  let! now := utc_now in
  let expires_at := (now + days 90)%Z in
  let! order := sample_certificate_order "issued" None in
  let overview := order_overview (expiring_at expires_at order)
                    CERT_AUTO_RENEW_BEFORE_DAYS in
  do! assert (oo_certificate_expires_at overview = Some expires_at) in
  assert (oo_next_renew_at overview = Some (expires_at - days CERT_AUTO_RENEW_BEFORE_DAYS)%Z).

(** On a service made with fourteen days. *)
Definition certificate_order_overview_uses_service_configured_renew_before_days : Test :=
  let! now := utc_now in
  let expires_at := (now + days 90)%Z in
  let! order := sample_certificate_order "issued" None in
  let! overview := certificate_order_overview (expiring_at expires_at order) in
  assert (oo_next_renew_at overview = Some (expires_at - days 14)%Z).

(** The zone both order tests save. *)
Definition example_zone : Hub DnsZoneRecord :=
  let! zone_id := new_v4 in
  let! provider_id := new_v4 in
  let! created_at := utc_now in
  ret (mkDnsZone zone_id provider_id "example.com" "zone-example" "active" created_at).

Definition create_certificate_order_supports_standalone_wildcard_domain : Test :=
  let! zone := example_zone in
  do! write (save_dns_zone zone) in
  let! response := create_certificate_order
    (mkCreateOrder None (Some "*.example.com") [] "mock" "dns-01" (zone_id zone)) in
  let! found := read (λ s, certificate_order s (or_order_id response)) in
  let! order := unwrap found in
  do! assert (order_site_id order = None) in
  do! assert (as_str (at_key (challenge_payload order) "identifier") = Some "*.example.com") in
  assert (as_str (at_key (challenge_payload order) "record_name")
          = Some "_acme-challenge.example.com").

Definition create_certificate_order_rejects_multi_san_until_worker_supports_it : Test :=
  let! zone := example_zone in
  do! write (save_dns_zone zone) in
  let! error := unwrap_err (create_certificate_order
    (mkCreateOrder None (Some "api.example.com") ["www.example.com"] "letsencrypt" "dns-01"
       (zone_id zone))) in
  do! assert (AppError.status error = 400%Z) in
  assert (contains "single dns identifier" (message error) = true).

Definition renew_site_certificate_reuses_existing_certificate_binding : Test :=
  let! sid := new_v4 in
  let site := {|
    site_id := sid;
    site_code := "tls-site";
    site_name := "TLS Site";
    site_domain := "www.example.com";
    site_listen_port := 443;
    site_protocol := Https;
    site_tls_enabled := true;
    site_status := Published;
    site_version := 1;
    site_config := jobj [];
    bindings := [];
  |} in
  let! zone := example_zone in
  let! certificate_id := new_v4 in
  do! write (save_site site) in
  do! write (save_dns_zone zone) in
  do! set_site_certificates sid
        [mkCertificateRef certificate_id 3 (site_domain site) [site_domain site] None "cert" "key" None] in
  let! response := renew_site_certificate sid in
  let! found := read (λ s, certificate_order s (rn_order_id response)) in
  let! order := unwrap found in
  do! assert (rn_certificate_id response = Some certificate_id) in
  do! assert (order_site_id order = Some sid) in
  do! assert (order_certificate_id order = Some certificate_id) in
  assert (order_type order = "renew").

Definition change_admin_password_updates_credentials_and_revokes_other_sessions : Test :=
  let login := mkLogin "admin" "Admin#2026!" in
  do! ensure_admin_user "admin" "平台管理员" "Admin#2026!" in
  let! (_, first_session_token) := login_admin login in
  let! (_, second_session_token) := login_admin login in
  let! response := change_admin_password first_session_token
    (mkChangePassword "Admin#2026!" "Admin#2026!Next") in
  do! assert (changed response = true) in
  do! current_admin first_session_token in
  let! revoked_error := unwrap_err (current_admin second_session_token) in
  do! assert (AppError.status revoked_error = 401%Z) in
  let! old_password_error := unwrap_err (login_admin login) in
  do! assert (AppError.status old_password_error = 401%Z) in
  do! login_admin (mkLogin "admin" "Admin#2026!Next") in
  ret tt.

(** The nodes the release tests write out. *)
Definition lab_node (code name : string) (labels : Value) (hostname : option string) :
    Hub NodeRecord :=
  let! id := new_v4 in
  let! now := utc_now in
  ret {|
    identity := mkNodeIdentity id code name "cn-east" "lab" Online;
    runtime := mkNodeRuntimeState None (Some now) 0 100;
    labels := labels;
    hostname := hostname;
    public_ip := None;
    private_ip := None;
    bootstrap_token := None;
    pingora_version := Some "0.5.0";
    agent_version := Some "0.1.0";
  |}.

(** A draft of an https site on this node. *)
Definition https_site (code name domain : string) (node : NodeRecord) : Hub SiteRecord :=
  let! sid := new_v4 in
  ret {|
    site_id := sid;
    site_code := code;
    site_name := name;
    site_domain := domain;
    site_listen_port := 443;
    site_protocol := Https;
    site_tls_enabled := true;
    site_status := Draft;
    site_version := 1;
    site_config := jobj [("upstreams", VArray [])];
    bindings := [mkBinding (id (identity node)) "primary" 10];
  |}.

(** Lines of a PEM text. *)
Definition newline : string := String (Ascii.ascii_of_nat 10) "".
Definition pem (kind body : string) : string :=
  "-----BEGIN " +:+ kind +:+ "-----" +:+ newline +:+ body +:+ newline +:+ "-----END " +:+ kind
  +:+ "-----".

Definition create_release_includes_default_site_certificates : Test :=
  let! node := lab_node "cert-node" "Certificate Node" (jobj [("role", VString "edge")]) None in
  do! write (save_node node) in
  let! site := https_site "cert-site" "Certificate Site" "cert.example.com" node in
  do! write (save_site site) in
  let! certificate_id := new_v4 in
  let! now := utc_now in
  do! set_site_certificates (site_id site)
        [mkCertificateRef certificate_id 3 "cert.example.com" ["cert.example.com"]
           (Some (now + days 60)%Z) (pem "CERTIFICATE" "mock") (pem "ENCRYPTED PRIVATE KEY" "mock")
           (Some (pem "CERTIFICATE" "chain"))] in
  let! release := create_release
    (mkCreateRelease "site" (site_id site) "publish" "certificate publish") in
  let! found := read (λ s, Store.release s (saved_release_id release)) in
  let! saved_release := unwrap found in
  let certificates := bundle_certificates (bundle saved_release) in
  do! assert (length certificates = 1) in
  let! first := unwrap (head certificates) in
  do! assert (ref_common_name first = "cert.example.com") in
  assert (contains "BEGIN CERTIFICATE" (ref_cert_pem first) = true).

Definition create_release_emits_cleanup_release_for_detached_nodes : Test :=
  let! old_node := lab_node "old-node" "Old Node" (jobj []) (Some "old-node.local") in
  let old := id (identity old_node) in
  do! write (save_node old_node) in
  let! new_node := lab_node "new-node" "New Node" (jobj []) (Some "new-node.local") in
  let new := id (identity new_node) in
  do! write (save_node new_node) in
  let! site := https_site "cleanup-site" "Cleanup Site" "cleanup.example.com" old_node in
  do! write (save_site site) in
  let! first_release := create_release
    (mkCreateRelease "site" (site_id site) "publish" "initial publish") in
  do! assert (saved_target_node_ids first_release = [old]) in
  do! bind_site_nodes (site_id site) [mkBindingItem new "primary" 10 None None None] in
  let! second_release := create_release
    (mkCreateRelease "site" (site_id site) "publish" "move to new node") in
  do! assert (saved_target_node_ids second_release = [new]) in
  let! new_node_latest := latest_release_for_node new in
  do! assert (lr_release_id new_node_latest = saved_release_id second_release) in
  let! old_node_latest := latest_release_for_node old in
  do! assert (lr_release_id old_node_latest ≠ saved_release_id first_release) in
  do! assert (lr_release_id old_node_latest ≠ saved_release_id second_release) in
  let! cleanup_package := config_package_for_node old (lr_release_version old_node_latest) in
  do! assert (length <$> (get (cp_manifest cleanup_package) "sites" ≫= as_array) = Some 0) in
  assert (as_str (at_index (at_key (at_key (cp_rendered_config cleanup_package) "cleanup")
                              "site_codes") 0) = Some "cleanup-site").

Definition create_node_hashes_bootstrap_token_before_persisting : Test :=
  let! created := create_node (mkCreateNode "hash-node" "Hash Node" "cn-east" "lab" (jobj [])) in
  let! found := read (λ s, node s (created_node_id created)) in
  let! stored := unwrap found in
  do! assert (bootstrap_token stored ≠ Some (created_bootstrap_token created)) in
  do! register_node (mkRegister "hash-node" (created_bootstrap_token created) "hash-node.local"
                       None (Some "10.0.0.8") "0.1.0") in
  let! found := read (λ s, node s (created_node_id created)) in
  let! stored := unwrap found in
  do! assert (bootstrap_token stored = None) in
  assert (hostname stored = Some "hash-node.local").

Definition heartbeat_keeps_maintenance_nodes_in_maintenance : Test :=
  let! nid := new_v4 in
  do! write (save_node {|
    identity := mkNodeIdentity nid "maintenance-node" "Maintenance Node" "cn-east" "lab" Maintenance;
    runtime := mkNodeRuntimeState None None 0 100;
    labels := jobj [];
    hostname := Some "maintenance-node.local";
    public_ip := None;
    private_ip := None;
    bootstrap_token := None;
    pingora_version := None;
    agent_version := None;
  |}) in
  let! now := utc_now in
  do! write (record_heartbeat
        (mkHeartbeatRecord nid "0.5.0" "0.1.0" (Some "rel-maint-001") 0 0 0 0 88 now)) in
  let! found := read (λ s, node s nid) in
  let! stored := unwrap found in
  do! assert (status (identity stored) = Maintenance) in
  do! assert (active_config_version (runtime stored) = Some "rel-maint-001") in
  assert (health_score (runtime stored) = 88%Z).

Definition node_operation_flow_dispatches_and_records_result : Test :=
  let! node := lab_node "ops-node" "Ops Node" (jobj []) None in
  let nid := id (identity node) in
  do! write (save_node node) in
  let! template := create_operation_template (mkTemplateRequest "vip-bind" "vip_bind"
    "ip addr add {{vip}} dev {{iface}}" ["vip"; "iface"] 30 "root" false) in
  let! operation := create_node_operation nid
    (mkOperationRequest (to_template_id template)
       (jobj [("vip", VString "10.10.10.10/32"); ("iface", VString "eth1")]) None) "admin:test" in
  do! assert (exec_status (oo_operation operation) = "approved") in
  let! next := hub_claim_next_node_operation nid in
  let! claimed := unwrap next in
  do! assert (contains "10.10.10.10/32" (rendered_command claimed) = true) in
  do! assert (contains "eth1" (rendered_command claimed) = true) in
  let! finished_at := utc_now in
  let! result := report_node_operation_result (po_operation_id claimed)
    (mkResultRequest nid "success" 0 "vip bound" "" finished_at) in
  do! assert (rs_exec_status result = "success") in
  let! listed := hub_list_node_operations nid in
  do! assert (length listed = 1) in
  let! first := unwrap (head listed) in
  do! assert (exec_status (oo_operation first) = "success") in
  assert (stdout_log (oo_operation first) = Some "vip bound").
End Tests.

(** ** Their results *)

Example service_tests_pass :
  forallb passes
    [site_overview_and_detail_include_binding_node_names;
     retry_certificate_order_requeues_failed_orders;
     reset_certificate_order_rejects_issued_orders;
     certificate_order_overview_includes_next_renew_time;
     create_certificate_order_supports_standalone_wildcard_domain;
     create_certificate_order_rejects_multi_san_until_worker_supports_it;
     renew_site_certificate_reuses_existing_certificate_binding;
     change_admin_password_updates_credentials_and_revokes_other_sessions;
     create_release_includes_default_site_certificates;
     create_release_emits_cleanup_release_for_detached_nodes;
     create_node_hashes_bootstrap_token_before_persisting;
     heartbeat_keeps_maintenance_nodes_in_maintenance;
     node_operation_flow_dispatches_and_records_result]
  && passes_with 14 certificate_order_overview_uses_service_configured_renew_before_days
  = true.
Proof. vm_compute. reflexivity. Qed.
