(* ===== verification/TestsHttp.v ===== *)
(** * The tests of the HTTP interface (apps/hub-api/src/main.rs, mod tests)

    The requests of the repository's tests sent to [serve] through the route table.
    A body is the value it decodes to, as everywhere in [Http]; a test fails where the
    Rust test would panic.  The last test of the module needs a running database and
    is marked [ignore] in the source; it is not among them. *)

From stdpp Require Import prelude strings pretty gmap.
From Stdlib Require Import Ascii.
From S2P Require Import Prelude RustStr Json Extern AppError Domain Records Store TokenStore Hub HubAdmin HubNodes HubOps HubReleases HubSites HubDns HubCerts HubStart Http TestsService.

(** ** Sending a request *)

(** A path matches a pattern segment by segment; a segment in braces matches any. *)
Definition is_capture (segment : string) : bool := starts_with "{" segment.
Fixpoint match_path (pattern path : list string) : option (list string) :=
  match pattern, path with
  | [], [] => Some []
  | p :: pattern', s :: path' =>
      if is_capture p then cons s <$> match_path pattern' path'
      else if decide (p = s) then match_path pattern' path' else None
  | _, _ => None
  end.

(** The endpoint of a request and what its path captures; otherwise the status axum
    answers with. *)
Fixpoint find_route (method : Method) (path : list string)
    (routes : list (string * list (Method * Endpoint))) : Result (Endpoint * list string) Z :=
  match routes with
  | [] => Err 404%Z
  | (pattern, methods) :: routes' =>
      match match_path (split "/" pattern) path with
      | None => find_route method path routes'
      | Some captures =>
          match find_where (λ e, e.1 = method) methods with
          | Some e => Ok (e.2, captures)
          | None => Err 405%Z
          end
      end
  end.

Record HttpRequest := mkHttpRequest {
  hr_method : Method;
  hr_uri : string;
  hr_headers : HeaderMap;
  hr_body : RequestBody;
}.

Section Client.
Context `{EX : !Extern, DX : !DnsExtern, HX : !HttpExtern}.
Local Abbreviation Hub := (Hub MemoryTokenState).

(** [app.oneshot(request)]; the only query the program knows is [node_id]. *)
Definition oneshot (request : HttpRequest) : Hub Response := λ w,
  let '(path, query) :=
    match split_once "?" (hr_uri request) with
    | Some (path, query) => (path, strip_prefix "node_id=" query)
    | None => (hr_uri request, None)
    end in
  match find_route (hr_method request) (split "/" path) build_router with
  | Err status => (Ok (mkResponse status [] BEmpty), w)
  | Ok (endpoint, captures) =>
      let '(r, w') := serve default_hub_config endpoint
                        (mkRequest (hr_headers request) captures query (hr_body request)) w in
      (Ok r, w')
  end.

(** A request without a body has an empty one, which no handler's type decodes from. *)
Definition no_body : RequestBody := Rejected 415.

Definition json_request (method : Method) (uri : string) (body : RequestBody) : HttpRequest :=
  mkHttpRequest method uri (mkHeaders None None) body.
Definition cookie_json_request (method : Method) (uri cookie : string) (body : RequestBody) :
    HttpRequest :=
  mkHttpRequest method uri (mkHeaders None (Some cookie)) body.
Definition auth_json_request (method : Method) (uri token : string) (body : RequestBody) :
    HttpRequest :=
  mkHttpRequest method uri (mkHeaders (Some ("Bearer " +:+ token)) None) body.
Definition empty_request (method : Method) (uri : string) : HttpRequest :=
  mkHttpRequest method uri (mkHeaders None None) no_body.
Definition cookie_empty_request (method : Method) (uri cookie : string) : HttpRequest :=
  mkHttpRequest method uri (mkHeaders None (Some cookie)) no_body.
Definition auth_empty_request (method : Method) (uri token : string) : HttpRequest :=
  mkHttpRequest method uri (mkHeaders (Some ("Bearer " +:+ token)) None) no_body.

(** [response_json(response)["data"]], of the shape the test expects. *)
Definition response_data {A} (shape : Payload → option A) (response : Response) : Hub A :=
  unwrap (match resp_body response with BJson r => shape (api_data r) | _ => None end).

(** A request whose answer must be 200, and the data of the answer. *)
Definition send_ok (request : HttpRequest) : Hub Response :=
  let! response := oneshot request in
  do! assert (resp_status response = 200%Z) in
  ret response.
Definition send_for {A} (shape : Payload → option A) (request : HttpRequest) : Hub A :=
  let! response := send_ok request in response_data shape response.

(** A request that must be refused with this status. *)
Definition send_refused (status : Z) (request : HttpRequest) : Hub Response :=
  let! response := oneshot request in
  do! assert (resp_status response = status) in
  ret response.

Definition created_node (p : Payload) := match p with PCreateNodeResponse d => Some d | _ => None end.
Definition node_list (p : Payload) := match p with PNodeOverviews d => Some d | _ => None end.
Definition node_shown (p : Payload) := match p with PNodeDetail d => Some d | _ => None end.
Definition deleted_node (p : Payload) := match p with PDeleteNodeResponse d => Some d | _ => None end.
Definition node_tokens (p : Payload) := match p with PNodeTokensResponse d => Some d | _ => None end.
Definition site_answer (p : Payload) := match p with PSiteResponse d => Some d | _ => None end.
Definition site_shown (p : Payload) := match p with PSiteDetail d => Some d | _ => None end.
Definition switch_answer (p : Payload) := match p with PSwitchSitePrimaryResponse d => Some d | _ => None end.
Definition created_release (p : Payload) := match p with PSavedRelease d => Some d | _ => None end.
Definition release_list (p : Payload) := match p with PReleaseOverviews d => Some d | _ => None end.
Definition package_answer (p : Payload) := match p with PConfigPackageResponse d => Some d | _ => None end.
Definition created_provider (p : Payload) := match p with PCreateDnsProviderResponse d => Some d | _ => None end.
Definition synced_zones (p : Payload) := match p with PSyncDnsZonesResponse d => Some d | _ => None end.
Definition zone_list (p : Payload) := match p with PDnsZoneOverviews d => Some d | _ => None end.
Definition created_order (p : Payload) := match p with PCreateCertificateOrderResponse d => Some d | _ => None end.
Definition order_list (p : Payload) := match p with PCertificateOrderOverviews d => Some d | _ => None end.
Definition renewed_site (p : Payload) := match p with PRenewSiteCertificateResponse d => Some d | _ => None end.
Definition me_answer (p : Payload) := match p with PAdminMeResponse d => Some d | _ => None end.
Definition password_answer (p : Payload) := match p with PChangeAdminPasswordResponse d => Some d | _ => None end.

(** ** The application under test *)

Definition build_test_app : Test :=
  do! ensure_admin_user "admin" "平台管理员" "Admin#2026!" in ret tt.

Definition header (name : string) (response : Response) : option string :=
  snd <$> find_where (λ h, h.1 = name) (resp_headers response).

Definition admin_session_cookie : Hub string :=
  let! response := send_ok (json_request POST "/api/admin/auth/login"
    (JAdminLoginRequest (mkLogin "admin" "Admin#2026!"))) in
  unwrap ((header "set-cookie" response ≫= header_to_str) ≫= λ value, head (split ";" value)).

(** ** The tests *)

Definition admin_auth_required_for_console_and_api : Test :=
  do! build_test_app in
  let! console := send_refused 303 (empty_request GET "/") in
  do! assert (header "location" console = Some "/login") in
  do! send_refused 401 (empty_request GET "/api/admin/nodes") in
  let! cookie := admin_session_cookie in
  let! me := send_for me_answer (cookie_empty_request GET "/api/admin/auth/me" cookie) in
  assert (info_username (me_session me) = "admin").

Definition admin_can_change_password_and_old_password_stops_working : Test :=
  do! build_test_app in
  let! cookie := admin_session_cookie in
  let! change := send_for password_answer
    (cookie_json_request POST "/api/admin/auth/change-password" cookie
       (JChangeAdminPasswordRequest (mkChangePassword "Admin#2026!" "Admin#2026!Next"))) in
  do! assert (changed change = true) in
  do! assert (changed_username change = "admin") in
  do! send_ok (cookie_empty_request GET "/api/admin/auth/me" cookie) in
  do! send_refused 401 (json_request POST "/api/admin/auth/login"
        (JAdminLoginRequest (mkLogin "admin" "Admin#2026!"))) in
  do! send_ok (json_request POST "/api/admin/auth/login"
        (JAdminLoginRequest (mkLogin "admin" "Admin#2026!Next"))) in
  ret tt.

(** *** Nodes and sites the tests make *)

Definition edge_labels : Value := jobj [("role", VString "edge")].

(** [POST /api/admin/nodes] with these fields. *)
Definition post_node (cookie node_code name idc : string) (labels : Value) : Hub CreateNodeResponse :=
  send_for created_node (cookie_json_request POST "/api/admin/nodes" cookie
    (JCreateNodeRequest (mkCreateNode node_code name "cn-east" idc labels))).

(** [POST /api/node/register] with the token the node was made with. *)
Definition post_register (node_code : string) (created : CreateNodeResponse)
    (hostname public_ip private_ip agent_version : string) : Hub NodeTokensResponse :=
  send_for node_tokens (json_request POST "/api/node/register"
    (JNodeRegisterRequest (mkRegister node_code (created_bootstrap_token created) hostname
       (Some public_ip) (Some private_ip) agent_version))).

(** [POST /api/admin/sites]. *)
Definition post_site (cookie : string) (site : CreateSiteRequest) : Hub SiteResponse :=
  send_for site_answer (cookie_json_request POST "/api/admin/sites" cookie (JCreateSiteRequest site)).
Definition tls_site (code name domain : string) (config : Value) : CreateSiteRequest :=
  mkCreateSite (Some code) name domain 443 "https" true config.
Definition no_upstreams : Value := jobj [("upstreams", VArray [])].

(** [/api/admin/sites/{site_id}] followed by a suffix. *)
Definition site_uri (site_id : Uuid) (suffix : string) : string :=
  "/api/admin/sites/" +:+ uuid_to_string site_id +:+ suffix.
Definition node_uri (node_id : Uuid) : string := "/api/admin/nodes/" +:+ uuid_to_string node_id.
Definition post_bindings (cookie : string) (site_id : Uuid) (items : list SiteBindingItem) : Hub Response :=
  send_ok (cookie_json_request POST (site_uri site_id "/bindings") cookie
    (JCreateSiteBindingsRequest items)).
Definition item (node_id : Uuid) (role : string) (priority : Z) : SiteBindingItem :=
  mkBindingItem node_id role priority None None None.

(** [POST /api/admin/releases] for a site. *)
Definition post_release (cookie : string) (site_id : Uuid) (reason : string) : Hub SavedRelease :=
  send_for created_release (cookie_json_request POST "/api/admin/releases" cookie
    (JCreateReleaseRequest (mkCreateRelease "site" site_id "publish" reason))).
Definition get_package (token version : string) (node_id : Uuid) : Hub ConfigPackageResponse :=
  send_for package_answer (auth_empty_request GET
    ("/api/node/config/package/" +:+ version +:+ "?node_id=" +:+ uuid_to_string node_id) token).

(** The fields of [rendered_config] and of lists in it. *)
Definition rendered (package : ConfigPackageResponse) (list : string) (i : nat) (field : string) :
    Value :=
  at_key (at_index (at_key (cp_rendered_config package) list) i) field.

(** *** The flow of a node and a site from creation to acknowledgement *)

Definition strings (l : list string) : Value := VArray (VString <$> l).
Definition cache_rule (name : string) (extensions : list string) (expires : Z) (control : string) :
    Value :=
  jobj [("name", VString name); ("match_extensions", strings extensions);
        ("expires_seconds", jnat expires); ("cache_control", VString control)].
Definition weighted (address : string) (weight : Z) : Value :=
  jobj [("address", VString address); ("weight", jnat weight); ("active", VBool true)].

Definition portal_config : Value := jobj [
  ("upstreams", VArray [jobj [("name", VString "portal-origin");
                              ("endpoints", strings ["10.0.1.10:8443"; "10.0.1.11:8443"])]]);
  ("cache_rules", VArray [
     cache_rule "images" ["jpg"; "jpeg"; "png"; "webp"] 2592000 "public, max-age=2592000, immutable";
     cache_rule "css-js" ["css"; "js"] 604800 "public, max-age=604800, immutable"])].
Definition portal_config_v2 : Value := jobj [
  ("upstreams", VArray [jobj [("name", VString "portal-origin");
                              ("balance_method", VString "least_connections");
                              ("endpoints", VArray [weighted "10.0.2.10:8443" 80;
                                                    weighted "10.0.2.11:8443" 20])]]);
  ("cache_rules", VArray [
     cache_rule "images" ["jpg"; "jpeg"; "png"; "svg"; "webp"] 2592000
       "public, max-age=2592000, immutable";
     cache_rule "css-js" ["css"; "js"; "mjs"; "map"] 604800 "public, max-age=604800, immutable"])].

(** The bits of the 32-bit floats 1.0, 2.0 and 3.0. *)
Definition f32_1 : F32 := 1065353216.
Definition f32_2 : F32 := 1073741824.
Definition f32_3 : F32 := 1077936128.
Definition idle_heartbeat (node_id : Uuid) : RequestBody :=
  JNodeHeartbeatRequest (mkHeartbeat node_id "0.5.0" "0.1.0" None 0 f32_1 f32_2 f32_3 99).

(** The node registers, renews its tokens and reports. *)
Definition p0_node (cookie : string) : Hub (Uuid * string) :=
  let! created := post_node cookie "cn-sh-01" "上海入口一号" "sh-a" edge_labels in
  let node_id := created_node_id created in
  let! registered := post_register "cn-sh-01" created "edge-01" "1.1.1.1" "10.0.0.10" "0.1.0" in
  let! refreshed := send_for node_tokens (json_request POST "/api/node/auth/refresh"
    (JNodeRefreshRequest (mkRefresh node_id (resp_refresh_token registered)))) in
  let access_token := resp_access_token refreshed in
  do! send_ok (auth_json_request POST "/api/node/heartbeat" access_token (idle_heartbeat node_id)) in
  ret (node_id, access_token).

(** A site on the node, and its second version. *)
Definition p0_site (cookie : string) (node_id : Uuid) : Hub Uuid :=
  let! site := post_site cookie
    (tls_site "portal-prod" "portal-prod" "portal.example.com" portal_config) in
  let site_id := sr_site_id site in
  do! post_bindings cookie site_id [item node_id "primary" 10] in
  let! updated := send_for site_answer (cookie_json_request PUT (site_uri site_id "") cookie
    (JUpdateSiteRequest (mkUpdateSite "portal-prod-v2" "portal.example.com" 443 "https" true
       portal_config_v2))) in
  do! assert (sr_version updated = 2%Z) in
  ret site_id.

(** The release of the site and the package the node downloads. *)
Definition p0_release (cookie access_token : string) (node_id site_id : Uuid) : Hub SavedRelease :=
  let! release := post_release cookie site_id "initial publish" in
  let version := saved_release_version release in
  do! send_ok (auth_empty_request GET
        ("/api/node/config/releases/latest?node_id=" +:+ uuid_to_string node_id) access_token) in
  let! package := get_package access_token version node_id in
  do! assert (cp_release_version package = version) in
  do! assert (as_str (rendered package "cache_rules" 0 "name") = Some "images") in
  do! assert (as_str (rendered package "cache_rules" 1 "name") = Some "css-js") in
  do! assert (as_str (rendered package "upstreams" 0 "balance_method") = Some "least_connections") in
  let endpoint i := at_key (at_index (rendered package "upstreams" 0 "endpoints") i) "address" in
  do! assert (as_str (endpoint 0) = Some "10.0.2.10:8443") in
  do! assert (as_str (endpoint 1) = Some "10.0.2.11:8443") in
  do! assert (as_str (rendered package "routes" 0 "path") = Some "/") in
  do! assert (as_str (rendered package "routes" 0 "upstream") = Some "portal-origin") in
  let site0 := at_index (at_key (cp_manifest package) "sites") 0 in
  do! assert (as_u64 (at_key (at_index (at_key site0 "cache_rules") 0) "expires_seconds")
              = Some 2592000%Z) in
  ret release.

(** The acknowledgement and what the administrator sees of it. *)
Definition p0_ack (cookie access_token : string) (node_id : Uuid) (release : SavedRelease) : Test :=
  let version := saved_release_version release in
  do! send_ok (auth_json_request POST
        ("/api/node/releases/" +:+ uuid_to_string (saved_release_id release) +:+ "/ack") access_token
        (JReleaseAckRequest (mkAckRequest node_id "success" version (Some "reloaded successfully")))) in
  let! releases := send_for release_list (cookie_empty_request GET "/api/admin/releases" cookie) in
  let! first := unwrap (head releases) in
  do! assert (ro_status first = "success") in
  do! assert (count_success (ro_counts first) = 1) in
  let! nodes := send_for node_list (cookie_empty_request GET "/api/admin/nodes" cookie) in
  let! first := unwrap (head nodes) in
  assert (ov_active_config_version first = Some version).

Definition p0_flow_works_end_to_end_with_token_refresh : Test :=
  do! build_test_app in
  let! cookie := admin_session_cookie in
  let! (node_id, access_token) := p0_node cookie in
  let! site_id := p0_site cookie node_id in
  let! release := p0_release cookie access_token node_id site_id in
  p0_ack cookie access_token node_id release.

(** *** Routes *)

Definition api_route : Value := jobj [
  ("name", VString "api-route"); ("enabled", VBool true); ("match_type", VString "path_prefix");
  ("path", VString "/api"); ("upstream", VString "api"); ("priority", jnat 10);
  ("strip_prefix", VBool false)].
Definition default_route : Value := jobj [
  ("name", VString "default"); ("enabled", VBool true); ("match_type", VString "path_prefix");
  ("path", VString "/"); ("upstream", VString "web"); ("priority", jnat 1000);
  ("strip_prefix", VBool false)].
Definition web_upstream : Value :=
  jobj [("name", VString "web"); ("endpoints", strings ["10.0.3.10:8080"])].
Definition api_upstream : Value :=
  jobj [("name", VString "api"); ("balance_method", VString "weighted_round_robin");
        ("endpoints", VArray [weighted "10.0.3.11:9000" 100])].

Definition site_routes_are_published_in_config_package : Test :=
  do! build_test_app in
  let! cookie := admin_session_cookie in
  let! created := post_node cookie "route-node" "Route Node" "lab" edge_labels in
  let node_id := created_node_id created in
  let! registered :=
    post_register "route-node" created "route-node.local" "203.0.113.10" "10.0.3.10" "0.1.0" in
  let! site := post_site cookie (mkCreateSite (Some "route-demo") "route-demo" "route.example.com"
    80 "http" false (jobj [("upstreams", VArray [web_upstream; api_upstream]);
                           ("routes", VArray [api_route; default_route])])) in
  do! post_bindings cookie (sr_site_id site) [item node_id "primary" 10] in
  let! release := post_release cookie (sr_site_id site) "publish route demo" in
  let! package :=
    get_package (resp_access_token registered) (saved_release_version release) node_id in
  do! assert (as_str (rendered package "routes" 0 "upstream") = Some "api") in
  assert (as_str (rendered package "routes" 1 "path") = Some "/").

Definition create_site_rejects_route_with_unknown_upstream : Test :=
  do! build_test_app in
  let! cookie := admin_session_cookie in
  do! send_refused 400 (cookie_json_request POST "/api/admin/sites" cookie
        (JCreateSiteRequest (mkCreateSite (Some "route-invalid") "route-invalid"
           "route-invalid.example.com" 80 "http" false
           (jobj [("upstreams", VArray [web_upstream]);
                  ("routes", VArray [api_route; default_route])])))) in
  ret tt.

(** *** Deleting and showing nodes *)

Definition delete_node_removes_it_and_revokes_tokens : Test :=
  do! build_test_app in
  let! cookie := admin_session_cookie in
  let! created := post_node cookie "delete-me" "Delete Me" "lab" edge_labels in
  let node_id := created_node_id created in
  let! registered :=
    post_register "delete-me" created "delete-me-host" "1.1.1.2" "10.0.0.20" "0.1.0" in
  let! deleted := send_for deleted_node (cookie_empty_request DELETE (node_uri node_id) cookie) in
  do! assert (node_deleted deleted = true) in
  do! assert (deleted_node_code deleted = "delete-me") in
  let! nodes := send_for node_list (cookie_empty_request GET "/api/admin/nodes" cookie) in
  do! assert (Forall (λ n, ov_node_code n ≠ "delete-me") nodes) in
  do! send_refused 401 (auth_json_request POST "/api/node/heartbeat" (resp_access_token registered)
        (idle_heartbeat node_id)) in
  ret tt.

Definition delete_node_rejects_bound_sites : Test :=
  do! build_test_app in
  let! cookie := admin_session_cookie in
  let! created := post_node cookie "bound-node" "Bound Node" "lab" edge_labels in
  let node_id := created_node_id created in
  let! site := post_site cookie (tls_site "bound-site" "bound-site" "bound.example.com" no_upstreams) in
  do! post_bindings cookie (sr_site_id site) [item node_id "primary" 10] in
  let! refused := send_refused 409 (cookie_empty_request DELETE (node_uri node_id) cookie) in
  let! envelope := unwrap (match resp_body refused with BError e => Some e | _ => None end) in
  assert (contains "bound-site" (body_message (error envelope)) = true).

Definition node_detail_returns_runtime_and_bound_sites : Test :=
  do! build_test_app in
  let! cookie := admin_session_cookie in
  let! created := post_node cookie "detail-node" "Detail Node" "lab"
    (jobj [("role", VString "edge"); ("host", VString "detail-host")]) in
  let node_id := created_node_id created in
  let! registered :=
    post_register "detail-node" created "detail-host" "203.0.113.10" "10.10.0.10" "0.2.0" in
  (* The bits of 10.0, 30.0 and 40.0. *)
  do! send_ok (auth_json_request POST "/api/node/heartbeat" (resp_access_token registered)
        (JNodeHeartbeatRequest (mkHeartbeat node_id "0.5.0" "0.2.0" (Some "rel-node-detail-001") 2
           1092616192 1106247680 1109393408 97))) in
  let! site := post_site cookie
    (tls_site "detail-site" "Detail Site" "detail.example.com" no_upstreams) in
  do! post_bindings cookie (sr_site_id site) [item node_id "primary" 10] in
  let! detail := send_for node_shown (cookie_empty_request GET (node_uri node_id) cookie) in
  do! assert (ov_active_config_version (detail_node detail) = Some "rel-node-detail-001") in
  do! assert (detail_hostname detail = Some "detail-host") in
  do! assert (runtime_site_count detail = 2%Z) in
  do! assert (detail_health_score detail = 97%Z) in
  do! assert (length (detail_sites detail) = 1) in
  let! bound := unwrap (head (detail_sites detail)) in
  do! assert (ns_site_code bound = "detail-site") in
  assert (ns_binding_role bound = "primary").

Definition node_endpoint_requires_bearer_token : Test :=
  do! build_test_app in
  let! node_id := new_v4 in
  do! send_refused 401 (empty_request GET
        ("/api/node/config/releases/latest?node_id=" +:+ uuid_to_string node_id)) in
  ret tt.

Definition site_detail_requires_login_and_works_after_login : Test :=
  do! build_test_app in
  let! cookie := admin_session_cookie in
  let! site := post_site cookie
    (tls_site "console-demo" "console-demo" "console.example.com" no_upstreams) in
  let! detail := send_for site_shown
    (cookie_empty_request GET (site_uri (sr_site_id site) "") cookie) in
  do! assert (sd_site_code detail = "console-demo") in
  assert (sd_protocol detail = "https").

(** *** DNS and certificates *)

Definition post_provider (cookie name : string) : Hub CreateDnsProviderResponse :=
  send_for created_provider (cookie_json_request POST "/api/admin/dns/providers" cookie
    (JCreateDnsProviderRequest (mkCreateProvider name "noop" None (jobj [])))).
Definition post_zone_sync (cookie : string) (provider_id : Uuid) : Hub SyncDnsZonesResponse :=
  send_for synced_zones (cookie_json_request POST "/api/admin/dns/zones/sync" cookie
    (JSyncDnsZonesRequest (mkSync provider_id ["example.com"]))).

Definition dns_and_certificate_order_flow_works : Test :=
  do! build_test_app in
  let! cookie := admin_session_cookie in
  let! site := post_site cookie (tls_site "cert-demo" "cert-demo" "demo.example.com" no_upstreams) in
  let! provider := post_provider cookie "cf-prod" in
  let! synced := post_zone_sync cookie (pr_provider_id provider) in
  let! zone_id := unwrap (head (synced_zone_ids synced)) in
  do! post_zone_sync cookie (pr_provider_id provider) in
  let! order := send_for created_order
    (cookie_json_request POST "/api/admin/certificates/orders" cookie
       (JCreateCertificateOrderRequest
          (mkCreateOrder (Some (sr_site_id site)) None [] "letsencrypt" "dns-01" zone_id))) in
  do! assert (or_order_status order = "pending_dns_challenge") in
  let! record_name := unwrap (as_str (at_key (or_challenge_payload order) "record_name")) in
  do! assert (contains "_acme-challenge" record_name = true) in
  do! send_ok (cookie_empty_request GET "/api/admin/dns/providers" cookie) in
  let! zones := send_for zone_list (cookie_empty_request GET "/api/admin/dns/zones" cookie) in
  do! assert (length zones = 1) in
  let! orders := send_for order_list
    (cookie_empty_request GET "/api/admin/certificates/orders" cookie) in
  let! first := unwrap (head orders) in
  assert (oo_challenge_type first = "dns-01").

Definition renew_site_certificate_auto_selects_zone : Test :=
  do! build_test_app in
  let! cookie := admin_session_cookie in
  let! site := post_site cookie (tls_site "renew-demo" "renew-demo" "renew.example.com" no_upstreams) in
  let! provider := post_provider cookie "renew-cf" in
  let! synced := post_zone_sync cookie (pr_provider_id provider) in
  let! zone_id := unwrap (head (synced_zone_ids synced)) in
  let! renewed := send_for renewed_site
    (cookie_empty_request POST (site_uri (sr_site_id site) "/renew-certificate") cookie) in
  do! assert (rn_domain renewed = "renew.example.com") in
  do! assert (rn_zone_id renewed = zone_id) in
  assert (rn_order_status renewed = "pending_dns_challenge").

(** *** Switching the primary node *)

Definition switch_site_primary_promotes_standby_and_creates_release : Test :=
  do! build_test_app in
  let! cookie := admin_session_cookie in
  let! primary := post_node cookie "switch-primary" "Primary" "lab" edge_labels in
  let primary_node_id := created_node_id primary in
  let! standby := post_node cookie "switch-standby" "Standby" "lab" edge_labels in
  let standby_node_id := created_node_id standby in
  let! site := post_site cookie
    (tls_site "switch-demo" "switch-demo" "switch.example.com" no_upstreams) in
  let site_id := sr_site_id site in
  do! post_bindings cookie site_id
        [item primary_node_id "primary" 100; item standby_node_id "standby" 200] in
  let! switch := send_for switch_answer
    (cookie_json_request POST (site_uri site_id "/switch-primary") cookie
       (JSwitchSitePrimaryRequest (mkSwitch None None None))) in
  do! assert (sp_previous_primary_node_id switch = Some primary_node_id) in
  do! assert (sp_current_primary_node_id switch = standby_node_id) in
  let! detail := send_for site_shown (cookie_empty_request GET (site_uri site_id "") cookie) in
  do! assert ((λ b, (item_node_id b, item_binding_role b)) <$> sd_bindings detail !! 0
              = Some (standby_node_id, "primary")) in
  do! assert ((λ b, (item_node_id b, item_binding_role b)) <$> sd_bindings detail !! 1
              = Some (primary_node_id, "standby")) in
  let! releases := send_for release_list (cookie_empty_request GET "/api/admin/releases" cookie) in
  let! first := unwrap (head releases) in
  assert (ro_release_type first = "switch").

Definition switch_site_primary_accepts_target_and_reports_next_standby : Test :=
  do! build_test_app in
  let! cookie := admin_session_cookie in
  let new_node node_code := post_node cookie node_code node_code "lab" edge_labels in
  let! node0 := new_node "switch-target-primary" in
  let! node1 := new_node "switch-target-a" in
  let! node2 := new_node "switch-target-b" in
  let! site := post_site cookie
    (tls_site "switch-target-demo" "switch-target-demo" "switch-target.example.com" no_upstreams) in
  let site_id := sr_site_id site in
  do! post_bindings cookie site_id
        [item (created_node_id node0) "primary" 10; item (created_node_id node1) "standby" 20;
         item (created_node_id node2) "standby" 30] in
  let! switch := send_for switch_answer
    (cookie_json_request POST (site_uri site_id "/switch-primary") cookie
       (JSwitchSitePrimaryRequest
          (mkSwitch (Some (created_node_id node2)) None (Some "manual failback test")))) in
  do! assert (sp_current_primary_node_id switch = created_node_id node2) in
  assert (sp_next_standby_node_id switch = Some (created_node_id node0)).
End Client.

(** ** Their results *)

Example http_tests_pass :
  forallb passes
    [admin_auth_required_for_console_and_api;
     admin_can_change_password_and_old_password_stops_working;
     p0_flow_works_end_to_end_with_token_refresh;
     site_routes_are_published_in_config_package;
     create_site_rejects_route_with_unknown_upstream;
     delete_node_removes_it_and_revokes_tokens;
     delete_node_rejects_bound_sites;
     node_detail_returns_runtime_and_bound_sites;
     node_endpoint_requires_bearer_token;
     site_detail_requires_login_and_works_after_login;
     dns_and_certificate_order_flow_works;
     renew_site_certificate_auto_selects_zone;
     switch_site_primary_promotes_standby_and_creates_release;
     switch_site_primary_accepts_target_and_reports_next_standby]
  = true.
Proof. vm_compute. reflexivity. Qed.
