(* ===== verification/TestsWorkers.v ===== *)
(** * The tests of the workers, the agent and the compiler

    The repository's unit tests of status-worker, failover-worker, dns-worker, node-agent
    and config-compiler.  A test is the proposition its assertions state of the values it
    draws (ids, the time); the lemmas prove it for all of them, the ids being distinct. *)

From stdpp Require Import prelude strings pretty gmap sorting.
From Stdlib Require Import Ascii.
From S2P Require Import Prelude RustStr Json Extern AppError Domain SiteConfig ConfigCompiler Records HubReleases HubDns HubCerts StatusWorker DnsProvider Failover Io WorkerEnv Sql DnsWorker DnsOrders NodeAgent TestsService.

(** ** status-worker *)

Module StatusTests.

(** The two times of the test, counted from midnight. *)
Definition missed_heartbeat_count_is_floor_division (midnight : DateTime) : Prop :=
  let now := (midnight + hours 12)%Z in
  let last_seen := (midnight + hours 11 + minutes 59 + seconds 1)%Z in
  missed_heartbeats now last_seen 15 = 3%Z.

Definition snapshot (current_status : string) (last_seen : DateTime) : NodeSnapshot :=
  mkSnapshot 0 "node-1" current_status (Some last_seen).

Definition maintenance_nodes_are_not_overwritten (now : DateTime) : Prop :=
  desired_status_for_snapshot (snapshot "maintenance" (now - seconds 300)) now 15 default_policy = None.

Definition recent_heartbeat_keeps_node_online (now : DateTime) : Prop :=
  desired_status_for_snapshot (snapshot "suspect" (now - seconds 10)) now 15 default_policy
  = Some Online.

Definition stale_heartbeat_marks_node_offline (now : DateTime) : Prop :=
  desired_status_for_snapshot (snapshot "online" (now - seconds 120)) now 15 default_policy
  = Some Offline.

(** The silence counts, not the time of day. *)
Lemma missed_since now silence interval :
  missed_heartbeats now (now - silence) interval = missed_heartbeats silence 0 interval.
Proof. unfold missed_heartbeats. by replace (now - (now - silence))%Z with (silence - 0)%Z by lia. Qed.

Lemma status_tests_hold now :
  missed_heartbeat_count_is_floor_division now ∧ maintenance_nodes_are_not_overwritten now
  ∧ recent_heartbeat_keeps_node_online now ∧ stale_heartbeat_marks_node_offline now.
Proof.
  split_and!; [|done|..].
  - unfold missed_heartbeat_count_is_floor_division.
    replace (now + hours 11 + minutes 59 + seconds 1)%Z with (now + hours 12 - seconds 59)%Z
      by (unfold hours, minutes, seconds; lia).
    by rewrite missed_since.
  - unfold recent_heartbeat_keeps_node_online, desired_status_for_snapshot. simpl.
    by rewrite missed_since.
  - unfold stale_heartbeat_marks_node_offline, desired_status_for_snapshot. simpl.
    by rewrite missed_since.
Qed.
End StatusTests.

(** ** failover-worker *)

Module FailoverTests.

Definition prewarm_policy : Value :=
  jobj [("require_standby_online", VBool true); ("require_config_prewarm", VBool true)].

(** The ids the sample draws, and the time. *)
Record Drawn := mkDrawn {
  drawn_policy : Uuid; drawn_scope : Uuid; drawn_primary : Uuid; drawn_standby : Uuid;
  drawn_now : DateTime;
}.

Definition sample_policy (x : Drawn) : PolicySnapshot := {|
  policy_id := drawn_policy x;
  policy_scope_type := "site";
  policy_scope_id := drawn_scope x;
  primary_node_id := drawn_primary x;
  standby_node_id := drawn_standby x;
  trigger_mode := "auto";
  failure_threshold := 3;
  precheck_policy := prewarm_policy;
  primary_node_code := "primary-a";
  standby_node_code := "standby-b";
  primary_status := "suspect";
  standby_status := "online";
  standby_public_ip := Some "203.0.113.10";
  primary_last_seen_at := Some (drawn_now x - seconds 60)%Z;
  primary_active_config_version := Some "rel-site-001";
  standby_active_config_version := Some "rel-site-001";
|}.

(** The fields the tests overwrite. *)
Definition with_fields (precheck : Value) (ip : option string) (seen : option DateTime)
    (version : option string) (p : PolicySnapshot) : PolicySnapshot :=
  mkPolicy (policy_id p) (policy_scope_type p) (policy_scope_id p) (primary_node_id p)
    (standby_node_id p) (trigger_mode p) (failure_threshold p) precheck (primary_node_code p)
    (standby_node_code p) (primary_status p) (standby_status p) ip seen
    (primary_active_config_version p) version.

Definition policy_is_eligible_after_failure_threshold (x : Drawn) (now : DateTime) : Prop :=
  let p := sample_policy x in
  let policy := with_fields (precheck_policy p) (standby_public_ip p) (Some (now - seconds 45)%Z)
                  (standby_active_config_version p) p in
  ∃ reason, evaluate_policy policy now 15 = Some reason
            ∧ contains "missed_heartbeats=3" reason = true.

Definition policy_skips_when_standby_not_prewarmed (x : Drawn) (now : DateTime) : Prop :=
  let p := sample_policy x in
  let policy := with_fields (precheck_policy p) (standby_public_ip p) (primary_last_seen_at p)
                  (Some "rel-site-000") p in
  evaluate_policy policy now 15 = None.

Definition switched_bindings_promote_standby_to_primary `{!Extern} (primary standby : Uuid) : Prop :=
  let bindings := [mkBound primary "primary-a" "offline" "primary" 10;
                   mkBound standby "standby-b" "online" "standby" 100] in
  let switched := build_switched_bindings bindings primary standby in
  current_primary_node_id switched = Some standby
  ∧ fb_priority <$> find_where (λ b, fb_node_id b = standby) switched = Some 10%Z
  ∧ fb_binding_role <$> find_where (λ b, fb_node_id b = primary) switched = Some "standby".

Definition next_policy_standby_prefers_online_standby_by_priority
    (new_primary offline_old_primary first_online later_online : Uuid) : Prop :=
  select_next_policy_standby
    [mkBound new_primary "primary-b" "online" "primary" 10;
     mkBound offline_old_primary "primary-a" "offline" "standby" 20;
     mkBound later_online "standby-c" "online" "standby" 40;
     mkBound first_online "standby-d" "online" "standby" 30] new_primary
  = Some first_online.

Definition next_policy_standby_falls_back_to_offline_standby (new_primary offline_old_primary : Uuid) :
    Prop :=
  select_next_policy_standby
    [mkBound new_primary "primary-b" "online" "primary" 10;
     mkBound offline_old_primary "primary-a" "offline" "standby" 20] new_primary
  = Some offline_old_primary.

(** The worker's [parse_routes] is the hub's. *)
Definition parse_routes_preserves_configured_routes : Prop :=
  let upstreams := [mkUpstream "web" RoundRobin []; mkUpstream "api" RoundRobin []] in
  let route name path upstream priority := jobj [
    ("name", VString name); ("enabled", VBool true); ("match_type", VString "path_prefix");
    ("path", VString path); ("upstream", VString upstream); ("priority", jnat priority)] in
  let routes := parse_routes
    (jobj [("routes", VArray [route "default" "/" "web" 1000%Z; route "api-route" "/api" "api" 10%Z])])
    upstreams in
  upstream <$> routes !! 0 = Some "api" ∧ path <$> routes !! 1 = Some "/".

Definition parse_routes_generates_legacy_default_route : Prop :=
  let routes := parse_routes (jobj []) [mkUpstream "legacy-origin" RoundRobin []] in
  length routes = 1 ∧ path <$> routes !! 0 = Some "/" ∧ upstream <$> routes !! 0 = Some "legacy-origin".

Definition parse_post_switch_operation_defaults_to_standby_target `{!FailoverExtern} (x : Drawn) :
    Prop :=
  ∃ spec, parse_post_switch_operation
            (jobj [("template_name", VString "vip-bind");
                   ("input_params", jobj [("vip", VString "10.10.10.10/32"); ("iface", VString "eth1")])])
            (sample_policy x) = Some spec
    ∧ spec_node_id spec = standby_node_id (sample_policy x)
    ∧ spec_template_name spec = Some "vip-bind"
    ∧ as_str (at_key (spec_input_params spec) "vip") = Some "10.10.10.10/32".

Definition dns_failover_plan_targets_standby_public_ip `{!Extern, !FailoverExtern} (x : Drawn)
    (zone_id provider_id : Uuid) : Prop :=
  let p := sample_policy x in
  let policy := with_fields (jobj [("dns_failover", jobj [("enabled", VBool true)])])
                  (Some "203.0.113.20") (primary_last_seen_at p) (standby_active_config_version p) p in
  ∃ plan, build_dns_failover_plan "www.example.com" policy
            [mkZoneSnapshot zone_id provider_id "noop" None "{}" "example.com" "noop-example.com"
               "active"] = Ok (Some plan)
    ∧ change_zone_name (change plan) = "example.com" ∧ record_type (change plan) = "A"
    ∧ host (change plan) = "www.example.com" ∧ change_value (change plan) = "203.0.113.20"
    ∧ ttl (change plan) = 60%Z.

Lemma policy_tests_hold x now :
  policy_is_eligible_after_failure_threshold x now ∧ policy_skips_when_standby_not_prewarmed x now.
Proof.
  split; [|done]. unfold policy_is_eligible_after_failure_threshold, evaluate_policy. simpl.
  rewrite StatusTests.missed_since. eexists. split; [reflexivity|]. vm_compute. reflexivity.
Qed.

Lemma switched_bindings_test_holds `{!Extern} primary standby :
  primary ≠ standby → switched_bindings_promote_standby_to_primary primary standby.
Proof.
  intros Hne. unfold switched_bindings_promote_standby_to_primary.
  set (bindings := [_; _]).
  assert (build_switched_bindings bindings primary standby
          = [mkBound standby "standby-b" "online" "primary" 10;
             mkBound primary "primary-a" "offline" "standby" 100]) as ->.
  { unfold build_switched_bindings, bindings.
    assert (current_primary_priority bindings primary = 10%Z) as Hcur.
    { unfold current_primary_priority, bindings. by rewrite find_where_cons, decide_True. }
    unfold bindings in Hcur. rewrite Hcur, !find_where_cons, !filter_cons. simpl.
    rewrite !(decide_True (P := primary = primary)), (decide_True (P := standby = standby)),
      (decide_False (P := primary = standby)) by done.
    rewrite !decide_False by naive_solver. reflexivity. }
  rewrite !find_where_cons. simpl.
  rewrite (decide_False (P := standby = primary)), !decide_True by done. done.
Qed.

Lemma next_standby_tests_hold new_primary old first later :
  NoDup [new_primary; old; first; later] →
  next_policy_standby_prefers_online_standby_by_priority new_primary old first later
  ∧ next_policy_standby_falls_back_to_offline_standby new_primary old.
Proof.
  rewrite !NoDup_cons, !not_elem_of_cons. intros ((H1 & H2 & H3 & _) & _).
  unfold next_policy_standby_prefers_online_standby_by_priority,
    next_policy_standby_falls_back_to_offline_standby, select_next_policy_standby, fb_standby.
  split; rewrite !filter_cons; cbn; repeat (case_decide; simplify_eq/=; try naive_solver).
Qed.

Lemma routes_tests_hold :
  parse_routes_preserves_configured_routes ∧ parse_routes_generates_legacy_default_route.
Proof. split; vm_compute; repeat split. Qed.

Lemma post_switch_test_holds `{!FailoverExtern} x :
  parse_post_switch_operation_defaults_to_standby_target x.
Proof. eexists. split_and!; [reflexivity|done..]. Qed.

Lemma dns_plan_test_holds `{!Extern, !FailoverExtern} x zone_id provider_id :
  parse_ipv4 "203.0.113.20" = true →
  dns_failover_plan_targets_standby_public_ip x zone_id provider_id.
Proof.
  intros Hip. unfold dns_failover_plan_targets_standby_public_ip, build_dns_failover_plan.
  cbn. unfold validate_dns_failover_target. cbn.
  replace (trim "203.0.113.20") with "203.0.113.20" by reflexivity.
  rewrite Hip. cbn. eexists. split_and!; [reflexivity|done..].
Qed.
End FailoverTests.

(** ** config-compiler *)

Module CompilerTests.

Definition endpoint (address : string) : UpstreamEndpoint := mkUpstreamEndpoint address 100 true false.

Definition route_demo (id : Uuid) : SiteSpec := {|
  spec_id := id;
  spec_code := "route-demo";
  spec_name := "Route Demo";
  spec_domain := "route.example.com";
  spec_listen_port := 80;
  spec_protocol := Http;
  spec_tls_enabled := false;
  spec_status := Published;
  upstreams := [mkUpstream "web" RoundRobin [endpoint "10.20.3.65:8088"];
                mkUpstream "api" WeightedRoundRobin [endpoint "10.20.3.68:9000"]];
  routes := [mkSiteRoute "api-route" true PathPrefix "/api" "api" 10 false;
             mkSiteRoute "default" true PathPrefix "/" "web" 1000 false];
  cache_rules := [];
|}.

Definition compile_site_bundle_includes_routes `{!Extern} (id release_id : Uuid) (now : DateTime) : Prop :=
  ∃ bundle, compile_site_bundle (route_demo id) [] [] "rel-route-001" release_id now = Ok bundle
    ∧ as_str (at_key (at_index (at_key (rendered_config bundle) "routes") 0) "upstream") = Some "api"
    ∧ as_str (at_key (at_index (at_key (rendered_config bundle) "routes") 1) "path") = Some "/"
    ∧ (Domain.manifest_sites (manifest bundle) !! 0) ≫= (λ s, path <$> routes s !! 0) = Some "/api".

Lemma compiler_test_holds `{!Extern} id release_id now :
  compile_site_bundle_includes_routes id release_id now.
Proof. eexists. split_and!; [reflexivity|done..]. Qed.
End CompilerTests.

(** ** dns-worker *)

Module DnsTests.

(** *** A store in memory *)

Record FakeStore := mkFakeStore {
  pending_jobs : list QueuedDnsChallengeOrder;
  issuance_jobs : list QueuedCertificateIssuanceOrder;
  statuses : gmap Uuid (string * option string);
  payloads : gmap Uuid Value;
  persisted : list PersistIssuedCertificateRequest;
}.
Definition default_store : FakeStore := mkFakeStore [] [] ∅ ∅ [].

(** The store beside the environment. *)
Record Faked (N : Type) := mkFaked { fake_store : FakeStore; fake_env : Env N }.
Arguments mkFaked {_} _ _.
Arguments fake_store {_} _.
Arguments fake_env {_} _.

(** [jobs.drain(0..take)]. *)
Definition drained (limit : Z) : nat := Z.to_nat limit.

Definition FakeStore_orders {N} : CertificateOrderStore N (Faked N) := {|
  beside_store A m := zoom fake_env (λ e f, mkFaked (fake_store f) e) m;
  store_claim_pending limit := λ f,
    let '(mkFakeStore jobs ready st py ps) := fake_store f in
    (Ok (take (drained limit) jobs),
     mkFaked (mkFakeStore (drop (drained limit) jobs) ready st py ps) (fake_env f));
  store_update_challenge_payload order_id payload := λ f,
    let '(mkFakeStore jobs ready st py ps) := fake_store f in
    (Ok tt, mkFaked (mkFakeStore jobs ready st (<[order_id := payload]> py) ps) (fake_env f));
  store_claim_ready limit := λ f,
    let '(mkFakeStore jobs ready st py ps) := fake_store f in
    (Ok (take (drained limit) ready),
     mkFaked (mkFakeStore jobs (drop (drained limit) ready) st py ps) (fake_env f));
  store_update_status order_id status error_message := λ f,
    let '(mkFakeStore jobs ready st py ps) := fake_store f in
    (Ok tt, mkFaked (mkFakeStore jobs ready (<[order_id := (status, error_message)]> st) py ps)
              (fake_env f));
  store_persist_issued request := λ f,
    let '(mkFakeStore jobs ready st py ps) := fake_store f in
    (Ok tt, mkFaked (mkFakeStore jobs ready st py (ps ++ [request])) (fake_env f));
|}.
#[export] Existing Instance FakeStore_orders.

Definition pending_job (order_id site_id certificate_id : Uuid) (credentials : string) (payload : Value) :
    QueuedDnsChallengeOrder := {|
  job_order_id := order_id;
  job_site_id := Some site_id;
  job_certificate_id := certificate_id;
  job_order_type := "issue";
  job_acme_provider := "letsencrypt";
  job_provider_type := "noop";
  job_api_endpoint := None;
  job_credentials := credentials;
  job_zone_name := "example.com";
  job_external_zone_id := "noop-example.com";
  job_challenge_payload := payload;
  job_common_name := "demo.example.com";
  job_sans := ["demo.example.com"];
|}.

Definition issuance_job (order_id site_id certificate_id : Uuid) (credentials : string) :
    QueuedCertificateIssuanceOrder :=
  pending_job order_id site_id certificate_id credentials (jobj [
    ("record_name", VString "_acme-challenge.demo.example.com");
    ("record_type", VString "TXT");
    ("record_value", VString "token-value");
    ("ttl", jnat 60);
    ("challenge_url", VString "https://example.invalid/challenge");
    ("authorization_url", VString "https://example.invalid/authz");
    ("order_url", VString "https://example.invalid/order");
    ("finalize_url", VString "https://example.invalid/finalize")]).

(** *** The passes with the mock client *)

Section Passes.
Context {N : Type} `{EX : !Extern, DX : !DnsExtern, WX : !WorkerExtern, ST : !StatusText, DN : !DnsNet N}.
Implicit Types env : Env N.

Definition run_pending (store : FakeStore) env : Result nat string * FakeStore :=
  let '(r, f) := process_pending_certificate_orders (AC := MockAcmeClient) 10 (mkFaked store env) in
  (r, fake_store f).
Definition run_presented (store : FakeStore) env : Result nat string * FakeStore :=
  let '(r, f) := process_presented_certificate_orders (AC := MockAcmeClient) 10 (mkFaked store env) in
  (r, fake_store f).

Definition process_pending_orders_marks_success_for_noop_provider (oid sid cid : Uuid) env : Prop :=
  let store := mkFakeStore [pending_job oid sid cid "{}" (jobj [])] [] ∅ ∅ [] in
  let '(processed, store) := run_pending store env in
  processed = Ok 1
  ∧ statuses store !! oid = Some ("dns_challenge_presented", None)
  ∧ is_Some (payloads store !! oid ≫= λ payload, get payload "record_name").

Definition process_pending_orders_marks_failure_for_invalid_payload (oid sid cid : Uuid) env : Prop :=
  let store := mkFakeStore [pending_job oid sid cid "{" (jobj [])] [] ∅ ∅ [] in
  let '(processed, store) := run_pending store env in
  processed = Ok 1
  ∧ ∃ error_message, statuses store !! oid = Some ("dns_challenge_failed", error_message)
      ∧ contains "invalid dns provider credentials" (default "" error_message) = true.

Definition process_presented_orders_persists_issued_certificate (oid sid cid : Uuid) env : Prop :=
  let store := mkFakeStore [] [issuance_job oid sid cid "{}"] ∅ ∅ [] in
  let '(processed, store) := run_presented store env in
  processed = Ok 1
  ∧ ∃ request, persisted store = [request]
      ∧ ps_order_id request = oid
      ∧ issuer (material request) = "PingoraHub Mock ACME (letsencrypt)"
      ∧ contains "BEGIN CERTIFICATE" (cert_pem (material request)) = true.

Definition process_presented_orders_marks_failure_for_bad_provider_credentials (oid sid cid : Uuid) env :
    Prop :=
  let store := mkFakeStore [] [issuance_job oid sid cid "{"] ∅ ∅ [] in
  let '(processed, store) := run_presented store env in
  processed = Ok 1
  ∧ ∃ error_message, statuses store !! oid = Some ("issue_failed", error_message)
      ∧ contains "invalid dns provider credentials" (default "" error_message) = true.

End Passes.

(** In the environment of the examples of [DnsOrders]. *)
Example dns_passes_hold :
  let env := mkEnv cloud0 0 0 in
  process_pending_orders_marks_success_for_noop_provider (WX := steady_db) 1 2 3 env
  ∧ process_pending_orders_marks_failure_for_invalid_payload (WX := steady_db) 1 2 3 env
  ∧ process_presented_orders_persists_issued_certificate (WX := steady_db) 1 2 3 env
  ∧ process_presented_orders_marks_failure_for_bad_provider_credentials (WX := steady_db) 1 2 3 env.
Proof.
  intros env. split_and!.
  - vm_compute. split_and!; [done|done|by eexists].
  - vm_compute. split; [done|]. by eexists.
  - vm_compute. split; [done|]. by eexists.
  - vm_compute. split; [done|]. by eexists.
Qed.

(** *** Names and states *)

Definition active_renewal_status_guard_excludes_terminal_failures : Prop :=
  Forall (λ status, is_active_renewal_order_status status = true)
    ["pending_dns_challenge"; "dns_challenge_presenting"; "dns_challenge_presented"; "issuing"]
  ∧ Forall (λ status, is_active_renewal_order_status status = false)
      ["issued"; "dns_challenge_failed"; "issue_failed"; "canceled"].

Definition dns01_record_name_strips_wildcard_label : Prop :=
  dns01_record_name "*.example.com" = "_acme-challenge.example.com"
  ∧ dns01_record_name "api.example.com" = "_acme-challenge.api.example.com".

Lemma dns_tests_hold :
  active_renewal_status_guard_excludes_terminal_failures ∧ dns01_record_name_strips_wildcard_label.
Proof. split; [|done]. by repeat constructor. Qed.
End DnsTests.

(** ** node-agent *)

Module AgentTests.
Section Tests.
Context `{EX : !Extern, AX : !AgentExtern}.
Local Abbreviation AgentIo := (AgentIo (list HubReply)).

Definition check (P : Prop) `{!Decision P} : AgentIo unit := require (bool_decide P) ["assertion failed"].
Definition exists_at (path : string) : AgentIo bool := gets (λ a, bool_decide (is_Some (files a !! path))).
Definition check_exists (path : string) : AgentIo unit :=
  let! found := exists_at path in check (found = true).

(** [Path::is_absolute]. *)
Definition loads_default_agent_config (cargo_pkg_version : string) : Prop :=
  let config := from_env cargo_pkg_version in
  is_empty (hub_base_url config) = false
  ∧ starts_with "/" (registration_path config) = true
  ∧ apply_command config = None
  ∧ allow_noop_apply config = false.

Definition session_refresh_threshold_is_checked : AgentIo unit :=
  let! now := utc_now in
  do! modify (set_session (mkSession "token" (now + minutes 3)%Z)) in
  let! due := should_refresh in
  check (due = true).

Definition reported_current_version_prefers_active_release : Prop :=
  let state := mkLocal None (Some "rel-site-active-001") None 0 None None in
  reported_current_version state "rel-site-target-002" = "rel-site-active-001"
  ∧ reported_current_version default_local "rel-site-target-002" = "rel-site-target-002".

(** [x.repeat(n)]. *)
Definition repeated (n : nat) : string := of_bytes (replicate n "x"%char).
Definition truncate_message_compacts_whitespace_and_limits_length : Prop :=
  truncate_message ("hello   world" +:+ newline +:+ "line") = "hello world line"
  ∧ String.length (truncate_message (repeated 500)) ≤ 403.

(** The configuration of the two last tests, on this directory. *)
Definition test_config (registration_path state_path data_dir : string) (noop : bool) : AgentConfig := {|
  hub_base_url := "http://127.0.0.1:3000";
  registration_path := registration_path;
  state_path := state_path;
  data_dir := data_dir;
  cfg_pingora_version := "test";
  cfg_agent_version := "test";
  heartbeat_interval_seconds := 15;
  apply_command := None;
  allow_noop_apply := noop;
  apply_timeout_seconds := 30;
  healthcheck_url := None;
  healthcheck_expected_status := None;
  healthcheck_timeout_seconds := 10;
  healthcheck_retries := 3;
  healthcheck_interval_seconds := 2;
|}.

Definition test_package (release_id manifest_id : Uuid) : ConfigPackageResponse := {|
  cp_release_id := release_id;
  cp_release_version := "rel-site-202604140001-001";
  cp_manifest := jobj [("release_id", VString (uuid_to_string manifest_id));
                       ("sites", VArray [jobj [("site_code", VString "test01")]])];
  cp_rendered_config := jobj [("site_code", VString "test01"); ("upstreams", VArray [])];
  cp_certificates := VArray [];
  cp_signature := "sig:test";
|}.

(** The directory the test makes is removed at its end, which the model leaves out. *)
Definition persist_and_activate_release_artifacts_work (temp_root : string) (dir_id rid mid : Uuid) :
    AgentIo unit :=
  let temp_dir := path_join temp_root ("pingorahub-node-agent-" +:+ uuid_to_string dir_id) in
  do! create_dir_all temp_dir in
  let config := test_config (path_join temp_dir "registration.json") (path_join temp_dir "state.json")
                  temp_dir false in
  let package := test_package rid mid in
  let! artifacts := persist_release_artifacts config package in
  do! check_exists (package_path artifacts) in
  do! check_exists (manifest_path artifacts) in
  do! check_exists (rendered_config_path artifacts) in
  do! check_exists (certificates_path artifacts) in
  do! activate_release_artifacts config package artifacts in
  let! version := fs_read (current_release_version_path config) in
  do! check (version = cp_release_version package) in
  do! check_exists (current_manifest_path config) in
  do! check_exists (current_rendered_config_path config) in
  check_exists (current_certificates_path config).

Definition apply_release_requires_command_unless_noop_apply_is_allowed : AgentIo unit :=
  let config := test_config "/tmp/registration.json" "/tmp/state.json" "/tmp/node-agent" in
  let! refused := attempt (ensure_apply_mode (config false)) in
  do! check (match refused with
             | Err error => contains "PINGORAHUB_NODE_APPLY_COMMAND is required" (error_to_string error)
             | Ok _ => false
             end = true) in
  ensure_apply_mode (config true).

(** A session with three minutes left is due whatever the clock shows. *)
Lemma refresh_test_holds `{!SteadyClock} a : is_ok (session_refresh_threshold_is_checked a).1 = true.
Proof.
  unfold session_refresh_threshold_is_checked, should_refresh, check, bind, gets, modify, utc_now.
  simpl. rewrite bool_decide_eq_true_2; [done|]. apply Z.leb_le.
  pose proof (clock_mono (now_next a) (S (now_next a))). unfold minutes, seconds in *. lia.
Qed.

Lemma apply_mode_test_holds a :
  (apply_release_requires_command_unless_noop_apply_is_allowed a).1 = Ok tt.
Proof. reflexivity. Qed.
End Tests.

(** The others on a disk that does not fail, with no variable set. *)
Example agent_tests_hold :
  loads_default_agent_config "0.1.0" ∧ reported_current_version_prefers_active_release
  ∧ truncate_message_compacts_whitespace_and_limits_length
  ∧ (persist_and_activate_release_artifacts_work "/tmp" 1 2 3 (demo_agent [])).1 = Ok tt.
Proof.
  split_and!; [by vm_compute..|]. vm_compute. reflexivity.
Qed.
End AgentTests.
